(* ===== verification/_CoqProject ===== *)
-Q . S2P
Prelude.v
Bytes.v
TimeText.v
Encoding.v
Json.v
CanonJson.v
NetAddr.v
IpAllocator.v
Overlay.v
WgServer.v
Firewall.v
Crypto.v
Atreolink.v
AclStore.v
Envelope.v
Handlers.v
DeviceState.v
Proxy.v
Pairing.v
Boot.v
Reachability.v
Relay.v
Pcp.v
Certs.v
Endpoints.v
Netlink.v
Float64.v
RateLimit.v
Probe.v
Signing.v
Upnp.v
Tunnel.v
Notify.v
Files.v
Smtp.v
Config.v
Keys.v
Start.v
Issuer.v
Backend.v
Loop.v
Discovery.v
Console.v
