(* ===== verification/Prelude.v ===== *)
(** * A verification of atreoAGENT

    atreoAGENT (Go, src/) runs on a home server. It terminates a WireGuard network, decides which
    member may reach which app, and is commanded through a coordination service (atreoLINK) that
    it does not trust: what it installs must be signed by an owner whose key was pinned at
    pairing. This library models the program as executable definitions named after the source
    and proves the properties its security and availability rest on. This file holds the shared
    vocabulary: Go's results and errors, strings, times, the tactics and hint databases.

    ** The program and the files that model it

    Text, numbers and the language's library
    - Bytes, TimeText, Encoding, Json, NetAddr, Float64: encoding/binary, RFC 3339, base64, hex,
      UTF-8, encoding/json, net and net/netip, float64, as far as the sources use them.
    - CanonJson: internal/canonjson, the canonical text that signatures cover.

    Trust
    - Crypto, Envelope: internal/crypto/keys.go and verify.go, attestation.go, admittance.go,
      iplease.go, pair_approval.go of internal/tunnel: what is signed, checked and in which order.
    - Signing: all texts the one device key signs, told apart.
    - Pairing: the pairing exchange (internal/atreolink/client.go, the pairing branch of
      agent.Run). Atreolink: the wire records and slugs.

    State of the agent
    - AclStore: internal/acl/store.go (members, apps, indexes, admin pin, generation).
    - IpAllocator, Overlay: tunnel addresses and the address plan of an installation.
    - WgServer, Firewall: the WireGuard interface and the packet filter, with the commands run.
    - Files: paths, atomic writes with the states a crash leaves, the custom-domain row.
    - Keys: the key files. Config: internal/config with the pairing file.

    Behaviour
    - Handlers, DeviceState: the handlers of internal/tunnel (challenge, provision, unpair,
      device:state, heartbeat, custom domain, liveness).
    - Tunnel: the connection of internal/tunnel/client.go and the agent as one state machine: the
      handlers registered by agent.Run with the reaper, liveness and watchdog ticks between them.
    - Boot, Start, Loop: agent.New, the start of agent.Run, its loops and its end; the commands run,
      pair and reroll of cmd/atreoagent.
    - Proxy, Backend: internal/proxy (per-app proxy, forward-auth, Docker names, error pages).
    - Notify, Smtp, RateLimit: notification API, mail gateway and its limiter.
    - Certs, Issuer: certificate registry, renewal, ACME issuing, the gateway's own certificate.
    - Endpoints, Netlink, Probe: the signed address list, its sources, the ping answer.
    - Reachability, Relay, Pcp, Upnp, Discovery: the public path, the relay client, port mappings
      and pinholes, gateway discovery.
    - Console: banner and version text.

    Calls between components are calls between the definitions: [Handlers.Handlers] holds the
    store, the allocator, the WireGuard server and the firewall, the handlers act on it,
    [Tunnel.dispatch] runs the handlers, [Start.New] builds what [Boot.boot] brings up. A struct is
    a Record, a method a function from the state (and its inputs) to the new state and a
    [result]; a mutex-protected method is one step.

    ** What the theorems show

    - Who gets in: every peer and every address, after any sequence of messages and ticks and
      after a restart, comes from a signed admission or from a challenge answered with a member's
      key (Tunnel.peers_justified, session_trust, DeviceState.applied_state_authorised,
      applied_peers_active, Handlers.provision_needs_challenge, Boot.boot_peers_authorised,
      Pairing.pairing_anchored, Signing.signatures_separated).
    - What they reach: the store's answers, the proxy's decision, the packet filter and the pages a
      refused client sees follow the access-control list (AclStore.IsAppAllowed_sound,
      Proxy.proxy_confined, DeviceState.raw_ports_follow_acl, Backend.app_list_hidden).
    - Messages out: notifications and mail go out only for authenticated callers and reach the
      addressee sealed (Notify.notify_guarded, notification_delivered,
      Smtp.smtp_sends_authenticated).
    - Progress and outages: fail-closed liveness, alignment of peers with the list, published
      endpoints, debounced refreshes (DeviceState.checkLiveness_fail_closed,
      Tunnel.session_aligned, Endpoints.endpoints_published, Loop.service_debounced).
    - Refinement: the connection loop against a specification of sessions (Tunnel.serve_refines),
      issuing against the three outcomes the manager knows (Issuer.issue_refines), the whole gateway
      discovery against the list of answers the mapping logic uses (Discovery.discovery_refines).
    - Persistence: identities, keys, plans and allocations survive restarts, failures and kills
      (Start.agent_survives_restart, Start.pair_then_run, the crash states of Files.v and Keys.v).
    - Bounds: limiter and cache freshness with float64 rounding and int64 widths
      (RateLimit.limiter_bounded, Backend.dials_fresh), termination of the reroll within
      three different draws (Overlay.reroll_terminates).
    - Behaviours that differ from what the code or its comments intend are stated as theorems too,
      such as DeviceState.push_outcome, Boot.boot_outcome, Certs.renewal_failure_masked,
      Upnp.upnp_pinhole_not_renewed, Tunnel.fail_closed_admits, Smtp.allowlist_fails_open,
      Start.run_flag_unpaired, or as Examples in the Demo modules.
    Theorems with hypotheses are applied to concrete inputs in the Demo module of their file.

    ** Parameters and inputs

    Code that is not in src/ is a parameter with the laws it documents: the signature scheme, SHA-256,
    HKDF and AES-GCM ([Primitives], [SignLaw]), the sealed box ([SealedBox], [SealLaw]), key
    derivation ([KeyGen]), Unicode case tables ([Unicode], [Fold]), url.Parse, gzip, the YAML
    decoder, certificate and ACME encodings ([CertCodec], [AcmeCodec]). What the environment decides is an
    argument of each step: the clock, random draws, HTTP responses, command outcomes (an oracle on the
    history of commands), file reads and which system call fails, datagrams, gateway and Docker
    answers, rendered templates, the order in which go-smtp calls a session and the message enmime
    parsed. Demo modules instantiate them by concrete functions.

    ** Bounds and modelling choices

    - Integers of Go's int64 and uint16 are Z with the wrap-around written out where the code can
      reach it (Envelope's time skew, Upnp's ports); times are nanoseconds in Z, durations saturate
      as time.Sub does ([time_sub]).
    - Fuel: the JSON parser gets twice the length of its input plus two, since two of its steps
      consume a byte; the nesting limit 10000 is the Go decoder's own. Trimming, address parsing,
      netlink messages, white-space fields and tag stripping get the length of the text, of which every step
      consumes a part. The round trips prove that the fuel given suffices (Json, CanonJson, Netlink).
      Loops over the network (polls, reconnects, dump reads) recurse on the list of what arrives, the
      reroll loop on the stream of random draws, with [None] when that stream ends first.
    - float64 values are rationals with each operation rounded to 53 bits (Float64).
    - The file system is a map from paths to contents; an atomic write is its system calls, and a
      killed process leaves any of their intermediate states. A write that is not atomic in the source
      can be cut at any byte (Keys, Issuer).
    - Goroutines are interleaved at the granularity of their bodies (Tunnel, Relay, Loop); data
      races inside a body are not modelled.
    - Slices are values except in Boot, where the code ranges over rows that a call in the loop
      rewrites, and the shared array is modelled. Netlink assumes a little-endian host.

    ** Not modelled

    HTTP and WebSocket transport (dialling, TLS handshakes, request construction, the reverse proxy's
    copying), logging and printed texts other than banner and version, flag parsing and signals, the
    listing commands status and apps (they print what the modelled loaders return), the file that
    keeps the renewal counters, the netlink subscription that produces triggers, the build
    variants for other platforms. These are calls into libraries and output, without decisions the
    theorems could be about. *)

From Stdlib Require Export Ascii.
From stdpp Require Export base gmap strings list pretty sorting.
From Stdlib Require Export ZArith Lia.

(** ** Notations *)

Declare Scope go_scope.
Delimit Scope go_scope with go.
Open Scope go_scope.

(** Go's [(T, error)] results. *)
Inductive result (E A : Type) : Type :=
| Ok (a : A)
| Err (e : E).
Arguments Ok {E A} _.
Arguments Err {E A} _.

Definition res_bind {E A B} (r : result E A) (k : A → result E B) : result E B :=
  match r with Ok a => k a | Err e => Err e end.

Definition guard_err {E} (b : bool) (e : E) : result E unit :=
  if b then Ok tt else Err e.

Definition of_option {E A} (e : E) (o : option A) : result E A :=
  match o with Some a => Ok a | None => Err e end.

Definition map_err {E E' A} (f : E → E') (r : result E A) : result E' A :=
  match r with Ok a => Ok a | Err e => Err (f e) end.

Definition is_ok {E A} (r : result E A) : bool :=
  match r with Ok _ => true | Err _ => false end.

(** [let! x := c in k]: run [c], return its error early. *)
Notation "'let!' x ':=' c 'in' k" := (res_bind c (λ x, k))
  (at level 10, x pattern, c at level 100, k at level 200) : go_scope.
(** [check! c in k]: an early-return guard. *)
Notation "'check!' c 'in' k" := (res_bind c (λ _, k))
  (at level 10, c at level 100, k at level 200) : go_scope.

(** ** Inversion of monadic code *)

Lemma res_bind_ok {E A B} (r : result E A) (k : A → result E B) b :
  res_bind r k = Ok b ↔ ∃ a, r = Ok a ∧ k a = Ok b.
Proof. destruct r; simpl; naive_solver. Qed.

Lemma guard_err_ok {E} (b : bool) (e : E) u : guard_err b e = Ok u ↔ b = true.
Proof. destruct b, u; simpl; naive_solver. Qed.

Lemma guard_err_err {E} (b : bool) (e e' : E) : guard_err b e = Err e' ↔ b = false ∧ e = e'.
Proof. destruct b; simpl; naive_solver. Qed.

Lemma of_option_ok {E A} (e : E) (o : option A) a : of_option e o = Ok a ↔ o = Some a.
Proof. destruct o; simpl; naive_solver. Qed.

Lemma map_err_ok {E E' A} (f : E → E') (r : result E A) a : map_err f r = Ok a ↔ r = Ok a.
Proof. destruct r; simpl; naive_solver. Qed.

(** Decompose every hypothesis that says a monadic computation succeeded. *)
Ltac res_inv :=
  repeat match goal with
  | H : res_bind _ _ = Ok _ |- _ =>
      let a := fresh "a" in let H1 := fresh "H" in let H2 := fresh "H" in
      apply res_bind_ok in H; destruct H as (a & H1 & H2)
  | H : guard_err _ _ = Ok _ |- _ => apply guard_err_ok in H
  | H : of_option _ _ = Ok _ |- _ => apply of_option_ok in H
  | H : map_err _ _ = Ok _ |- _ => apply map_err_ok in H
  | H : Ok _ = Ok _ |- _ => injection H as H; subst
  | H : Err _ = Ok _ |- _ => discriminate H
  | H : Ok _ = Err _ |- _ => discriminate H
  end.

(** ** Strings

    A Go [string] (and a [[]byte]) is a sequence of bytes: Rocq's [string] of 8-bit
    characters. Comparison of bytes is by [N_of_ascii]. *)

Definition seqb (a b : string) : bool := bool_decide (a = b).
Infix "=s" := seqb (at level 70) : go_scope.
Notation "a <>s b" := (negb (seqb a b)) (at level 70) : go_scope.

Lemma seqb_true a b : (a =s b) = true ↔ a = b.
Proof. apply bool_decide_eq_true. Qed.
Lemma seqb_false a b : (a =s b) = false ↔ a ≠ b.
Proof. apply bool_decide_eq_false. Qed.
Lemma seqb_refl a : (a =s a) = true.
Proof. by apply seqb_true. Qed.

(** Equality tests of the code become equations, and nothing else. *)
Ltac str_inv :=
  repeat match goal with
  | H : (_ =s _) = true |- _ => apply seqb_true in H; subst
  | H : (_ =s _) = false |- _ => apply seqb_false in H
  | H : negb _ = true |- _ => apply negb_true_iff in H
  | H : negb _ = false |- _ => apply negb_false_iff in H
  | H : (_ && _) = true |- _ => apply andb_true_iff in H as [? ?]
  | H : (_ || _) = false |- _ => apply orb_false_iff in H as [? ?]
  end.

Definition bN (c : ascii) : N := Ascii.N_of_ascii c.
Definition Nb (n : N) : ascii := Ascii.ascii_of_N n.

Fixpoint stake (n : nat) (s : string) : string :=
  match n, s with
  | S n', String c s' => String c (stake n' s')
  | _, _ => ""
  end.

Fixpoint sdrop (n : nat) (s : string) : string :=
  match n, s with
  | S n', String _ s' => sdrop n' s'
  | _, _ => s
  end.

#[global] Arguments String.append !_ _ / : simpl nomatch.

Notation slen := String.length.

(** strings.HasPrefix / HasSuffix / TrimPrefix / TrimSuffix. *)
Definition has_prefix (s p : string) : bool := stake (slen p) s =s p.
Definition has_suffix (s p : string) : bool :=
  (slen p <=? slen s)%nat && (sdrop (slen s - slen p) s =s p).
Definition trim_prefix (s p : string) : string :=
  if has_prefix s p then sdrop (slen p) s else s.
Definition trim_suffix (s p : string) : string :=
  if has_suffix s p then stake (slen s - slen p) s else s.

Definition ceqb (a b : ascii) : bool := bool_decide (a = b).

(** strings.IndexByte(s, c) >= 0. *)
Fixpoint contains_byte (c : ascii) (s : string) : bool :=
  match s with
  | "" => false
  | String d s' => ceqb c d || contains_byte c s'
  end.

(** strings.Cut(s, c): the text before the first [c], the text after it. *)
Fixpoint cut_at (c : ascii) (s : string) : option (string * string) :=
  match s with
  | "" => None
  | String d s' =>
      if ceqb c d then Some ("", s')
      else match cut_at c s' with
           | Some (a, b) => Some (String d a, b)
           | None => None
           end
  end.

(** strings.Split(s, c) for a one-byte separator: never empty. *)
Fixpoint split_on (c : ascii) (s : string) : list string :=
  match s with
  | "" => [""]
  | String d s' =>
      if ceqb c d then "" :: split_on c s'
      else match split_on c s' with
           | w :: ws => String d w :: ws
           | [] => [String d ""]
           end
  end.

(** strings.Join. *)
Fixpoint join (sep : string) (l : list string) : string :=
  match l with
  | [] => ""
  | [w] => w
  | w :: ws => w +:+ sep +:+ join sep ws
  end.

(** strconv.Itoa and the verb %d. *)
Definition itoa (z : Z) : string := pretty z.

Lemma itoa_inj a b : itoa a = itoa b → a = b.
Proof. apply pretty_Z_inj. Qed.

(** *** Case and blanks *)

Definition is_ascii_string (s : string) : bool :=
  forallb (λ c, (bN c <? 128)%N) (String.list_ascii_of_string s).

Definition ascii_lower (c : ascii) : ascii :=
  if ((65 <=? bN c) && (bN c <=? 90))%N then Nb (bN c + 32) else c.

Fixpoint smap (f : ascii → ascii) (s : string) : string :=
  match s with "" => "" | String c s' => String (f c) (smap f s') end.

(** The Unicode case tables, which strings.ToLower consults only for a string with a
    byte above 127. *)
Class Unicode := { lower_runes : string → string }.

(** strings.ToLower: the ASCII fast path, else the Unicode mapping. *)
Definition to_lower `{Unicode} (s : string) : string :=
  if is_ascii_string s then smap ascii_lower s else lower_runes s.

(** Bytes of the white-space rune that starts [s] (unicode.IsSpace), 0 if none. *)
Definition space_width (s : string) : nat :=
  match String.list_ascii_of_string s with
  | [] => 0
  | c0 :: r =>
      let n0 := bN c0 in
      let n1 := match r with c1 :: _ => bN c1 | [] => 0%N end in
      let n2 := match r with _ :: c2 :: _ => bN c2 | _ => 0%N end in
      if ((9 <=? n0) && (n0 <=? 13) || (n0 =? 32))%N then 1
      else if ((n0 =? 0xC2) && ((n1 =? 0x85) || (n1 =? 0xA0)))%N then 2
      else if ((n0 =? 0xE1) && (n1 =? 0x9A) && (n2 =? 0x80))%N then 3
      else if ((n0 =? 0xE2) && (n1 =? 0x80) &&
               ((0x80 <=? n2) && (n2 <=? 0x8A) || (n2 =? 0xA8) || (n2 =? 0xA9) || (n2 =? 0xAF)))%N then 3
      else if ((n0 =? 0xE2) && (n1 =? 0x81) && (n2 =? 0x9F))%N then 3
      else if ((n0 =? 0xE3) && (n1 =? 0x80) && (n2 =? 0x80))%N then 3
      else 0
  end.

Fixpoint trim_left_fuel (n : nat) (s : string) : string :=
  match n with
  | O => s
  | S n' => match space_width s with
            | O => s
            | w => trim_left_fuel n' (sdrop w s)
            end
  end.

(** Bytes of the white-space rune that ends [s]. *)
Definition space_width_r (s : string) : nat :=
  let l := slen s in
  if bool_decide (space_width (sdrop (l - 1) s) = 1 ∧ 1 ≤ l) then 1
  else if bool_decide (space_width (sdrop (l - 2) s) = 2 ∧ 2 ≤ l) then 2
  else if bool_decide (space_width (sdrop (l - 3) s) = 3 ∧ 3 ≤ l) then 3
  else 0.

Fixpoint trim_right_fuel (n : nat) (s : string) : string :=
  match n with
  | O => s
  | S n' => match space_width_r s with
            | O => s
            | w => trim_right_fuel n' (stake (slen s - w) s)
            end
  end.

(** strings.TrimSpace: every step removes a byte, so the length is enough fuel. *)
Definition trim_space (s : string) : string :=
  let l := trim_left_fuel (slen s) s in trim_right_fuel (slen l) l.

(** ** Time

    A [time.Time] is its nanoseconds since the Unix epoch; the zero Time is
    0001-01-01T00:00:00Z. A [time.Duration] is an int64 number of nanoseconds. *)

Definition second : Z := 1000000000.
Definition minute : Z := 60 * second.
Definition zero_time : Z := - 62135596800 * second.
Definition is_zero_time (t : Z) : bool := Z.eqb t zero_time.

Definition max_duration : Z := 2 ^ 63 - 1.
Definition min_duration : Z := - 2 ^ 63.

(** t.Sub(u) saturates at the ends of the Duration range. *)
Definition time_sub (t u : Z) : Z := Z.max min_duration (Z.min max_duration (t - u)).

(** t.Unix(). *)
Definition unix (t : Z) : Z := t / second.

(** Linear arithmetic with division and modulo by constants. *)
Ltac div_lia := zify; Z.to_euclidean_division_equations; lia.

(** ** Generic lemmas *)

Lemma stake_app a b : stake (slen a) (a +:+ b) = a.
Proof. induction a; [by destruct b|]. simpl. by f_equal. Qed.

Lemma sdrop_app a b : sdrop (slen a) (a +:+ b) = b.
Proof. by induction a. Qed.

Lemma slen_app a b : slen (a +:+ b) = slen a + slen b.
Proof. induction a; simpl; [done|]. by f_equal. Qed.

Lemma stake_sdrop n s : stake n s +:+ sdrop n s = s.
Proof. revert s; induction n; intros [|c s]; simpl; try done. by f_equal. Qed.

Lemma slen_stake n s : n ≤ slen s → slen (stake n s) = n.
Proof. revert s; induction n; intros [|c s]; simpl; try lia; intros; f_equal; apply IHn; lia. Qed.

Lemma sapp_assoc a b c : (a +:+ b) +:+ c = a +:+ b +:+ c.
Proof. induction a; simpl; [done|]. by f_equal. Qed.

Lemma sapp_nil_r a : a +:+ "" = a.
Proof. induction a; simpl; [done|]. by f_equal. Qed.

Lemma sapp_inv_r a b c : a +:+ c = b +:+ c → a = b.
Proof.
  intros E. assert (Hl : slen a = slen b) by (apply (f_equal slen) in E; rewrite !slen_app in E; lia).
  rewrite <- (stake_app a c), <- (stake_app b c), E, Hl. done.
Qed.

Lemma has_prefix_app p s : has_prefix (p +:+ s) p = true.
Proof. unfold has_prefix. rewrite stake_app. apply seqb_refl. Qed.

Lemma has_prefix_spec s p : has_prefix s p = true ↔ ∃ r, s = p +:+ r.
Proof.
  split.
  - intros H%seqb_true. exists (sdrop (slen p) s). rewrite <- H at 1. by rewrite stake_sdrop.
  - intros [r ->]. apply has_prefix_app.
Qed.

Lemma has_suffix_app p s : has_suffix (s +:+ p) p = true.
Proof.
  unfold has_suffix. rewrite slen_app.
  replace (slen s + slen p - slen p) with (slen s) by lia.
  rewrite sdrop_app, seqb_refl, andb_true_r. apply Nat.leb_le. lia.
Qed.

Lemma has_suffix_spec s p : has_suffix s p = true ↔ ∃ r, s = r +:+ p.
Proof.
  split.
  - intros H. unfold has_suffix in H. str_inv.
    exists (stake (slen s - slen p) s).
    match goal with E : sdrop _ s = p |- _ => rewrite <- E at 2 end.
    by rewrite stake_sdrop.
  - intros [r ->]. apply has_suffix_app.
Qed.

Lemma trim_suffix_app r p : trim_suffix (r +:+ p) p = r.
Proof.
  unfold trim_suffix. rewrite has_suffix_app, slen_app.
  replace (slen r + slen p - slen p) with (slen r) by lia. apply stake_app.
Qed.

Lemma ceqb_true a b : ceqb a b = true ↔ a = b.
Proof. apply bool_decide_eq_true. Qed.

Lemma ceqb_false a b : ceqb a b = false ↔ a ≠ b.
Proof. apply bool_decide_eq_false. Qed.

Lemma bN_lt c : (bN c < 256)%N.
Proof. apply Ascii.N_ascii_bounded. Qed.

Lemma Nb_bN c : Nb (bN c) = c.
Proof. apply Ascii.ascii_N_embedding. Qed.

Lemma bN_Nb n : (n < 256)%N → bN (Nb n) = n.
Proof. apply Ascii.N_ascii_embedding. Qed.

Lemma bN_inj a b : bN a = bN b → a = b.
Proof. intros H. by rewrite <- (Nb_bN a), <- (Nb_bN b), H. Qed.

Lemma Forall_mp {A} (P Q : A → Prop) l : Forall (λ x, P x → Q x) l → Forall P l → Forall Q l.
Proof. induction 1; inversion 1; constructor; auto. Qed.

Lemma contains_app c a b : contains_byte c (a +:+ b) = contains_byte c a || contains_byte c b.
Proof. induction a as [|d a IH]; simpl; [done|]. by rewrite IH, orb_assoc. Qed.

Lemma cut_at_app c a r : contains_byte c a = false → cut_at c (a +:+ String c r) = Some (a, r).
Proof.
  induction a as [|d a IH]; simpl; [intros _; by rewrite (proj2 (ceqb_true c c))|].
  intros [Hd Ha]%orb_false_elim. by rewrite Hd, IH.
Qed.

Lemma cut_at_spec c s : match cut_at c s with
  | Some (a, b) => s = a +:+ String c b ∧ contains_byte c a = false
  | None => contains_byte c s = false
  end.
Proof.
  induction s as [|d s IH]; simpl; [done|]. destruct (ceqb c d) eqn:E; [by apply ceqb_true in E as ->|].
  destruct (cut_at c s) as [[a b]|]; simpl; rewrite ?E; [|done]. destruct IH as [-> IH]. done.
Qed.

Lemma Forall2_comp {A B C} (P : A → B → Prop) (Q : B → C → Prop) (R : A → C → Prop) l m n :
  (∀ x y z, P x y → Q y z → R x z) → Forall2 P l m → Forall2 Q m n → Forall2 R l n.
Proof. intros HR HP. revert n. induction HP; inversion 1; subst; constructor; eauto. Qed.

Lemma time_sub_ge a b d : (0 <= d <= max_duration)%Z → (time_sub a b <? d)%Z = false → (d <= a - b)%Z.
Proof. unfold time_sub, max_duration, min_duration. intros ? H%Z.ltb_ge. lia. Qed.

(** ** Hint databases

    [preserve] collects, component by component, the lemmas that an operation keeps its component's
    invariant; [bytes] normalises lengths and concatenations of strings. *)

Create HintDb preserve.

#[export] Hint Rewrite slen_app sapp_assoc sapp_nil_r : bytes.
