(* ===== verification/Bytes.v ===== *)
(** * encoding/binary: big-endian integers in byte strings

    [put_be n z] is what PutUint16/32/64 write for n = 2, 4, 8; [get_be] what Uint16/32/64
    read from a string of that length. *)

From S2P Require Import Prelude.

Definition zb (z : Z) : ascii := Nb (Z.to_N (z mod 256)).
Definition bz (c : ascii) : Z := Z.of_N (bN c).

Fixpoint put_be (n : nat) (z : Z) : string :=
  match n with
  | O => ""
  | S n' => String (zb (z / 256 ^ Z.of_nat n')) (put_be n' z)
  end.

Fixpoint get_acc (acc : Z) (s : string) : Z :=
  match s with
  | "" => acc
  | String c r => get_acc (acc * 256 + bz c) r
  end.
Definition get_be (s : string) : Z := get_acc 0 s.

(** n zero bytes. *)
Fixpoint zeros (n : nat) : string := match n with O => "" | S n' => String (Nb 0) (zeros n') end.

Lemma bz_range c : (0 <= bz c < 256)%Z.
Proof. unfold bz. pose proof (bN_lt c). lia. Qed.

Lemma bz_zb z : bz (zb z) = (z mod 256)%Z.
Proof. unfold bz, zb. pose proof (Z.mod_pos_bound z 256 ltac:(lia)). rewrite bN_Nb by lia. lia. Qed.

Lemma zb_bz c : zb (bz c) = c.
Proof. unfold zb, bz. pose proof (bN_lt c). rewrite Z.mod_small by lia. rewrite N2Z.id. apply Nb_bN. Qed.

Lemma slen_put n z : slen (put_be n z) = n.
Proof. induction n; simpl; congruence. Qed.

Lemma slen_zeros n : slen (zeros n) = n.
Proof. induction n; simpl; congruence. Qed.

Lemma get_acc_put n z acc : (0 <= z)%Z → get_acc acc (put_be n z) = (acc * 256 ^ Z.of_nat n + z mod 256 ^ Z.of_nat n)%Z.
Proof.
  intros Hz. revert acc. induction n as [|n IH]; intros acc; [simpl; rewrite Z.mod_1_r; lia|].
  cbn [put_be get_acc]. rewrite IH, bz_zb, Nat2Z.inj_succ, Z.pow_succ_r by lia.
  set (p := (256 ^ Z.of_nat n)%Z). assert (0 < p)%Z by (subst p; apply Z.pow_pos_nonneg; lia).
  rewrite (Z.mul_comm 256 p), Z.rem_mul_r by lia. ring.
Qed.

(** Reading back what was written. *)
Lemma get_put n z : (0 <= z < 256 ^ Z.of_nat n)%Z → get_be (put_be n z) = z.
Proof. intros Hz. unfold get_be. rewrite get_acc_put by lia. rewrite Z.mod_small; lia. Qed.

Lemma get_acc_range acc s : (0 <= acc)%Z → (acc * 256 ^ Z.of_nat (slen s) <= get_acc acc s < (acc + 1) * 256 ^ Z.of_nat (slen s))%Z.
Proof.
  revert acc. induction s as [|c s IH]; intros acc Ha; simpl get_acc; [simpl; lia|].
  pose proof (bz_range c). specialize (IH (acc * 256 + bz c)%Z ltac:(lia)).
  change (slen (String c s)) with (S (slen s)). rewrite Nat2Z.inj_succ, Z.pow_succ_r by lia.
  set (p := (256 ^ Z.of_nat (slen s))%Z) in *. assert (0 < p)%Z by (subst p; apply Z.pow_pos_nonneg; lia). nia.
Qed.

Lemma get_be_range s : (0 <= get_be s < 256 ^ Z.of_nat (slen s))%Z.
Proof. unfold get_be. pose proof (get_acc_range 0 s). lia. Qed.
