(* ===== verification/TimeText.v ===== *)
(** * Go's time package: RFC 3339 text

    [format_rfc3339] is t.UTC().Format(time.RFC3339), [parse_rfc3339] is
    time.Parse(time.RFC3339, s) with the leniencies of Go's layout parser (a one-digit
    hour, a comma before the fraction, zone offsets up to 24:60). Times are nanoseconds
    since the Unix epoch. *)

From S2P Require Import Prelude.

Module Civil.
Local Open Scope Z_scope.

(** Days since 1970-01-01 of a proleptic Gregorian date; a year starts in March so that the
    leap day is its last. *)
Definition days_from_civil (y m d : Z) : Z :=
  let y' := if m <=? 2 then y - 1 else y in
  let era := y' / 400 in
  let yoe := y' mod 400 in
  let doy := (153 * ((m + 9) mod 12) + 2) / 5 + d - 1 in
  let doe := yoe * 365 + yoe / 4 - yoe / 100 + doy in
  era * 146097 + doe - 719468.

Definition civil_from_days (z0 : Z) : Z * Z * Z :=
  let z := z0 + 719468 in
  let era := z / 146097 in
  let doe := z mod 146097 in
  let yoe := (doe - doe / 1460 + doe / 36524 - doe / 146096) / 365 in
  let doy := doe - (365 * yoe + yoe / 4 - yoe / 100) in
  let mp := (5 * doy + 2) / 153 in
  let d := doy - (153 * mp + 2) / 5 + 1 in
  let m := if mp <? 10 then mp + 3 else mp - 9 in
  let y := yoe + era * 400 in
  ((if m <=? 2 then y + 1 else y), m, d).

Definition is_leap (y : Z) : bool := (y mod 4 =? 0) && (negb (y mod 100 =? 0) || (y mod 400 =? 0)).

Definition days_in (m y : Z) : Z :=
  if m =? 2 then (if is_leap y then 29 else 28)
  else if (m =? 4) || (m =? 6) || (m =? 9) || (m =? 11) then 30 else 31.
End Civil.

Module Rfc3339.
Local Open Scope Z_scope.

(** appendInt with a width. *)
Definition digit (z : Z) : ascii := Nb (Z.to_N (z mod 10) + 48).
Definition pad2 (z : Z) : string := String (digit (z / 10)) (String (digit z) "").
Definition pad4 (z : Z) : string := pad2 (z / 100) +:+ pad2 z.
Definition year_text (y : Z) : string :=
  if (0 <=? y) && (y <=? 9999) then pad4 y
  else if y <? 0 then "-" +:+ (if - y <=? 9999 then pad4 (- y) else itoa (- y)) else itoa y.

Definition format (t : Z) : string :=
  let sec := t / second in
  let '(y, m, d) := Civil.civil_from_days (sec / 86400) in
  let r := sec mod 86400 in
  year_text y +:+ "-" +:+ pad2 m +:+ "-" +:+ pad2 d +:+ "T" +:+
  pad2 (r / 3600) +:+ ":" +:+ pad2 (r / 60 mod 60) +:+ ":" +:+ pad2 (r mod 60) +:+ "Z".

Definition digit_val (c : ascii) : option Z :=
  if ((48 <=? bN c) && (bN c <=? 57))%N then Some (Z.of_N (bN c) - 48) else None.

Definition lit (c : ascii) (s : string) : option string :=
  match s with String d r => if ceqb c d then Some r else None | "" => None end.

(** getnum(value, fixed). *)
Definition num2 (s : string) : option (Z * string) :=
  match s with
  | String a (String b r) => x ← digit_val a; y ← digit_val b; Some (10 * x + y, r)
  | _ => None
  end.
Definition num12 (s : string) : option (Z * string) :=
  match s with
  | String a (String b r) =>
      x ← digit_val a;
      match digit_val b with Some y => Some (10 * x + y, r) | None => Some (x, String b r) end
  | String a "" => x ← digit_val a; Some (x, "")
  | "" => None
  end.
Definition num4 (s : string) : option (Z * string) :=
  '(h, r) ← num2 s; '(l, r') ← num2 r; Some (100 * h + l, r').

(** A run of digits; the first nine count. *)
Fixpoint fraction (w : Z) (s : string) : Z * string :=
  match s with
  | String c r => match digit_val c with
                  | Some x => let '(n, k) := fraction (w / 10) r in (x * w + n, k)
                  | None => (0, s)
                  end
  | "" => (0, "")
  end.
Definition nanos (s : string) : Z * string :=
  match s with
  | String c (String d r) =>
      if (ceqb c "." || ceqb c ",") && bool_decide (is_Some (digit_val d))
      then fraction 100000000 (String d r) else (0, s)
  | _ => (0, s)
  end.

(** The zone: Z or a signed hh:mm, in seconds east. *)
Definition zone (s : string) : option Z :=
  match s with
  | String c r =>
      if ceqb c "Z" then (if r =s "" then Some 0 else None)
      else '(h, r1) ← num2 r; r2 ← lit ":" r1; '(m, r3) ← num2 r2;
           if (24 <? h) || (60 <? m) || (r3 <>s "") then None
           else if ceqb c "+" then Some ((h * 60 + m) * 60)
           else if ceqb c "-" then Some (- ((h * 60 + m) * 60)) else None
  | "" => None
  end.

Definition parse (s : string) : option Z :=
  '(y, s) ← num4 s; s ← lit "-" s; '(mo, s) ← num2 s; s ← lit "-" s; '(d, s) ← num2 s;
  s ← lit "T" s; '(h, s) ← num12 s; s ← lit ":" s; '(mi, s) ← num2 s; s ← lit ":" s;
  '(sec, s) ← num2 s;
  let '(ns, s) := nanos s in
  off ← zone s;
  if (mo <? 1) || (12 <? mo) || (23 <? h) || (59 <? mi) || (59 <? sec) || (d <? 1) || (Civil.days_in mo y <? d)
  then None
  else Some ((Civil.days_from_civil y mo d * 86400 + h * 3600 + mi * 60 + sec - off) * second + ns).
End Rfc3339.

Definition format_rfc3339 : Z → string := Rfc3339.format.
Definition parse_rfc3339 : string → option Z := Rfc3339.parse.

(** ** Formatting and parsing again keeps the second *)

Module Rfc3339Facts.
Import Rfc3339.
Local Open Scope Z_scope.

Lemma digit_val_digit z : digit_val (digit z) = Some (z mod 10).
Proof.
  unfold digit_val, digit. pose proof (Z.mod_pos_bound z 10 ltac:(lia)).
  rewrite bN_Nb by lia. replace ((48 <=? Z.to_N (z mod 10) + 48) && (Z.to_N (z mod 10) + 48 <=? 57))%N with true.
  - f_equal. lia.
  - symmetry. apply andb_true_intro. split; apply N.leb_le; lia.
Qed.

Lemma num2_pad z r : 0 <= z < 100 → num2 (pad2 z +:+ r) = Some (z, r).
Proof.
  intros H. unfold pad2. simpl. rewrite !digit_val_digit. simpl. f_equal. f_equal. div_lia.
Qed.

Lemma num12_pad z r : 0 <= z < 100 → num12 (pad2 z +:+ r) = Some (z, r).
Proof.
  intros H. unfold pad2. simpl. rewrite !digit_val_digit. simpl. f_equal. f_equal. div_lia.
Qed.

Lemma pad2_mod z : pad2 (z mod 100) = pad2 z.
Proof.
  unfold pad2, digit. replace (z mod 100 / 10 mod 10) with (z / 10 mod 10) by div_lia.
  by replace (z mod 100 mod 10) with (z mod 10) by div_lia.
Qed.

#[local] Opaque pad2 num2 num12.

Lemma num4_pad z r : 0 <= z < 10000 → num4 (pad4 z +:+ r) = Some (z, r).
Proof.
  intros H. unfold num4, pad4. rewrite sapp_assoc, num2_pad by div_lia. simpl.
  rewrite <- (pad2_mod z), num2_pad by div_lia. simpl. f_equal. f_equal. div_lia.
Qed.

(** The year of an era that a day falls in, and the day's place in that year. *)
Lemma year_of_era doe : 0 <= doe < 146097 →
  let yoe := (doe - doe / 1460 + doe / 36524 - doe / 146096) / 365 in
  0 <= yoe < 400 ∧ 0 <= doe - (365 * yoe + yoe / 4 - yoe / 100) <= 365 ∧
  (doe - (365 * yoe + yoe / 4 - yoe / 100) = 365 →
   (yoe + 1) mod 4 = 0 ∧ ((yoe + 1) mod 100 = 0 → (yoe + 1) mod 400 = 0)).
Proof. intros H. cbn zeta. split; [div_lia|]. split; [div_lia|]. intros ?. split; [div_lia|]. intros ?. div_lia. Qed.

Lemma month_of_year doy mp : 0 <= doy <= 365 → mp = (5 * doy + 2) / 153 →
  0 <= mp <= 11 ∧ 1 <= doy - (153 * mp + 2) / 5 + 1 <=
    (if mp =? 11 then (if doy =? 365 then 29 else 28) else if (mp =? 1) || (mp =? 3) || (mp =? 6) || (mp =? 8) then 30 else 31).
Proof.
  intros H Hm. assert (0 <= mp <= 11) by div_lia. split; [done|].
  assert (mp = 0 ∨ mp = 1 ∨ mp = 2 ∨ mp = 3 ∨ mp = 4 ∨ mp = 5 ∨ mp = 6 ∨ mp = 7 ∨ mp = 8 ∨ mp = 9 ∨ mp = 10 ∨ mp = 11)
    as Hc by lia.
  repeat destruct Hc as [Hc|Hc]; rewrite Hc in *; simpl; try div_lia. destruct (Z.eqb_spec doy 365); div_lia.
Qed.

Lemma civil_inverse z y m d : Civil.civil_from_days z = (y, m, d) →
  Civil.days_from_civil y m d = z ∧ 1 <= m <= 12 ∧ 1 <= d <= Civil.days_in m y.
Proof.
  unfold Civil.civil_from_days. set (era := (z + 719468) / 146097). set (doe := (z + 719468) mod 146097).
  assert (Hz : z = era * 146097 + doe - 719468) by (unfold era, doe; div_lia).
  pose proof (year_of_era doe ltac:(unfold doe; div_lia)) as (Hy & Hd & Hl). clearbody era doe. cbn zeta in *.
  set (yoe := (doe - doe / 1460 + doe / 36524 - doe / 146096) / 365) in *. clearbody yoe.
  set (doy := doe - (365 * yoe + yoe / 4 - yoe / 100)) in *.
  pose proof (month_of_year doy _ Hd eq_refl) as [Hm Hday]. set (mp := (5 * doy + 2) / 153) in *.
  clearbody mp. intros [= Ey Em Ed]. rewrite Ed in Hday.
  assert (Hm9 : (m + 9) mod 12 = mp) by (destruct (Z.ltb_spec mp 10); div_lia).
  assert (Hm2 : (m <=? 2) = negb (mp <? 10)) by (destruct (Z.ltb_spec mp 10), (Z.leb_spec m 2); simpl; lia).
  rewrite Em, Hm2 in Ey. split; [|split].
  - unfold Civil.days_from_civil. rewrite Hm2, Hm9.
    replace (if negb (mp <? 10) then y - 1 else y) with (yoe + era * 400) by (destruct (mp <? 10); simpl in *; lia).
    rewrite Z.div_add, Z.mod_add, Z.div_small, Z.mod_small by lia. unfold doy in Ed. lia.
  - destruct (Z.ltb_spec mp 10); lia.
  - split; [lia|]. unfold Civil.days_in, Civil.is_leap.
    destruct (Z.eqb_spec mp 11) as [->|].
    + simpl in Ey, Em. subst m y. simpl. destruct (Z.eqb_spec doy 365) as [Hdoy|]; [|repeat case_match; lia].
      destruct (Hl Hdoy) as [L4 L400].
      replace ((yoe + era * 400 + 1) mod 4) with 0 by div_lia.
      replace ((yoe + era * 400 + 1) mod 100) with ((yoe + 1) mod 100) by div_lia.
      replace ((yoe + era * 400 + 1) mod 400) with ((yoe + 1) mod 400) by div_lia.
      destruct (Z.eqb_spec ((yoe + 1) mod 100) 0) as [E|]; simpl; [rewrite (L400 E); simpl|]; lia.
    + assert (m = if mp <? 10 then mp + 3 else mp - 9) as -> by done. destruct (Z.ltb_spec mp 10);
      repeat match goal with |- context [?a =? ?b] => destruct (Z.eqb_spec a b)
             | H : context [?a =? ?b] |- _ => destruct (Z.eqb_spec a b) end; simpl in *; lia.
Qed.

Lemma parse_format t : (let '(y, _, _) := Civil.civil_from_days (t / second / 86400) in 0 <= y <= 9999) →
  parse (format t) = Some (t / second * second).
Proof.
  unfold format. set (sec := t / second). destruct (Civil.civil_from_days (sec / 86400)) as [[y m] d] eqn:E.
  intros Hy. apply civil_inverse in E as (Hd & Hm & Hdd).
  assert (d <= 31) by (revert Hdd; unfold Civil.days_in; repeat case_match; lia).
  set (r := sec mod 86400). assert (Hr : 0 <= r < 86400) by (apply Z.mod_pos_bound; lia).
  unfold year_text. replace ((0 <=? y) && (y <=? 9999)) with true
    by (symmetry; apply andb_true_intro; split; apply Z.leb_le; lia).
  unfold parse. rewrite num4_pad by lia. simpl. rewrite num2_pad by lia. simpl. rewrite num2_pad by lia. simpl.
  rewrite num12_pad by div_lia. simpl. rewrite num2_pad by div_lia. simpl. rewrite num2_pad by div_lia. simpl.
  replace ((m <? 1) || (12 <? m) || (23 <? r / 3600) || (59 <? r / 60 mod 60) || (59 <? r mod 60) || (d <? 1) ||
    (Civil.days_in m y <? d)) with false.
  - f_equal. rewrite Hd. assert (sec = sec / 86400 * 86400 + r) by (unfold r; div_lia).
    assert (r = r / 3600 * 3600 + r / 60 mod 60 * 60 + r mod 60) by div_lia. lia.
  - symmetry. rewrite !orb_false_iff, !Z.ltb_ge. repeat split; div_lia || lia.
Qed.
End Rfc3339Facts.
