(* ===== verification/Encoding.v ===== *)
(** * Text encodings of Go's standard library

    [Base64]: [base64.StdEncoding] as the agent uses it (padded, alphabet of RFC 4648
    section 4, CR and LF ignored on decoding, trailing bits not checked).
    [Hex]: [hex.EncodeToString] and [hex.DecodeString].
    [Utf8]: a string as its sequence of runes ([utf8.DecodeRune]) and [utf8.AppendRune].

    None of this is the program's own code; the components need its exact behaviour
    (a decoder that skips line breaks maps several texts to one key, for instance). *)

From S2P Require Import Prelude.

Module Base64.

(** The symbol for a 6-bit value. *)
Definition sym (n : N) : ascii :=
  if (n <? 26)%N then Nb (65 + n)
  else if (n <? 52)%N then Nb (71 + n)
  else if (n <? 62)%N then Nb (n - 4)
  else if (n =? 62)%N then "+"%char else "/"%char.

(** The 6-bit value of a symbol. *)
Definition val (c : ascii) : option N :=
  let n := bN c in
  if ((65 <=? n) && (n <=? 90))%N then Some (n - 65)%N
  else if ((97 <=? n) && (n <=? 122))%N then Some (n - 71)%N
  else if ((48 <=? n) && (n <=? 57))%N then Some (n + 4)%N
  else if (n =? 43)%N then Some 62%N
  else if (n =? 47)%N then Some 63%N
  else None.

(** EncodeToString. *)
Fixpoint encode (s : string) : string :=
  match s with
  | String a (String b (String c r)) =>
      let v := (bN a * 65536 + bN b * 256 + bN c)%N in
      String (sym (v / 262144)) (String (sym (v / 4096 mod 64))
        (String (sym (v / 64 mod 64)) (String (sym (v mod 64)) (encode r))))
  | String a (String b "") =>
      let v := (bN a * 65536 + bN b * 256)%N in
      String (sym (v / 262144)) (String (sym (v / 4096 mod 64))
        (String (sym (v / 64 mod 64)) "="))
  | String a "" =>
      let v := (bN a * 65536)%N in
      String (sym (v / 262144)) (String (sym (v / 4096 mod 64)) "==")
  | "" => ""
  end.

Definition is_newline (c : ascii) : bool := ((bN c =? 10) || (bN c =? 13))%N.

Fixpoint strip_newlines (s : string) : string :=
  match s with
  | "" => ""
  | String c r => if is_newline c then strip_newlines r else String c (strip_newlines r)
  end.

(** Four symbols at a time; padding only in the last group. *)
Fixpoint decode_quads (s : string) : option string :=
  match s with
  | "" => Some ""
  | String c0 (String c1 (String c2 (String c3 r))) =>
      x0 ← val c0; x1 ← val c1;
      let v01 := (x0 * 262144 + x1 * 4096)%N in
      if ceqb c2 "="%char then
        if ceqb c3 "="%char && (r =s "")
        then Some (String (Nb (v01 / 65536)) "") else None
      else
        x2 ← val c2;
        let v02 := (v01 + x2 * 64)%N in
        if ceqb c3 "="%char then
          if r =s ""
          then Some (String (Nb (v02 / 65536)) (String (Nb (v02 / 256 mod 256)) ""))
          else None
        else
          x3 ← val c3;
          let v := (v02 + x3)%N in
          rest ← decode_quads r;
          Some (String (Nb (v / 65536)) (String (Nb (v / 256 mod 256))
                 (String (Nb (v mod 256)) rest)))
  | _ => None
  end.

(** DecodeString. *)
Definition decode (s : string) : option string := decode_quads (strip_newlines s).

Lemma sym_all (P : N → bool) :
  forallb (λ n, P (N.of_nat n)) (seq 0 64) = true → ∀ n, (n < 64)%N → P n = true.
Proof.
  intros H n Hn. rewrite forallb_forall in H. rewrite <- (N2Nat.id n).
  apply H, in_seq. lia.
Qed.

Lemma val_sym n : (n < 64)%N → val (sym n) = Some n.
Proof.
  intros Hn. apply (bool_decide_eq_true_1 (val (sym n) = Some n)).
  revert n Hn. apply sym_all. by vm_compute.
Qed.

Lemma sym_not_pad n : (n < 64)%N → ceqb (sym n) "="%char = false.
Proof.
  intros Hn. apply negb_true_iff. revert n Hn.
  apply (sym_all (λ n, negb (ceqb (sym n) "="%char))). by vm_compute.
Qed.

Lemma sym_not_newline n : (n < 64)%N → is_newline (sym n) = false.
Proof.
  intros Hn. apply negb_true_iff. revert n Hn.
  apply (sym_all (λ n, negb (is_newline (sym n)))). by vm_compute.
Qed.

(** Induction three bytes at a time, as [encode] recurses. *)
Lemma string_ind3 (P : string → Prop) :
  P "" → (∀ a, P (String a "")) → (∀ a b, P (String a (String b ""))) →
  (∀ a b c r, P r → P (String a (String b (String c r)))) → ∀ s, P s.
Proof.
  intros H0 H1 H2 H3. fix IH 1. intros [|a [|b [|c r]]];
    [exact H0 | exact (H1 a) | exact (H2 a b) | exact (H3 a b c r (IH r))].
Qed.

Ltac bounds := repeat match goal with |- context [bN ?c] =>
  lazymatch goal with H : (bN c < 256)%N |- _ => fail | _ => pose proof (bN_lt c) end end.

Ltac b64_arith := bounds; first
  [ apply N.Div0.div_lt_upper_bound; lia | apply N.mod_lt; lia ].

Lemma strip_encode s : strip_newlines (encode s) = encode s.
Proof.
  induction s using string_ind3; simpl;
    rewrite ?sym_not_newline by b64_arith; rewrite ?IHs; done.
Qed.

Lemma byte_back n c : n = bN c → Nb n = c.
Proof. intros ->. apply Nb_bN. Qed.

Lemma regroup v :
  ((v / 262144 * 262144 + (v / 4096) mod 64 * 4096 = v / 4096 * 4096) ∧
   (v / 4096 * 4096 + (v / 64) mod 64 * 64 = v / 64 * 64) ∧
   (v / 64 * 64 + v mod 64 = v))%N.
Proof. div_lia. Qed.

Lemma decode_encode_quads s : decode_quads (encode s) = Some s.
Proof.
  induction s using string_ind3; simpl; [done| | |];
    rewrite ?val_sym by b64_arith; simpl;
    rewrite ?sym_not_pad by b64_arith; rewrite ?val_sym by b64_arith; simpl;
    rewrite ?IHs; simpl; rewrite ?(proj1 (regroup _)), ?(proj1 (proj2 (regroup _))), ?(proj2 (proj2 (regroup _)));
    repeat f_equal; apply byte_back; bounds; div_lia.
Qed.

(** Decoding what was encoded gives the bytes back. *)
Lemma decode_encode s : decode (encode s) = Some s.
Proof. unfold decode. by rewrite strip_encode, decode_encode_quads. Qed.

#[export] Instance encode_inj : Inj (=) (=) encode.
Proof. intros a b H. assert (Some a = Some b); [|congruence]. by rewrite <- !decode_encode, H. Qed.

Lemma encode_nonempty s : s ≠ "" → encode s ≠ "".
Proof. by destruct s as [|a [|b [|c r]]]. Qed.

(** Decoding is not injective: a line break inside the text changes nothing. *)
Example decode_not_inj :
  decode "AAEC" = decode (String "A" (String (Nb 10) "AEC")) ∧ decode "AAEC" ≠ None.
Proof. by vm_compute. Qed.

End Base64.

Module Hex.

Definition digit (n : N) : ascii := if (n <? 10)%N then Nb (48 + n) else Nb (87 + n).

Definition val (c : ascii) : option N :=
  let n := bN c in
  if ((48 <=? n) && (n <=? 57))%N then Some (n - 48)%N
  else if ((97 <=? n) && (n <=? 102))%N then Some (n - 87)%N
  else if ((65 <=? n) && (n <=? 70))%N then Some (n - 55)%N
  else None.

(** hex.EncodeToString (lower case). *)
Fixpoint encode (s : string) : string :=
  match s with
  | "" => ""
  | String c r => String (digit (bN c / 16)) (String (digit (bN c mod 16)) (encode r))
  end.

(** hex.DecodeString: pairs of digits of either case. *)
Fixpoint decode (s : string) : option string :=
  match s with
  | "" => Some ""
  | String a (String b r) =>
      x ← val a; y ← val b; rest ← decode r;
      Some (String (Nb (x * 16 + y)) rest)
  | _ => None
  end.

Lemma val_digit n : (n < 16)%N → val (digit n) = Some n.
Proof.
  intros Hn. apply (bool_decide_eq_true_1 (val (digit n) = Some n)).
  assert (H : forallb (λ k, bool_decide (val (digit (N.of_nat k)) = Some (N.of_nat k))) (seq 0 16) = true)
    by by vm_compute.
  rewrite forallb_forall in H. rewrite <- (N2Nat.id n). apply H, in_seq. lia.
Qed.

Lemma unhex_hex s : decode (encode s) = Some s.
Proof.
  induction s as [|c r IH]; [done|]. simpl. pose proof (bN_lt c).
  rewrite !val_digit by (first [apply N.Div0.div_lt_upper_bound | apply N.mod_lt]; lia).
  simpl. rewrite IH. simpl. repeat f_equal. apply Base64.byte_back. div_lia.
Qed.

Lemma length_encode s : slen (encode s) = 2 * slen s.
Proof. induction s; simpl; lia. Qed.

End Hex.

Module Utf8.

Definition cont (c : ascii) : bool := ((0x80 <=? bN c) && (bN c <=? 0xBF))%N.
Definition inrange (lo hi : N) (c : ascii) : bool := ((lo <=? bN c) && (bN c <=? hi))%N.

(** The byte sequences utf8.DecodeRune accepts. *)
Definition two (a b : ascii) : bool := inrange 0xC2 0xDF a && cont b.
Definition three (a b c : ascii) : bool :=
  cont c && (inrange 0xE0 0xE0 a && inrange 0xA0 0xBF b
             || (inrange 0xE1 0xEC a || inrange 0xEE 0xEF a) && cont b
             || inrange 0xED 0xED a && inrange 0x80 0x9F b).
Definition four (a b c d : ascii) : bool :=
  cont c && cont d && (inrange 0xF0 0xF0 a && inrange 0x90 0xBF b
                       || inrange 0xF1 0xF3 a && cont b
                       || inrange 0xF4 0xF4 a && inrange 0x80 0x8F b).

Definition rune2 (a b : ascii) : N := ((bN a - 0xC0) * 64 + (bN b - 0x80))%N.
Definition rune3 (a b c : ascii) : N :=
  ((bN a - 0xE0) * 4096 + (bN b - 0x80) * 64 + (bN c - 0x80))%N.
Definition rune4 (a b c d : ascii) : N :=
  ((bN a - 0xF0) * 262144 + (bN b - 0x80) * 4096 + (bN c - 0x80) * 64 + (bN d - 0x80))%N.

(** The runes of a string with the bytes of each; [None] is a byte that starts no valid
    sequence, which DecodeRune reports as (RuneError, 1). *)
Fixpoint runes (s : string) : list (option N * string) :=
  match s with
  | "" => []
  | String c0 r0 =>
      if (bN c0 <? 128)%N then (Some (bN c0), String c0 "") :: runes r0
      else match r0 with
           | "" => (None, String c0 "") :: runes r0
           | String c1 r1 =>
               if two c0 c1 then (Some (rune2 c0 c1), String c0 (String c1 "")) :: runes r1
               else match r1 with
                    | "" => (None, String c0 "") :: runes r0
                    | String c2 r2 =>
                        if three c0 c1 c2
                        then (Some (rune3 c0 c1 c2), String c0 (String c1 (String c2 ""))) :: runes r2
                        else match r2 with
                             | "" => (None, String c0 "") :: runes r0
                             | String c3 r3 =>
                                 if four c0 c1 c2 c3
                                 then (Some (rune4 c0 c1 c2 c3),
                                       String c0 (String c1 (String c2 (String c3 "")))) :: runes r3
                                 else (None, String c0 "") :: runes r0
                             end
                    end
           end
  end.

Definition valid (s : string) : bool := forallb (λ p, bool_decide (is_Some p.1)) (runes s).

(** U+FFFD. *)
Definition rune_error : string :=
  String (Nb 0xEF) (String (Nb 0xBF) (String (Nb 0xBD) "")).

(** utf8.AppendRune: surrogates and values past U+10FFFF become U+FFFD. *)
Definition encode_rune (r : N) : string :=
  if (r <? 0x80)%N then String (Nb r) ""
  else if (r <? 0x800)%N then String (Nb (0xC0 + r / 64)) (String (Nb (0x80 + r mod 64)) "")
  else if ((0xD800 <=? r) && (r <=? 0xDFFF) || (0x10FFFF <? r))%N then rune_error
  else if (r <? 0x10000)%N then
    String (Nb (0xE0 + r / 4096)) (String (Nb (0x80 + r / 64 mod 64)) (String (Nb (0x80 + r mod 64)) ""))
  else String (Nb (0xF0 + r / 262144)) (String (Nb (0x80 + r / 4096 mod 64))
         (String (Nb (0x80 + r / 64 mod 64)) (String (Nb (0x80 + r mod 64)) ""))).

(** Boolean range tests as inequalities. *)
Ltac bool_lia :=
  repeat rewrite ?andb_true_iff, ?orb_true_iff, ?N.leb_le, ?N.ltb_lt in *; lia.

(** A chunk is recognised as one rune whatever follows it. *)
Definition chunk (r : N) (u : string) : Prop := ∀ t, runes (u +:+ t) = (Some r, u) :: runes t.

Lemma runes_ascii c t : (bN c < 128)%N → runes (String c t) = (Some (bN c), String c "") :: runes t.
Proof. intros H%N.ltb_lt. cbn [runes]. by rewrite H. Qed.

Lemma high_byte c0 c1 c2 c3 :
  two c0 c1 = true ∨ three c0 c1 c2 = true ∨ four c0 c1 c2 c3 = true → (bN c0 <? 128)%N = false.
Proof. unfold two, three, four, inrange. destruct (N.ltb_spec (bN c0) 128); [|done]. bool_lia. Qed.

Lemma three_not_two c0 c1 c2 : three c0 c1 c2 = true → two c0 c1 = false.
Proof. unfold two, three, inrange. intros H. apply not_true_is_false. bool_lia. Qed.

Lemma four_not c0 c1 c2 c3 : four c0 c1 c2 c3 = true → two c0 c1 = false ∧ three c0 c1 c2 = false.
Proof. unfold two, three, four, inrange. intros H. split; apply not_true_is_false; bool_lia. Qed.

Definition high (u : string) : bool := forallb (λ c, (128 <=? bN c)%N) (String.list_ascii_of_string u).

(** A rune with its bytes as they occur in valid text: recognised in any context, the
    canonical encoding, and without an ASCII byte unless it is one. *)
Definition wf_chunk (r : N) (u : string) : Prop :=
  chunk r u ∧ encode_rune r = u ∧ ((128 <= r)%N → high u = true).

Lemma chunk_ascii c : (bN c < 128)%N → wf_chunk (bN c) (String c "").
Proof.
  intros H. split; [intros t; apply (runes_ascii c t H)|]. split; [|lia].
  unfold encode_rune. rewrite (proj2 (N.ltb_lt _ _) H). by rewrite Nb_bN.
Qed.

Ltac decide_ranges :=
  unfold encode_rune; repeat match goal with
  | |- context [(?a <? ?b)%N] => destruct (N.ltb_spec a b); try (exfalso; bool_lia)
  | |- context [(?a <=? ?b)%N] => destruct (N.leb_spec a b); try (exfalso; bool_lia)
  end; cbn [andb orb].

Ltac pull_bounds H :=
  unfold two, three, four, cont, inrange in H;
  repeat rewrite ?andb_true_iff, ?orb_true_iff, ?N.leb_le in H.

Lemma chunk_two c0 c1 : two c0 c1 = true → wf_chunk (rune2 c0 c1) (String c0 (String c1 "")).
Proof.
  intros H. split.
  { intros t. cbn [runes String.append]. by rewrite (high_byte c0 c1 c0 c0), H by auto. }
  pull_bounds H. unfold rune2. split.
  - decide_ranges. repeat f_equal; apply Base64.byte_back; div_lia.
  - intros _. unfold high. simpl. rewrite !andb_true_iff, !N.leb_le. lia.
Qed.

Lemma chunk_three c0 c1 c2 :
  three c0 c1 c2 = true → wf_chunk (rune3 c0 c1 c2) (String c0 (String c1 (String c2 ""))).
Proof.
  intros H. split.
  { intros t. cbn [runes String.append].
    by rewrite (high_byte c0 c1 c2 c0), (three_not_two _ _ _ H), H by auto. }
  pull_bounds H. unfold rune3. split.
  - decide_ranges. all: repeat f_equal; apply Base64.byte_back; div_lia.
  - intros _. unfold high. simpl. rewrite !andb_true_iff, !N.leb_le. lia.
Qed.

Lemma chunk_four c0 c1 c2 c3 :
  four c0 c1 c2 c3 = true →
  wf_chunk (rune4 c0 c1 c2 c3) (String c0 (String c1 (String c2 (String c3 "")))).
Proof.
  intros H. split.
  { intros t. cbn [runes String.append]. destruct (four_not _ _ _ _ H) as [H2 H3].
    by rewrite (high_byte c0 c1 c2 c3), H2, H3, H by auto. }
  pull_bounds H. unfold rune4. split.
  - decide_ranges. all: repeat f_equal; apply Base64.byte_back; div_lia.
  - intros _. unfold high. simpl. rewrite !andb_true_iff, !N.leb_le. lia.
Qed.

(** Strong induction on the length, one rune at a time. *)
Lemma runes_ind (P : string → list (option N * string) → Prop) :
  P "" [] →
  (∀ c t, (bN c <? 128)%N = false → P t (runes t) → P (String c t) ((None, String c "") :: runes t)) →
  (∀ r u t, wf_chunk r u → P t (runes t) → P (u +:+ t) ((Some r, u) :: runes t)) →
  ∀ s, P s (runes s).
Proof.
  intros H0 Hb Hc s. remember (slen s) as n eqn:Hn. revert s Hn.
  induction n as [n IH] using lt_wf_ind. intros s ->.
  assert (IH' : ∀ t, slen t < slen s → P t (runes t)) by (intros; by eapply IH). clear IH.
  destruct s as [|c0 r0]; [done|]. cbn [runes].
  destruct (bN c0 <? 128)%N eqn:E0.
  { apply N.ltb_lt in E0. apply (Hc _ (String c0 "")); [by apply chunk_ascii|]. apply IH'; simpl; lia. }
  assert (Hbad : P (String c0 r0) ((None, String c0 "") :: runes r0)) by (apply Hb; [done|apply IH'; simpl; lia]).
  destruct r0 as [|c1 r1]; [done|]. destruct (two c0 c1) eqn:E2.
  { apply (Hc _ (String c0 (String c1 ""))); [by apply chunk_two|]. apply IH'; simpl; lia. }
  destruct r1 as [|c2 r2]; [done|]. destruct (three c0 c1 c2) eqn:E3.
  { apply (Hc _ (String c0 (String c1 (String c2 "")))); [by apply chunk_three|]. apply IH'; simpl; lia. }
  destruct r2 as [|c3 r3]; [done|]. destruct (four c0 c1 c2 c3) eqn:E4; [|done].
  apply (Hc _ (String c0 (String c1 (String c2 (String c3 ""))))); [by apply chunk_four|].
  apply IH'; simpl; lia.
Qed.

Definition bytes_of (l : list (option N * string)) : string := foldr (λ p acc, p.2 +:+ acc) "" l.

Lemma bytes_of_runes s : bytes_of (runes s) = s.
Proof. apply (runes_ind (λ s l, bytes_of l = s)); simpl; congruence. Qed.

Lemma runes_chunks s r u : (Some r, u) ∈ runes s → wf_chunk r u.
Proof.
  apply (runes_ind (λ s l, (Some r, u) ∈ l → wf_chunk r u)).
  - intros H. by apply elem_of_nil in H.
  - intros c t _ IH H. apply elem_of_cons in H as [?|?]; [done|auto].
  - intros r' u' t Hu IH H. apply elem_of_cons in H as [?|?]; [by simplify_eq|auto].
Qed.

Ltac byte_ranges :=
  unfold two, three, four, cont, inrange; rewrite ?bN_Nb by div_lia;
  repeat rewrite ?andb_true_iff, ?orb_true_iff, ?N.leb_le; div_lia.

(** Whatever AppendRune emits is one valid rune. *)
Lemma chunk_encode r : ∃ r', wf_chunk r' (encode_rune r).
Proof.
  unfold encode_rune.
  destruct (N.ltb_spec r 0x80).
  { eexists. apply chunk_ascii. rewrite bN_Nb; lia. }
  destruct (N.ltb_spec r 0x800).
  { eexists. apply chunk_two. byte_ranges. }
  destruct (_ || _)%bool eqn:E.
  { eexists. by apply chunk_three. }
  apply orb_false_iff in E as [E1 E2]. rewrite andb_false_iff, !N.leb_gt in E1. apply N.ltb_ge in E2.
  destruct (N.ltb_spec r 0x10000).
  - eexists. apply chunk_three. byte_ranges.
  - eexists. apply chunk_four. byte_ranges.
Qed.

Lemma valid_chunk r u t : wf_chunk r u → valid (u +:+ t) = valid t.
Proof. intros [H _]. unfold valid. by rewrite H. Qed.

Lemma valid_entries s p : valid s = true → p ∈ runes s → ∃ r, p.1 = Some r ∧ wf_chunk r p.2.
Proof.
  intros Hv Hp. unfold valid in Hv. rewrite forallb_forall in Hv.
  pose proof (Hv p ltac:(by apply list_elem_of_In)) as H. apply bool_decide_eq_true in H as [r Hr].
  exists r. split; [done|]. destruct p as [o u]; simpl in *. subst. by eapply runes_chunks.
Qed.

End Utf8.
