(* ===== verification/Json.v ===== *)
(** * encoding/json, as the agent uses it

    The syntax tree of a JSON document ([json], object members in document order with
    duplicates kept), the decoder on bytes ([parse_value], [unmarshal], [decoder_decode]),
    the decoding of a tree into [any] ([to_any], where a repeated key keeps its last
    value) and into struct fields ([field_string], [field_int64], ...), and the string
    literals both directions ([scan_string], [unquote], [quote]).

    The decoder follows the scanner of the Go package: the JSON grammar, at most 10000
    nested arrays and objects, invalid UTF-8 and lone surrogates replaced by U+FFFD. *)

From S2P Require Import Prelude Encoding.

#[warnings="-register-all"]
Inductive json :=
| JNull
| JBool (b : bool)
| JNum (lit : string)
| JStr (s : string)
| JArr (l : list json)
| JObj (kvs : list (string * json)).

(** ** String literals *)

Module Lit.
Import Utf8.

Definition chr (n : N) : string := String (Nb n) "".

(** Escapes of appendString with escapeHTML off: two-character escapes, the four hex digits of
    a control character, the replacement of an invalid byte, and the line separators
    U+2028 and U+2029. *)
Definition escape_ascii (n : N) : string :=
  if (n =? 0x22)%N then "\" +:+ chr 0x22
  else if (n =? 0x5C)%N then "\\"
  else if (n =? 0x08)%N then "\b"
  else if (n =? 0x0C)%N then "\f"
  else if (n =? 0x0A)%N then "\n"
  else if (n =? 0x0D)%N then "\r"
  else if (n =? 0x09)%N then "\t"
  else if (n <? 0x20)%N then "\u00" +:+ String (Hex.digit (n / 16)) (String (Hex.digit (n mod 16)) "")
  else chr n.

Definition escape (p : option N * string) : string :=
  match p.1 with
  | None => "\ufffd"
  | Some r => if (r <? 128)%N then escape_ascii r
              else if (r =? 0x2028)%N then "\u2028"
              else if (r =? 0x2029)%N then "\u2029"
              else p.2
  end.

Definition escape_all (l : list (option N * string)) : string :=
  foldr (λ p acc, escape p +:+ acc) "" l.

(** The encoder's string literal. *)
Definition quote (s : string) : string := chr 0x22 +:+ escape_all (runes s) +:+ chr 0x22.

Definition is_hex (c : ascii) : bool := bool_decide (is_Some (Hex.val c)).

(** The scanner on a literal after its opening quote: (body, text after the closing quote). *)
Fixpoint scan_string (s : string) : option (string * string) :=
  match s with
  | "" => None
  | String c r =>
      if (bN c =? 0x22)%N then Some ("", r)
      else if (bN c =? 0x5C)%N then
        match r with
        | "" => None
        | String e r' =>
            if contains_byte e "bfnrt\/" || (bN e =? 0x22)%N then
              match scan_string r' with
              | Some (b, k) => Some (String c (String e b), k)
              | None => None
              end
            else if (bN e =? 0x75)%N then
              match r' with
              | String h0 (String h1 (String h2 (String h3 r''))) =>
                  if is_hex h0 && is_hex h1 && is_hex h2 && is_hex h3 then
                    match scan_string r'' with
                    | Some (b, k) =>
                        Some (String c (String e (String h0 (String h1 (String h2 (String h3 b))))), k)
                    | None => None
                    end
                  else None
              | _ => None
              end
            else None
        end
      else if (bN c <? 0x20)%N then None
      else match scan_string r with
           | Some (b, k) => Some (String c b, k)
           | None => None
           end
  end.

Definition hexrune (p : option N * string) : N :=
  match p.2 with
  | String c _ => default 0%N (Hex.val c)
  | "" => 0%N
  end.

Definition u4 (a b c d : option N * string) : N :=
  (hexrune a * 4096 + hexrune b * 256 + hexrune c * 16 + hexrune d)%N.

(** The byte a one-letter escape stands for; the scanner admits no other letter. *)
Definition unescape1 (e : N) : string :=
  if (e =? 0x62)%N then chr 0x08
  else if (e =? 0x66)%N then chr 0x0C
  else if (e =? 0x6E)%N then chr 0x0A
  else if (e =? 0x72)%N then chr 0x0D
  else if (e =? 0x74)%N then chr 0x09
  else if (e <? 128)%N then chr e else "".

Definition is_bslash (p : option N * string) : bool := bool_decide (p.1 = Some 0x5C%N).
Definition is_u (p : option N * string) : bool := bool_decide (p.1 = Some 0x75%N).

(** unquoteBytes on the runes of a scanned body. *)
Fixpoint unquote_runes (l : list (option N * string)) : string :=
  match l with
  | [] => ""
  | p :: r1 =>
      if is_bslash p then
        match r1 with
        | [] => ""
        | e :: r2 =>
            if is_u e then
              match r2 with
              | h0 :: h1 :: h2 :: h3 :: r3 =>
                  let rr := u4 h0 h1 h2 h3 in
                  if ((0xD800 <=? rr) && (rr <=? 0xDFFF))%N then
                    match r3 with
                    | p' :: e' :: g0 :: g1 :: g2 :: g3 :: r4 =>
                        let rr1 := u4 g0 g1 g2 g3 in
                        if is_bslash p' && is_u e' &&
                           ((rr <? 0xDC00) && (0xDC00 <=? rr1) && (rr1 <=? 0xDFFF))%N
                        then encode_rune (0x10000 + (rr - 0xD800) * 1024 + (rr1 - 0xDC00)) +:+ unquote_runes r4
                        else rune_error +:+ unquote_runes r3
                    | _ => rune_error +:+ unquote_runes r3
                    end
                  else encode_rune rr +:+ unquote_runes r3
              | _ => ""
              end
            else match e.1 with
                 | Some c => unescape1 c +:+ unquote_runes r2
                 | None => unquote_runes r2
                 end
        end
      else match p.1 with
           | Some _ => p.2 +:+ unquote_runes r1
           | None => rune_error +:+ unquote_runes r1
           end
  end.

Definition unquote (body : string) : string := unquote_runes (runes body).

End Lit.

(** ** Number literals *)

Module Num.

Definition is_digit (c : ascii) : bool := ((0x30 <=? bN c) && (bN c <=? 0x39))%N.

Fixpoint take_digits (s : string) : string * string :=
  match s with
  | String c r => if is_digit c then let '(d, k) := take_digits r in (String c d, k) else ("", s)
  | "" => ("", "")
  end.

(** One digit or more. *)
Definition digits1 (s : string) : option (string * string) :=
  let '(d, k) := take_digits s in if d =s "" then None else Some (d, k).

Definition int_part (s : string) : option (string * string) :=
  match s with
  | String c r => if ceqb c "0"%char then Some ("0", r) else digits1 s
  | "" => None
  end.

Definition frac_part (s : string) : option (string * string) :=
  match s with
  | String c r =>
      if ceqb c "."%char then '(d, k) ← digits1 r; Some ("." +:+ d, k) else Some ("", s)
  | "" => Some ("", "")
  end.

Definition exp_part (s : string) : option (string * string) :=
  match s with
  | String c r =>
      if ceqb c "e"%char || ceqb c "E"%char then
        match r with
        | String g r' =>
            if ceqb g "+"%char || ceqb g "-"%char
            then '(d, k) ← digits1 r'; Some (String c (String g d), k)
            else '(d, k) ← digits1 r; Some (String c d, k)
        | "" => None
        end
      else Some ("", s)
  | "" => Some ("", "")
  end.

Definition unsigned (s : string) : option (string * string) :=
  '(i, s1) ← int_part s; '(f, s2) ← frac_part s1; '(e, s3) ← exp_part s2;
  Some (i +:+ f +:+ e, s3).

(** The longest literal that starts [s]; an incomplete one is a syntax error. *)
Definition scan (s : string) : option (string * string) :=
  match s with
  | String c r =>
      if ceqb c "-"%char then '(u, k) ← unsigned r; Some ("-" +:+ u, k) else unsigned s
  | "" => None
  end.

(** strconv.ParseInt(lit, 10, 64) on a JSON literal. *)
Fixpoint digits_val (acc : Z) (s : string) : option Z :=
  match s with
  | "" => Some acc
  | String c r =>
      if is_digit c then digits_val (acc * 10 + Z.of_N (bN c - 0x30)) r else None
  end.

Definition parse_int (lit : string) : option Z :=
  let '(neg, body) := match lit with
                      | String c r => if ceqb c "-"%char then (true, r) else (false, lit)
                      | "" => (false, "")
                      end in
  if body =s "" then None
  else n ← digits_val 0 body;
       let z := if neg : bool then (- n)%Z else n in
       if ((- 2 ^ 63 <=? z) && (z <? 2 ^ 63))%Z then Some z else None.

End Num.

(** ** The decoder *)

Definition is_ws (c : ascii) : bool :=
  ((bN c =? 0x20) || (bN c =? 0x09) || (bN c =? 0x0A) || (bN c =? 0x0D))%N.

Fixpoint skip_ws (s : string) : string :=
  match s with
  | String c r => if is_ws c then skip_ws r else s
  | "" => ""
  end.

(** The value that starts [s] (after blanks) and the text after it. [depth] is how many
    more arrays or objects may be opened; [fuel] bounds the recursion, see
    [value_fuel]. *)
Fixpoint parse_value (fuel : nat) (depth : N) (s : string) : option (json * string) :=
  match fuel with
  | O => None
  | S f =>
      match skip_ws s with
      | "" => None
      | String c r =>
          if ceqb c "{"%char then
            if (depth =? 0)%N then None
            else match skip_ws r with
                 | String c' r' =>
                     if ceqb c' "}"%char then Some (JObj [], r')
                     else '(kvs, k) ← parse_members f (depth - 1) r; Some (JObj kvs, k)
                 | "" => None
                 end
          else if ceqb c "["%char then
            if (depth =? 0)%N then None
            else match skip_ws r with
                 | String c' r' =>
                     if ceqb c' "]"%char then Some (JArr [], r')
                     else '(l, k) ← parse_elements f (depth - 1) r; Some (JArr l, k)
                 | "" => None
                 end
          else if (bN c =? 0x22)%N then
            '(b, k) ← Lit.scan_string r; Some (JStr (Lit.unquote b), k)
          else if has_prefix (String c r) "true" then Some (JBool true, sdrop 4 (String c r))
          else if has_prefix (String c r) "false" then Some (JBool false, sdrop 5 (String c r))
          else if has_prefix (String c r) "null" then Some (JNull, sdrop 4 (String c r))
          else '(n, k) ← Num.scan (String c r); Some (JNum n, k)
      end
  end
with parse_members (fuel : nat) (depth : N) (s : string) : option (list (string * json) * string) :=
  match fuel with
  | O => None
  | S f =>
      match skip_ws s with
      | String c r =>
          if (bN c =? 0x22)%N then
            '(b, k1) ← Lit.scan_string r;
            match skip_ws k1 with
            | String c1 k2 =>
                if ceqb c1 ":"%char then
                  '(v, k3) ← parse_value f depth k2;
                  match skip_ws k3 with
                  | String c3 k4 =>
                      if ceqb c3 ","%char then
                        '(kvs, k5) ← parse_members f depth k4;
                        Some ((Lit.unquote b, v) :: kvs, k5)
                      else if ceqb c3 "}"%char then Some ([(Lit.unquote b, v)], k4)
                      else None
                  | "" => None
                  end
                else None
            | "" => None
            end
          else None
      | "" => None
      end
  end
with parse_elements (fuel : nat) (depth : N) (s : string) : option (list json * string) :=
  match fuel with
  | O => None
  | S f =>
      '(v, k1) ← parse_value f depth s;
      match skip_ws k1 with
      | String c1 k2 =>
          if ceqb c1 ","%char then
            '(l, k3) ← parse_elements f depth k2; Some (v :: l, k3)
          else if ceqb c1 "]"%char then Some ([v], k2)
          else None
      | "" => None
      end
  end.

Definition max_nesting_depth : N := 10000.

(** Every call opens a bracket or consumes a byte, and an element list opens one call more
    than it consumes: twice the length is never exhausted. *)
Definition value_fuel (s : string) : nat := 2 * slen s + 2.

(** json.Decoder.Decode on a fresh decoder: the first value and what is left. *)
Definition decoder_decode (s : string) : option (json * string) :=
  parse_value (value_fuel s) max_nesting_depth s.

(** json.Decoder.More at top level: another token follows, unless it closes a bracket. *)
Definition decoder_more (rest : string) : bool :=
  match skip_ws rest with
  | "" => false
  | String c _ => negb (ceqb c "]"%char || ceqb c "}"%char)
  end.

(** json.Unmarshal's syntax check: one value and nothing but blanks after it. *)
Definition unmarshal (s : string) : option json :=
  '(v, k) ← decoder_decode s; if skip_ws k =s "" then Some v else None.

(** *** Decoding into [any]: an object becomes a map, where a repeated key overwrites. *)

Fixpoint map_set {A} (k : string) (v : A) (m : list (string * A)) : list (string * A) :=
  match m with
  | [] => [(k, v)]
  | (k', v') :: m' => if k =s k' then (k, v) :: m' else (k', v') :: map_set k v m'
  end.

Fixpoint to_any (j : json) : json :=
  match j with
  | JArr l => JArr (map to_any l)
  | JObj kvs =>
      JObj (foldl (λ m p, map_set p.1 p.2 m) []
              (map (λ p, match p with (k, v) => (k, to_any v) end) kvs))
  | _ => j
  end.

(** *** Decoding into struct fields

    For every member of the object whose name matches the field's (case folded), in
    document order, the value is decoded into the field; [null] leaves it unchanged and a
    value of another type is an error, which json.Unmarshal reports after the object.
    [None] is that error. *)

Definition upper (c : ascii) : ascii :=
  if ((97 <=? bN c) && (bN c <=? 122))%N then Nb (bN c - 32) else c.

(** foldName on the runes: ASCII letters to upper case, and the two other runes whose
    folding class holds an ASCII letter, U+017F (long s) and U+212A (kelvin sign). *)
Definition fold_rune (p : option N * string) : string :=
  match p.1 with
  | Some r => if (r =? 0x17F)%N then "S" else if (r =? 0x212A)%N then "K" else smap upper p.2
  | None => p.2
  end.
Definition fold_name (s : string) : string :=
  foldr (λ p acc, fold_rune p +:+ acc) "" (Utf8.runes s).
Definition name_matches (field key : string) : bool := fold_name field =s fold_name key.

Definition members_named (field : string) (kvs : list (string * json)) : list json :=
  map snd (List.filter (λ p, name_matches field p.1) kvs).

Definition assign {A} (dec : A → json → option A) (zero : A) (field : string)
    (kvs : list (string * json)) : option A :=
  foldl (λ acc j, a ← acc; dec a j) (Some zero) (members_named field kvs).

Definition dec_string (old : string) (j : json) : option string :=
  match j with JNull => Some old | JStr s => Some s | _ => None end.
Definition dec_int64 (old : Z) (j : json) : option Z :=
  match j with JNull => Some old | JNum n => Num.parse_int n | _ => None end.
Definition dec_bool (old : bool) (j : json) : option bool :=
  match j with JNull => Some old | JBool b => Some b | _ => None end.
(** A json.RawMessage keeps the value, [null] included. *)
Definition dec_raw (old : option json) (j : json) : option (option json) := Some (Some j).
(** A pointer: [null] is nil, anything else is decoded into a fresh or the old value. *)
Definition dec_ptr {A} (zero : A) (dec : A → json → option A) (old : option A) (j : json)
    : option (option A) :=
  match j with JNull => Some None | _ => Some <$> dec (default zero old) j end.
(** A slice: [null] is nil, an array is decoded element by element, into the element the
    slice already holds at that index when the member is repeated. *)
Definition dec_slice {A} (zero : A) (dec : A → json → option A) (old : list A) (j : json)
    : option (list A) :=
  match j with JNull => Some [] | JArr l => mapM (λ p, dec (default zero (old !! p.1)) p.2) (imap pair l) | _ => None end.

Definition dec_struct {A} (decf : A → list (string * json) → option A) (old : A) (j : json) : option A :=
  match j with JNull => Some old | JObj kvs => decf old kvs | _ => None end.

(** ** String literals round-trip *)

Module LitFacts.
Import Utf8 Lit.

Lemma scan_plain c t :
  (bN c =? 0x22)%N = false → (bN c =? 0x5C)%N = false → (bN c <? 0x20)%N = false →
  scan_string (String c t) =
    match scan_string t with Some (b, k) => Some (String c b, k) | None => None end.
Proof. intros H1 H2 H3. cbn [scan_string]. by rewrite H1, H2, H3. Qed.

(** [u] is scanned as it stands, whatever follows. *)
Definition passes (u : string) : Prop := ∀ t,
  scan_string (u +:+ t) =
    match scan_string t with Some (b, k) => Some (u +:+ b, k) | None => None end.

Lemma passes_nil : passes "".
Proof. intros t. simpl. by destruct (scan_string t) as [[]|]. Qed.

Lemma passes_cons c u :
  (bN c =? 0x22)%N = false → (bN c =? 0x5C)%N = false → (bN c <? 0x20)%N = false →
  passes u → passes (String c u).
Proof.
  intros H1 H2 H3 Hu t. change (String c u +:+ t) with (String c (u +:+ t)).
  rewrite scan_plain, Hu by done. by destruct (scan_string t) as [[]|].
Qed.

Lemma passes_app u v : passes u → passes v → passes (u +:+ v).
Proof.
  intros Hu Hv t. rewrite sapp_assoc, Hu, Hv. destruct (scan_string t) as [[b k]|]; [|done].
  by rewrite sapp_assoc.
Qed.

Lemma passes_high u : high u = true → passes u.
Proof.
  unfold high. induction u as [|c u IH]; simpl; [intros; apply passes_nil|].
  rewrite andb_true_iff, N.leb_le. intros [H1 H2].
  apply passes_cons; [apply N.eqb_neq; lia|apply N.eqb_neq; lia|apply N.ltb_ge; lia|auto].
Qed.

(** A property of every ASCII code, by evaluation. *)
Lemma ascii_all (P : N → bool) :
  forallb (λ n, P (N.of_nat n)) (seq 0 128) = true → ∀ n, (n < 128)%N → P n = true.
Proof.
  intros H n Hn. rewrite forallb_forall in H. rewrite <- (N2Nat.id n). apply H, in_seq. lia.
Qed.

Lemma passes_escape_ascii n : (n < 128)%N → passes (escape_ascii n).
Proof.
  intros Hn. unfold escape_ascii.
  repeat match goal with |- context [(n =? ?k)%N] =>
    destruct (N.eqb_spec n k); [intros t; simpl; by destruct (scan_string t) as [[]|]|] end.
  destruct (N.ltb_spec n 0x20).
  - assert (is_hex (Hex.digit (n / 16)) = true ∧ is_hex (Hex.digit (n mod 16)) = true) as [Ha Hb].
    { unfold is_hex. rewrite !Hex.val_digit by (first [apply N.Div0.div_lt_upper_bound | apply N.mod_lt]; lia).
      by split. }
    intros t. cbn -[Hex.digit is_hex]. rewrite Ha, Hb. simpl. by destruct (scan_string t) as [[]|].
  - unfold chr. apply passes_cons; rewrite ?bN_Nb by lia;
      [by apply N.eqb_neq|by apply N.eqb_neq|by apply N.ltb_ge|apply passes_nil].
Qed.

Lemma escape_passes r u : wf_chunk r u → passes (escape (Some r, u)).
Proof.
  intros (_ & _ & Hh). unfold escape. simpl. destruct (N.ltb_spec r 128).
  - by apply passes_escape_ascii.
  - repeat case_match; [intros t; simpl; by destruct (scan_string t) as [[]|]..|].
    by apply passes_high, Hh.
Qed.

(** The runes of an escaped rune decode to it and leave the rest. *)
Definition unquotes (e u : string) : Prop := ∀ t,
  unquote_runes (runes (e +:+ t)) = u +:+ unquote_runes (runes t).

Lemma unquotes_chunk r u : wf_chunk r u → r ≠ 0x5C%N → unquotes u u.
Proof.
  intros (Hc & _) Hr t. rewrite Hc. simpl. unfold is_bslash. simpl. by rewrite bool_decide_false by congruence.
Qed.

Lemma unquote_u4 p e h0 h1 h2 h3 l rr :
  is_bslash p = true → is_u e = true → u4 h0 h1 h2 h3 = rr → (rr < 0xD800)%N →
  unquote_runes (p :: e :: h0 :: h1 :: h2 :: h3 :: l) = encode_rune rr +:+ unquote_runes l.
Proof.
  intros Hp He <- Hr. cbn [unquote_runes]. rewrite Hp, He.
  by rewrite (proj2 (N.leb_gt _ _) Hr).
Qed.

Lemma u4_digits n a b c d : (n / 16 < 16)%N → (n mod 16 < 16)%N →
  u4 (a, "0") (b, "0") (c, String (Hex.digit (n / 16)) "") (d, String (Hex.digit (n mod 16)) "") = n.
Proof.
  intros H1 H2. unfold u4, hexrune. cbn [snd]. rewrite !Hex.val_digit by done.
  change (Hex.val "0") with (Some 0%N). cbn [default from_option id]. div_lia.
Qed.

Lemma unquotes_ascii n : (n < 128)%N → unquotes (escape_ascii n) (chr n).
Proof.
  intros Hn t. unfold escape_ascii.
  repeat match goal with |- context [(n =? ?k)%N] => destruct (N.eqb_spec n k); [by subst n|] end.
  destruct (N.ltb_spec n 0x20).
  - assert (Hlt : ∀ k, (k < 16)%N → (bN (Hex.digit k) < 128)%N).
    { intros k Hk. unfold Hex.digit. destruct (N.ltb_spec k 10); rewrite bN_Nb; lia. }
    pose proof (N.Div0.div_lt_upper_bound n 16 16 ltac:(lia)). pose proof (N.mod_lt n 16 ltac:(lia)).
    cbn -[runes Hex.digit]. rewrite !runes_ascii by (done || by apply Hlt).
    rewrite unquote_u4 with (rr := n); [|done|done|by apply u4_digits|lia].
    unfold encode_rune. by rewrite (proj2 (N.ltb_lt n 0x80)) by lia.
  - pose proof (chunk_ascii (Nb n)) as Hc. rewrite bN_Nb in Hc by lia.
    exact (unquotes_chunk n _ (Hc ltac:(lia)) ltac:(done) t).
Qed.

Lemma escape_unquotes r u : wf_chunk r u → unquotes (escape (Some r, u)) u.
Proof.
  intros Hw. pose proof Hw as (_ & He & _). unfold escape. simpl. destruct (N.ltb_spec r 128).
  - replace u with (chr r); [by apply unquotes_ascii|].
    rewrite <- He. unfold encode_rune, chr. by destruct (N.ltb_spec r 0x80); [|lia].
  - destruct (N.eqb_spec r 0x2028); [by subst|]. destruct (N.eqb_spec r 0x2029); [by subst|].
    apply (unquotes_chunk r); [done|lia].
Qed.

Definition valid_list (l : list (option N * string)) : Prop :=
  ∀ p, p ∈ l → ∃ r, p.1 = Some r ∧ wf_chunk r p.2.

Lemma escape_all_passes l : valid_list l → passes (escape_all l).
Proof.
  induction l as [|[o u] l IH]; intros H; simpl; [apply passes_nil|].
  apply passes_app; [|apply IH; intros p Hp; apply H; by right].
  destruct (H (o, u)) as (r & Hr & Hw); [left|]. simpl in *. subst. by apply escape_passes.
Qed.

Lemma unquote_escape_all l : valid_list l → unquote (escape_all l) = bytes_of l.
Proof.
  unfold unquote. induction l as [|[o u] l IH]; intros H; simpl; [done|].
  destruct (H (o, u)) as (r & Hr & Hw); [left|]. simpl in *. subst.
  rewrite (escape_unquotes r u Hw), IH; [done|]. intros p Hp. apply H. by right.
Qed.

(** Scanning and unquoting the encoder's literal gives the string back. *)
Lemma scan_quote s t : valid s = true →
  ∃ b, scan_string (sdrop 1 (quote s) +:+ t) = Some (b, t) ∧ unquote b = s.
Proof.
  intros Hv. assert (Hl : valid_list (runes s)) by (intros p; by apply valid_entries).
  exists (escape_all (runes s)). split.
  - unfold quote. simpl. rewrite sapp_assoc, (escape_all_passes _ Hl). simpl. by rewrite sapp_nil_r.
  - by rewrite unquote_escape_all, bytes_of_runes.
Qed.

(** What the decoder hands out is valid UTF-8. *)
Lemma unquote_runes_valid l :
  (∀ r u, (Some r, u) ∈ l → wf_chunk r u) →
  valid (unquote_runes l) = true.
Proof.
  assert (Henc : ∀ r t, valid (encode_rune r +:+ t) = valid t).
  { intros r t. destruct (chunk_encode r) as [r' Hr]. by eapply valid_chunk. }
  assert (Herr : ∀ t, valid (rune_error +:+ t) = valid t) by apply (Henc 0xFFFD%N).
  assert (Hesc : ∀ c t, valid (unescape1 c +:+ t) = valid t).
  { intros c t. unfold unescape1, chr.
    repeat case_match; try done; eapply valid_chunk, chunk_ascii;
      repeat match goal with H : _ = true |- _ => apply N.ltb_lt in H end; rewrite ?bN_Nb; lia. }
  remember (length l) as n eqn:Hn. revert l Hn.
  induction n as [n IH] using lt_wf_ind. intros l -> Hin.
  assert (IH' : ∀ l', length l' < length l → (∀ p, p ∈ l' → p ∈ l) → valid (unquote_runes l') = true).
  { intros l' Hl Hs. eapply IH; [exact Hl|done|]. intros r u ?. by apply Hin, Hs. }
  clear IH. destruct l as [|p r1]; [done|]. cbn [unquote_runes].
  repeat (case_match; try done);
    rewrite ?Henc, ?Herr, ?Hesc; try (apply IH'; [simpl; lia|intros; set_solver]).
  destruct p as [o u]; simpl in *; subst.
  rewrite (valid_chunk n u) by (apply Hin; left). apply IH'; [simpl; lia|set_solver].
Qed.

Lemma unquote_valid b : valid (unquote b) = true.
Proof. apply unquote_runes_valid. intros r u. apply runes_chunks. Qed.

End LitFacts.

(** ** Number literals *)

Module NumFacts.
Import Num.

(** What may follow a number literal without becoming part of it. *)
Definition num_end (t : string) : Prop :=
  match t with
  | "" => True
  | String c _ => is_digit c = false ∧ c ≠ "."%char ∧ c ≠ "e"%char ∧ c ≠ "E"%char
  end.

Lemma take_digits_spec s d k :
  take_digits s = (d, k) →
  s = d +:+ k ∧
  (∀ t, (match t with "" => True | String c _ => is_digit c = false end) →
        take_digits (d +:+ t) = (d, t)).
Proof.
  revert d k. induction s as [|c s IH]; simpl; intros d k H; [simplify_eq; split; [done|]|].
  - by intros [|c t] Ht; simpl; [|rewrite Ht].
  - destruct (is_digit c) eqn:E.
    + destruct (take_digits s) as [d' k'] eqn:Es. simplify_eq.
      destruct (IH _ _ eq_refl) as [-> IH']. split; [done|]. intros t Ht. simpl. by rewrite E, IH'.
    + simplify_eq. split; [done|]. by intros [|c' t] Ht; simpl; [|rewrite Ht].
Qed.

Lemma take_digits_end d k s : take_digits s = (d, k) →
  match k with "" => True | String c _ => is_digit c = false end.
Proof.
  revert d k. induction s as [|c s IH]; simpl; intros d k H; [by simplify_eq|].
  destruct (is_digit c) eqn:E; [|by simplify_eq].
  destruct (take_digits s) as [d' k'] eqn:Es. simplify_eq. by eapply IH.
Qed.

Lemma digits1_spec s d k : digits1 s = Some (d, k) →
  s = d +:+ k ∧ d ≠ "" ∧
  (match k with "" => True | String c _ => is_digit c = false end) ∧
  (∀ t, (match t with "" => True | String c _ => is_digit c = false end) →
        digits1 (d +:+ t) = Some (d, t)).
Proof.
  unfold digits1. destruct (take_digits s) as [d' k'] eqn:E. destruct (d' =s "") eqn:Ed; [done|].
  intros [= <- <-]. apply seqb_false in Ed as Ed'. destruct (take_digits_spec _ _ _ E) as [-> H].
  split_and!; [done|done|by eapply take_digits_end|]. intros t Ht. by rewrite H, Ed.
Qed.

Definition nodigit (t : string) : Prop :=
  match t with "" => True | String c _ => is_digit c = false end.
Definition head_ne (cs : list ascii) (t : string) : Prop :=
  match t with "" => True | String c _ => c ∉ cs end.

Lemma int_part_app s i k : int_part s = Some (i, k) →
  s = i +:+ k ∧ (∃ c i', i = String c i' ∧ s = String c (i' +:+ k)) ∧
  (∀ t, nodigit t → int_part (i +:+ t) = Some (i, t)).
Proof.
  destruct s as [|c s]; [done|]. simpl. destruct (ceqb c "0"%char) eqn:E.
  - intros [= <- <-]. apply ceqb_true in E as ->. split_and!; [done|by exists "0"%char, ""|done].
  - intros H. destruct (digits1_spec _ _ _ H) as (Hs & Hne & _ & Happ). destruct i as [|c' i]; [done|].
    simplify_eq/=. split_and!; [done|by eexists _, _|]. intros t Ht. by rewrite E, <- Happ.
Qed.

Lemma frac_part_app s f k : frac_part s = Some (f, k) →
  s = f +:+ k ∧
  (∀ t, nodigit t → head_ne ["."%char] t → frac_part (f +:+ t) = Some (f, t) ∧ nodigit (f +:+ t)).
Proof.
  destruct s as [|c s]; simpl.
  { intros [= <- <-]. split; [done|]. intros [|c t] Ht Hh; [done|]. simpl in *.
    rewrite (proj2 (ceqb_false c _)) by set_solver. done. }
  destruct (ceqb c "."%char) eqn:E.
  - apply ceqb_true in E as ->. intros H. destruct (digits1 s) as [[d k']|] eqn:Ed; [|done]. simplify_eq/=.
    destruct (digits1_spec _ _ _ Ed) as (-> & _ & _ & Happ). split; [done|]. intros t Ht _. simpl.
    by rewrite Happ.
  - intros [= <- <-]. split; [done|]. intros [|c' t] Ht Hh; [done|]. simpl in *.
    by rewrite (proj2 (ceqb_false c' _)) by set_solver.
Qed.

Lemma exp_part_app s e k : exp_part s = Some (e, k) →
  s = e +:+ k ∧
  (∀ t, nodigit t → head_ne ["."; "e"; "E"]%char t →
        exp_part (e +:+ t) = Some (e, t) ∧ nodigit (e +:+ t) ∧ head_ne ["."%char] (e +:+ t)).
Proof.
  destruct s as [|c s]; simpl.
  { intros [= <- <-]. split; [done|]. intros [|c t] Ht Hh; [done|]. simpl in *.
    rewrite !(proj2 (ceqb_false c _)) by set_solver. split_and!; [done|done|set_solver]. }
  destruct (ceqb c "e"%char || ceqb c "E"%char)%bool eqn:E.
  - assert (Hc : is_digit c = false ∧ c ≠ "."%char).
    { apply orb_true_iff in E as [->%ceqb_true | ->%ceqb_true]; done. }
    destruct s as [|g r]; [done|]. destruct (ceqb g "+"%char || ceqb g "-"%char)%bool eqn:Eg; intros H.
    + destruct (digits1 r) as [[d k']|] eqn:Ed; [|done]. simplify_eq/=.
      destruct (digits1_spec _ _ _ Ed) as (-> & _ & _ & Happ). split; [done|]. intros t Ht _. simpl.
      rewrite E, Eg, Happ by done. split_and!; [done|by destruct Hc|set_solver].
    + destruct (digits1 (String g r)) as [[d k']|] eqn:Ed; [|done]. simplify_eq/=.
      destruct (digits1_spec _ _ _ Ed) as (Hs & Hne & _ & Happ). destruct d as [|g' d]; [done|].
      simplify_eq/=. split; [done|]. intros t Ht _. rewrite E, Eg. specialize (Happ t Ht). simpl in Happ.
      rewrite Happ. split_and!; [done|by destruct Hc|set_solver].
  - intros [= <- <-]. split; [done|]. intros [|c' t] Ht Hh; [done|]. simpl in *.
    rewrite !(proj2 (ceqb_false c' _)) by set_solver. split_and!; [done|done|set_solver].
Qed.

Lemma unsigned_app s lit k : unsigned s = Some (lit, k) →
  s = lit +:+ k ∧ (∃ c l, lit = String c l ∧ s = String c (l +:+ k)) ∧
  (∀ t, num_end t → unsigned (lit +:+ t) = Some (lit, t)).
Proof.
  unfold unsigned. destruct (int_part s) as [[i s1]|] eqn:Ei; [|done]. simpl.
  destruct (frac_part s1) as [[f s2]|] eqn:Ef; [|done]. simpl.
  destruct (exp_part s2) as [[e s3]|] eqn:Ee; [|done]. simpl. intros [= <- <-].
  destruct (int_part_app _ _ _ Ei) as (-> & (c & i' & -> & _) & Hi).
  destruct (frac_part_app _ _ _ Ef) as (-> & Hf). destruct (exp_part_app _ _ _ Ee) as (-> & He).
  split_and!; [by rewrite !sapp_assoc|eexists _, _; split; [done|]; by rewrite !sapp_assoc|].
  intros t Ht. assert (nodigit t ∧ head_ne ["."; "e"; "E"]%char t) as [Hn Hh].
  { destruct t as [|c' t]; [done|]. destruct Ht as (? & ? & ? & ?). split; [done|]. simpl. set_solver. }
  destruct (He t Hn Hh) as (He1 & He2 & He3). destruct (Hf _ He2 He3) as (Hf1 & Hf2).
  rewrite !sapp_assoc, (Hi _ Hf2). simpl. rewrite Hf1. simpl. by rewrite He1.
Qed.

Lemma scan_app s lit k : scan s = Some (lit, k) →
  s = lit +:+ k ∧ (∃ c l, lit = String c l) ∧ (∀ t, num_end t → scan (lit +:+ t) = Some (lit, t)).
Proof.
  destruct s as [|c s]; [done|]. simpl. destruct (ceqb c "-"%char) eqn:E.
  - apply ceqb_true in E as ->. destruct (unsigned s) as [[u k']|] eqn:Eu; [|done]. intros [= <- <-].
    destruct (unsigned_app _ _ _ Eu) as (-> & _ & Hu). split_and!; [done|by eexists _, _|].
    intros t Ht. simpl. by rewrite (Hu t Ht).
  - intros H. destruct (unsigned_app _ _ _ H) as (Hs & (c' & l & -> & Hs') & Hu).
    injection Hs' as <- _. split_and!; [done|by eexists _, _|]. intros t Ht. simpl. rewrite E. apply (Hu t Ht).
Qed.

(** A literal by itself. *)
Definition valid_num (lit : string) : Prop := scan lit = Some (lit, "").

Lemma scan_valid s lit k : scan s = Some (lit, k) → valid_num lit.
Proof.
  intros H. destruct (scan_app _ _ _ H) as (_ & _ & Ha). specialize (Ha "" I).
  by rewrite sapp_nil_r in Ha.
Qed.

(** The first byte of a literal: a digit or a minus sign. *)
Lemma valid_num_head lit : valid_num lit → ∃ c l, lit = String c l ∧ (is_digit c = true ∨ c = "-"%char).
Proof.
  unfold valid_num, scan. destruct lit as [|c l]; [done|]. destruct (ceqb c "-"%char) eqn:E.
  - apply ceqb_true in E as ->. eauto.
  - unfold unsigned. destruct (int_part (String c l)) as [[i s1]|] eqn:Ei; [|done]. intros _.
    exists c, l. split; [done|left]. simpl in Ei. destruct (ceqb c "0"%char) eqn:E0; [by apply ceqb_true in E0 as ->|].
    unfold digits1 in Ei. simpl in Ei. by destruct (is_digit c).
Qed.

End NumFacts.

(** ** Trees *)

(** Induction through the lists of a tree. *)
Lemma json_ind' (P : json → Prop) :
  P JNull → (∀ b, P (JBool b)) → (∀ n, P (JNum n)) → (∀ s, P (JStr s)) →
  (∀ l, Forall P l → P (JArr l)) → (∀ kvs, Forall (λ p, P p.2) kvs → P (JObj kvs)) →
  ∀ j, P j.
Proof.
  intros H1 H2 H3 H4 H5 H6. fix IH 1. intros [|b|n|s|l|kvs]; [done..| |].
  - apply H5. induction l; constructor; [apply IH|done].
  - apply H6. induction kvs as [|[k v] kvs IHk]; constructor; [apply IH|done].
Qed.

(** Levels of arrays and objects. *)
Fixpoint depth (j : json) : N :=
  match j with
  | JArr l => 1 + foldr (λ d acc, N.max d acc) 0 (map depth l)
  | JObj kvs => 1 + foldr (λ d acc, N.max d acc) 0 (map (λ p, match p with (_, v) => depth v end) kvs)
  | _ => 0
  end%N.

(** Strings are valid UTF-8 and numbers are literals: the trees the decoder produces. *)
Fixpoint wf (j : json) : Prop :=
  match j with
  | JNum n => NumFacts.valid_num n
  | JStr s => Utf8.valid s = true
  | JArr l => foldr (λ P acc, P ∧ acc) True (map wf l)
  | JObj kvs => foldr (λ P acc, P ∧ acc) True
                  (map (λ p, match p with (k, v) => Utf8.valid k = true ∧ wf v end) kvs)
  | _ => True
  end.

Lemma fold_and_Forall {A} (P : A → Prop) l : foldr (λ Q acc, Q ∧ acc) True (map P l) ↔ Forall P l.
Proof. induction l; simpl; [done|]. by rewrite IHl, Forall_cons. Qed.

Lemma fold_max_le {A} (f : A → N) d l :
  (foldr (λ d acc, N.max d acc) 0 (map f l) <= d)%N ↔ Forall (λ x, f x <= d)%N l.
Proof. induction l as [|x l IH]; simpl; [split; [constructor|lia]|]. rewrite Forall_cons, <- IH. lia. Qed.

Lemma wf_arr l : wf (JArr l) ↔ Forall wf l.
Proof. apply fold_and_Forall. Qed.

Lemma wf_obj kvs : wf (JObj kvs) ↔ Forall (λ p, Utf8.valid p.1 = true ∧ wf p.2) kvs.
Proof.
  simpl. rewrite (fold_and_Forall (λ p, match p with (k, v) => Utf8.valid k = true ∧ wf v end)).
  apply Forall_iff. by intros [k v].
Qed.

Lemma depth_arr l d : (depth (JArr l) <= d)%N ↔ (1 <= d)%N ∧ Forall (λ v, depth v <= d - 1)%N l.
Proof. rewrite <- fold_max_le. simpl. lia. Qed.

Lemma depth_obj kvs d :
  (depth (JObj kvs) <= d)%N ↔ (1 <= d)%N ∧ Forall (λ p, depth p.2 <= d - 1)%N kvs.
Proof.
  rewrite <- (fold_max_le (λ p : string * json, depth p.2)). simpl.
  rewrite (map_ext (λ p : string * json, let '(_, v) := p in depth v) (λ p, depth p.2)) by by intros [].
  lia.
Qed.

(** *** Printing *)

(** Compact text of a tree in the order of its members, with the string encoder [q]. *)
Fixpoint text (q : string → string) (j : json) : string :=
  match j with
  | JNull => "null"
  | JBool true => "true"
  | JBool false => "false"
  | JNum n => n
  | JStr s => q s
  | JArr l => "[" +:+ join "," (map (text q) l) +:+ "]"
  | JObj kvs =>
      "{" +:+ join "," (map (λ p, match p with (k, v) => q k +:+ ":" +:+ text q v end) kvs) +:+ "}"
  end.

(** A string encoder the decoder inverts. *)
Definition quoter (q : string → string) : Prop := ∀ s t,
  Utf8.valid s = true →
  ∃ u b, q s = String (Nb 0x22) u ∧ Lit.scan_string (u +:+ t) = Some (b, t) ∧ Lit.unquote b = s.

Lemma quote_quoter : quoter Lit.quote.
Proof.
  intros s t Hs. destruct (LitFacts.scan_quote s t Hs) as (b & H1 & H2).
  by exists (sdrop 1 (Lit.quote s)), b.
Qed.

Definition delim (t : string) : Prop := NumFacts.num_end t.

Lemma skip_ws_head c t : is_ws c = false → skip_ws (String c t) = String c t.
Proof. simpl. by intros ->. Qed.

Lemma num_head_char c : Num.is_digit c = true ∨ c = "-"%char →
  is_ws c = false ∧ ceqb c "{"%char = false ∧ ceqb c "["%char = false ∧ (bN c =? 0x22)%N = false ∧
  ceqb c "t"%char = false ∧ ceqb c "f"%char = false ∧ ceqb c "n"%char = false ∧ ceqb c "]"%char = false.
Proof.
  intros [H| ->]; [|done]. unfold Num.is_digit in H. apply andb_true_iff in H as [H1%N.leb_le H2%N.leb_le].
  assert (Hne : ∀ k, ¬ (0x30 <= bN k <= 0x39)%N → ceqb c k = false) by (intros k Hk; apply ceqb_false; intros ->; lia).
  unfold is_ws. rewrite !orb_false_iff, !N.eqb_neq. split_and!; try lia; apply Hne; vm_compute; intuition congruence.
Qed.

Lemma has_prefix_head c r c' p : ceqb c c' = false → has_prefix (String c r) (String c' p) = false.
Proof. intros H%ceqb_false. apply seqb_false. simpl. congruence. Qed.

Lemma text_head q v : quoter q → wf v →
  ∃ c r, text q v = String c r ∧ is_ws c = false ∧ ceqb c "]"%char = false.
Proof.
  intros Hq Hv. destruct v as [|[]|n|s|l|kvs]; try by eexists _, _.
  - destruct (NumFacts.valid_num_head n Hv) as (c & r & -> & Hc). exists c, r.
    by destruct (num_head_char c Hc) as (? & _ & _ & _ & _ & _ & _ & ?).
  - destruct (Hq s "" Hv) as (u & b & Hs & _). simpl. rewrite Hs. by eexists _, _.
Qed.

Lemma text_nonempty q v : quoter q → wf v → 1 ≤ slen (text q v).
Proof. intros Hq Hv. destruct (text_head q v Hq Hv) as (c & r & -> & _). simpl. lia. Qed.

Section Parse.
  Context (q : string → string) (Hq : quoter q).

Definition parses (v : json) : Prop := ∀ d f t,
  (depth v <= d)%N → slen (text q v) + 1 ≤ f → delim t →
  parse_value f d (text q v +:+ t) = Some (v, t).

Lemma parses_num n : NumFacts.valid_num n → parses (JNum n).
Proof.
  intros Hn d [|f] t _ Hf Ht; simpl in *; [lia|].
  destruct (NumFacts.valid_num_head n Hn) as (c & r & -> & Hc).
  destruct (num_head_char c Hc) as (H1 & H2 & H3 & H4 & H5 & H6 & H7 & _).
  simpl. rewrite H1, H2, H3, H4, !has_prefix_head by done.
  destruct (NumFacts.scan_app _ _ _ Hn) as (_ & _ & Ha). specialize (Ha t Ht). simpl in Ha. by rewrite Ha.
Qed.

Lemma parses_str s : Utf8.valid s = true → parses (JStr s).
Proof.
  intros Hs d [|f] t _ Hf Ht; [lia|]. cbn [text].
  destruct (Hq s t Hs) as (u & b & Hqs & Hb & Hub). rewrite Hqs. simpl. rewrite Hb. simpl. by rewrite Hub.
Qed.

Lemma parses_elements l : l ≠ [] → Forall wf l → Forall parses l → ∀ d f t,
  Forall (λ v, depth v <= d)%N l → slen (join "," (map (text q) l)) + 2 ≤ f →
  parse_elements f d (join "," (map (text q) l) +:+ "]" +:+ t) = Some (l, t).
Proof.
  induction l as [|v l IH]; [done|]. intros _ [Hw Hws]%Forall_cons [Hp Hps]%Forall_cons d [|f] t
    [Hd Hds]%Forall_cons Hf; [lia|].
  destruct l as [|v' l].
  - cbn [map join] in *. cbn [parse_elements]. rewrite Hp by (done || lia). done.
  - change (join "," (map (text q) (v :: v' :: l)))
      with (text q v +:+ "," +:+ join "," (map (text q) (v' :: l))) in *.
    pose proof (text_nonempty q v Hq Hw).
    pose proof (IH ltac:(done) Hws Hps d f t Hds) as IH'.
    set (J := join "," (map (text q) (v' :: l))) in *. clearbody J.
    rewrite !slen_app in Hf. simpl in Hf.
    cbn [parse_elements]. rewrite !sapp_assoc, Hp by (done || lia). simpl.
    simpl in IH'. by rewrite IH' by lia.
Qed.

Definition member_text (p : string * json) : string :=
  match p with (k, v) => q k +:+ ":" +:+ text q v end.

Lemma parses_members kvs : kvs ≠ [] →
  Forall (λ p, Utf8.valid p.1 = true ∧ wf p.2) kvs → Forall (λ p, parses p.2) kvs → ∀ d f t,
  Forall (λ p, depth p.2 <= d)%N kvs → slen (join "," (map member_text kvs)) + 1 ≤ f →
  parse_members f d (join "," (map member_text kvs) +:+ "}" +:+ t) = Some (kvs, t).
Proof.
  induction kvs as [|[k v] kvs IH]; [done|]. intros _ [[Hk Hw] Hws]%Forall_cons [Hp Hps]%Forall_cons d [|f] t
    [Hd Hds]%Forall_cons Hf; [lia|]. simpl in Hk, Hw, Hp, Hd.
  assert (Hfst : ∀ rest, delim rest → slen (text q v) + 1 ≤ f →
    parse_members (S f) d (member_text (k, v) +:+ rest) =
      match skip_ws rest with
      | String c3 k4 =>
          if ceqb c3 ","%char then
            '(kvs, k5) ← parse_members f d k4; Some ((k, v) :: kvs, k5)
          else if ceqb c3 "}"%char then Some ([(k, v)], k4)
          else None
      | "" => None
      end).
  { intros rest Hr Hl. unfold member_text. rewrite !sapp_assoc.
    destruct (Hq k (":" +:+ text q v +:+ rest) Hk) as (u & b & -> & Hb & Hub). cbn [String.append parse_members].
    rewrite skip_ws_head by done. simpl in Hb |- *. rewrite Hb. simpl. rewrite Hp by done. simpl. by rewrite Hub. }
  assert (Hlen : slen (text q v) + 2 ≤ slen (member_text (k, v))).
  { simpl. rewrite !slen_app. destruct (Hq k "" Hk) as (u & b & -> & _). simpl. lia. }
  destruct kvs as [|kv kvs].
  - cbn [map join] in *. rewrite Hfst by (done || lia). done.
  - change (join "," (map member_text ((k, v) :: kv :: kvs)))
      with (member_text (k, v) +:+ "," +:+ join "," (map member_text (kv :: kvs))) in *.
    pose proof (IH ltac:(done) Hws Hps d f t Hds) as IH'.
    set (J := join "," (map member_text (kv :: kvs))) in *. clearbody J.
    rewrite !slen_app in Hf. cbn [String.length] in Hf. rewrite !sapp_assoc, Hfst by (done || lia).
    simpl. simpl in IH'. by rewrite IH' by lia.
Qed.

(** Print-then-parse, whatever (delimited) text follows. *)
Lemma parse_text v : wf v → parses v.
Proof.
  induction v as [|[]|n|s|l IH|kvs IH] using json_ind'; intros Hw;
    try (intros d [|f] t Hd Hf Ht; [simpl in Hf; lia|done]).
  - by apply parses_num.
  - by apply parses_str.
  - apply wf_arr in Hw. assert (Hp : Forall parses l) by exact (Forall_mp _ _ _ IH Hw).
    intros d [|f] t [Hd1 Hd]%depth_arr Hf Ht; [lia|]. destruct l as [|v l]; [simpl; by destruct (N.eqb_spec d 0); [lia|]|].
    cbn [text] in Hf |- *. rewrite !slen_app in Hf. rewrite !sapp_assoc. simpl in Hf.
    pose proof (Hw) as [Hv _]%Forall_cons.
    destruct (text_head q v Hq Hv) as (c & r & Hc & H1 & H2).
    assert (∃ r', join "," (map (text q) (v :: l)) = String c r') as [r' Hr'].
    { simpl. destruct (map (text q) l); rewrite Hc; by eexists. }
    cbn [parse_value String.append]. rewrite skip_ws_head by done. simpl (ceqb _ _).
    destruct (N.eqb_spec d 0); [lia|].
    pose proof (parses_elements (v :: l) ltac:(done) Hw Hp (d - 1) f t Hd ltac:(simpl in *; lia)) as He.
    rewrite Hr' in He |- *. cbn [String.append] in He |- *. rewrite skip_ws_head, H2 by done. by rewrite He.
  - apply wf_obj in Hw.
    assert (Hp : Forall (λ p, parses p.2) kvs).
    { eapply Forall_mp; [exact IH|]. eapply Forall_impl; [exact Hw|]. by intros p [_ ?]. }
    intros d [|f] t [Hd1 Hd]%depth_obj Hf Ht; [lia|].
    destruct kvs as [|[k v] kvs]; [simpl; by destruct (N.eqb_spec d 0); [lia|]|].
    cbn [text] in Hf |- *. change (λ p, match p with (k, v) => q k +:+ ":" +:+ text q v end) with member_text in *.
    rewrite !slen_app in Hf. rewrite !sapp_assoc. cbn [String.length] in Hf.
    pose proof Hw as [[Hk _] _]%Forall_cons. simpl in Hk.
    destruct (Hq k "" Hk) as (u & b & Hu & _).
    assert (∃ r', join "," (map member_text ((k, v) :: kvs)) = String (Nb 0x22) r') as [r' Hr'].
    { simpl. rewrite Hu. destruct (map member_text kvs); by eexists. }
    pose proof (parses_members ((k, v) :: kvs) ltac:(done) Hw Hp (d - 1) f t Hd ltac:(lia)) as He.
    cbn [parse_value String.append]. rewrite skip_ws_head by done. simpl (ceqb _ _).
    destruct (N.eqb_spec d 0); [lia|].
    rewrite Hr' in He |- *. cbn [String.append] in He |- *. rewrite skip_ws_head by done. simpl (ceqb _ _). by rewrite He.
Qed.
End Parse.

(** ** What the decoder produces *)

Ltac bind_inv :=
  repeat match goal with
  | H : mbind _ ?o = Some _ |- _ =>
      let E := fresh "E" in destruct o as [[? ?]|] eqn:E; simpl in H; [|discriminate H]
  | H : match skip_ws ?s with _ => _ end = Some _ |- _ =>
      let E := fresh "Ew" in destruct (skip_ws s) as [|? ?] eqn:E; [discriminate H|]
  | H : (if ?b then _ else _) = Some _ |- _ => let E := fresh "Eb" in destruct b eqn:E
  | H : None = Some _ |- _ => discriminate H
  | H : Some _ = Some _ |- _ => injection H as H
  | H : (_, _) = (_, _) |- _ => injection H as H; subst
  end; subst.

Definition good (d : N) (v : json) : Prop := wf v ∧ (depth v <= d)%N.
Definition good_member (d : N) (p : string * json) : Prop :=
  Utf8.valid p.1 = true ∧ wf p.2 ∧ (depth p.2 <= d)%N.

Lemma good_arr d l : (0 < d)%N → Forall (good (d - 1)) l → good d (JArr l).
Proof.
  intros Hd Hl. split; [apply wf_arr|apply depth_arr; split; [lia|]];
    (eapply Forall_impl; [exact Hl|by intros ? [? ?]]).
Qed.

Lemma good_obj d kvs : (0 < d)%N → Forall (good_member (d - 1)) kvs → good d (JObj kvs).
Proof.
  intros Hd Hl. split; [apply wf_obj|apply depth_obj; split; [lia|]];
    (eapply Forall_impl; [exact Hl|intros ? (? & ? & ?); auto]).
Qed.

Lemma parse_good f :
  (∀ d s v k, parse_value f d s = Some (v, k) → good d v) ∧
  (∀ d s kvs k, parse_members f d s = Some (kvs, k) → Forall (good_member d) kvs) ∧
  (∀ d s l k, parse_elements f d s = Some (l, k) → Forall (good d) l).
Proof.
  induction f as [|f (IHv & IHm & IHe)]; [done|]. split_and!.
  - intros d s v k H. cbn [parse_value] in H. bind_inv; try (split; [done|simpl; lia]).
    all: repeat match goal with E : (?d =? 0)%N = false |- _ => apply N.eqb_neq in E end.
    + apply good_obj; [lia|constructor].
    + apply good_obj; [lia|by eapply IHm].
    + apply good_arr; [lia|constructor].
    + apply good_arr; [lia|by eapply IHe].
    + split; [apply LitFacts.unquote_valid|simpl; lia].
    + split; [by eapply NumFacts.scan_valid|simpl; lia].
  - intros d s kvs k H. cbn [parse_members] in H. bind_inv.
    all: constructor; [split; [apply LitFacts.unquote_valid|by eapply IHv]|].
    + by eapply IHm.
    + constructor.
  - intros d s l k H. cbn [parse_elements] in H. bind_inv; constructor; [by eapply IHv|by eapply IHe|by eapply IHv|constructor].
Qed.

Lemma map_set_Forall {A} (P : string * A → Prop) k v m :
  P (k, v) → Forall P m → Forall P (map_set k v m).
Proof.
  intros Hk. induction m as [|[k' v'] m IH]; simpl; intros Hm; [by constructor|].
  apply Forall_cons in Hm as [H1 H2]. destruct (k =s k'); constructor; auto.
Qed.

Lemma foldl_map_set_Forall {A} (P : string * A → Prop) l m :
  Forall P l → Forall P m → Forall P (foldl (λ m p, map_set p.1 p.2 m) m l).
Proof.
  revert m. induction l as [|[k v] l IH]; simpl; intros m Hl Hm; [done|].
  apply Forall_cons in Hl as [H1 H2]. apply IH; [done|]. by apply map_set_Forall.
Qed.

Lemma to_any_good v : ∀ d, good d v → good d (to_any v).
Proof.
  induction v as [|b|n|s|l IH|kvs IH] using json_ind'; intros d [Hw Hd]; try done.
  - apply wf_arr in Hw. apply depth_arr in Hd as [Hd1 Hd]. apply good_arr; [lia|].
    apply Forall_fmap. rewrite Forall_forall in *. intros x Hx. apply IH; [done|]. split; auto.
  - apply wf_obj in Hw. apply depth_obj in Hd as [Hd1 Hd]. apply good_obj; [lia|].
    apply foldl_map_set_Forall; [|constructor]. apply Forall_fmap. rewrite Forall_forall in *.
    intros [k x] Hx. pose proof (Hw _ Hx) as [? ?]. split; [done|]. simpl in *.
    exact (IH _ Hx (d - 1)%N (conj (proj2 (Hw _ Hx)) (Hd _ Hx))).
Qed.

(** *** Maps hold each key once *)

Lemma map_set_keys {A} k (v : A) m k' :
  k' ∈ map fst (map_set k v m) ↔ k' = k ∨ k' ∈ map fst m.
Proof.
  induction m as [|[k0 v0] m IH]; simpl; [set_solver|].
  destruct (k =s k0) eqn:E; simpl; str_inv; set_solver.
Qed.

Lemma map_set_nodup {A} k (v : A) m : NoDup (map fst m) → NoDup (map fst (map_set k v m)).
Proof.
  induction m as [|[k0 v0] m IH]; simpl; [intros _; by apply NoDup_singleton|].
  intros [H1 H2]%NoDup_cons. destruct (k =s k0) eqn:E; str_inv; simpl; [by apply NoDup_cons|].
  apply NoDup_cons. split; [|by apply IH]. rewrite map_set_keys. set_solver.
Qed.

(** Every object of the tree holds each key once: the trees [any] decoding builds. *)
Fixpoint distinct (j : json) : Prop :=
  match j with
  | JArr l => foldr (λ P acc, P ∧ acc) True (map distinct l)
  | JObj kvs => NoDup (map fst kvs) ∧
      foldr (λ P acc, P ∧ acc) True (map (λ p, match p with (_, v) => distinct v end) kvs)
  | _ => True
  end.

Lemma distinct_arr l : distinct (JArr l) ↔ Forall distinct l.
Proof. apply fold_and_Forall. Qed.

Lemma distinct_obj kvs : distinct (JObj kvs) ↔ NoDup (map fst kvs) ∧ Forall (λ p, distinct p.2) kvs.
Proof.
  simpl. rewrite (fold_and_Forall (λ p, match p with (_, v) => distinct v end)).
  f_equiv. apply Forall_iff. by intros [k v].
Qed.

Lemma to_any_distinct v : distinct (to_any v).
Proof.
  induction v as [|b|n|s|l IH|kvs IH] using json_ind'; try done.
  - simpl. rewrite fold_and_Forall. by apply Forall_fmap.
  - cbn [to_any]. apply distinct_obj. split.
    + generalize (map (λ p, let '(k, v) := p in (k, to_any v)) kvs). intros l.
      assert (H : NoDup (map fst ([] : list (string * json)))) by constructor.
      revert H. generalize ([] : list (string * json)). induction l as [|[k v] l IHl]; intros m Hm; simpl; [done|].
      apply IHl. by apply map_set_nodup.
    + apply foldl_map_set_Forall; [|constructor]. apply Forall_fmap.
      eapply Forall_impl; [exact IH|]. by intros [k v].
Qed.

(** ** Integers print as number literals *)

Module IntFacts.
Import Num.

Fixpoint all_digits (s : string) : bool :=
  match s with "" => true | String c r => is_digit c && all_digits r end.

Lemma all_digits_app a b : all_digits (a +:+ b) = all_digits a && all_digits b.
Proof. induction a as [|c a IH]; simpl; [done|]. by rewrite IH, andb_assoc. Qed.

Lemma take_all_digits s : all_digits s = true → take_digits s = (s, "").
Proof. induction s as [|c s IH]; simpl; [done|]. intros [-> Hs]%andb_prop. by rewrite IH. Qed.

Lemma char_digit x : (x < 10)%N → is_digit (pretty_N_char x) = true ∧ (bN (pretty_N_char x) - 0x30 = x)%N.
Proof.
  intros Hx. assert (x = 0 ∨ x = 1 ∨ x = 2 ∨ x = 3 ∨ x = 4 ∨ x = 5 ∨ x = 6 ∨ x = 7 ∨ x = 8 ∨ x = 9)%N as Hc by lia.
  repeat destruct Hc as [->|Hc]; try (split; vm_compute; reflexivity). subst. split; vm_compute; reflexivity.
Qed.

Lemma digits_val_snoc acc d c : all_digits d = true → is_digit c = true →
  digits_val acc (d +:+ String c "") = (v ← digits_val acc d; Some (v * 10 + Z.of_N (bN c - 0x30)))%Z.
Proof.
  intros Hd Hc. revert acc. induction d as [|x d IH]; intros acc; simpl in *; [by rewrite Hc|].
  apply andb_prop in Hd as [-> Hd]. by apply IH.
Qed.

Lemma go_digits x s : (0 < x)%N → ∃ c d, pretty_N_go x s = String c (d +:+ s) ∧ is_digit c = true ∧
  ceqb c "0" = false ∧ all_digits d = true ∧ digits_val 0 (String c d) = Some (Z.of_N x).
Proof.
  revert s. induction (N.lt_wf_0 x) as [x _ IH]. intros s Hx. rewrite pretty_N_go_step by done.
  pose proof (N.mod_lt x 10 ltac:(lia)) as Hm. destruct (char_digit _ Hm) as [Hc Hv].
  destruct (decide (x < 10)%N) as [Hs|Hs].
  - rewrite N.div_small, pretty_N_go_0, N.mod_small in * by done. exists (pretty_N_char x), "".
    split_and!; try done.
    + apply ceqb_false. intros E. rewrite E in Hv. vm_compute in Hv. lia.
    + simpl. rewrite Hc. f_equal. rewrite Hv. lia.
  - destruct (IH (x / 10)%N ltac:(apply N.div_lt; lia) (String (pretty_N_char (x mod 10)) s)
      ltac:(apply N.div_str_pos; lia)) as (c & d & E & H1 & H2 & H3 & H4).
    exists c, (d +:+ String (pretty_N_char (x mod 10)) ""). rewrite E, sapp_assoc.
    split_and!; try done.
    + rewrite all_digits_app, H3. simpl. by rewrite Hc.
    + change (String c (d +:+ String (pretty_N_char (x mod 10)) "")) with (String c d +:+ String (pretty_N_char (x mod 10)) "").
      rewrite digits_val_snoc by (done || (simpl; by rewrite H1)). rewrite H4. cbn [mbind option_bind]. f_equal. rewrite Hv.
      pose proof (N.div_mod x 10 ltac:(lia)). lia.
Qed.

(** A natural number's text: "0", or digits the first of which is not 0. *)
Lemma nat_text (n : N) : ∃ c d, pretty n = String c d ∧ is_digit c = true ∧ all_digits d = true ∧
  (ceqb c "0" = true → d = "") ∧ digits_val 0 (String c d) = Some (Z.of_N n).
Proof.
  unfold pretty, pretty_N. destruct (decide (n = 0%N)) as [->|Hn].
  - exists "0"%char, "". split_and!; done.
  - destruct (go_digits n "" ltac:(lia)) as (c & d & E & H1 & H2 & H3 & H4). exists c, d.
    rewrite E, sapp_nil_r. split_and!; try done. congruence.
Qed.

Lemma unsigned_nat (n : N) : unsigned (pretty n) = Some (pretty n, "").
Proof.
  destruct (nat_text n) as (c & d & -> & H1 & H2 & H3 & _). unfold unsigned. simpl.
  destruct (ceqb c "0") eqn:E.
  - rewrite H3 by done. apply ceqb_true in E as ->. reflexivity.
  - unfold digits1. simpl. rewrite H1, (take_all_digits d H2). simpl. by rewrite sapp_nil_r.
Qed.

Lemma itoa_cases z : (∃ n : N, itoa z = pretty n ∧ z = Z.of_N n) ∨
  (∃ n : N, itoa z = String "-" (pretty n) ∧ z = (- Z.of_N n)%Z ∧ (0 < n)%N).
Proof.
  unfold itoa. destruct z as [|p|p]; [left; by exists 0%N|left; by exists (Npos p)|right; by exists (Npos p)].
Qed.

Lemma digit_not_dash c : is_digit c = true → ceqb c "-" = false.
Proof. intros Hd. apply ceqb_false. by intros ->. Qed.

Lemma itoa_valid_num z : NumFacts.valid_num (itoa z).
Proof.
  unfold NumFacts.valid_num. destruct (itoa_cases z) as [(n & -> & _)|(n & -> & _)].
  - destruct (nat_text n) as (c & d & E & H1 & _). pose proof (unsigned_nat n) as Hu. rewrite E in *.
    unfold scan. by rewrite digit_not_dash.
  - unfold scan. simpl (ceqb _ _). cbn iota. by rewrite unsigned_nat.
Qed.

(** strconv.ParseInt reads back what strconv.Itoa writes. *)
Lemma parse_itoa z : (- 2 ^ 63 <= z < 2 ^ 63)%Z → parse_int (itoa z) = Some z.
Proof.
  intros Hz. unfold parse_int. destruct (itoa_cases z) as [(n & -> & ->)|(n & -> & -> & Hn)].
  - destruct (nat_text n) as (c & d & -> & H1 & _ & _ & Hv). rewrite digit_not_dash by done.
    assert ((String c d =s "") = false) as -> by done. rewrite Hv. cbn [mbind option_bind].
    by rewrite (proj2 (Z.leb_le _ _) (proj1 Hz)), (proj2 (Z.ltb_lt _ _) (proj2 Hz)).
  - rewrite (proj2 (ceqb_true "-" "-")) by done. destruct (nat_text n) as (c & d & -> & H1 & _ & _ & Hv).
    assert ((String c d =s "") = false) as -> by done. rewrite Hv. cbn [mbind option_bind].
    by rewrite (proj2 (Z.leb_le _ _) (proj1 Hz)), (proj2 (Z.ltb_lt _ _) (proj2 Hz)).
Qed.

End IntFacts.
