(* ===== verification/CanonJson.v ===== *)
(** * internal/canonjson: the canonical encoding that signatures cover

    [writeValue] and [writeString] translate the functions of the same name; [MarshalRaw]
    decodes with Go's json.Decoder, refuses trailing data the way the code does and writes
    the tree; [Marshal] first runs json.Marshal. The theorems: the output depends only on
    the value (not on member order or blanks), it determines the value, canonicalising
    twice changes nothing, and a [null] anywhere is the one rejection of the writer. *)

From S2P Require Import Prelude Encoding Json.

Inductive canon_error := ErrDecode | ErrTrailing | ErrNullForbidden.

(** sort.Strings: byte order. *)
Definition sort_strings : list string → list string := merge_sort String.le.

(** Run the writers in order, stop at the first error. *)
Fixpoint seq_results {E} (rs : list (result E string)) : result E (list string) :=
  match rs with
  | [] => Ok []
  | r :: rs' => let! s := r in let! ss := seq_results rs' in Ok (s :: ss)
  end.

Definition writeString (s : string) : string := Lit.quote s.

(** x[k]; a missing key would read nil. *)
Fixpoint map_get {E} (nil_value : E) (k : string) (m : list (string * E)) : E :=
  match m with
  | [] => nil_value
  | (k', v) :: m' => if k =s k' then v else map_get nil_value k m'
  end.

(** case []any. *)
Definition writeArray (rs : list (result canon_error string)) : result canon_error string :=
  let! parts := seq_results rs in Ok ("[" +:+ join "," parts +:+ "]").

(** case map[string]any: keys in byte order, whatever order the map yields them in. *)
Definition writeObject (m : list (string * result canon_error string)) : result canon_error string :=
  let! parts := seq_results (map (λ k,
      let! t := map_get (Err ErrNullForbidden) k m in
      Ok (writeString k +:+ ":" +:+ t)) (sort_strings (map fst m))) in
  Ok ("{" +:+ join "," parts +:+ "}").

Fixpoint writeValue (v : json) : result canon_error string :=
  match v with
  | JNull => Err ErrNullForbidden
  | JBool true => Ok "true"
  | JBool false => Ok "false"
  | JStr s => Ok (writeString s)
  | JNum n => Ok n
  | JArr l => writeArray (map writeValue l)
  | JObj kvs => writeObject (map (λ p, match p with (k, x) => (k, writeValue x) end) kvs)
  end.

Definition MarshalRaw (bs : string) : result canon_error string :=
  let! p := of_option ErrDecode (decoder_decode bs) in
  check! guard_err (negb (decoder_more (snd p))) ErrTrailing in
  writeValue (to_any (fst p)).

(** ** json.Marshal of a hand-built value (maps, slices, strings, integers)

    HTML characters are escaped, map keys are sorted. *)

Definition escape_html (p : option N * string) : string :=
  match p.1 with
  | Some r => if (r =? 0x3C)%N then "\u003c" else if (r =? 0x3E)%N then "\u003e"
              else if (r =? 0x26)%N then "\u0026" else Lit.escape p
  | None => Lit.escape p
  end.

Definition quote_html (s : string) : string :=
  Lit.chr 0x22 +:+ foldr (λ p acc, escape_html p +:+ acc) "" (Utf8.runes s) +:+ Lit.chr 0x22.

Definition key_le (a b : string * json) : Prop := String.le a.1 b.1.
#[export] Instance key_le_dec : RelDecision key_le.
Proof. intros a b. unfold key_le. apply _. Defined.

(** The tree with the members of every object in key order. *)
Fixpoint canon (v : json) : json :=
  match v with
  | JArr l => JArr (map canon l)
  | JObj kvs => JObj (merge_sort key_le (map (λ p, match p with (k, x) => (k, canon x) end) kvs))
  | _ => v
  end.

Definition json_marshal (v : json) : string := text quote_html (canon v).

Definition Marshal (v : json) : result canon_error string := MarshalRaw (json_marshal v).

(** ** No null anywhere *)
Fixpoint null_free (v : json) : Prop :=
  match v with
  | JNull => False
  | JArr l => foldr (λ P acc, P ∧ acc) True (map null_free l)
  | JObj kvs => foldr (λ P acc, P ∧ acc) True (map (λ p, match p with (_, x) => null_free x end) kvs)
  | _ => True
  end.

(** Equal up to the order of object members, at every level. *)
Inductive jeq : json → json → Prop :=
| jeq_refl v : jeq v v
| jeq_sym v w : jeq v w → jeq w v
| jeq_trans u v w : jeq u v → jeq v w → jeq u w
| jeq_elem l1 x y l2 : jeq x y → jeq (JArr (l1 ++ x :: l2)) (JArr (l1 ++ y :: l2))
| jeq_member l1 k x y l2 : jeq x y → jeq (JObj (l1 ++ (k, x) :: l2)) (JObj (l1 ++ (k, y) :: l2))
| jeq_perm kvs kvs' : kvs ≡ₚ kvs' → jeq (JObj kvs) (JObj kvs').

#[export] Instance jeq_equiv : Equivalence jeq.
Proof. split; [exact jeq_refl|exact jeq_sym|exact jeq_trans]. Qed.

(** ** Sorting members by key *)

Lemma null_free_arr l : null_free (JArr l) ↔ Forall null_free l.
Proof. apply fold_and_Forall. Qed.

Lemma null_free_obj kvs : null_free (JObj kvs) ↔ Forall (λ p, null_free p.2) kvs.
Proof.
  simpl. rewrite (fold_and_Forall (λ p, match p with (_, v) => null_free v end)).
  apply Forall_iff. by intros [k v].
Qed.

#[export] Instance key_le_total : Total key_le.
Proof. intros a b. apply (total String.le). Qed.
#[export] Instance key_le_trans : Transitive key_le.
Proof. intros a b c. unfold key_le. apply transitivity. Qed.

Lemma nodup_fst {A} (l : list (string * A)) k v v' :
  NoDup (map fst l) → (k, v) ∈ l → (k, v') ∈ l → v = v'.
Proof.
  induction l as [|[k0 v0] l IH]; simpl; [set_solver|].
  intros [Hk Hn]%NoDup_cons. rewrite !elem_of_cons. intros [?|H1] [?|H2]; simplify_eq; auto.
  - destruct Hk. change k0 with ((k0, v').1). by apply list_elem_of_fmap_2.
  - destruct Hk. change k0 with ((k0, v).1). by apply list_elem_of_fmap_2.
Qed.

(** With each key once, the sorted list is unique. *)
Lemma msort_unique l l' :
  NoDup (map fst l) → l ≡ₚ l' → StronglySorted key_le l' → merge_sort key_le l = l'.
Proof.
  intros Hn Hp Hs. apply (StronglySorted_unique_strong key_le).
  - intros [k v] [k' v'] H1 H2 L1 L2. rewrite merge_sort_Permutation in H1. rewrite <- Hp in H2.
    assert (k = k') as <- by exact (anti_symm String.le _ _ L1 L2). f_equal. by eapply nodup_fst.
  - apply (StronglySorted_merge_sort _).
  - done.
  - by rewrite merge_sort_Permutation.
Qed.

Lemma sorted_map (g : string * json → string * json) l :
  (∀ p, (g p).1 = p.1) → StronglySorted key_le l → StronglySorted key_le (map g l).
Proof.
  intros Hg. induction 1 as [|p l Hs IH Hf]; simpl; constructor; [done|].
  apply Forall_fmap. eapply Forall_impl; [exact Hf|]. intros x Hx. unfold key_le in *. simpl. by rewrite !Hg.
Qed.

Lemma keys_map {A B} (g : string * A → string * B) l : (∀ p, (g p).1 = p.1) → map fst (map g l) = map fst l.
Proof. intros Hg. rewrite map_map. by apply map_ext. Qed.

Lemma msort_map (g : string * json → string * json) l :
  (∀ p, (g p).1 = p.1) → NoDup (map fst l) →
  merge_sort key_le (map g l) = map g (merge_sort key_le l).
Proof.
  intros Hg Hn. apply msort_unique; [by rewrite keys_map| |by apply sorted_map, (StronglySorted_merge_sort _)].
  change (g <$> l ≡ₚ g <$> merge_sort key_le l). by rewrite merge_sort_Permutation.
Qed.

Lemma msort_keys l : sort_strings (map fst l) = map fst (merge_sort key_le l).
Proof.
  apply (StronglySorted_unique String.le); [apply (StronglySorted_merge_sort _)| |].
  - assert (H : StronglySorted key_le (merge_sort key_le l)) by apply (StronglySorted_merge_sort _).
    induction H as [|p m Hs IH Hf]; simpl; constructor; [done|].
    apply Forall_fmap. eapply Forall_impl; [exact Hf|]. done.
  - unfold sort_strings. rewrite merge_sort_Permutation.
    change (fst <$> l ≡ₚ fst <$> merge_sort key_le l). by rewrite merge_sort_Permutation.
Qed.

Lemma map_get_elem {E} (d : E) k v m : NoDup (map fst m) → (k, v) ∈ m → map_get d k m = v.
Proof.
  induction m as [|[k' v'] m IH]; simpl; [set_solver|]. intros [Hk Hn]%NoDup_cons.
  rewrite elem_of_cons. destruct (k =s k') eqn:Ek; str_inv.
  - intros [?|H]; [by simplify_eq|]. destruct Hk. change k' with ((k', v).1). by apply list_elem_of_fmap_2.
  - intros [?|H]; [by simplify_eq|auto].
Qed.

Lemma seq_results_ok {A E} (g : A → string) (f : A → result E string) l :
  Forall (λ x, f x = Ok (g x)) l → seq_results (map f l) = Ok (map g l).
Proof. induction 1 as [|x l Hx _ IH]; simpl; [done|]. by rewrite Hx, IH. Qed.

Lemma seq_results_inv {A E} (f : A → result E string) l ss :
  seq_results (map f l) = Ok ss → Forall (λ x, is_ok (f x) = true) l.
Proof.
  revert ss. induction l as [|x l IH]; simpl; intros ss H; [constructor|]. res_inv. constructor; eauto.
  by match goal with H : f x = Ok _ |- _ => rewrite H end.
Qed.

Lemma seq_results_err {A E} (e : E) (f : A → result E string) l e' :
  Forall (λ x, ∀ e', f x = Err e' → e' = e) l → seq_results (map f l) = Err e' → e' = e.
Proof.
  induction 1 as [|x l Hx _ IH]; simpl; [done|]. destruct (f x) eqn:E1; simpl; [|intros [= <-]; auto].
  destruct (seq_results (map f l)); simpl; [done|]. intros [= <-]. auto.
Qed.

(** The object writer as one pass over the members in key order. *)
Definition write_member (p : string * json) : result canon_error string :=
  let! t := writeValue p.2 in Ok (writeString p.1 +:+ ":" +:+ t).

Lemma writeObject_sorted kvs : NoDup (map fst kvs) →
  writeValue (JObj kvs) =
    (let! parts := seq_results (map write_member (merge_sort key_le kvs)) in
     Ok ("{" +:+ join "," parts +:+ "}")).
Proof.
  intros Hn. cbn [writeValue]. unfold writeObject.
  set (m := map (λ p, match p with (k, x) => (k, writeValue x) end) kvs).
  assert (Hm : map fst m = map fst kvs) by (unfold m; rewrite map_map; apply map_ext; by intros [k v]).
  f_equal. f_equal. rewrite Hm, msort_keys, map_map. apply map_ext_in. intros [k x] Hin%list_elem_of_In.
  rewrite merge_sort_Permutation in Hin. unfold write_member. simpl.
  rewrite (map_get_elem _ k (writeValue x)); [done|by rewrite Hm|].
  unfold m. change (k, writeValue x) with ((λ p, match p with (k, x) => (k, writeValue x) end) (k, x)).
  by apply list_elem_of_fmap_2.
Qed.

(** ** The writer prints the sorted tree *)

Lemma canon_obj kvs : NoDup (map fst kvs) →
  canon (JObj kvs) = JObj (map (λ p, (p.1, canon p.2)) (merge_sort key_le kvs)).
Proof.
  intros Hn. cbn [canon]. f_equal.
  rewrite (map_ext (λ p : string * json, let '(k, x) := p in (k, canon x)) (λ p, (p.1, canon p.2))) by by intros [].
  by apply msort_map.
Qed.

Lemma write_canon v : distinct v → null_free v → writeValue v = Ok (text Lit.quote (canon v)).
Proof.
  induction v as [|[]|n|s|l IH|kvs IH] using json_ind'; try done.
  - rewrite distinct_arr, null_free_arr. intros Hd Hn. cbn [writeValue canon text]. unfold writeArray.
    rewrite (seq_results_ok (λ v, text Lit.quote (canon v))), map_map; [done|].
    exact (Forall_mp _ _ _ (Forall_mp _ _ _ IH Hd) Hn).
  - rewrite distinct_obj, null_free_obj. intros [Hk Hd] Hn. rewrite writeObject_sorted, canon_obj by done.
    cbn [text]. rewrite map_map, (seq_results_ok (λ p, writeString p.1 +:+ ":" +:+ text Lit.quote (canon p.2))); [done|].
    eapply Permutation_Forall; [symmetry; apply merge_sort_Permutation|].
    pose proof (Forall_mp _ _ _ (Forall_mp _ _ _ IH Hd) Hn) as H.
    eapply Forall_impl; [exact H|]. intros p Hp. unfold write_member. by rewrite Hp.
Qed.

Lemma write_ok_null_free v s : distinct v → writeValue v = Ok s → null_free v.
Proof.
  revert s. induction v as [|[]|n|x|l IH|kvs IH] using json_ind'; intros s; try done.
  - rewrite distinct_arr, null_free_arr. intros Hd H. cbn [writeValue] in H. unfold writeArray in H. res_inv.
    match goal with E : seq_results _ = Ok _ |- _ => apply seq_results_inv in E as Hok end.
    rewrite Forall_forall in *. intros v Hv. specialize (Hok v Hv).
    destruct (writeValue v) as [sv|] eqn:Ev; [|done]. by eapply IH; eauto.
  - rewrite distinct_obj, null_free_obj. intros [Hk Hd] H. rewrite writeObject_sorted in H by done. res_inv.
    match goal with E : seq_results _ = Ok _ |- _ => apply seq_results_inv in E as Hok end.
    rewrite merge_sort_Permutation in Hok. rewrite Forall_forall in *. intros p Hp.
    specialize (Hok p Hp). unfold write_member in Hok.
    destruct (writeValue p.2) as [sv|] eqn:Ev; [|done]. by eapply IH; eauto.
Qed.

Lemma write_err v e : distinct v → writeValue v = Err e → e = ErrNullForbidden.
Proof.
  revert e. induction v as [|[]|n|x|l IH|kvs IH] using json_ind'; intros e; try done; [by intros _ [= <-]|..].
  - rewrite distinct_arr. intros Hd H. cbn [writeValue] in H. unfold writeArray in H.
    destruct (seq_results (map writeValue l)) eqn:E; [done|]. injection H as <-.
    eapply (seq_results_err ErrNullForbidden); [|exact E].
    rewrite Forall_forall in *. intros v Hv e'. by apply IH, Hd.
  - rewrite distinct_obj. intros [Hk Hd] H. rewrite writeObject_sorted in H by done.
    destruct (seq_results _) eqn:E; [done|]. injection H as <-.
    eapply (seq_results_err ErrNullForbidden); [|exact E].
    rewrite merge_sort_Permutation. rewrite Forall_forall in *. intros p Hp e'.
    unfold write_member. destruct (writeValue p.2) eqn:Ep; [done|]. intros [= <-]. eapply IH; eauto.
Qed.

(** *** The sorted tree *)

Lemma canon_good v d : distinct v → good d v → good d (canon v).
Proof.
  revert d. induction v as [|b|n|s|l IH|kvs IH] using json_ind'; intros d Hd [Hw Hdep]; try done.
  - rewrite distinct_arr in Hd. apply wf_arr in Hw. apply depth_arr in Hdep as [H1 Hdep].
    apply good_arr; [lia|]. apply Forall_fmap. rewrite Forall_forall in *. intros v Hv. apply IH; auto. split; auto.
  - apply distinct_obj in Hd as [Hk Hd]. apply wf_obj in Hw. apply depth_obj in Hdep as [H1 Hdep].
    rewrite canon_obj by done. apply good_obj; [lia|]. apply Forall_fmap.
    rewrite merge_sort_Permutation. rewrite Forall_forall in *. intros p Hp.
    pose proof (Hw p Hp) as [? ?]. split; [done|]. simpl. apply IH; auto. split; auto.
Qed.

Lemma canon_distinct v : distinct v → distinct (canon v).
Proof.
  induction v as [|b|n|s|l IH|kvs IH] using json_ind'; try done.
  - rewrite distinct_arr. intros Hd. cbn [canon]. rewrite distinct_arr. apply Forall_fmap.
    exact (Forall_mp _ _ _ IH Hd).
  - rewrite distinct_obj. intros [Hk Hd]. rewrite canon_obj, distinct_obj by done. split.
    + rewrite keys_map by done. assert (Hp : map fst (merge_sort key_le kvs) ≡ₚ map fst kvs).
      { change (fst <$> merge_sort key_le kvs ≡ₚ fst <$> kvs). by rewrite merge_sort_Permutation. }
      by rewrite Hp.
    + apply Forall_fmap. rewrite merge_sort_Permutation. exact (Forall_mp _ _ _ IH Hd).
Qed.

Lemma canon_null_free v : distinct v → null_free v → null_free (canon v).
Proof.
  induction v as [|b|n|s|l IH|kvs IH] using json_ind'; try done.
  - rewrite distinct_arr, null_free_arr. intros Hd Hn. cbn [canon]. rewrite null_free_arr. apply Forall_fmap.
    exact (Forall_mp _ _ _ (Forall_mp _ _ _ IH Hd) Hn).
  - rewrite distinct_obj, null_free_obj. intros [Hk Hd] Hn. rewrite canon_obj, null_free_obj by done.
    apply Forall_fmap. rewrite merge_sort_Permutation. exact (Forall_mp _ _ _ (Forall_mp _ _ _ IH Hd) Hn).
Qed.

Lemma canon_idem v : distinct v → canon (canon v) = canon v.
Proof.
  induction v as [|b|n|s|l IH|kvs IH] using json_ind'; try done.
  - rewrite distinct_arr. intros Hd. cbn [canon]. f_equal. rewrite map_map. apply map_ext_in.
    intros v Hv%list_elem_of_In. rewrite Forall_forall in *. auto.
  - intros Hd. pose proof (canon_distinct _ Hd) as Hd'. revert Hd'. apply distinct_obj in Hd as [Hk Hd].
    rewrite canon_obj by done. rewrite distinct_obj. intros [Hk' _]. rewrite canon_obj by done. f_equal.
    rewrite msort_unique with (l' := map (λ p, (p.1, canon p.2)) (merge_sort key_le kvs));
      [|done|done|by apply sorted_map, (StronglySorted_merge_sort _)].
    rewrite map_map. apply map_ext_in. intros [k x] Hx%list_elem_of_In. simpl. f_equal.
    rewrite merge_sort_Permutation in Hx. rewrite Forall_forall in *. exact (IH _ Hx (Hd _ Hx)).
Qed.

Lemma to_any_id v : distinct v → to_any v = v.
Proof.
  induction v as [|b|n|s|l IH|kvs IH] using json_ind'; try done.
  - rewrite distinct_arr. intros Hd. cbn [to_any]. f_equal. rewrite <- (map_id l) at 2. apply map_ext_in.
    intros v Hv%list_elem_of_In. rewrite Forall_forall in *. auto.
  - rewrite distinct_obj. intros [Hk Hd]. cbn [to_any]. f_equal.
    assert (Hm : map (λ p, match p with (k, v) => (k, to_any v) end) kvs = kvs).
    { rewrite <- (map_id kvs) at 2. apply map_ext_in. intros [k v] Hv%list_elem_of_In.
      rewrite Forall_forall in *. f_equal. exact (IH _ Hv (Hd _ Hv)). }
    rewrite Hm. clear IH Hd Hm.
    assert (Hgen : ∀ m, NoDup (map fst (m ++ kvs)) → foldl (λ m p, map_set p.1 p.2 m) m kvs = m ++ kvs).
    { clear Hk. induction kvs as [|[k v] kvs IH]; intros m Hn; simpl; [by rewrite app_nil_r|].
      assert (Hs : map_set k v m = m ++ [(k, v)]).
      { rewrite map_app in Hn. simpl in Hn.
        assert (Hk : k ∉ map fst m) by (apply NoDup_app in Hn as (_ & Hn & _); set_solver).
        clear -Hk. induction m as [|[k' v'] m IH]; [done|]. simpl in *.
        rewrite (proj2 (seqb_false k k')) by set_solver. f_equal. apply IH. set_solver. }
      rewrite Hs, IH by (by rewrite <- app_assoc). by rewrite <- app_assoc. }
    by apply (Hgen []).
Qed.

Lemma jeq_elems pre l : Forall (λ v, jeq v (canon v)) l → jeq (JArr (pre ++ l)) (JArr (pre ++ map canon l)).
Proof.
  intros H. revert pre. induction H as [|v l Hv _ IH]; intros pre; simpl; [done|].
  rewrite (jeq_elem pre v (canon v) l Hv). specialize (IH (pre ++ [canon v])). by rewrite <- !app_assoc in IH.
Qed.

Lemma jeq_members pre kvs : Forall (λ p, jeq p.2 (canon p.2)) kvs →
  jeq (JObj (pre ++ kvs)) (JObj (pre ++ map (λ p, (p.1, canon p.2)) kvs)).
Proof.
  intros H. revert pre. induction H as [|[k v] kvs Hv _ IH]; intros pre; simpl in *; [done|].
  rewrite (jeq_member pre k v (canon v) kvs Hv). specialize (IH (pre ++ [(k, canon v)])).
  by rewrite <- !app_assoc in IH.
Qed.

Lemma jeq_canon v : distinct v → jeq v (canon v).
Proof.
  induction v as [|b|n|s|l IH|kvs IH] using json_ind'; try done.
  - rewrite distinct_arr. intros Hd. apply (jeq_elems []). exact (Forall_mp _ _ _ IH Hd).
  - rewrite distinct_obj. intros [Hk Hd]. rewrite canon_obj by done.
    rewrite (jeq_perm kvs (merge_sort key_le kvs)) by by rewrite merge_sort_Permutation.
    apply (jeq_members [] (merge_sort key_le kvs)). rewrite merge_sort_Permutation. exact (Forall_mp _ _ _ IH Hd).
Qed.

Lemma jeq_invariant v w : jeq v w →
  (distinct v ↔ distinct w) ∧ (null_free v ↔ null_free w) ∧ (distinct v → canon v = canon w).
Proof.
  induction 1 as [v|v w _ IH|u v w _ IH1 _ IH2|l1 x y l2 _ IH|l1 k x y l2 _ IH|kvs kvs' Hp].
  - done.
  - destruct IH as (IH1 & IH2 & IH3). split_and!; [done|done|]. intros Hw. symmetry. apply IH3. by rewrite IH1.
  - destruct IH1 as (A1 & A2 & A3), IH2 as (B1 & B2 & B3).
    split_and!; [by rewrite A1|by rewrite A2|]. intros Hu. rewrite A3 by done. apply B3. by rewrite <- A1.
  - destruct IH as (IH1 & IH2 & IH3). cbn [canon].
    rewrite !distinct_arr, !null_free_arr, !Forall_app, !Forall_cons, !map_app. simpl. rewrite IH1, IH2.
    split_and!; [done|done|]. intros (_ & Hx & _). by rewrite IH3 by (by rewrite IH1).
  - destruct IH as (IH1 & IH2 & IH3). cbn [canon].
    rewrite !distinct_obj, !null_free_obj, !Forall_app, !Forall_cons, !map_app. simpl. rewrite IH1, IH2.
    split_and!; [done|done|]. intros (_ & _ & Hx & _). by rewrite IH3 by (by rewrite IH1).
  - assert (Hk : map fst kvs ≡ₚ map fst kvs') by (change (fst <$> kvs ≡ₚ fst <$> kvs'); by rewrite Hp).
    assert (HF : ∀ P : string * json → Prop, Forall P kvs ↔ Forall P kvs') by (intros P; by rewrite Hp).
    assert (HN : NoDup (map fst kvs) ↔ NoDup (map fst kvs')) by by rewrite Hk.
    rewrite !distinct_obj, !null_free_obj, HN, !HF. split_and!; [done|done|]. intros [Hn _].
    rewrite !canon_obj by (done || by apply HN). f_equal. f_equal.
    apply msort_unique; [by apply HN| |apply (StronglySorted_merge_sort _)]. by rewrite merge_sort_Permutation.
Qed.

(** The trees the decoder hands to the writer. *)
Definition decoded (v : json) : Prop := distinct v ∧ good max_nesting_depth v.

Lemma decode_text q v : quoter q → good max_nesting_depth v →
  decoder_decode (text q v) = Some (v, "").
Proof.
  intros Hq [Hw Hd]. unfold decoder_decode. pose proof (parse_text q Hq v Hw max_nesting_depth) as H.
  specialize (H (value_fuel (text q v)) "" Hd ltac:(unfold value_fuel; lia) I). by rewrite sapp_nil_r in H.
Qed.

Lemma decoder_decoded b v k : decoder_decode b = Some (v, k) → decoded (to_any v).
Proof.
  intros H. split; [apply to_any_distinct|]. apply to_any_good. by eapply parse_good.
Qed.

(** ** json.Marshal before the canonical writer *)

Lemma html_entry r u : Utf8.wf_chunk r u →
  LitFacts.passes (escape_html (Some r, u)) ∧ LitFacts.unquotes (escape_html (Some r, u)) u.
Proof.
  intros Hw. pose proof Hw as (_ & He & _). unfold escape_html. cbn [fst].
  destruct (N.eqb_spec r 0x3C); [|destruct (N.eqb_spec r 0x3E); [|destruct (N.eqb_spec r 0x26)]];
    try (subst r u; split; [intros t; simpl; by destruct (Lit.scan_string t) as [[]|]|done]).
  split; [by apply LitFacts.escape_passes|by apply LitFacts.escape_unquotes].
Qed.

Lemma html_quoter : quoter quote_html.
Proof.
  intros s t Hs. set (body := foldr (λ p acc, escape_html p +:+ acc) "" (Utf8.runes s)).
  assert (Hl : LitFacts.valid_list (Utf8.runes s)) by (intros p; by apply Utf8.valid_entries).
  assert (LitFacts.passes body ∧ LitFacts.unquotes body s) as [Hp Hu].
  { unfold body. rewrite <- (Utf8.bytes_of_runes s) at 3. revert Hl. generalize (Utf8.runes s).
    induction l as [|[o u] l IH]; intros Hl; simpl; [split; [apply LitFacts.passes_nil|done]|].
    destruct (Hl (o, u)) as (r & Hr & Hw); [left|]. simpl in Hr, Hw. subst o.
    destruct (html_entry r u Hw) as [H1 H2]. destruct IH as [IH1 IH2]; [intros p ?; apply Hl; by right|].
    split; [by apply LitFacts.passes_app|]. intros t'. by rewrite !sapp_assoc, H2, IH2. }
  exists (body +:+ Lit.chr 0x22), body. split_and!; [done| |].
  - rewrite sapp_assoc, Hp. simpl. by rewrite sapp_nil_r.
  - unfold Lit.unquote. specialize (Hu ""). rewrite !sapp_nil_r in Hu. by rewrite Hu.
Qed.

(** Test inputs: a single quote stands for a double one. *)
Definition sample (s : string) : string :=
  smap (λ c, if ceqb c "'" then Nb 0x22 else c) s.

(** ** What a signature over the output covers *)

Lemma text_canon_inj v w : decoded v → decoded w →
  text Lit.quote (canon v) = text Lit.quote (canon w) → canon v = canon w.
Proof.
  intros [Hd Hg] [Hd' Hg'] H.
  pose proof (decode_text _ _ quote_quoter (canon_good _ _ Hd Hg)) as H1.
  pose proof (decode_text _ _ quote_quoter (canon_good _ _ Hd' Hg')) as H2. congruence.
Qed.

Lemma write_cases v : distinct v →
  (null_free v ∧ writeValue v = Ok (text Lit.quote (canon v))) ∨
  (¬ null_free v ∧ writeValue v = Err ErrNullForbidden).
Proof.
  intros Hd. destruct (writeValue v) as [s|e] eqn:E.
  - left. pose proof (write_ok_null_free _ _ Hd E) as Hn. by rewrite <- E, write_canon.
  - right. split; [|by rewrite (write_err _ _ Hd E)]. intros Hn. by rewrite write_canon in E.
Qed.

Lemma MarshalRaw_inv b out : MarshalRaw b = Ok out → ∃ v k,
  decoder_decode b = Some (v, k) ∧ decoder_more k = false ∧
  null_free (to_any v) ∧ out = text Lit.quote (canon (to_any v)).
Proof.
  unfold MarshalRaw. destruct (decoder_decode b) as [[v k]|] eqn:E; simpl; [|done].
  destruct (decoder_more k) eqn:Em; simpl; [done|]. intros H. exists v, k.
  destruct (write_cases (to_any v) (to_any_distinct v)) as [[? Hw]|[? Hw]]; rewrite Hw in H; [|done].
  by injection H as <-.
Qed.

(** What MarshalRaw returns, on every branch: a decode error, the trailing-data error,
    or the writer's result; and the writer fails exactly when the decoded tree contains a
    null somewhere, always with ErrNullForbidden. *)
Theorem MarshalRaw_outcome b :
  MarshalRaw b = match decoder_decode b with
                 | None => Err ErrDecode
                 | Some (v, k) =>
                     if decoder_more k then Err ErrTrailing else writeValue (to_any v)
                 end ∧
  ∀ v, (null_free (to_any v) ↔ ∃ out, writeValue (to_any v) = Ok out) ∧
       (¬ null_free (to_any v) ↔ writeValue (to_any v) = Err ErrNullForbidden).
Proof.
  split.
  - unfold MarshalRaw. destruct (decoder_decode b) as [[v k]|]; [|done]. simpl. by destruct (decoder_more k).
  - intros v. destruct (write_cases (to_any v) (to_any_distinct v)) as [[? ->]|[? ->]]; naive_solver.
Qed.

(** An accepted document has no null, and its canonical bytes decode, with nothing left
    over, to the same value up to the order of object members. *)
Theorem MarshalRaw_roundtrip b out : MarshalRaw b = Ok out → ∃ v k,
  decoder_decode b = Some (v, k) ∧ null_free (to_any v) ∧
  decoder_decode out = Some (canon (to_any v), "") ∧ jeq (to_any v) (canon (to_any v)).
Proof.
  intros (v & k & Hd & _ & Hn & ->)%MarshalRaw_inv. exists v, k.
  destruct (decoder_decoded _ _ _ Hd) as [H1 H2]. split_and!; [done|done| |by apply jeq_canon].
  apply decode_text; [apply quote_quoter|by apply canon_good].
Qed.

Lemma MarshalRaw_roundtrip_witness : ∃ v k,
  decoder_decode (sample " { 'b':[1,true] , 'a':'x<y' } ") = Some (v, k) ∧ null_free (to_any v) ∧
  decoder_decode (sample "{'a':'x<y','b':[1,true]}") = Some (canon (to_any v), "") ∧
  jeq (to_any v) (canon (to_any v)).
Proof. apply MarshalRaw_roundtrip. vm_compute. reflexivity. Defined.

(** Canonical bytes are a fixed point of canonicalisation. *)
Theorem MarshalRaw_idempotent b out : MarshalRaw b = Ok out → MarshalRaw out = Ok out.
Proof.
  intros (v & k & Hd & _ & Hn & ->)%MarshalRaw_inv. destruct (decoder_decoded _ _ _ Hd) as [H1 H2].
  unfold MarshalRaw. rewrite decode_text by (apply quote_quoter || by apply canon_good). simpl.
  rewrite to_any_id by by apply canon_distinct.
  rewrite write_canon by (by apply canon_distinct || by apply canon_null_free). by rewrite canon_idem.
Qed.

Lemma MarshalRaw_idempotent_witness :
  MarshalRaw (sample "{'a':'x<y','b':[1,true]}") = Ok (sample "{'a':'x<y','b':[1,true]}").
Proof.
  apply (MarshalRaw_idempotent (sample " { 'b':[1,true] , 'a':'x<y' } ")). vm_compute. reflexivity.
Defined.

(** C23: two accepted documents have the same canonical bytes exactly when they decode to
    the same value up to member order: a signature over the bytes covers the value, and
    nothing but the value. *)
Theorem MarshalRaw_equal_iff b b' out out' v v' k k' :
  MarshalRaw b = Ok out → MarshalRaw b' = Ok out' →
  decoder_decode b = Some (v, k) → decoder_decode b' = Some (v', k') →
  out = out' ↔ jeq (to_any v) (to_any v').
Proof.
  intros (w & ? & Hw & _ & _ & ->)%MarshalRaw_inv (w' & ? & Hw' & _ & _ & ->)%MarshalRaw_inv Hv Hv'.
  simplify_eq. split.
  - intros H%text_canon_inj; [|by eapply decoder_decoded..].
    rewrite (jeq_canon (to_any w)), (jeq_canon (to_any w')) by apply to_any_distinct. by rewrite H.
  - intros (_ & _ & H)%jeq_invariant. by rewrite H by apply to_any_distinct.
Qed.

Lemma MarshalRaw_equal_iff_witness :
  sample "{'a':1,'b':2}" = sample "{'a':1,'b':2}" ↔
  jeq (to_any (JObj [("b", JNum "2"); ("a", JNum "1")])) (to_any (JObj [("a", JNum "1"); ("b", JNum "2")])).
Proof.
  apply (MarshalRaw_equal_iff (sample "{'b':2,'a':1}") (sample "{'a':1, 'b':2}") _ _ _ _ "" "");
    vm_compute; reflexivity.
Defined.

Lemma Marshal_is_writer v : decoded v → Marshal v = writeValue v.
Proof.
  intros [Hd Hg]. unfold Marshal, MarshalRaw, json_marshal.
  rewrite decode_text by (apply html_quoter || by apply canon_good). simpl.
  rewrite to_any_id by by apply canon_distinct.
  destruct (jeq_invariant _ _ (jeq_canon v Hd)) as (_ & Hn & _).
  destruct (write_cases v Hd) as [[H1 ->]|[H1 ->]];
    destruct (write_cases (canon v) (canon_distinct v Hd)) as [[H2 ->]|[H2 ->]]; try tauto.
  by rewrite canon_idem.
Qed.

(** For a hand-built value the json.Marshal pass in front of the canonical writer (with
    its HTML escaping and its own key order) leaves no trace: Marshal is the writer. *)
Theorem Marshal_writeValue v : decoded v → Marshal v = writeValue v.
Proof. exact (Marshal_is_writer v). Qed.

Lemma Marshal_writeValue_witness :
  Marshal (JObj [("b", JStr "<&>"); ("a", JNum "1")]) = writeValue (JObj [("b", JStr "<&>"); ("a", JNum "1")]).
Proof.
  apply Marshal_writeValue. split; [|split].
  - apply distinct_obj. split; [|repeat constructor]. repeat constructor; set_solver.
  - apply wf_obj. repeat constructor.
  - vm_compute. intros H. discriminate H.
Defined.

(** ** Two behaviours the package comment does not mention *)

(** Trailing data that starts with a closing bracket is not seen by json.Decoder.More. *)
Lemma trailing_bracket_accepted :
  MarshalRaw (sample "{'a':1}]junk") = Ok (sample "{'a':1}") ∧ MarshalRaw (sample "{'a':1}x") = Err ErrTrailing.
Proof. split; vm_compute; reflexivity. Qed.

(** U+2028, which JSON does not require to be escaped, is emitted as an escape. *)
Lemma line_separator_escaped :
  writeString (Utf8.encode_rune 0x2028) = sample "'\u2028'".
Proof. vm_compute. reflexivity. Qed.
