(* ===== verification/NetAddr.v ===== *)
(** * Go's net package: addresses and networks

    What the sources use of net and net/netip: ParseIP, To4, String, ParseCIDR,
    IPNet.String and IPNet.Contains. A net.IP that ParseIP returns has 16 bytes, an IPv4
    address being written into the last four after the ::ffff prefix. A mask is its prefix
    length with the number of bits of the family. *)

From S2P Require Import Prelude.

Definition IP := list N.

Definition v4InV6Prefix : list N := [0; 0; 0; 0; 0; 0; 0; 0; 0; 0; 0xff; 0xff]%N.

(** ip.To4(): [None] is nil. *)
Definition To4 (ip : IP) : option (list N) :=
  if bool_decide (length ip = 4) then Some ip
  else if bool_decide (length ip = 16 ∧ take 12 ip = v4InV6Prefix) then Some (drop 12 ip)
  else None.

(** ** Parsing *)

Definition dec_digit (c : ascii) : option N :=
  if ((48 <=? bN c) && (bN c <=? 57))%N then Some (bN c - 48)%N else None.

Definition hex_digit (c : ascii) : option N :=
  let n := bN c in
  if ((48 <=? n) && (n <=? 57))%N then Some (n - 48)%N
  else if ((97 <=? n) && (n <=? 102))%N then Some (n - 87)%N
  else if ((65 <=? n) && (n <=? 70))%N then Some (n - 55)%N
  else None.

(** The digits of one IPv4 field: no leading zero, at most 255 at every step. *)
Fixpoint field_digits (first : bool) (acc : N) (s : string) : option N :=
  match s with
  | "" => if first then None else Some acc
  | String c s' =>
      d ← dec_digit c;
      if negb first && (acc =? 0)%N then None
      else let v := (acc * 10 + d)%N in if (255 <? v)%N then None else field_digits false v s'
  end.

(** parseIPv4Fields on a whole string: four fields. *)
Definition parse_ipv4 (s : string) : option (list N) :=
  match split_on "." s with
  | [a; b; c; d] =>
      w ← field_digits true 0 a; x ← field_digits true 0 b;
      y ← field_digits true 0 c; z ← field_digits true 0 d; Some [w; x; y; z]
  | _ => None
  end.

(** A run of at most four hexadecimal digits: value, digits read, rest. *)
Fixpoint hex_run (n : nat) (acc : N) (s : string) : option (N * nat * string) :=
  match s with
  | String c s' =>
      match hex_digit c with
      | Some d => if bool_decide (3 < n) then None else hex_run (S n) (acc * 16 + d)%N s'
      | None => Some (acc, n, s)
      end
  | "" => Some (acc, n, "")
  end.

Definition two_bytes (v : N) : list N := [(v / 256)%N; (v mod 256)%N].

(** The loop of parseIPv6 over the colon-separated groups: the bytes so far, where the
    ellipsis stood, and what is left. [fuel] 8 is the number of groups that fit. *)
Fixpoint parse_groups (fuel : nat) (acc : list N) (ellipsis : option nat) (s : string)
    : option (list N * option nat * string) :=
  match fuel with
  | O => Some (acc, ellipsis, s)
  | S f =>
      '(v, n, r) ← hex_run 0 0 s;
      if bool_decide (n = 0) then None
      else match r with
      | String c r' =>
          if ceqb c "." then
            if bool_decide (ellipsis = None ∧ length acc ≠ 12) then None
            else if bool_decide (16 < length acc + 4) then None
            else b ← parse_ipv4 s; Some (acc ++ b, ellipsis, "")
          else if negb (ceqb c ":") then None
          else match r' with
               | "" => None
               | String c2 r2 =>
                   let acc' := acc ++ two_bytes v in
                   if ceqb c2 ":" then
                     match ellipsis with
                     | Some _ => None
                     | None => if r2 =s "" then Some (acc', Some (length acc'), "")
                               else parse_groups f acc' (Some (length acc')) r2
                     end
                   else parse_groups f acc' ellipsis r'
               end
      | "" => Some (acc ++ two_bytes v, ellipsis, "")
      end
  end.

Definition parse_ipv6 (s : string) : option (list N) :=
  let start := has_prefix s "::" in
  let s1 := if start then sdrop 2 s else s in
  if start && (s1 =s "") then Some (replicate 16 0%N)
  else
    '(bs, ell, rest) ← parse_groups 8 [] (if start then Some 0 else None) s1;
    if rest <>s "" then None
    else if bool_decide (length bs < 16) then
      e ← ell; Some (take e bs ++ replicate (16 - length bs) 0%N ++ drop e bs)
    else match ell with Some _ => None | None => Some bs end.

(** netip.ParseAddr picks the family by the first of ., : and %. *)
Fixpoint first_sep (s : string) : option ascii :=
  match s with
  | "" => None
  | String c s' => if ceqb c "." || ceqb c ":" || ceqb c "%" then Some c else first_sep s'
  end.

Inductive addr := Addr4 (b : list N) | Addr6 (b : list N).

(** ParseAddr of a literal without a zone. *)
Definition parse_addr (s : string) : option addr :=
  c ← first_sep s;
  if ceqb c "." then Addr4 <$> parse_ipv4 s
  else if ceqb c ":" then (if contains_byte "%" s then None else Addr6 <$> parse_ipv6 s)
  else None.

Definition as16 (a : addr) : IP :=
  match a with Addr4 b => v4InV6Prefix ++ b | Addr6 b => b end.

Definition ParseIP (s : string) : option IP := as16 <$> parse_addr s.

(** ** Printing *)

Definition hex_char (n : N) : ascii := if (n <? 10)%N then Nb (48 + n) else Nb (87 + n).

(** appendHex: no leading zeros. *)
Definition hex16 (v : N) : string :=
  let d3 := String (hex_char (v / 4096 mod 16)) "" in
  let d2 := String (hex_char (v / 256 mod 16)) "" in
  let d1 := String (hex_char (v / 16 mod 16)) "" in
  let d0 := String (hex_char (v mod 16)) "" in
  (if (4096 <=? v)%N then d3 +:+ d2 +:+ d1 +:+ d0
   else if (256 <=? v)%N then d2 +:+ d1 +:+ d0
   else if (16 <=? v)%N then d1 +:+ d0 else d0).

Fixpoint groups (b : list N) : list N :=
  match b with
  | h :: l :: b' => (h * 256 + l)%N :: groups b'
  | _ => []
  end.

Fixpoint zero_run (gs : list N) : nat :=
  match gs with g :: gs' => if (g =? 0)%N then S (zero_run gs') else 0 | [] => 0 end.

(** The first longest run of at least two zero groups: (start, end). *)
Fixpoint best_run (i : nat) (gs : list N) (best : nat * nat) : nat * nat :=
  match gs with
  | [] => best
  | g :: gs' =>
      let l := zero_run gs in
      best_run (S i) gs' (if bool_decide (2 ≤ l ∧ best.2 - best.1 < l) then (i, i + l) else best)
  end.

Definition string6 (b : list N) : string :=
  let gs := groups b in
  let '(zs, ze) := best_run 0 gs (0, 0) in
  if bool_decide (ze - zs < 2) then join ":" (map hex16 gs)
  else join ":" (map hex16 (take zs gs)) +:+ "::" +:+ join ":" (map hex16 (drop ze gs)).

Definition string4 (b : list N) : string := join "." (map (λ n, itoa (Z.of_N n)) b).

(** ip.String(). *)
Definition IP_String (ip : IP) : string :=
  match To4 ip with Some b => string4 b | None => string6 ip end.

(** ** Networks *)

Record IPNet := MkIPNet { n_IP : IP; n_ones : nat; n_bits : nat }.

Fixpoint mask_bytes (ones : nat) (b : list N) : list N :=
  match b with
  | [] => []
  | x :: b' => N.land x (256 - 2 ^ N.of_nat (8 - ones)) :: mask_bytes (ones - 8) b'
  end.

(** dtoi, with its bound. *)
Fixpoint dtoi_run (acc : N) (s : string) : option N :=
  match s with
  | "" => Some acc
  | String c s' => d ← dec_digit c;
      let v := (acc * 10 + d)%N in if (0xFFFFFF <=? v)%N then None else dtoi_run v s'
  end.
Definition dtoi (s : string) : option N := if s =s "" then None else dtoi_run 0 s.

Definition ParseCIDR (s : string) : option (IP * IPNet) :=
  '(a, m) ← cut_at "/" s;
  ad ← parse_addr a;
  n ← dtoi m;
  match ad with
  | Addr4 b => if (32 <? n)%N then None
               else Some (as16 ad, MkIPNet (mask_bytes (N.to_nat n) b) (N.to_nat n) 32)
  | Addr6 b => if (128 <? n)%N then None
               else Some (as16 ad, MkIPNet (mask_bytes (N.to_nat n) b) (N.to_nat n) 128)
  end.

(** networkNumberAndMask: the bytes and the prefix length that applies to them. *)
Definition network (n : IPNet) : list N * nat :=
  match To4 (n_IP n) with
  | Some b => (b, if bool_decide (n_bits n = 32) then n_ones n else n_ones n - 96)
  | None => (n_IP n, n_ones n)
  end.

Definition IPNet_String (n : IPNet) : string :=
  let '(b, ones) := network n in IP_String b +:+ "/" +:+ itoa (Z.of_nat ones).

Definition Contains (n : IPNet) (ip : IP) : bool :=
  let '(nn, ones) := network n in
  let x := default ip (To4 ip) in
  bool_decide (length x = length nn ∧ mask_bytes ones nn = mask_bytes ones x).

(** ** Checks against the documented forms *)

Example parse_v4 : ParseIP "10.0.0.7" = Some (v4InV6Prefix ++ [10; 0; 0; 7]%N).
Proof. vm_compute. reflexivity. Qed.
Example parse_v4_zero : ParseIP "10.0.0.07" = None.
Proof. vm_compute. reflexivity. Qed.
Example parse_v6 : IP_String <$> ParseIP "FD00:64:0:0:0::7" = Some "fd00:64::7".
Proof. vm_compute. reflexivity. Qed.
Example parse_mapped : IP_String <$> ParseIP "::ffff:10.0.0.7" = Some "10.0.0.7".
Proof. vm_compute. reflexivity. Qed.
Example cidr : (λ p, IPNet_String p.2) <$> ParseCIDR "100.64.9.7/24" = Some "100.64.9.0/24".
Proof. vm_compute. reflexivity. Qed.

(** ** IPv4 text *)

Definition byte_text (n : N) : string := itoa (Z.of_N n).

Lemma all_bytes_check (P : N → bool) :
  forallb P (map N.of_nat (seq 0 256)) = true → ∀ n, (n < 256)%N → P n = true.
Proof.
  rewrite forallb_forall. intros Hall n Hn. apply Hall. apply in_map_iff. exists (N.to_nat n).
  split; [apply N2Nat.id|]. apply in_seq. lia.
Qed.

Lemma field_byte n : (n < 256)%N → field_digits true 0 (byte_text n) = Some n.
Proof.
  intros Hn. apply (proj1 (bool_decide_eq_true (field_digits true 0 (byte_text n) = Some n))).
  revert n Hn. apply (all_bytes_check (λ n, bool_decide (field_digits true 0 (byte_text n) = Some n))).
  vm_compute. reflexivity.
Qed.

Lemma byte_text_plain n : (n < 256)%N → contains_byte "." (byte_text n) = false ∧ contains_byte "/" (byte_text n) = false ∧
  first_sep (byte_text n) = None.
Proof.
  intros Hn. apply (proj1 (bool_decide_eq_true (contains_byte "." (byte_text n) = false ∧ contains_byte "/" (byte_text n) = false ∧
    first_sep (byte_text n) = None))).
  revert n Hn. apply (all_bytes_check (λ n, bool_decide (contains_byte "." (byte_text n) = false ∧
    contains_byte "/" (byte_text n) = false ∧ first_sep (byte_text n) = None))).
  vm_compute. reflexivity.
Qed.

Lemma split_on_app c a r : contains_byte c a = false → split_on c (a +:+ String c "" +:+ r) = a :: split_on c r.
Proof.
  cbn [String.append]. induction a as [|d a IH]; simpl; [intros _; by rewrite (proj2 (ceqb_true c c))|].
  intros [Hd Ha]%orb_false_elim. rewrite Hd, IH by done. done.
Qed.

Lemma split_on_last c a : contains_byte c a = false → split_on c a = [a].
Proof.
  induction a as [|d a IH]; simpl; [done|]. intros [Hd Ha]%orb_false_elim. by rewrite Hd, IH.
Qed.

Lemma first_sep_app a r : first_sep a = None → first_sep (a +:+ r) = first_sep r.
Proof. induction a as [|c a IH]; simpl; [done|]. by destruct (ceqb c "." || ceqb c ":" || ceqb c "%"). Qed.

Lemma parse_string4 w x y z : (w < 256)%N → (x < 256)%N → (y < 256)%N → (z < 256)%N →
  parse_ipv4 (string4 [w; x; y; z]) = Some [w; x; y; z].
Proof.
  intros Hw Hx Hy Hz. unfold string4. cbn [map join]. fold (byte_text w) (byte_text x) (byte_text y) (byte_text z).
  unfold parse_ipv4.
  destruct (byte_text_plain w Hw) as [E1 _], (byte_text_plain x Hx) as [E2 _],
    (byte_text_plain y Hy) as [E3 _], (byte_text_plain z Hz) as [E4 _].
  rewrite (split_on_app "." _ _ E1), (split_on_app "." _ _ E2), (split_on_app "." _ _ E3), (split_on_last "." _ E4).
  by rewrite !field_byte.
Qed.

Lemma first_sep_string4 w x y z : (w < 256)%N → first_sep (string4 [w; x; y; z]) = Some "."%char.
Proof.
  intros Hw. unfold string4. cbn [map join]. fold (byte_text w). destruct (byte_text_plain w Hw) as (_ & _ & E).
  by rewrite first_sep_app.
Qed.

(** Printing an IPv4 address and parsing it again gives it back. *)
Lemma ParseIP_string4 w x y z : (w < 256)%N → (x < 256)%N → (y < 256)%N → (z < 256)%N →
  ParseIP (string4 [w; x; y; z]) = Some (v4InV6Prefix ++ [w; x; y; z]).
Proof.
  intros Hw Hx Hy Hz. unfold ParseIP, parse_addr. rewrite first_sep_string4 by done. simpl. by rewrite parse_string4.
Qed.

Lemma IP_String_v4 w x y z : IP_String (v4InV6Prefix ++ [w; x; y; z]) = string4 [w; x; y; z].
Proof. reflexivity. Qed.

(** ** What the parsers return *)

Lemma field_digits_bound first acc s n : (acc <= 255)%N → field_digits first acc s = Some n → (n < 256)%N.
Proof.
  revert first acc. induction s as [|c s IH]; intros first acc Ha; simpl; [destruct first; [done|intros [= <-]; lia]|].
  intros (d & _ & Hd)%bind_Some. destruct (negb first && (acc =? 0)%N); [done|].
  destruct (255 <? acc * 10 + d)%N eqn:E; [done|]. apply N.ltb_ge in E. by eapply IH.
Qed.

Lemma parse_ipv4_bytes s b : parse_ipv4 s = Some b →
  ∃ w x y z, b = [w; x; y; z] ∧ (w < 256)%N ∧ (x < 256)%N ∧ (y < 256)%N ∧ (z < 256)%N.
Proof.
  unfold parse_ipv4. destruct (split_on "." s) as [|a [|b' [|c [|d [|]]]]]; try done.
  intros (w & Hw & (x & Hx & (y & Hy & (z & Hz & [= <-])%bind_Some)%bind_Some)%bind_Some)%bind_Some.
  exists w, x, y, z. split; [done|]. split_and!; by eapply field_digits_bound; [|done].
Qed.

Lemma parse_groups_length f acc e s bs e' r : length acc + 2 * f = 16 →
  parse_groups f acc e s = Some (bs, e', r) → length bs ≤ 16.
Proof.
  revert acc e s. induction f as [|f IH]; intros acc e s Hl; simpl; [intros [= <- <- <-]; lia|].
  intros ([[v n] t] & _ & Hp)%bind_Some. case_bool_decide; [done|].
  assert (Hl2 : length (acc ++ two_bytes v) + 2 * f = 16) by (rewrite length_app; simpl; lia).
  destruct t as [|c t]; [injection Hp as <- <- <-; lia|].
  destruct (ceqb c "."); [|destruct (negb (ceqb c ":")); [done|]].
  - case_bool_decide; [done|]. case_bool_decide; [done|]. apply bind_Some in Hp as (b & Hb & [= <- <- <-]).
    apply parse_ipv4_bytes in Hb as (w & x & y & z & -> & _). rewrite length_app. simpl. lia.
  - destruct t as [|c2 t]; [done|]. destruct (ceqb c2 ":"); [|by eapply IH].
    destruct e; [done|]. destruct (t =s ""); [injection Hp as <- <- <-; lia|by eapply IH].
Qed.

Lemma parse_ipv6_length s b : parse_ipv6 s = Some b → length b = 16.
Proof.
  unfold parse_ipv6. destruct (_ && _); [by intros [= <-]|].
  intros ([[bs e] r] & Hg & Hp)%bind_Some. apply parse_groups_length in Hg; [|done].
  destruct (r <>s ""); [done|]. case_bool_decide as Hlt.
  - apply bind_Some in Hp as (i & _ & [= <-]). rewrite !length_app, length_replicate, length_take, length_drop. lia.
  - destruct e; [done|]. injection Hp as <-. lia.
Qed.
