(* ===== verification/IpAllocator.v ===== *)
(** * internal/wireguard/ip_allocator.go: tunnel addresses

    [IPAllocator] is the Go struct; usedIPs only ever holds true entries, so it is a set.
    The invariant [Inv] says that the three reserved addresses are in use, that every
    allocation is in use, that no allocation is a reserved address and that no address is
    allocated twice. The persisted map is read in Go's map order, which is any order:
    [Load] takes the entries as a list and the theorems hold for every list. *)

From S2P Require Import Prelude NetAddr.

Record IPAllocator := MkAllocator {
  serverIP : string;
  prefix : string;
  allocated : gmap string string;
  usedIPs : gset string
}.

Inductive alloc_error := ErrInvalidSubnet | ErrInvalidSubnetIP | ErrExhausted | ErrLoad.

Definition subnetPrefix (subnet : string) : result alloc_error string :=
  match split_on "/" subnet with
  | [ip; _] => match split_on "." ip with
               | [a; b; c; _] => Ok (join "." [a; b; c])
               | _ => Err ErrInvalidSubnetIP
               end
  | _ => Err ErrInvalidSubnet
  end.

(** fmt.Sprintf("%s.%d", prefix, i). *)
Definition host (p : string) (i : nat) : string := p +:+ "." +:+ itoa (Z.of_nat i).

(** One entry of the persisted map. *)
Definition load_entry (a : IPAllocator) (kv : string * string) : IPAllocator :=
  if negb (has_prefix kv.2 (prefix a +:+ ".")) || bool_decide (kv.2 ∈ usedIPs a) then a
  else MkAllocator (serverIP a) (prefix a) (<[kv.1 := kv.2]> (allocated a)) ({[kv.2]} ∪ usedIPs a).

Definition Load (entries : list (string * string)) (a : IPAllocator) : IPAllocator :=
  foldl load_entry a entries.

(** What reading the state file gives: absent, a read or decode error, or the map. *)
Inductive state_file := NoFile | BadFile | Entries (l : list (string * string)).

Definition NewIPAllocator (subnet server : string) (file : state_file) : result alloc_error IPAllocator :=
  let! p := subnetPrefix subnet in
  let a := MkAllocator server p ∅ ({[server]} ∪ {[p +:+ ".0"]} ∪ {[p +:+ ".255"]}) in
  match file with
  | NoFile => Ok a
  | BadFile => Err ErrLoad
  | Entries l => Ok (Load l a)
  end.

(** for i := 2; i < 255; i++: the hosts tried, in order. *)
Definition candidates (a : IPAllocator) : list string := map (host (prefix a)) (seq 2 253).

Definition Allocate (k : string) (a : IPAllocator) : IPAllocator * result alloc_error string :=
  match allocated a !! k with
  | Some ip => (a, Ok ip)
  | None =>
      match List.find (λ ip, negb (bool_decide (ip ∈ usedIPs a))) (candidates a) with
      | Some ip => (MkAllocator (serverIP a) (prefix a) (<[k := ip]> (allocated a)) ({[ip]} ∪ usedIPs a), Ok ip)
      | None => (a, Err ErrExhausted)
      end
  end.

Definition InSubnet (a : IPAllocator) (ip : string) : bool :=
  match ParseIP ip with
  | None => false
  | Some parsed =>
      match To4 parsed with
      | None => false
      | Some _ =>
          if IP_String parsed <>s ip then false
          else if negb (has_prefix ip (prefix a +:+ ".")) then false
          else if (ip =s serverIP a) || (ip =s prefix a +:+ ".0") || (ip =s prefix a +:+ ".255") then false
          else true
      end
  end.

Definition MarkUsed (k ip : string) (a : IPAllocator) : IPAllocator :=
  if negb (InSubnet a ip) then a
  else if bool_decide (ip ∈ usedIPs a) then a
  else MkAllocator (serverIP a) (prefix a) (if k <>s "" then <[k := ip]> (allocated a) else allocated a)
         ({[ip]} ∪ usedIPs a).

(** [range a.allocated]: another key holds the address. *)
Definition held_by_other (k ip : string) (m : gmap string string) : bool :=
  existsb (λ kv, (kv.2 =s ip) && (kv.1 <>s k)) (map_to_list m).

Definition TryAdopt (k ip : string) (a : IPAllocator) : IPAllocator * bool :=
  if (k =s "") || negb (InSubnet a ip) then (a, false)
  else match allocated a !! k with
       | Some cur => (a, cur =s ip)
       | None =>
           if held_by_other k ip (allocated a) then (a, false)
           else if bool_decide (ip ∈ usedIPs a) then (a, false)
           else (MkAllocator (serverIP a) (prefix a) (<[k := ip]> (allocated a)) ({[ip]} ∪ usedIPs a), true)
       end.

Definition Release (k : string) (a : IPAllocator) : IPAllocator :=
  match allocated a !! k with
  | Some ip => MkAllocator (serverIP a) (prefix a) (delete k (allocated a)) (usedIPs a ∖ {[ip]})
  | None => a
  end.

Definition Lookup (k : string) (a : IPAllocator) : string := default "" (allocated a !! k).

(** Save writes a copy of the allocated map. *)
Definition Save (a : IPAllocator) : list (string * string) := map_to_list (allocated a).

(** ** Invariant *)

Definition reserved (a : IPAllocator) : gset string :=
  {[serverIP a]} ∪ {[prefix a +:+ ".0"]} ∪ {[prefix a +:+ ".255"]}.

Record Inv (a : IPAllocator) : Prop := {
  inv_reserved : reserved a ⊆ usedIPs a;
  inv_used : ∀ k ip, allocated a !! k = Some ip → ip ∈ usedIPs a;
  inv_not_reserved : ∀ k ip, allocated a !! k = Some ip → ip ∉ reserved a;
  inv_inj : ∀ k k' ip, allocated a !! k = Some ip → allocated a !! k' = Some ip → k = k';
  inv_prefix : ∀ k ip, allocated a !! k = Some ip → has_prefix ip (prefix a +:+ ".") = true
}.

(** Give a free address of the subnet to [k]. *)
Definition take_ip (k ip : string) (a : IPAllocator) : IPAllocator :=
  MkAllocator (serverIP a) (prefix a) (<[k := ip]> (allocated a)) ({[ip]} ∪ usedIPs a).

Lemma take_inv k ip a : Inv a → ip ∉ usedIPs a → has_prefix ip (prefix a +:+ ".") = true → Inv (take_ip k ip a).
Proof.
  intros [H1 H2 H3 H4 H5] Hip Hp. unfold take_ip. split; unfold reserved in *; simpl.
  - set_solver.
  - intros k' ip' [[<- <-]|[? ?]]%lookup_insert_Some; [set_solver|]. apply H2 in H0. set_solver.
  - intros k' ip' [[<- <-]|[? ?]]%lookup_insert_Some; [set_solver|eauto].
  - intros k1 k2 ip' [[<- <-]|[? E1]]%lookup_insert_Some [[<- E]|[? E2]]%lookup_insert_Some; try done.
    + by apply H2 in E2.
    + subst. by apply H2 in E1.
    + eauto.
  - intros k' ip' [[<- <-]|[? ?]]%lookup_insert_Some; eauto.
Qed.

Lemma load_entry_inv a kv : Inv a → Inv (load_entry a kv).
Proof.
  intros Ha. unfold load_entry. case_match eqn:E; [done|].
  apply orb_false_elim in E as [E1 E2]. apply negb_false_iff in E1. apply bool_decide_eq_false in E2.
  by apply (take_inv kv.1 kv.2).
Qed.

Lemma load_inv l a : Inv a → Inv (Load l a).
Proof. revert a. induction l as [|kv l IH]; intros a Ha; [done|]. apply IH. by apply load_entry_inv. Qed.

Lemma candidate_prefix a ip : ip ∈ candidates a → has_prefix ip (prefix a +:+ ".") = true.
Proof.
  unfold candidates. intros (i & -> & _)%list_elem_of_fmap. unfold host. rewrite <- sapp_assoc. apply has_prefix_app.
Qed.

Lemma find_free a ip : List.find (λ ip, negb (bool_decide (ip ∈ usedIPs a))) (candidates a) = Some ip →
  ip ∈ candidates a ∧ ip ∉ usedIPs a.
Proof.
  intros [H1 H2]%find_some. rewrite list_elem_of_In. split; [done|]. by apply negb_true_iff, bool_decide_eq_false in H2.
Qed.

Lemma allocate_inv k a : Inv a → Inv (Allocate k a).1.
Proof.
  intros Ha. unfold Allocate. destruct (allocated a !! k); [done|]. case_match eqn:E; [|done].
  apply find_free in E as [H1 H2]. apply take_inv; [done|done|by apply candidate_prefix].
Qed.

Lemma in_subnet_spec a ip : InSubnet a ip = true →
  has_prefix ip (prefix a +:+ ".") = true ∧ ip ∉ reserved a.
Proof.
  unfold InSubnet, reserved. repeat case_match; try done. intros _.
  repeat match goal with H : negb _ = false |- _ => apply negb_false_iff in H
    | H : orb _ _ = false |- _ => apply orb_false_elim in H as [? ?] end.
  str_inv. set_solver.
Qed.

Lemma mark_free_inv ip a : Inv a → Inv (MkAllocator (serverIP a) (prefix a) (allocated a) ({[ip]} ∪ usedIPs a)).
Proof.
  intros [H1 H2 H3 H4 H5]. split; unfold reserved in *; simpl; [set_solver| |done|done|done].
  intros k' ip' E. apply H2 in E. set_solver.
Qed.

Lemma mark_used_inv k ip a : Inv a → Inv (MarkUsed k ip a).
Proof.
  intros Ha. unfold MarkUsed. destruct (InSubnet a ip) eqn:E; [|done]. apply in_subnet_spec in E as [Hp Hr]. simpl.
  case_bool_decide; [done|]. destruct (k <>s ""); [by apply take_inv|by apply mark_free_inv].
Qed.

Lemma try_adopt_inv k ip a : Inv a → Inv (TryAdopt k ip a).1.
Proof.
  intros Ha. unfold TryAdopt. destruct ((k =s "") || negb (InSubnet a ip)) eqn:E; [done|].
  apply orb_false_elim in E as [_ E]. apply negb_false_iff, in_subnet_spec in E as [Hp Hr].
  destruct (allocated a !! k); [done|]. destruct (held_by_other k ip (allocated a)); [done|].
  case_bool_decide; [done|]. by apply take_inv.
Qed.

Lemma release_inv k a : Inv a → Inv (Release k a).
Proof.
  intros [H1 H2 H3 H4 H5]. unfold Release. destruct (allocated a !! k) as [ip|] eqn:E; [|done].
  split; unfold reserved in *; simpl.
  - apply H3 in E. set_solver.
  - intros k' ip' [Hk Hk']%lookup_delete_Some. apply elem_of_difference. split; [by eapply H2|].
    intros ->%elem_of_singleton. by apply Hk, (H4 k k' ip).
  - intros k' ip' [_ ?]%lookup_delete_Some. eauto.
  - intros k1 k2 ip' [_ ?]%lookup_delete_Some [_ ?]%lookup_delete_Some. eauto.
  - intros k' ip' [_ ?]%lookup_delete_Some. eauto.
Qed.

(** ** The allocator as a state machine *)

Inductive op :=
| OpLoad (l : list (string * string)) | OpAllocate (k : string) | OpMarkUsed (k ip : string)
| OpTryAdopt (k ip : string) | OpRelease (k : string).

Definition apply_op (a : IPAllocator) (o : op) : IPAllocator :=
  match o with
  | OpLoad l => Load l a
  | OpAllocate k => (Allocate k a).1
  | OpMarkUsed k ip => MarkUsed k ip a
  | OpTryAdopt k ip => (TryAdopt k ip a).1
  | OpRelease k => Release k a
  end.

#[export] Hint Resolve load_inv allocate_inv mark_used_inv try_adopt_inv release_inv : preserve.

Lemma apply_inv a o : Inv a → Inv (apply_op a o).
Proof.
  intros Ha. destruct o; simpl; auto with preserve.
Qed.

#[export] Hint Resolve apply_inv : preserve.

Lemma run_inv ops a : Inv a → Inv (foldl apply_op a ops).
Proof. revert a. induction ops as [|o ops IH]; intros a Ha; [done|]. simpl. auto with preserve. Qed.

#[export] Hint Resolve run_inv : preserve.

Lemma new_inv subnet server f a : NewIPAllocator subnet server f = Ok a → Inv a.
Proof.
  unfold NewIPAllocator. destruct (subnetPrefix subnet) as [p|]; simpl; [|done].
  assert (Inv (MkAllocator server p ∅ ({[server]} ∪ {[p +:+ ".0"]} ∪ {[p +:+ ".255"]}))) by by split.
  destruct f; intros [= <-]; [done|by apply load_inv].
Qed.

(** ** The state file *)

Lemma load_entries l a : NoDup l.*1 → NoDup l.*2 → (∀ kv, kv ∈ l → has_prefix kv.2 (prefix a +:+ ".") = true ∧ kv.2 ∉ usedIPs a ∧ allocated a !! kv.1 = None) →
  allocated (Load l a) = list_to_map l ∪ allocated a.
Proof.
  revert a. induction l as [|[k ip] l IH]; intros a; [by rewrite list_to_map_nil, (left_id_L ∅ (∪))|]. rewrite !fmap_cons, !NoDup_cons. cbn [fst snd]. intros [Hk Hks] [Hi His] Hall.
  destruct (Hall (k, ip)) as (Hp & Hu & Ha); [by left|]. cbn [fst snd] in Hp, Hu, Ha. change (Load ((k, ip) :: l) a) with (Load l (load_entry a (k, ip))). unfold load_entry. cbn [fst snd]. rewrite Hp, bool_decide_eq_false_2 by done. cbn [negb orb].
  rewrite IH; [|done..|].
  - cbn. rewrite <- insert_union_l. rewrite insert_union_r; [done|]. by apply not_elem_of_list_to_map_1.
  - intros [k' ip'] Hin. destruct (Hall (k', ip')) as (? & ? & ?); [by right|]. cbn in *. split_and!; [done| |].
    + assert (ip' ≠ ip) by (intros ->; apply Hi; apply list_elem_of_fmap; by exists (k', ip)). set_solver.
    + rewrite lookup_insert_ne; [done|]. intros <-. apply Hk. apply list_elem_of_fmap. by exists (k, ip').
Qed.

Lemma load_frame l a : serverIP a = serverIP (Load l a) ∧ prefix a = prefix (Load l a).
Proof.
  revert a. induction l as [|kv l IH]; intros a; [done|]. change (Load (kv :: l) a) with (Load l (load_entry a kv)). destruct (IH (load_entry a kv)) as [<- <-].
  unfold load_entry. by destruct (_ || _).
Qed.

(** What Save wrote, the next start reads back: the same bindings, none lost. *)
Lemma Save_Load subnet a b : Inv a → NewIPAllocator subnet (serverIP a) NoFile = Ok b → prefix b = prefix a →
  ∃ c, NewIPAllocator subnet (serverIP a) (Entries (Save a)) = Ok c ∧ allocated c = allocated a.
Proof.
  intros [H1 H2 H3 H4 H5]. unfold NewIPAllocator. destruct (subnetPrefix subnet) as [p|]; cbn; [|done]. intros [= <-]. cbn. intros ->. eexists. split; [done|].
  unfold Save. rewrite load_entries; cbn.
  - rewrite list_to_map_to_list. apply (right_id_L ∅ (∪)).
  - apply NoDup_fst_map_to_list.
  - apply NoDup_fmap_2_strong; [|apply NoDup_map_to_list]. intros [k1 i1] [k2 i2] E1%elem_of_map_to_list E2%elem_of_map_to_list E. cbn in E. subst. f_equal. eauto.
  - intros [k ip] E%elem_of_map_to_list. cbn. split_and!; [by apply (H5 k)| |apply lookup_empty]. pose proof (H3 _ _ E). unfold reserved in *. set_solver.
Qed.

(** From any subnet and state file, under any sequence of operations, no two keys are
    ever allocated one address, and no key is allocated the gateway's address or the
    subnet's .0 or .255; every allocation is marked in use and lies in the subnet. *)
Theorem allocations_distinct subnet server f a ops :
  NewIPAllocator subnet server f = Ok a →
  let a' := foldl apply_op a ops in
  (∀ k k' ip, allocated a' !! k = Some ip → allocated a' !! k' = Some ip → k = k') ∧
  (∀ k ip, allocated a' !! k = Some ip → ip ∈ usedIPs a' ∧ ip ∉ reserved a' ∧
     has_prefix ip (prefix a' +:+ ".") = true).
Proof.
  intros Hn. cbn zeta. destruct (run_inv ops a (new_inv _ _ _ _ Hn)) as [H1 H2 H3 H4 H5]. split; [eauto|].
  intros k ip Hk. split_and!; eauto.
Qed.

Lemma allocations_distinct_witness :
  let a := MkAllocator "100.64.9.1" "100.64.9" ∅ ({["100.64.9.1"]} ∪ {["100.64.9.0"]} ∪ {["100.64.9.255"]}) in
  let a' := foldl apply_op a [OpAllocate "A"; OpMarkUsed "B" "100.64.9.9"; OpRelease "A"; OpTryAdopt "C" "100.64.9.2"] in
  (∀ k k' ip, allocated a' !! k = Some ip → allocated a' !! k' = Some ip → k = k') ∧
  (∀ k ip, allocated a' !! k = Some ip → ip ∈ usedIPs a' ∧ ip ∉ reserved a' ∧
     has_prefix ip (prefix a' +:+ ".") = true).
Proof. apply (allocations_distinct "100.64.9.0/24" "100.64.9.1" NoFile). vm_compute. reflexivity. Defined.

(** ** Allocate *)

Lemma find_none_iff (a : IPAllocator) : List.find (λ ip, negb (bool_decide (ip ∈ usedIPs a))) (candidates a) = None →
  ∀ i, 2 ≤ i ≤ 254 → host (prefix a) i ∈ usedIPs a.
Proof.
  intros Hf i Hi. pose proof (find_none _ _ Hf (host (prefix a) i)) as H0. cbn beta in H0.
  rewrite negb_false_iff, bool_decide_eq_true in H0. apply H0. apply in_map. apply in_seq. lia.
Qed.

Lemma find_least {A} (p : A → bool) f n lo x : List.find p (map f (seq lo n)) = Some x →
  ∃ i, lo ≤ i < lo + n ∧ x = f i ∧ p x = true ∧ ∀ j, lo ≤ j < i → p (f j) = false.
Proof.
  revert lo. induction n as [|n IH]; intros lo; simpl; [done|]. destruct (p (f lo)) eqn:E.
  - intros [= <-]. exists lo. split_and!; try lia; try done.
  - intros (i & Hi & -> & Hp & Hj)%IH. exists i. split_and!; try lia; try done. intros j Hj'.
    destruct (decide (j = lo)) as [->|]; [done|]. apply Hj. lia.
Qed.

(** Allocate returns the key's address when it has one and changes nothing; otherwise it
    gives the key the lowest free host of .2 to .254 and marks just that address in use; it
    fails, changing nothing, only when all 253 are in use. *)
Theorem Allocate_spec k a :
  match allocated a !! k with
  | Some ip => Allocate k a = (a, Ok ip)
  | None =>
      (∃ i, 2 ≤ i ≤ 254 ∧ host (prefix a) i ∉ usedIPs a ∧
        (∀ j, 2 ≤ j < i → host (prefix a) j ∈ usedIPs a) ∧
        Allocate k a = (take_ip k (host (prefix a) i) a, Ok (host (prefix a) i))) ∨
      (Allocate k a = (a, Err ErrExhausted) ∧ ∀ i, 2 ≤ i ≤ 254 → host (prefix a) i ∈ usedIPs a)
  end.
Proof.
  unfold Allocate. destruct (allocated a !! k); [done|]. case_match eqn:E.
  - left. apply find_least in E as (i & Hi & -> & Hp & Hj). exists i.
    apply negb_true_iff, bool_decide_eq_false in Hp. split_and!; try lia; try done.
    intros j Hj'. apply Hj in Hj'. by apply negb_false_iff, bool_decide_eq_true in Hj'.
  - right. split; [done|]. by apply find_none_iff.
Qed.

(** ** Release and TryAdopt *)

(** An address that is released can be adopted again by the same key, which then holds
    it: a lease the agent signed restores the allocation it was issued for. *)
Theorem release_then_adopt k ip a :
  Inv a → k ≠ "" → allocated a !! k = Some ip → InSubnet a ip = true →
  TryAdopt k ip (Release k a) = (take_ip k ip (Release k a), true) ∧
  Lookup k (take_ip k ip (Release k a)) = ip.
Proof.
  intros [H1 H2 H3 H4 H5] Hk Hip Hs. split; [|unfold Lookup, take_ip; simpl; by rewrite lookup_insert_eq].
  unfold TryAdopt. apply seqb_false in Hk. rewrite Hk. unfold Release. rewrite Hip. simpl.
  assert (InSubnet (MkAllocator (serverIP a) (prefix a) (delete k (allocated a)) (usedIPs a ∖ {[ip]})) ip = true) as -> by done.
  simpl. rewrite lookup_delete_eq.
  assert (held_by_other k ip (delete k (allocated a)) = false) as ->.
  { destruct (held_by_other k ip (delete k (allocated a))) eqn:E; [|done]. unfold held_by_other in E.
    apply existsb_exists in E as ([k' ip'] & Hin & Hb). simpl in Hb. apply andb_prop in Hb as [E1 E2].
    apply seqb_true in E1 as ->. rewrite negb_true_iff, seqb_false in E2.
    apply list_elem_of_In, elem_of_map_to_list, lookup_delete_Some in Hin as [_ Hin]. by destruct E2; eapply H4. }
  rewrite bool_decide_false by set_solver. done.
Qed.

Definition demo : IPAllocator :=
  foldl apply_op (MkAllocator "10.0.0.1" "10.0.0" ∅ ({["10.0.0.1"]} ∪ {["10.0.0.0"]} ∪ {["10.0.0.255"]}))
    [OpAllocate "A"; OpAllocate "B"].

Lemma release_then_adopt_witness :
  TryAdopt "B" "10.0.0.3" (Release "B" demo) = (take_ip "B" "10.0.0.3" (Release "B" demo), true) ∧
  Lookup "B" (take_ip "B" "10.0.0.3" (Release "B" demo)) = "10.0.0.3".
Proof.
  apply release_then_adopt; [|discriminate|vm_compute; reflexivity|vm_compute; reflexivity].
  apply run_inv. by split.
Defined.

(** TryAdopt says yes exactly when the key then holds the address; on no, nothing changes;
    and it never moves a key that already has another address, nor takes an address from its
    holder. *)
Theorem TryAdopt_safe k ip a : Inv a →
  let '(a', ok) := TryAdopt k ip a in
  (ok = true → allocated a' !! k = Some ip) ∧ (ok = false → a' = a) ∧
  (∀ k' ip', allocated a !! k' = Some ip' → allocated a' !! k' = Some ip') ∧
  (∀ k', k' ≠ k → allocated a !! k' = Some ip → ok = false).
Proof.
  intros Ha. unfold TryAdopt. destruct ((k =s "") || negb (InSubnet a ip)) eqn:E; [done|].
  destruct (allocated a !! k) as [cur|] eqn:Ek.
  - destruct (cur =s ip) eqn:Ec; str_inv; subst; split_and!; try done.
    intros k' Hk' Hc. by destruct Hk'; eapply (inv_inj _ Ha).
  - destruct (held_by_other k ip (allocated a)) eqn:Eh; [done|]. case_bool_decide as Hu; [done|]. simpl.
    split_and!; try done.
    + intros _. by rewrite lookup_insert_eq.
    + intros k' ip' Hk'. rewrite lookup_insert_ne; [done|]. congruence.
    + intros k' Hk' Hc. by apply (inv_used _ Ha) in Hc.
Qed.

Lemma TryAdopt_safe_witness :
  let '(a', ok) := TryAdopt "A" "10.0.0.3" demo in
  (ok = true → allocated a' !! "A" = Some "10.0.0.3") ∧ (ok = false → a' = demo) ∧
  (∀ k' ip', allocated demo !! k' = Some ip' → allocated a' !! k' = Some ip') ∧
  (∀ k', k' ≠ "A" → allocated demo !! k' = Some "10.0.0.3" → ok = false).
Proof. apply TryAdopt_safe. apply run_inv. by split. Defined.

(** MarkUsed moves a key that already has an address, and the old address stays in use with
    nobody holding it: Release no longer frees it. *)
Lemma MarkUsed_leaks_address :
  let a := Release "A" (MarkUsed "A" "10.0.0.77" demo) in
  (allocated a !! "A" = None ∧ "10.0.0.2" ∈ usedIPs a) ∧
  ∀ k, allocated a !! k = Some "10.0.0.2" → False.
Proof.
  split; [split; [vm_compute; reflexivity|apply (bool_decide_unpack _); vm_compute; exact I]|].
  intros k Hk%elem_of_map_to_list.
  assert (map_to_list (allocated (Release "A" (MarkUsed "A" "10.0.0.77" demo))) = [("B", "10.0.0.3")]) as E
    by (vm_compute; reflexivity).
  rewrite E in Hk. by apply list_elem_of_singleton in Hk.
Qed.
