(* ===== verification/Overlay.v ===== *)
(** * internal/overlay: the install's address plan

    [subnetAt] and [v6At] build the addresses of an index, [validate] checks a persisted
    plan, [Derive] and [Reroll] draw from a random source given as the stream of its
    draws ([None] is a failed read). What json.Unmarshal makes of the file is the argument
    of [parseAndMigrate]. *)

From Stdlib Require Import ZifyBool ZifyN.
From S2P Require Import Prelude NetAddr.

Definition Base : string := "100.64.0.0/10".
Definition LegacySubnetV4 : string := "100.64.0.0/24".
Definition LegacyGatewayV4 : string := "100.64.0.1".
Definition LegacySubnetV6 : string := "fd00:64::/64".
Definition LegacyGatewayV6 : string := "fd00:64::1".
Definition subnetCount : Z := 2 ^ 14.

Record Overlay := MkOverlay {
  SubnetV4 : string;
  GatewayV4 : string;
  SubnetV6 : string;
  GatewayV6 : string;
  RolledAt : Z
}.

(** byte(x): the low eight bits. *)
Definition byte_of (x : Z) : N := Z.to_N (x mod 256).

Definition v6_bytes (b64 third : Z) (last : N) : list N :=
  [0xfd; 0x00; 0x00; 0x64; byte_of (Z.shiftr b64 8); byte_of b64; byte_of (Z.shiftr third 8); byte_of third;
   0; 0; 0; 0; 0; 0; 0; last]%N.

Definition v6At (b64 third : Z) : string * string :=
  (IPNet_String (MkIPNet (v6_bytes b64 third 0) 64 128), IP_String (v6_bytes b64 third 1)).

Definition subnetAt (idx now : Z) : Overlay :=
  let second := (64 + Z.quot idx 256)%Z in
  let third := Z.rem idx 256 in
  let '(s6, g6) := v6At (Z.quot idx 256) third in
  MkOverlay ("100." +:+ itoa second +:+ "." +:+ itoa third +:+ ".0/24")
    ("100." +:+ itoa second +:+ "." +:+ itoa third +:+ ".1") s6 g6 now.

Inductive overlay_error :=
| ErrRandom | ErrNotExist | ErrRead | ErrUnmarshal | ErrSubnetParse | ErrNotV4 | ErrNot24 | ErrNotCanonical
| ErrOutsideBase | ErrGateway | ErrSubnetV6 | ErrGatewayV6 | ErrBase | ErrSave.

Definition v6FromV4 (subnetV4 : string) : result overlay_error (string * string) :=
  let! p := of_option ErrSubnetParse (ParseCIDR subnetV4) in
  let! ip4 := of_option ErrNotV4 (To4 (n_IP p.2)) in
  Ok (v6At (Z.of_N (nth 1 ip4 0%N) - 64) (Z.of_N (nth 2 ip4 0%N))).

Definition gatewayOf (subnet : string) : option string :=
  p ← ParseCIDR subnet;
  Some (IP_String (take (length (n_IP p.2) - 1) (n_IP p.2) ++ [1%N])).

Definition validate (o : Overlay) : result overlay_error unit :=
  let! base := of_option ErrBase (ParseCIDR Base) in
  let! p := of_option ErrSubnetParse (ParseCIDR (SubnetV4 o)) in
  check! guard_err (n_ones p.2 =? 24)%nat ErrNot24 in
  check! guard_err (SubnetV4 o =s IPNet_String p.2) ErrNotCanonical in
  check! guard_err (Contains base.2 p.1) ErrOutsideBase in
  check! guard_err (GatewayV4 o =s default "" (gatewayOf (SubnetV4 o))) ErrGateway in
  let! w := v6FromV4 (SubnetV4 o) in
  check! guard_err (SubnetV6 o =s w.1) ErrSubnetV6 in
  check! guard_err (GatewayV6 o =s w.2) ErrGatewayV6 in
  Ok tt.

Definition parseAndMigrate (decoded : option Overlay) : result overlay_error (Overlay * bool) :=
  let! o := of_option ErrUnmarshal decoded in
  let! om :=
    if (SubnetV6 o =s "") && (GatewayV6 o =s "") then
      let! w := v6FromV4 (SubnetV4 o) in
      Ok (MkOverlay (SubnetV4 o) (GatewayV4 o) w.1 w.2 (RolledAt o), true)
    else Ok (o, false) in
  check! validate om.1 in Ok om.

(** One loop iteration per draw; [None] when the stream given ends before the loop does. *)
Fixpoint Derive (draws : list (option Z)) (now : Z) : option (result overlay_error Overlay * list (option Z)) :=
  match draws with
  | [] => None
  | None :: r => Some (Err ErrRandom, r)
  | Some n :: r => if (n =? 0)%Z then Derive r now else Some (Ok (subnetAt n now), r)
  end.

(** The file system as Load and save see it: the file, and whether a write succeeds. *)
Inductive file := Missing | Unreadable | Content (decoded : option Overlay).

Definition LoadOverlay (f : file) : result overlay_error Overlay :=
  match f with
  | Missing => Err ErrNotExist
  | Unreadable => Err ErrRead
  | Content d => let! om := parseAndMigrate d in Ok om.1
  end.

(** The result and the file afterwards. *)
Definition LoadOrCreate (f : file) (draws : list (option Z)) (now : Z) (writable : bool)
    : option (result overlay_error Overlay * file) :=
  match f with
  | Unreadable => Some (Err ErrRead, f)
  | Missing =>
      '(r, _) ← Derive draws now;
      match r with
      | Err e => Some (Err e, f)
      | Ok o => if writable then Some (Ok o, Content (Some o)) else Some (Err ErrSave, f)
      end
  | Content d =>
      match parseAndMigrate d with
      | Err e => Some (Err e, f)
      | Ok (o, migrated) => Some (Ok o, if migrated && writable then Content (Some o) else f)
      end
  end.

(** The loop of Reroll, over the draws. *)
Fixpoint reroll_loop (cur : Overlay) (draws : list (option Z)) (now : Z) : option (result overlay_error Overlay) :=
  match draws with
  | [] => None
  | None :: _ => Some (Err ErrRandom)
  | Some n :: r =>
      if (n =? 0)%Z then reroll_loop cur r now
      else if SubnetV4 (subnetAt n now) =s SubnetV4 cur then reroll_loop cur r now
      else Some (Ok (subnetAt n now))
  end.

Definition Reroll (f : file) (draws : list (option Z)) (now : Z) (writable : bool)
    : option (result overlay_error Overlay * file) :=
  match LoadOverlay f with
  | Err e => Some (Err e, f)
  | Ok cur =>
      r ← reroll_loop cur draws now;
      match r with
      | Err e => Some (Err e, f)
      | Ok next => if writable then Some (Ok next, Content (Some next)) else Some (Err ErrSave, f)
      end
  end.

(** ** Legacy allowlist entries *)

Definition expand_entry (derived gw : string) (st : gset string * list string) (c : string)
    : gset string * list string :=
  let '(have, add) := st in
  if c =s LegacySubnetV4 then
    if bool_decide (derived ∈ have) then st else ({[derived]} ∪ have, add ++ [derived])
  else if c =s LegacyGatewayV4 +:+ "/32" then
    if bool_decide (gw ∈ have) then st else ({[gw]} ∪ have, add ++ [gw])
  else st.

Definition ExpandLegacy (cidrs : list string) (derivedSubnet : string) : list string :=
  match gatewayOf derivedSubnet with
  | None => cidrs
  | Some g =>
      let gw := g +:+ "/32" in
      cidrs ++ (foldl (expand_entry derivedSubnet gw) (list_to_set cidrs, []) cidrs).2
  end.

(** ** The plan of an index *)

Lemma land255 w : (w < 256)%N → N.land w 255 = w.
Proof. intros Hw. change 255%N with (N.ones 8). rewrite N.land_ones. by apply N.mod_small. Qed.

Lemma mask24 w x y z : (w < 256)%N → (x < 256)%N → (y < 256)%N → mask_bytes 24 [w; x; y; z] = [w; x; y; 0%N].
Proof.
  intros Hw Hx Hy. change (mask_bytes 24 [w; x; y; z]) with [N.land w 255; N.land x 255; N.land y 255; N.land z 0].
  by rewrite !land255, N.land_0_r.
Qed.

Lemma string4_no_slash w x y z : (w < 256)%N → (x < 256)%N → (y < 256)%N → (z < 256)%N →
  contains_byte "/" (string4 [w; x; y; z]) = false.
Proof.
  intros Hw Hx Hy Hz. unfold string4. cbn [map join].
  destruct (byte_text_plain w Hw) as (_ & E1 & _), (byte_text_plain x Hx) as (_ & E2 & _),
    (byte_text_plain y Hy) as (_ & E3 & _), (byte_text_plain z Hz) as (_ & E4 & _).
  unfold byte_text in *. rewrite !contains_app, E1, E2, E3, E4. done.
Qed.

Lemma ParseCIDR_24 w x y z : (w < 256)%N → (x < 256)%N → (y < 256)%N → (z < 256)%N →
  ParseCIDR (string4 [w; x; y; z] +:+ "/24") =
  Some (v4InV6Prefix ++ [w; x; y; z], MkIPNet [w; x; y; 0%N] 24 32).
Proof.
  intros Hw Hx Hy Hz. unfold ParseCIDR. change "/24" with ("/" +:+ "24") at 1.
  rewrite (cut_at_app "/" _ "24") by by apply string4_no_slash. cbn [mbind option_bind].
  unfold parse_addr. rewrite first_sep_string4 by done. simpl (first_sep _). cbn [mbind option_bind].
  simpl (ceqb _ _). cbn iota. rewrite parse_string4 by done. cbn [fmap option_fmap option_map mbind option_bind].
  change (dtoi "24") with (Some 24%N). cbn [mbind option_bind]. by rewrite <- (mask24 w x y z).
Qed.

(** The text of a plan, in the octets of the IPv4 subnet. *)
Definition plan (x y : N) (now : Z) : Overlay :=
  MkOverlay (string4 [100; x; y; 0]%N +:+ "/24") (string4 [100; x; y; 1]%N)
    (v6At (Z.of_N x - 64) (Z.of_N y)).1 (v6At (Z.of_N x - 64) (Z.of_N y)).2 now.

Lemma subnetAt_plan idx now : (0 <= idx < subnetCount)%Z →
  subnetAt idx now = plan (Z.to_N (64 + idx / 256)) (Z.to_N (idx mod 256)) now.
Proof.
  intros Hi. unfold subnetCount in Hi. unfold subnetAt, plan, string4. cbn [map join].
  rewrite Z.quot_div_nonneg, Z.rem_mod_nonneg by lia.
  rewrite !Z2N.id by div_lia.
  replace (64 + idx / 256 - 64)%Z with (idx / 256)%Z by lia.
  destruct (v6At (idx / 256) (idx mod 256)) as [s6 g6].
  change (itoa (Z.of_N 100)) with "100". change (itoa (Z.of_N 0)) with "0". change (itoa (Z.of_N 1)) with "1".
  rewrite !sapp_assoc. reflexivity.
Qed.

Lemma plan_subnetAt x y now : (64 <= x < 128)%N → (y < 256)%N →
  ∃ idx, (0 <= idx < subnetCount)%Z ∧ plan x y now = subnetAt idx now.
Proof.
  intros Hx Hy. exists ((Z.of_N x - 64) * 256 + Z.of_N y)%Z. unfold subnetCount.
  assert (0 <= (Z.of_N x - 64) * 256 + Z.of_N y < 2 ^ 14)%Z as Hb by lia. split; [done|].
  rewrite subnetAt_plan by done. f_equal.
  - rewrite Z.div_add_l, Z.div_small by lia. lia.
  - rewrite Z.add_comm, Z.mod_add, Z.mod_small by lia. lia.
Qed.

Lemma octet_range x : (x < 256)%N → N.land x 192 = 64%N ↔ (64 <= x < 128)%N.
Proof.
  intros Hx. apply (proj1 (bool_decide_eq_true (N.land x 192 = 64%N ↔ (64 <= x < 128)%N))). revert x Hx.
  apply (all_bytes_check (λ x, bool_decide (N.land x 192 = 64%N ↔ (64 <= x < 128)%N))). vm_compute. reflexivity.
Qed.

Definition base_net : IPNet := MkIPNet [100; 64; 0; 0]%N 10 32.

Lemma base_parse : ParseCIDR Base = Some (v4InV6Prefix ++ [100; 64; 0; 0]%N, base_net).
Proof. vm_compute. reflexivity. Qed.

Lemma base_contains w x y z : (w < 256)%N → (x < 256)%N →
  Contains base_net (v4InV6Prefix ++ [w; x; y; z]) = true ↔ w = 100%N ∧ (64 <= x < 128)%N.
Proof.
  intros Hw Hx.
  change (Contains base_net (v4InV6Prefix ++ [w; x; y; z])) with
    (bool_decide (length [w; x; y; z] = 4 ∧ [100; 64; 0; 0]%N = [N.land w 255; N.land x 192; N.land y 0; N.land z 0])).
  rewrite bool_decide_eq_true, <- octet_range by done.
  rewrite land255, !N.land_0_r by done. split; [intros [_ [= -> E]]; by rewrite <- E|intros [-> E]; by rewrite E].
Qed.

Lemma v6FromV4_plan x y z : (x < 256)%N → (y < 256)%N → (z < 256)%N →
  v6FromV4 (string4 [100; x; y; z]%N +:+ "/24") = Ok (v6At (Z.of_N x - 64) (Z.of_N y)).
Proof. intros Hx Hy Hz. unfold v6FromV4. by rewrite ParseCIDR_24. Qed.

Lemma validate_plan x y now : (64 <= x < 128)%N → (y < 256)%N → validate (plan x y now) = Ok tt.
Proof.
  intros Hx Hy. unfold validate, plan, gatewayOf. rewrite base_parse. cbn [of_option res_bind SubnetV4 GatewayV4 SubnetV6 GatewayV6].
  rewrite ParseCIDR_24 by lia. cbn [of_option res_bind fst snd n_ones guard_err Nat.eqb mbind option_bind default n_IP].
  change (IPNet_String (MkIPNet [100%N; x; y; 0%N] 24 32)) with (string4 [100; x; y; 0]%N +:+ "/24").
  rewrite seqb_refl. cbn [guard_err res_bind].
  rewrite (proj2 (base_contains 100 x y 0 ltac:(lia) ltac:(lia))) by done. cbn [guard_err res_bind].
  change (IP_String (take (length [100%N; x; y; 0%N] - 1) [100%N; x; y; 0%N] ++ [1%N])) with (string4 [100; x; y; 1]%N).
  rewrite seqb_refl. cbn [guard_err res_bind]. rewrite v6FromV4_plan by lia. cbn [res_bind].
  by rewrite !seqb_refl.
Qed.

Lemma contains_length n ip : Contains n ip = true → length (default ip (To4 ip)) = length (network n).1.
Proof. unfold Contains. destruct (network n). by intros [? _]%bool_decide_eq_true. Qed.

Lemma mask24_mapped r : length r = 4 → mask_bytes 24 (v4InV6Prefix ++ r) = replicate 16 0%N.
Proof.
  destruct r as [|a [|b [|c [|d [|]]]]]; try done. intros _.
  change (mask_bytes 24 (v4InV6Prefix ++ [a; b; c; d])) with
    (replicate 12 0%N ++ [N.land a 0; N.land b 0; N.land c 0; N.land d 0]).
  by rewrite !N.land_0_r.
Qed.

(** A canonical /24 inside the base range is an IPv4 network 100.x.y.0/24. *)
Lemma canonical_24 s p : ParseCIDR s = Some p → n_ones p.2 = 24 → s = IPNet_String p.2 → Contains base_net p.1 = true →
  ∃ x y, (64 <= x < 128)%N ∧ (y < 256)%N ∧ s = string4 [100; x; y; 0]%N +:+ "/24".
Proof.
  intros Hp0 Ho Hs Hc. pose proof Hp0 as Hp. unfold ParseCIDR in Hp.
  apply bind_Some in Hp as ([a m] & _ & (ad & Had & (n & _ & Hp)%bind_Some)%bind_Some).
  unfold parse_addr in Had. apply bind_Some in Had as (c & _ & Had). destruct ad as [b|b].
  - assert (parse_ipv4 a = Some b) as Hb by (destruct (ceqb c "."); [by destruct (parse_ipv4 a); simplify_eq/=|];
      repeat case_match; try done; by destruct (parse_ipv6 a)).
    destruct (32 <? n)%N; [done|]. injection Hp as <-.
    apply parse_ipv4_bytes in Hb as (w & x & y & z & -> & Hw & Hx & Hy & Hz). simpl in Ho, Hc.
    apply (base_contains w x y z) in Hc as [-> Hx']; [|done..]. exists x, y. split_and!; try lia.
    rewrite Hs. cbn [snd]. rewrite Ho, mask24 by lia. reflexivity.
  - assert (parse_ipv6 a = Some b) as Hb by (destruct (ceqb c "."); [by destruct (parse_ipv4 a)|];
      repeat case_match; try done; by destruct (parse_ipv6 a); simplify_eq/=).
    destruct (128 <? n)%N; [done|]. injection Hp as <-. simpl in Ho, Hc.
    pose proof (parse_ipv6_length _ _ Hb) as Hl. pose proof (contains_length _ _ Hc) as Hl4.
    unfold To4 in Hl4. rewrite bool_decide_false in Hl4 by lia. case_bool_decide as Hm; [|simpl in Hl4; lia].
    exfalso. destruct Hm as [_ Hm]. cbn [snd] in Hs. rewrite Ho in Hs.
    rewrite <- (take_drop 12 b), Hm, mask24_mapped in Hs by (rewrite length_drop; lia).
    change (IPNet_String (MkIPNet (replicate 16 0%N) 24 128)) with "::/24" in Hs.
    rewrite Hs in Hp0. vm_compute in Hp0. injection Hp0 as Hb0 _. rewrite <- Hb0 in Hm. done.
Qed.

Lemma validate_inv o : validate o = Ok tt → ∃ x y, (64 <= x < 128)%N ∧ (y < 256)%N ∧ o = plan x y (RolledAt o).
Proof.
  unfold validate. rewrite base_parse. cbn [of_option res_bind]. intros H.
  destruct (ParseCIDR (SubnetV4 o)) as [p|] eqn:Hp; [|done]. cbn [of_option res_bind] in H. res_inv.
  repeat match goal with E : (_ =s _) = true |- _ => apply seqb_true in E end.
  match goal with E : (n_ones _ =? 24)%nat = true |- _ => apply Nat.eqb_eq in E; rename E into H24 end.
  destruct (canonical_24 _ _ Hp) as (x & y & Hx & Hy & Hs); [done..|]. exists x, y. split; [lia|]. split; [done|].
  match goal with E : v6FromV4 _ = Ok ?w |- _ => rewrite Hs, v6FromV4_plan in E by lia; injection E as E; subst w end.
  match goal with E : GatewayV4 o = _ |- _ => rename E into Hg end.
  unfold gatewayOf in Hg. rewrite Hs, ParseCIDR_24 in Hg by lia. cbn [mbind option_bind default n_IP snd] in Hg.
  change (IP_String (take (length [100%N; x; y; 0%N] - 1) [100%N; x; y; 0%N] ++ [1%N]))
    with (string4 [100; x; y; 1]%N) in Hg.
  destruct o as [s4 g4 s6 g6 t]. cbn [SubnetV4 GatewayV4 SubnetV6 GatewayV6 RolledAt] in *.
  rewrite Hs in *. unfold plan. f_equal; done.
Qed.

Lemma validate_subnetAt o : validate o = Ok tt → ∃ idx, (0 <= idx < subnetCount)%Z ∧ o = subnetAt idx (RolledAt o).
Proof.
  intros (x & y & Hx & Hy & Ho)%validate_inv. destruct (plan_subnetAt x y (RolledAt o) Hx Hy) as (idx & Hi & E).
  exists idx. split; [done|congruence].
Qed.

(** Validate accepts exactly the plans subnetAt builds: a persisted file that differs from
    one of the 16,384 in any address, however small the edit, is refused. *)
Theorem validate_exact o :
  validate o = Ok tt ↔ ∃ idx, (0 <= idx < subnetCount)%Z ∧ o = subnetAt idx (RolledAt o).
Proof.
  split; [apply validate_subnetAt|]. intros (idx & Hi & ->). rewrite subnetAt_plan by done. unfold subnetCount in Hi. apply validate_plan; div_lia.
Qed.

(** ** The IPv6 half of a plan *)

Lemma hex_byte v : (v < 256)%N → hex_run 0 0 (hex16 v) = Some (v, slen (hex16 v), "") ∧ contains_byte ":" (hex16 v) = false.
Proof.
  intros Hv. apply (proj1 (bool_decide_eq_true (hex_run 0 0 (hex16 v) = Some (v, slen (hex16 v), "") ∧
    contains_byte ":" (hex16 v) = false))). revert v Hv.
  apply (all_bytes_check (λ v, bool_decide (hex_run 0 0 (hex16 v) = Some (v, slen (hex16 v), "") ∧
    contains_byte ":" (hex16 v) = false))). vm_compute. reflexivity.
Qed.

Lemma hex_inj a b : (a < 256)%N → (b < 256)%N → hex16 a = hex16 b → a = b.
Proof.
  intros Ha Hb E. destruct (hex_byte a Ha) as [H1 _], (hex_byte b Hb) as [H2 _]. rewrite E in H1. congruence.
Qed.

(** The subnet text: zero groups at its end are left to the ellipsis. *)
Definition v6_text (b t : N) : string :=
  if (t =? 0)%N then if (b =? 0)%N then "fd00:64::/64" else "fd00:64:" +:+ hex16 b +:+ "::/64"
  else "fd00:64:" +:+ hex16 b +:+ ":" +:+ hex16 t +:+ "::/64".

Lemma v6At_text b t : (b < 256)%N → (t < 256)%N → (v6At (Z.of_N b) (Z.of_N t)).1 = v6_text b t.
Proof.
  intros Hb Ht. unfold v6At, v6_bytes. cbn [fst].
  replace (byte_of (Z.shiftr (Z.of_N b) 8)) with 0%N by (unfold byte_of; rewrite Z.shiftr_div_pow2 by lia; change (2 ^ 8)%Z with 256%Z; div_lia).
  replace (byte_of (Z.shiftr (Z.of_N t) 8)) with 0%N by (unfold byte_of; rewrite Z.shiftr_div_pow2 by lia; change (2 ^ 8)%Z with 256%Z; div_lia).
  replace (byte_of (Z.of_N b)) with b by (unfold byte_of; div_lia).
  replace (byte_of (Z.of_N t)) with t by (unfold byte_of; div_lia).
  change (IPNet_String (MkIPNet [253; 0; 0; 100; 0; b; 0; t; 0; 0; 0; 0; 0; 0; 0; 0]%N 64 128))
    with (string6 [253; 0; 0; 100; 0; b; 0; t; 0; 0; 0; 0; 0; 0; 0; 0]%N +:+ "/64"). unfold v6_text.
  unfold string6. change (groups [253; 0; 0; 100; 0; b; 0; t; 0; 0; 0; 0; 0; 0; 0; 0]%N)
    with [0xfd00; 0x64; b; t; 0; 0; 0; 0]%N.
  assert (best_run 0 [0xfd00; 0x64; b; t; 0; 0; 0; 0]%N (0, 0) =
    if (t =? 0)%N then if (b =? 0)%N then (2, 8) else (3, 8) else (4, 8)) as -> by (destruct t, b; reflexivity).
  destruct (t =? 0)%N; [destruct (b =? 0)%N|]; rewrite bool_decide_false by lia; cbn [take drop map join].
  - reflexivity.
  - change (hex16 0xfd00) with "fd00". change (hex16 0x64) with "64". rewrite !sapp_assoc. reflexivity.
  - change (hex16 0xfd00) with "fd00". change (hex16 0x64) with "64". rewrite !sapp_assoc. reflexivity.
Qed.

Lemma v6_text_inj b t b' t' : (b < 256)%N → (t < 256)%N → (b' < 256)%N → (t' < 256)%N →
  v6_text b t = v6_text b' t' → b = b' ∧ t = t'.
Proof.
  intros Hb Ht Hb' Ht' E. apply (f_equal (split_on ":")) in E. unfold v6_text in E.
  destruct (hex_byte b Hb) as [_ N1], (hex_byte t Ht) as [_ N2], (hex_byte b' Hb') as [_ N3], (hex_byte t' Ht') as [_ N4].
  change "fd00:64:" with ("fd00" +:+ ":" +:+ "64" +:+ ":") in E. change "::/64" with (":" +:+ ":" +:+ "/64") in E.
  change "fd00:64::/64" with ("fd00" +:+ ":" +:+ "64" +:+ ":" +:+ ":" +:+ "/64") in E.
  rewrite !sapp_assoc in E.
  assert (Hsp : ∀ a r, contains_byte ":" a = false → split_on ":" (a +:+ ":" +:+ r) = a :: split_on ":" r)
    by (intros; by apply (split_on_app ":")).
  destruct (N.eqb_spec t 0), (N.eqb_spec b 0), (N.eqb_spec t' 0), (N.eqb_spec b' 0);
    rewrite ?Hsp in E by done; simpl in E; simplify_eq;
    repeat match goal with H : hex16 ?a = hex16 ?b |- _ => apply hex_inj in H; [|done..] end; try done.
Qed.

Lemma string4_inj b c : length b = 4 → length c = 4 → Forall (λ n, (n < 256)%N) b → Forall (λ n, (n < 256)%N) c →
  string4 b = string4 c → b = c.
Proof.
  intros Hb Hc Fb Fc E. destruct b as [|b1 [|b2 [|b3 [|b4 [|]]]]]; try done. destruct c as [|c1 [|c2 [|c3 [|c4 [|]]]]]; try done.
  rewrite !Forall_cons in Fb, Fc. destruct Fb as (? & ? & ? & ? & _), Fc as (? & ? & ? & ? & _).
  assert (parse_ipv4 (string4 [b1; b2; b3; b4]) = parse_ipv4 (string4 [c1; c2; c3; c4])) as Ep by by rewrite E.
  rewrite !parse_string4 in Ep by done. by injection Ep as -> -> -> ->.
Qed.

Lemma octets_inj idx idx' : (0 <= idx < subnetCount)%Z → (0 <= idx' < subnetCount)%Z →
  Z.to_N (64 + idx / 256) = Z.to_N (64 + idx' / 256) → Z.to_N (idx mod 256) = Z.to_N (idx' mod 256) → idx = idx'.
Proof. unfold subnetCount. intros. div_lia. Qed.

Lemma subnetAt_v4_inj idx idx' now now' : (0 <= idx < subnetCount)%Z → (0 <= idx' < subnetCount)%Z →
  SubnetV4 (subnetAt idx now) = SubnetV4 (subnetAt idx' now') → idx = idx'.
Proof.
  intros Hi Hi' E. rewrite !subnetAt_plan in E by done. cbn [plan SubnetV4] in E.
  apply (f_equal (λ s, trim_suffix s "/24")) in E. rewrite !trim_suffix_app in E.
  unfold subnetCount in *. apply string4_inj in E; [|done|done|repeat constructor; div_lia|repeat constructor; div_lia].
  injection E as E1 E2. by apply octets_inj.
Qed.

Lemma plan_v6 x y now : SubnetV6 (plan x y now) = (v6At (Z.of_N x - 64) (Z.of_N y)).1.
Proof. reflexivity. Qed.

Lemma subnetAt_v6_inj idx idx' now now' : (0 <= idx < subnetCount)%Z → (0 <= idx' < subnetCount)%Z →
  SubnetV6 (subnetAt idx now) = SubnetV6 (subnetAt idx' now') → idx = idx'.
Proof.
  intros Hi Hi' E. rewrite !subnetAt_plan, !plan_v6 in E by done. unfold subnetCount in *.
  assert (Hz : ∀ i, (0 <= i < 2 ^ 14)%Z → (Z.of_N (Z.to_N (64 + i / 256)) - 64 = Z.of_N (Z.to_N (i / 256)))%Z)
    by (intros; div_lia).
  rewrite !Hz, !v6At_text in E by (lia || div_lia). apply v6_text_inj in E as [E1 E2]; div_lia.
Qed.

Lemma SubnetV4_now idx a b : SubnetV4 (subnetAt idx a) = SubnetV4 (subnetAt idx b).
Proof. unfold subnetAt. by destruct (v6At _ _). Qed.
Lemma SubnetV6_now idx a b : SubnetV6 (subnetAt idx a) = SubnetV6 (subnetAt idx b).
Proof. unfold subnetAt. by destruct (v6At _ _). Qed.

(** Two installs collide in both address families or in neither: over the 16,384 indexes
    the IPv4 subnet and the IPv6 subnet each determine the index. *)
Theorem families_collide_together idx idx' now now' :
  (0 <= idx < subnetCount)%Z → (0 <= idx' < subnetCount)%Z →
  (SubnetV4 (subnetAt idx now) = SubnetV4 (subnetAt idx' now') ↔ idx = idx') ∧
  (SubnetV6 (subnetAt idx now) = SubnetV6 (subnetAt idx' now') ↔ idx = idx').
Proof.
  intros Hi Hi'. split; split.
  - by apply subnetAt_v4_inj.
  - intros ->. apply SubnetV4_now.
  - by apply subnetAt_v6_inj.
  - intros ->. apply SubnetV6_now.
Qed.

Lemma families_collide_together_witness :
  (SubnetV4 (subnetAt 300 0) = SubnetV4 (subnetAt 301 0) ↔ 300%Z = 301%Z) ∧
  (SubnetV6 (subnetAt 300 0) = SubnetV6 (subnetAt 301 0) ↔ 300%Z = 301%Z).
Proof. apply families_collide_together; unfold subnetCount; lia. Defined.

(** ** Drawing *)

Definition draws_ok (draws : list (option Z)) : Prop :=
  ∀ n, Some n ∈ draws → (0 <= n < subnetCount)%Z.

Lemma subnetAt_valid idx now : (0 <= idx < subnetCount)%Z → validate (subnetAt idx now) = Ok tt.
Proof. intros Hi. rewrite subnetAt_plan by done. unfold subnetCount in Hi. apply validate_plan; div_lia. Qed.

Lemma legacy_index : LegacySubnetV4 = SubnetV4 (subnetAt 0 0).
Proof. vm_compute. reflexivity. Qed.

Lemma derive_inv draws now r rest : draws_ok draws → Derive draws now = Some (r, rest) →
  (r = Err ErrRandom) ∨ ∃ n, (0 < n < subnetCount)%Z ∧ Some n ∈ draws ∧ r = Ok (subnetAt n now).
Proof.
  induction draws as [|[n|] draws IH]; intros Hd; simpl; [done| |].
  - assert (Hn : (0 <= n < subnetCount)%Z) by (apply Hd; left).
    destruct (Z.eqb_spec n 0).
    + intros Hr. destruct IH as [?|(m & ? & ? & ?)]; [intros m ?; apply Hd; by right|done|by left|].
      right. exists m. split_and!; [lia|lia|by right|done].
    + intros [= <- <-]. right. exists n. split_and!; [lia|lia|left|done].
  - intros [= <- <-]. by left.
Qed.

(** On first boot, whatever the random source draws, the plan that is saved and returned
    is valid and is never the legacy subnet; and a draw other than zero is enough for the
    loop to end. *)
Theorem first_boot_plan draws now : draws_ok draws →
  (∀ o f, LoadOrCreate Missing draws now true = Some (Ok o, f) →
     f = Content (Some o) ∧ validate o = Ok tt ∧ SubnetV4 o ≠ LegacySubnetV4) ∧
  ((∃ n, Some n ∈ draws ∧ n ≠ 0%Z) → is_Some (LoadOrCreate Missing draws now true)).
Proof.
  intros Hd. split.
  - intros o f Hl. cbn [LoadOrCreate] in Hl. apply bind_Some in Hl as ([r rest] & Hr & Hl).
    apply derive_inv in Hr as [->|(n & Hn & _ & ->)]; [done| |done]. injection Hl as <- <-.
    split; [done|]. split; [apply subnetAt_valid; lia|]. intros E.
    rewrite legacy_index in E.
    apply subnetAt_v4_inj in E; unfold subnetCount in *; lia.
  - intros (n & Hn & Hz). cbn [LoadOrCreate]. assert (is_Some (Derive draws now)) as [[r rest] ->].
    { clear Hd. induction draws as [|[m|] draws IH]; [set_solver| |by eexists]. simpl.
      destruct (Z.eqb_spec m 0); [|by eexists]. apply IH. apply elem_of_cons in Hn as [?|?]; [congruence|done]. }
    simpl. destruct r; by eexists.
Qed.

Lemma first_boot_plan_witness :
  (∀ o f, LoadOrCreate Missing [Some 0%Z; Some 7%Z] 5 true = Some (Ok o, f) →
     f = Content (Some o) ∧ validate o = Ok tt ∧ SubnetV4 o ≠ LegacySubnetV4) ∧
  ((∃ n, Some n ∈ [Some 0%Z; Some 7%Z] ∧ n ≠ 0%Z) → is_Some (LoadOrCreate Missing [Some 0%Z; Some 7%Z] 5 true)).
Proof.
  apply first_boot_plan. intros n Hn. rewrite !elem_of_cons in Hn. unfold subnetCount.
  destruct Hn as [[= ->]|[[= ->]|Hn]]; [lia|lia|by apply not_elem_of_nil in Hn].
Defined.

Lemma reroll_inv cur draws now o : draws_ok draws → reroll_loop cur draws now = Some (Ok o) →
  ∃ n, (0 < n < subnetCount)%Z ∧ o = subnetAt n now ∧ SubnetV4 o ≠ SubnetV4 cur.
Proof.
  induction draws as [|[n|] draws IH]; intros Hd; simpl; [done| |done].
  assert (Hn : (0 <= n < subnetCount)%Z) by (apply Hd; left).
  assert (draws_ok draws) by (intros m ?; apply Hd; by right).
  destruct (Z.eqb_spec n 0); [auto|]. destruct (_ =s _) eqn:E; [auto|]. intros [= <-]. apply seqb_false in E.
  exists n. split; [lia|done].
Qed.

(** A reroll that succeeds persists a valid plan that differs from the current one in the
    IPv4 subnet and in the IPv6 subnet, and is never the legacy one. *)
Theorem reroll_moves f draws now o f' : draws_ok draws → Reroll f draws now true = Some (Ok o, f') →
  f' = Content (Some o) ∧ validate o = Ok tt ∧ SubnetV4 o ≠ LegacySubnetV4 ∧
  ∃ cur, LoadOverlay f = Ok cur ∧ SubnetV4 o ≠ SubnetV4 cur ∧ SubnetV6 o ≠ SubnetV6 cur.
Proof.
  intros Hd Hr. unfold Reroll in Hr. destruct (LoadOverlay f) as [cur|] eqn:El; [|done].
  apply bind_Some in Hr as (r & Hr & Hf). destruct r as [next|]; [|done]. injection Hf as <- <-.
  apply reroll_inv in Hr as (n & Hn & -> & Hne); [|done].
  assert (validate cur = Ok tt) as (idx & Hi & Hcur)%validate_subnetAt.
  { destruct f as [| |d]; [done..|]. simpl in El. unfold parseAndMigrate in El. res_inv.
    match goal with H : validate ?a = Ok ?u |- _ => by destruct u end. }
  split; [done|]. split; [apply subnetAt_valid; lia|]. split.
  - intros E. rewrite legacy_index in E.
    apply subnetAt_v4_inj in E; unfold subnetCount in *; lia.
  - exists cur. split; [done|]. split; [done|]. rewrite Hcur in Hne |- *.
    intros E. apply subnetAt_v6_inj in E; [|lia..]. subst idx. apply Hne, SubnetV4_now.
Qed.

Lemma reroll_moves_witness :
  let o := subnetAt 9 1 in
  Content (Some o) = Content (Some o) ∧ validate o = Ok tt ∧ SubnetV4 o ≠ LegacySubnetV4 ∧
  ∃ cur, LoadOverlay (Content (Some (subnetAt 7 0))) = Ok cur ∧ SubnetV4 o ≠ SubnetV4 cur ∧ SubnetV6 o ≠ SubnetV6 cur.
Proof.
  apply (reroll_moves (Content (Some (subnetAt 7 0))) [Some 0%Z; Some 7%Z; Some 9%Z] 1); [|vm_compute; reflexivity].
  intros n Hn. rewrite !elem_of_cons in Hn. unfold subnetCount.
  destruct Hn as [[= ->]|[[= ->]|[[= ->]|Hn]]]; [lia|lia|lia|by apply not_elem_of_nil in Hn].
Defined.

Lemma reroll_skips cur idx draws now : (0 <= idx < subnetCount)%Z → SubnetV4 cur = SubnetV4 (subnetAt idx (RolledAt cur)) →
  draws_ok draws → None ∉ draws → reroll_loop cur draws now = None → ∀ n, Some n ∈ draws → n = 0%Z ∨ n = idx.
Proof.
  intros Hi Hc. induction draws as [|[n|] draws IH]; intros Hd Hn Hr m Hm; [set_solver| |set_solver].
  simpl in Hr. assert (Hok : (0 <= n < subnetCount)%Z) by (apply Hd; left).
  assert (Hd' : draws_ok draws) by (intros k ?; apply Hd; by right).
  apply elem_of_cons in Hm as [[= ->]|Hm].
  - destruct (Z.eqb_spec n 0); [by left|]. destruct (_ =s _) eqn:E; [|done]. apply seqb_true in E. right.
    rewrite Hc in E. by apply subnetAt_v4_inj in E.
  - apply IH; [done|set_solver| |done]. destruct (Z.eqb_spec n 0); [done|]. by destruct (_ =s _).
Qed.

(** C34: the reroll loop ends within three different draws: it passes over a draw only if it is
    the legacy index or the current one, so that with a working random source and any three
    distinct indexes drawn it returns, whatever the state file holds. *)
Theorem reroll_terminates f draws now w : draws_ok draws → None ∉ draws →
  (∃ a b c, a ≠ b ∧ b ≠ c ∧ a ≠ c ∧ Some a ∈ draws ∧ Some b ∈ draws ∧ Some c ∈ draws) → is_Some (Reroll f draws now w).
Proof.
  intros Hd Hn (a & b & c & Hab & Hbc & Hac & Ha & Hb & Hc). unfold Reroll.
  destruct (LoadOverlay f) as [cur|] eqn:El; [|done].
  destruct (reroll_loop cur draws now) as [r|] eqn:Er; cbn [mbind option_bind]; [destruct r, w; done|]. exfalso.
  assert (validate cur = Ok tt) as (idx & Hi & Hcur)%validate_subnetAt.
  { destruct f as [| |d]; [done..|]. simpl in El. unfold parseAndMigrate in El. res_inv.
    match goal with H : validate ?a = Ok ?u |- _ => by destruct u end. }
  assert (Hs := reroll_skips cur idx draws now Hi (f_equal SubnetV4 Hcur) Hd Hn Er).
  destruct (Hs a Ha), (Hs b Hb), (Hs c Hc); congruence.
Qed.

Lemma reroll_terminates_witness :
  is_Some (Reroll (Content (Some (subnetAt 7 0))) [Some 0%Z; Some 7%Z; Some 9%Z] 1 true).
Proof.
  apply reroll_terminates.
  - intros n Hn. rewrite !elem_of_cons in Hn. unfold subnetCount.
    destruct Hn as [[= ->]|[[= ->]|[[= ->]|Hn]]]; [lia|lia|lia|by apply not_elem_of_nil in Hn].
  - intros Hn. rewrite !elem_of_cons in Hn. destruct Hn as [?|[?|[?|Hn]]]; [done..|by apply not_elem_of_nil in Hn].
  - exists 0%Z, 7%Z, 9%Z. split_and!; [done..|left|right; left|right; right; left].
Defined.

(** ** Migration *)

(** A plan as it was written before IPv6 support. *)
Definition without_v6 (o : Overlay) : Overlay := MkOverlay (SubnetV4 o) (GatewayV4 o) "" "" (RolledAt o).

(** A file from before IPv6 support loads as the same plan with exactly the IPv6 half its
    index has, reported as migrated; a complete file loads as it is, not migrated; and nothing
    loads that validate refuses. *)
Theorem migration_backfills idx now : (0 <= idx < subnetCount)%Z →
  parseAndMigrate (Some (without_v6 (subnetAt idx now))) = Ok (subnetAt idx now, true) ∧
  (SubnetV6 (subnetAt idx now) ≠ "" →
   parseAndMigrate (Some (subnetAt idx now)) = Ok (subnetAt idx now, false)) ∧
  ∀ d o m, parseAndMigrate d = Ok (o, m) → validate o = Ok tt.
Proof.
  intros Hi. split_and!.
  - pose proof (subnetAt_valid idx now Hi) as Hv. rewrite subnetAt_plan in Hv |- * by done.
    unfold subnetCount in Hi. set (x := Z.to_N (64 + idx / 256)) in *. set (y := Z.to_N (idx mod 256)) in *.
    unfold parseAndMigrate. cbn [of_option res_bind without_v6 SubnetV6 GatewayV6 SubnetV4 GatewayV4 RolledAt plan].
    rewrite (seqb_refl ""). cbn [andb]. rewrite v6FromV4_plan by (unfold x, y; div_lia). cbn [res_bind fst].
    fold (plan x y now). by rewrite Hv.
  - intros Hne%seqb_false. unfold parseAndMigrate. cbn [of_option res_bind]. rewrite Hne. cbn [andb res_bind fst].
    by rewrite subnetAt_valid.
  - intros d o m Hp. unfold parseAndMigrate in Hp. res_inv. match goal with H : validate _ = Ok ?u |- _ => by destruct u end.
Qed.

Lemma migration_backfills_witness :
  parseAndMigrate (Some (without_v6 (subnetAt 300 5))) = Ok (subnetAt 300 5, true) ∧
  (SubnetV6 (subnetAt 300 5) ≠ "" → parseAndMigrate (Some (subnetAt 300 5)) = Ok (subnetAt 300 5, false)) ∧
  ∀ d o m, parseAndMigrate d = Ok (o, m) → validate o = Ok tt.
Proof. apply migration_backfills. unfold subnetCount. lia. Defined.

(** ** Allowlists *)

Lemma expand_spec d g cs have add c :
  c ∈ (foldl (expand_entry d g) (have, add) cs).2 ↔
    c ∈ add ∨ (c = d ∧ LegacySubnetV4 ∈ cs ∧ d ∉ have) ∨ (c = g ∧ LegacyGatewayV4 +:+ "/32" ∈ cs ∧ g ∉ have).
Proof.
  set (ls := LegacySubnetV4). set (lg := LegacyGatewayV4 +:+ "/32").
  revert have add. induction cs as [|c0 cs IH]; intros have add; cbn [foldl]; [set_solver|].
  unfold expand_entry at 2. fold ls lg. assert (ls ≠ lg) by done. clearbody ls lg. rewrite !elem_of_cons.
  destruct (c0 =s ls) eqn:E1; [apply seqb_true in E1|apply seqb_false in E1; destruct (c0 =s lg) eqn:E2;
    [apply seqb_true in E2|apply seqb_false in E2]];
    repeat case_bool_decide; rewrite IH, ?elem_of_app, ?list_elem_of_singleton, ?not_elem_of_union, ?elem_of_singleton;
    clear IH; destruct (decide (g = d)); subst; naive_solver.
Qed.

(** Mirroring an allowlist keeps every entry in place and adds the install's own subnet only
    if the legacy subnet is listed, and the install's own gateway host only if the legacy
    gateway host is listed: one trusted host never widens into the whole subnet. *)
Theorem ExpandLegacy_like_for_like cidrs derived gw : gatewayOf derived = Some gw →
  (∃ add, ExpandLegacy cidrs derived = cidrs ++ add) ∧
  ∀ c, c ∈ ExpandLegacy cidrs derived ↔
    c ∈ cidrs ∨ (c = derived ∧ LegacySubnetV4 ∈ cidrs) ∨ (c = gw +:+ "/32" ∧ LegacyGatewayV4 +:+ "/32" ∈ cidrs).
Proof.
  intros Hg. unfold ExpandLegacy. rewrite Hg. split; [by eexists|]. intros c. rewrite elem_of_app, expand_spec.
  rewrite !elem_of_list_to_set. set_unfold. split; [naive_solver|].
  intros [?|[[-> ?]|[-> ?]]]; [by left|..].
  - destruct (decide (derived ∈ cidrs)); [by left|naive_solver].
  - destruct (decide (gw +:+ "/32" ∈ cidrs)); [by left|naive_solver].
Qed.

Lemma ExpandLegacy_like_for_like_witness :
  (∃ add, ExpandLegacy ["100.64.0.1/32"] "100.64.9.0/24" = ["100.64.0.1/32"] ++ add) ∧
  ∀ c, c ∈ ExpandLegacy ["100.64.0.1/32"] "100.64.9.0/24" ↔
    c ∈ ["100.64.0.1/32"] ∨ (c = "100.64.9.0/24" ∧ LegacySubnetV4 ∈ ["100.64.0.1/32"]) ∨
    (c = "100.64.9.1" +:+ "/32" ∧ LegacyGatewayV4 +:+ "/32" ∈ ["100.64.0.1/32"]).
Proof. apply ExpandLegacy_like_for_like. vm_compute. reflexivity. Defined.
