(* ===== verification/WgServer.v ===== *)
(** * internal/wireguard/server.go: the WireGuard interface

    [Server] is the Go struct with the history of the commands it ran. A command's outcome
    is the oracle [runs], a function of the commands run before it and of its own words:
    any behaviour of wg and ip, time-dependent ones included, is some oracle. *)

From S2P Require Import Prelude Encoding NetAddr Overlay.

Definition argv := list string.

Class Commands := { runs : list argv → argv → bool }.

(** ** Validation of untrusted arguments *)

Inductive wg_error :=
| ErrKeyEmpty | ErrKeyDash | ErrKeyBase64 | ErrKeyLength | ErrIPParse | ErrIPFamily | ErrServerV6
| ErrRunning | ErrTempKey | ErrCreate | ErrConfigure | ErrAssign | ErrUp | ErrAddPeer.

Definition validateWGPublicKey (s : string) : result wg_error unit :=
  check! guard_err (s <>s "") ErrKeyEmpty in
  check! guard_err (negb (has_prefix s "-")) ErrKeyDash in
  let! b := of_option ErrKeyBase64 (Base64.decode s) in
  guard_err (slen b =? 32)%nat ErrKeyLength.

Definition validateTunnelIPv4 (s : string) : result wg_error unit :=
  let! ip := of_option ErrIPParse (ParseIP s) in
  guard_err (bool_decide (is_Some (To4 ip))) ErrIPFamily.

Definition validateTunnelIPv6 (s : string) : result wg_error unit :=
  let! ip := of_option ErrIPParse (ParseIP s) in
  guard_err (bool_decide (To4 ip = None)) ErrIPFamily.

Definition deriveTunnelIPv6 (serverIPv6 tunnelIPv4 : string) : result wg_error string :=
  let! b4 := of_option ErrIPParse (ip ← ParseIP tunnelIPv4; To4 ip) in
  let! base := of_option ErrServerV6 (ip ← ParseIP serverIPv6; match To4 ip with None => Some ip | Some _ => None end) in
  Ok (IP_String (take 15 base ++ [nth 3 b4 0%N])).

Definition v6PrefixLen (subnetV6 : string) : nat :=
  match ParseCIDR subnetV6 with
  | Some p => if (0 <? n_ones p.2)%nat then n_ones p.2 else 64
  | None => 64
  end.

(** ** The server *)

Record Peer := MkPeer { PublicKey : string; TunnelIP : string; PeerTunnelIPv6 : string }.

Record Server := MkServer {
  listenPort : Z;
  serverIP : string;
  subnet : string;
  serverIPv6 : string;
  subnetV6 : string;
  iface : string;
  privKeyFile : string;
  peers : gmap string Peer;
  running : bool;
  history : list argv
}.

Definition with_history (s : Server) (h : list argv) : Server :=
  MkServer (listenPort s) (serverIP s) (subnet s) (serverIPv6 s) (subnetV6 s) (iface s) (privKeyFile s)
    (peers s) (running s) h.
Definition with_peers (s : Server) (m : gmap string Peer) : Server :=
  MkServer (listenPort s) (serverIP s) (subnet s) (serverIPv6 s) (subnetV6 s) (iface s) (privKeyFile s)
    m (running s) (history s).
Definition with_running (s : Server) (b : bool) : Server :=
  MkServer (listenPort s) (serverIP s) (subnet s) (serverIPv6 s) (subnetV6 s) (iface s) (privKeyFile s)
    (peers s) b (history s).

Definition TunnelIPv6 (s : Server) (tunnelIPv4 : string) : string :=
  if serverIPv6 s =s "" then ""
  else match deriveTunnelIPv6 (serverIPv6 s) tunnelIPv4 with
       | Err _ => ""
       | Ok v6 => if is_ok (validateTunnelIPv6 v6) then v6 else ""
       end.

Definition AllowedIPs (s : Server) : string :=
  if subnetV6 s <>s "" then subnet s +:+ "," +:+ subnetV6 s else subnet s.

Section Run.
Context `{Commands}.

(** run(name, args...): record the command, report its outcome. *)
Definition run_cmd (s : Server) (c : argv) : Server * bool :=
  (with_history s (history s ++ [c]), runs (history s) c).

(** A command whose failure is only logged. *)
Definition try_cmd (s : Server) (c : argv) : Server := (run_cmd s c).1.

Definition link_del (s : Server) : argv := ["ip"; "link"; "del"; iface s].

(** The addresses whose failure is only logged: the legacy gateway, the IPv6 gateway and the
    legacy IPv6 gateway. *)
Definition bind_aliases (s : Server) : Server :=
  let s := if serverIP s <>s LegacyGatewayV4
           then try_cmd s ["ip"; "addr"; "add"; LegacyGatewayV4 +:+ "/24"; "dev"; iface s] else s in
  if serverIPv6 s <>s "" then
    let s := try_cmd s ["ip"; "addr"; "add"; serverIPv6 s +:+ "/" +:+ itoa (Z.of_nat (v6PrefixLen (subnetV6 s)));
                        "dev"; iface s] in
    if serverIPv6 s <>s LegacyGatewayV6
    then try_cmd s ["ip"; "addr"; "add"; LegacyGatewayV6 +:+ "/64"; "dev"; iface s] else s
  else s.

(** [keyWritten] tells whether the transient key file could be written. *)
Definition Start (keyWritten : bool) (s : Server) : Server * result wg_error unit :=
  if running s then (s, Err ErrRunning)
  else if negb keyWritten then (s, Err ErrTempKey)
  else
    let s := try_cmd s (link_del s) in
    let '(s, ok) := run_cmd s ["ip"; "link"; "add"; iface s; "type"; "wireguard"] in
    if negb ok then (s, Err ErrCreate)
    else
      let '(s, ok) := run_cmd s ["wg"; "set"; iface s; "private-key"; privKeyFile s; "listen-port"; itoa (listenPort s)] in
      if negb ok then (try_cmd s (link_del s), Err ErrConfigure)
      else
        let '(s, ok) := run_cmd s ["ip"; "addr"; "add"; serverIP s +:+ "/24"; "dev"; iface s] in
        if negb ok then (try_cmd s (link_del s), Err ErrAssign)
        else
          let s := bind_aliases s in
          let '(s, ok) := run_cmd s ["ip"; "link"; "set"; iface s; "up"] in
          if negb ok then (try_cmd s (link_del s), Err ErrUp)
          else (with_running s true, Ok tt).

Definition Stop (s : Server) : Server :=
  if negb (running s) then s else with_running (try_cmd s (link_del s)) false.

Definition allowed_ips (tunnelIP tunnelIPv6 : string) : string :=
  if tunnelIPv6 <>s "" then tunnelIP +:+ "/32" +:+ "," +:+ tunnelIPv6 +:+ "/128" else tunnelIP +:+ "/32".

Definition AddPeer (pubKey tunnelIP : string) (s : Server) : Server * result wg_error unit :=
  match validateWGPublicKey pubKey with
  | Err e => (s, Err e)
  | Ok _ =>
      match validateTunnelIPv4 tunnelIP with
      | Err e => (s, Err e)
      | Ok _ =>
          let v6 := TunnelIPv6 s tunnelIP in
          let '(s1, ok) := run_cmd s ["wg"; "set"; iface s; "peer"; pubKey; "allowed-ips"; allowed_ips tunnelIP v6] in
          if negb ok then (s1, Err ErrAddPeer)
          else
            let s2 := try_cmd s1 ["ip"; "route"; "replace"; tunnelIP +:+ "/32"; "dev"; iface s] in
            let s3 := if v6 <>s ""
                      then try_cmd s2 ["ip"; "-6"; "route"; "replace"; v6 +:+ "/128"; "dev"; iface s] else s2 in
            (with_peers s3 (<[pubKey := MkPeer pubKey tunnelIP v6]> (peers s3)), Ok tt)
      end
  end.

Definition RemovePeer (pubKey : string) (s : Server) : Server :=
  match peers s !! pubKey with
  | None => s
  | Some p =>
      let s1 := try_cmd s ["wg"; "set"; iface s; "peer"; pubKey; "remove"] in
      let s2 := try_cmd s1 ["ip"; "route"; "del"; TunnelIP p +:+ "/32"; "dev"; iface s] in
      let s3 := if PeerTunnelIPv6 p <>s ""
                then try_cmd s2 ["ip"; "-6"; "route"; "del"; PeerTunnelIPv6 p +:+ "/128"; "dev"; iface s] else s2 in
      with_peers s3 (delete pubKey (peers s3))
  end.

Definition ListPeers (s : Server) : list Peer := map snd (map_to_list (peers s)).
End Run.

Definition TruncateKey (key : string) : string :=
  if (16 <? slen key)%nat then stake 16 key +:+ "..." else key.

(** ** Untrusted words never look like a flag *)

Definition dashed (w : string) : bool := has_prefix w "-".

Lemma valid_key_not_dashed k : validateWGPublicKey k = Ok tt → dashed k = false ∧ k ≠ "".
Proof.
  unfold validateWGPublicKey. intros H. res_inv. unfold dashed.
  repeat match goal with E : negb _ = true |- _ => apply negb_true_iff in E end. str_inv. done.
Qed.

Lemma first_sep_dash r c : first_sep (String "-" r) = Some c → ∃ c', c = c' ∧ first_sep r = Some c'.
Proof. eauto. Qed.

Lemma split_head_dash r : ∃ w ws, split_on "." (String "-" r) = String "-" w :: ws.
Proof. simpl. destruct (split_on "." r); eauto. Qed.

Lemma parse_ipv4_dash r : parse_ipv4 (String "-" r) = None.
Proof.
  unfold parse_ipv4. destruct (split_head_dash r) as (w & ws & ->). by destruct ws as [|? [|? [|? [|]]]].
Qed.

Lemma hex_run_dash r : hex_run 0 0 (String "-" r) = Some (0%N, 0, String "-" r).
Proof. reflexivity. Qed.

Lemma parse_addr_dash r : parse_addr (String "-" r) = None.
Proof.
  unfold parse_addr. destruct (first_sep (String "-" r)) as [c|]; [|done]. simpl.
  destruct (ceqb c "."); [by rewrite parse_ipv4_dash|]. destruct (ceqb c ":"); [|done].
  destruct (contains_byte "%" r); [done|]. reflexivity.
Qed.

Lemma valid_ip_not_dashed s : is_Some (ParseIP s) → dashed s = false.
Proof.
  unfold ParseIP, dashed. intros [ip Hip]. destruct s as [|c s]; [done|]. destruct (ceqb c "-") eqn:E.
  - apply ceqb_true in E as ->. by rewrite parse_addr_dash in Hip.
  - apply ceqb_false in E. apply seqb_false. by intros [= ->].
Qed.

Lemma not_dashed_app w r : dashed w = false → w ≠ "" → dashed (w +:+ r) = false.
Proof. destruct w as [|c w]; [done|]. unfold dashed. intros Hd _. apply seqb_false in Hd. by apply seqb_false. Qed.

Lemma ParseIP_nonempty s : is_Some (ParseIP s) → s ≠ "".
Proof. intros [ip Hip] ->. discriminate Hip. Qed.

Lemma TunnelIPv6_parses s ip : TunnelIPv6 s ip ≠ "" → is_Some (ParseIP (TunnelIPv6 s ip)).
Proof.
  unfold TunnelIPv6. destruct (serverIPv6 s =s ""); [done|]. destruct (deriveTunnelIPv6 _ _) as [v6|]; [|done].
  destruct (validateTunnelIPv6 v6) eqn:E; simpl; [|done]. intros _. unfold validateTunnelIPv6 in E. res_inv. by eexists.
Qed.

(** Words the program writes itself. *)
Definition fixed_word (s : Server) (w : string) : bool :=
  bool_decide (w ∈ ["wg"; "set"; "ip"; "-6"; "route"; "replace"; "dev"; "peer"; "allowed-ips"; iface s]).

Section Theorems.
Context `{Commands}.

(** The commands AddPeer adds to the history. *)
Definition add_commands (s : Server) (pubKey tunnelIP : string) : list argv :=
  ["wg"; "set"; iface s; "peer"; pubKey; "allowed-ips"; allowed_ips tunnelIP (TunnelIPv6 s tunnelIP)] ::
  ["ip"; "route"; "replace"; tunnelIP +:+ "/32"; "dev"; iface s] ::
  (if TunnelIPv6 s tunnelIP <>s ""
   then [["ip"; "-6"; "route"; "replace"; TunnelIPv6 s tunnelIP +:+ "/128"; "dev"; iface s]] else []).

Lemma AddPeer_history pubKey tunnelIP s s' r : AddPeer pubKey tunnelIP s = (s', r) →
  (s' = s ∧ is_ok r = false) ∨
  (validateWGPublicKey pubKey = Ok tt ∧ validateTunnelIPv4 tunnelIP = Ok tt ∧
   ∃ n, history s' = history s ++ take n (add_commands s pubKey tunnelIP) ∧
        (r = Ok tt → n = 3 ∧ peers s' = <[pubKey := MkPeer pubKey tunnelIP (TunnelIPv6 s tunnelIP)]> (peers s)) ∧
        (is_ok r = false → n = 1 ∧ peers s' = peers s)).
Proof.
  unfold AddPeer. destruct (validateWGPublicKey pubKey) as [[]|]; [|intros [= <- <-]; by left].
  destruct (validateTunnelIPv4 tunnelIP) as [[]|]; [|intros [= <- <-]; by left]. intros Ha. right.
  split; [done|]. split; [done|]. unfold add_commands. simpl in Ha. destruct (runs _ _); simpl in Ha.
  - exists 3. destruct (TunnelIPv6 s tunnelIP <>s "") eqn:E; injection Ha as <- <-; simpl; rewrite ?E, <- ?app_assoc; done.
  - exists 1. injection Ha as <- <-. done.
Qed.

(** Whatever key and address an untrusted caller passes to AddPeer, no word of any command
    that is run, other than the program's own fixed words, starts with a dash; when the key or
    the address does not validate, nothing is run and nothing changes. *)
Theorem AddPeer_no_flag_injection pubKey tunnelIP s s' r :
  AddPeer pubKey tunnelIP s = (s', r) →
  (validateWGPublicKey pubKey ≠ Ok tt ∨ validateTunnelIPv4 tunnelIP ≠ Ok tt → s' = s ∧ is_ok r = false) ∧
  ∃ new, history s' = history s ++ new ∧
    ∀ c w, c ∈ new → w ∈ c → fixed_word s w = true ∨ dashed w = false.
Proof.
  intros Ha. destruct (AddPeer_history _ _ _ _ _ Ha) as [[-> Hr]|(Hk & Hi & n & Hh & _)].
  { split; [done|]. exists []. split; [by rewrite app_nil_r|]. set_solver. }
  split; [naive_solver|]. exists (take n (add_commands s pubKey tunnelIP)). split; [done|].
  intros c w Hc Hw.
  assert (c ∈ add_commands s pubKey tunnelIP) as Hc'
    by (rewrite <- (take_drop n (add_commands s pubKey tunnelIP)), elem_of_app; by left).
  destruct (valid_key_not_dashed pubKey Hk) as [Hk1 Hk2].
  assert (is_Some (ParseIP tunnelIP)) as Hip by (unfold validateTunnelIPv4 in Hi; res_inv; by eexists).
  pose proof (valid_ip_not_dashed _ Hip). pose proof (ParseIP_nonempty _ Hip).
  assert (H32 : dashed (tunnelIP +:+ "/32") = false) by by apply not_dashed_app.
  destruct (fixed_word s w) eqn:Ef; [by left|right]. apply bool_decide_eq_false in Ef.
  unfold add_commands in Hc'. rewrite !elem_of_cons in Hc'. destruct Hc' as [->|[->|Hc']].
  - assert (w = pubKey ∨ w = allowed_ips tunnelIP (TunnelIPv6 s tunnelIP)) as [->| ->] by set_solver; [done|].
    unfold allowed_ips. destruct (TunnelIPv6 s tunnelIP <>s ""); [by apply not_dashed_app|done].
  - assert (w = tunnelIP +:+ "/32") as -> by set_solver. done.
  - destruct (TunnelIPv6 s tunnelIP <>s "") eqn:E6; [|set_solver]. apply list_elem_of_singleton in Hc' as ->.
    assert (w = TunnelIPv6 s tunnelIP +:+ "/128") as -> by set_solver.
    apply negb_true_iff, seqb_false in E6. pose proof (TunnelIPv6_parses _ _ E6).
    apply not_dashed_app; [by apply valid_ip_not_dashed|done].
Qed.

(** ** The peer table *)

Definition peers_ok (s : Server) : Prop := ∀ k p, peers s !! k = Some p →
  PublicKey p = k ∧ is_ok (validateWGPublicKey k) = true ∧ is_ok (validateTunnelIPv4 (TunnelIP p)) = true ∧
  PeerTunnelIPv6 p = TunnelIPv6 s (TunnelIP p).

Inductive op := OpStart (keyWritten : bool) | OpStop | OpAddPeer (k ip : string) | OpRemovePeer (k : string).

Definition apply_op (s : Server) (o : op) : Server :=
  match o with
  | OpStart b => (Start b s).1
  | OpStop => Stop s
  | OpAddPeer k ip => (AddPeer k ip s).1
  | OpRemovePeer k => RemovePeer k s
  end.

(** What never changes after construction. *)
Definition config (s : Server) : Z * string * string * string * string * string * string :=
  (listenPort s, serverIP s, subnet s, serverIPv6 s, subnetV6 s, iface s, privKeyFile s).

(** Only the command history differs. *)
Definition same_but_history (s s' : Server) : Prop := s' = with_history s (history s').

Lemma same_refl s : same_but_history s s.
Proof. by destruct s. Qed.

Lemma same_trans a b c : same_but_history a b → same_but_history b c → same_but_history a c.
Proof. unfold same_but_history. intros -> ->. done. Qed.

Lemma same_try s c : same_but_history s (try_cmd s c).
Proof. done. Qed.

Lemma same_run s c s' ok : run_cmd s c = (s', ok) → same_but_history s s' ∧ last (history s') = Some c.
Proof. unfold run_cmd. intros [= <- _]. split; [done|apply last_snoc]. Qed.

Lemma same_aliases s : same_but_history s (bind_aliases s).
Proof.
  unfold bind_aliases. set (s1 := if serverIP s <>s LegacyGatewayV4 then _ else s).
  assert (H1 : same_but_history s s1) by (unfold s1; destruct (_ <>s _); [apply same_try|apply same_refl]). clearbody s1.
  destruct (serverIPv6 s1 <>s ""); [|done]. set (s2 := try_cmd s1 _).
  assert (H2 : same_but_history s s2) by (eapply same_trans; [exact H1|apply same_try]). clearbody s2.
  destruct (_ <>s _); [|done]. eapply same_trans; [exact H2|apply same_try].
Qed.

Lemma same_fields s s' : same_but_history s s' →
  peers s' = peers s ∧ config s' = config s ∧ running s' = running s ∧ iface s' = iface s.
Proof. intros ->. done. Qed.

(** Every way Start can end. *)
Lemma Start_cases b s s' r : Start b s = (s', r) → peers s' = peers s ∧ config s' = config s ∧
  ((running s = true ∧ s' = s ∧ r = Err ErrRunning) ∨
   (running s = false ∧ b = false ∧ s' = s ∧ r = Err ErrTempKey) ∨
   (running s = false ∧ running s' = false ∧ r = Err ErrCreate) ∨
   (running s = false ∧ running s' = false ∧ is_ok r = false ∧ last (history s') = Some (link_del s)) ∨
   (running s = false ∧ running s' = true ∧ r = Ok tt ∧ last (history s') = Some ["ip"; "link"; "set"; iface s; "up"])).
Proof.
  unfold Start. destruct (running s) eqn:Er; [intros [= <- <-]; auto 10|]. destruct b; [|intros [= <- <-]; auto 10].
  cbn [negb]. cbv zeta. pose proof (same_try s (link_del s)) as H0. set (s0 := try_cmd s (link_del s)) in *. clearbody s0.
  destruct (run_cmd s0 _) as [s1 []] eqn:E1; apply same_run in E1 as [H1 L1]; pose proof (same_trans _ _ _ H0 H1) as G1;
    cbn [negb].
  2: { intros [= <- <-]. destruct (same_fields _ _ G1) as (? & ? & Hrun & _). rewrite Er in Hrun. auto 10. }
  assert (Hdel : ∀ t, same_but_history s t → is_ok (@Err _ unit ErrUp) = false ∧
    peers (try_cmd t (link_del t)) = peers s ∧ config (try_cmd t (link_del t)) = config s ∧
    running (try_cmd t (link_del t)) = false ∧ last (history (try_cmd t (link_del t))) = Some (link_del s)).
  { intros t Ht. destruct (same_fields _ _ Ht) as (? & ? & Hrun & Hif). rewrite Er in Hrun. split_and!; try done.
    simpl. rewrite last_snoc. unfold link_del. by rewrite Hif. }
  destruct (run_cmd s1 _) as [s2 []] eqn:E2; apply same_run in E2 as [H2 L2]; pose proof (same_trans _ _ _ G1 H2) as G2;
    cbn [negb].
  2: { intros [= <- <-]. destruct (Hdel s2 G2) as (_ & ? & ? & ? & ?). auto 10. }
  destruct (run_cmd s2 _) as [s3 []] eqn:E3; apply same_run in E3 as [H3 L3]; pose proof (same_trans _ _ _ G2 H3) as G3;
    cbn [negb].
  2: { intros [= <- <-]. destruct (Hdel s3 G3) as (_ & ? & ? & ? & ?). auto 10. }
  pose proof (same_trans _ _ _ G3 (same_aliases s3)) as G4. set (s4 := bind_aliases s3) in *. clearbody s4.
  destruct (run_cmd s4 _) as [s5 []] eqn:E5; apply same_run in E5 as [H5 L5]; pose proof (same_trans _ _ _ G4 H5) as G5;
    cbn [negb].
  2: { intros [= <- <-]. destruct (Hdel s5 G5) as (_ & ? & ? & ? & ?). auto 10. }
  intros [= <- <-]. destruct (same_fields _ _ G5) as (? & ? & _ & _), (same_fields _ _ G4) as (_ & _ & _ & Hif).
  rewrite Hif in L5. simpl. auto 10.
Qed.

Lemma Start_state b s : peers (Start b s).1 = peers s ∧ config (Start b s).1 = config s.
Proof. destruct (Start b s) as [s' r] eqn:E. destruct (Start_cases _ _ _ _ E) as (? & ? & _). done. Qed.

Lemma AddPeer_config k ip s : config (AddPeer k ip s).1 = config s.
Proof.
  unfold AddPeer. destruct (validateWGPublicKey k); [|done]. destruct (validateTunnelIPv4 ip); [|done].
  cbn -[String.append seqb TunnelIPv6 allowed_ips]. destruct (runs _ _); [|done]. by destruct (TunnelIPv6 s ip <>s "").
Qed.

Lemma AddPeer_peers k ip s s' r : AddPeer k ip s = (s', r) →
  peers s' = match r with Ok _ => <[k := MkPeer k ip (TunnelIPv6 s ip)]> (peers s) | Err _ => peers s end.
Proof.
  intros E. destruct (AddPeer_history _ _ _ _ _ E) as [[-> Hr]|(_ & _ & n & _ & Hok & Herr)].
  - by destruct r.
  - destruct r as [[]|]; [apply (Hok eq_refl)|apply (Herr eq_refl)].
Qed.

Lemma RemovePeer_state k s : config (RemovePeer k s) = config s ∧ peers (RemovePeer k s) = delete k (peers s).
Proof.
  unfold RemovePeer. destruct (peers s !! k) as [p|] eqn:E; [|by rewrite delete_id].
  by destruct (PeerTunnelIPv6 p <>s "").
Qed.

Lemma TunnelIPv6_config s s' ip : config s = config s' → TunnelIPv6 s ip = TunnelIPv6 s' ip.
Proof. unfold config, TunnelIPv6. by intros [= _ _ _ -> _ _ _]. Qed.

Lemma peers_ok_apply s o : peers_ok s → peers_ok (apply_op s o).
Proof.
  intros Hs. destruct o as [b| |k ip|k]; simpl.
  - destruct (Start_state b s) as [E1 E2]. intros k p. rewrite E1, (TunnelIPv6_config _ _ _ E2). apply Hs.
  - unfold Stop. by destruct (running s).
  - destruct (AddPeer k ip s) as [s' r] eqn:E. pose proof (AddPeer_config k ip s) as Hc. rewrite E in Hc. simpl in *.
    destruct (AddPeer_history _ _ _ _ _ E) as [[-> _]|(Hk & Hi & n & _ & Hok & Herr)]; [done|].
    intros k' p. rewrite (TunnelIPv6_config _ _ _ Hc). destruct r as [[]|].
    + destruct (Hok eq_refl) as [_ ->]. intros [[<- <-]|[_ ?]]%lookup_insert_Some; [|by apply Hs].
      simpl. by rewrite Hk, Hi.
    + destruct (Herr eq_refl) as [_ ->]. apply Hs.
  - destruct (RemovePeer_state k s) as [E1 E2]. intros k' p. rewrite E2, (TunnelIPv6_config _ _ _ E1).
    intros [_ ?]%lookup_delete_Some. by apply Hs.
Qed.

Definition NewServer (port : Z) (ip sub ip6 sub6 keyFile : string) : Server :=
  MkServer port ip sub ip6 sub6 "wg-atreo" keyFile ∅ false [].

Lemma peers_ok_run ops s : peers_ok s → peers_ok (foldl apply_op s ops).
Proof. revert s. induction ops as [|o ops IH]; intros s Hs; [done|]. apply IH. by apply peers_ok_apply. Qed.

(** Whatever the commands do and in whatever order the methods are called, every peer in
    the table is stored under its own key, with a key and an IPv4 address that validate and
    with the IPv6 address the address plan derives from that IPv4 address; and a removed key
    is gone from the table even if every command failed. *)
Theorem peer_table_consistent port ip sub ip6 sub6 keyFile ops k :
  let s := foldl apply_op (NewServer port ip sub ip6 sub6 keyFile) ops in
  peers_ok s ∧ peers (RemovePeer k s) !! k = None.
Proof.
  split; [by apply peers_ok_run|].
  destruct (RemovePeer_state k (foldl apply_op (NewServer port ip sub ip6 sub6 keyFile) ops)) as [_ ->].
  apply lookup_delete_eq.
Qed.

(** Start either brings the interface up, which is its last command, and marks the server
    running; or fails and leaves it not running, its last command being the deletion of the
    half-configured interface unless the interface was never created; and a second Start
    while running does nothing. *)
Theorem Start_all_or_nothing b s s' r : Start b s = (s', r) →
  (running s = true → s' = s ∧ r = Err ErrRunning) ∧
  (r = Ok tt → running s' = true ∧ last (history s') = Some ["ip"; "link"; "set"; iface s; "up"]) ∧
  (running s = false → is_ok r = false → running s' = false ∧
     (r = Err ErrTempKey ∧ s' = s ∨ r = Err ErrCreate ∨ last (history s') = Some (link_del s))).
Proof.
  intros (_ & _ & [(E & -> & ->)|[(E & -> & -> & ->)|[(E & E' & ->)|[(E & E' & Hr & L)|(E & E' & -> & L)]]]])%Start_cases;
    rewrite ?E; split_and!; try done; auto 10.
  intros ->. done.
Qed.
End Theorems.

(** ** Concrete runs *)

Module Demo.
(** wg rejects the second peer it is given. *)
#[local] Instance picky : Commands := {| runs h c := (length h <? 4)%nat |}.

Definition key : string := "AAAAAAAAAAAAAAAAAAAAAAAAAAAAAAAAAAAAAAAAAAA=".
Definition server : Server := NewServer 51820 "100.64.9.1" "100.64.9.0/24" "fd00:64:0:9::1" "fd00:64:0:9::/64" "/k".

Lemma AddPeer_no_flag_injection_witness :
  let '(s', r) := AddPeer key "100.64.9.7" server in
  (validateWGPublicKey key ≠ Ok tt ∨ validateTunnelIPv4 "100.64.9.7" ≠ Ok tt → s' = server ∧ is_ok r = false) ∧
  ∃ new, history s' = history server ++ new ∧
    ∀ c w, c ∈ new → w ∈ c → fixed_word server w = true ∨ dashed w = false.
Proof.
  destruct (AddPeer key "100.64.9.7" server) as [s' r] eqn:E.
  exact (AddPeer_no_flag_injection key "100.64.9.7" server s' r E).
Defined.

Lemma Start_all_or_nothing_witness :
  let '(s', r) := Start true server in
  (running server = true → s' = server ∧ r = Err ErrRunning) ∧
  (r = Ok tt → running s' = true ∧ last (history s') = Some ["ip"; "link"; "set"; iface server; "up"]) ∧
  (running server = false → is_ok r = false → running s' = false ∧
     (r = Err ErrTempKey ∧ s' = server ∨ r = Err ErrCreate ∨ last (history s') = Some (link_del server))).
Proof.
  destruct (Start true server) as [s' r] eqn:E. exact (Start_all_or_nothing true server s' r E).
Defined.

(** The peer's address carries the IPv4 host octet. *)
Example derived_address : TunnelIPv6 server "100.64.9.7" = "fd00:64:0:9::7".
Proof. vm_compute. reflexivity. Qed.

(** validateTunnelIPv4 lets an IPv6 literal through: the IPv4-mapped form, which then goes to
    wg as an IPv6 prefix of length 32. *)
Lemma mapped_literal_accepted :
  validateTunnelIPv4 "::ffff:10.0.0.7" = Ok tt ∧
  allowed_ips "::ffff:10.0.0.7" "" = "::ffff:10.0.0.7/32".
Proof. split; vm_compute; reflexivity. Qed.
End Demo.
