(* ===== verification/Firewall.v ===== *)
(** * internal/firewall: confining the tunnel's peers

    The manager drives iptables and ip6tables. As in [WgServer], the commands' outcomes are
    an oracle on the history; exec.LookPath is another. [applyTable] runs its commands in
    order and stops at the first that fails. The specification side reads the appended
    rules the way iptables documents them, first match decides, and says which packets the
    ruleset accepts. *)

From S2P Require Import Prelude WgServer.

Definition inputChain : string := "ATREOAGENT-WG-INPUT".
Definition forwardChain : string := "ATREOAGENT-WG-FORWARD".

Record fwTable := MkTable { bin : string; icmpProto : string }.
Definition tables : list fwTable := [MkTable "iptables" "icmp"; MkTable "ip6tables" "ipv6-icmp"].

Record PortGrant := MkGrant { SourceIP : string; SourceIPv6 : string; TCP : list Z; UDP : list Z }.

Record Manager := MkManager {
  Iface : string;
  AllowedTCPPorts : list Z;
  enabled : bool;
  portGrants : list PortGrant;
  log : list argv
}.

Definition with_log (m : Manager) (l : list argv) : Manager :=
  MkManager (Iface m) (AllowedTCPPorts m) (enabled m) (portGrants m) l.
Definition with_enabled (m : Manager) (b : bool) : Manager :=
  MkManager (Iface m) (AllowedTCPPorts m) b (portGrants m) (log m).
Definition with_grants (m : Manager) (g : list PortGrant) : Manager :=
  MkManager (Iface m) (AllowedTCPPorts m) (enabled m) g (log m).

Definition NewManager (ifc : string) (ports : list Z) : Manager := MkManager ifc ports false [] [].

(** exec.LookPath, which may change its answer as the history grows. *)
Class Path := { on_path : list argv → string → bool }.

Inductive fw_error := ErrNotOnPath | ErrEmptyIface | ErrRule.

(** ** Rules *)

Definition grant_rule (chain src proto : string) (port : Z) : argv :=
  ["-A"; chain; "-s"; src; "-p"; proto; "--dport"; itoa port; "-j"; "ACCEPT"].

Definition positive (ps : list Z) : list Z := List.filter (λ p, negb (p <=? 0)%Z) ps.

Definition portGrantRules (chain : string) (grants : list PortGrant) (v6 : bool) : list argv :=
  mjoin (map (λ g,
    let src := if v6 then SourceIPv6 g else SourceIP g in
    if src =s "" then []
    else map (grant_rule chain src "tcp") (positive (TCP g)) ++
         map (grant_rule chain src "udp") (positive (UDP g))) grants).

Definition is_v6 (t : fwTable) : bool := bin t =s "ip6tables".

(** The rules appended to the INPUT-side chain, in order. *)
Definition input_rules (m : Manager) (t : fwTable) : list argv :=
  ["-A"; inputChain; "-m"; "conntrack"; "--ctstate"; "RELATED,ESTABLISHED"; "-j"; "ACCEPT"] ::
  ["-A"; inputChain; "-p"; icmpProto t; "-j"; "ACCEPT"] ::
  map (λ p, ["-A"; inputChain; "-p"; "tcp"; "--dport"; itoa p; "-j"; "ACCEPT"]) (positive (AllowedTCPPorts m)) ++
  portGrantRules inputChain (portGrants m) (is_v6 t) ++
  [["-A"; inputChain; "-j"; "DROP"]].

Definition forward_rules (m : Manager) (t : fwTable) : list argv :=
  portGrantRules forwardChain (portGrants m) (is_v6 t) ++ [["-A"; forwardChain; "-j"; "DROP"]].

(** applyTable up to and including the INPUT jump, without the binary's name. *)
Definition table_commands (m : Manager) (t : fwTable) : list argv :=
  [["-N"; inputChain]; ["-N"; forwardChain]] ++ input_rules m t ++ forward_rules m t ++
  [["-I"; "INPUT"; "1"; "-i"; Iface m; "-j"; inputChain]].

Definition forward_jump (m : Manager) : argv := ["-I"; "FORWARD"; "1"; "-i"; Iface m; "-j"; forwardChain].

Section Run.
Context `{Commands} `{Path}.

Definition run_cmd (h : list argv) (c : argv) : list argv * bool := (h ++ [c], runs h c).

(** Commands in order, up to the first that fails. *)
Fixpoint run_all (h : list argv) (cs : list argv) : list argv * bool :=
  match cs with
  | [] => (h, true)
  | c :: cs' => let '(h', ok) := run_cmd h c in if ok then run_all h' cs' else (h', false)
  end.

(** for i := 0; i < n; i++: repeat a deletion until it fails. *)
Fixpoint drain (n : nat) (h : list argv) (c : argv) : list argv :=
  match n with
  | O => h
  | S n' => let '(h', ok) := run_cmd h c in if ok then drain n' h' c else h'
  end.

Definition teardown_table (ifc : string) (h : list argv) (t : fwTable) : list argv :=
  let h := drain 8 h [bin t; "-D"; "INPUT"; "-i"; ifc; "-j"; inputChain] in
  let h := drain 8 h [bin t; "-D"; "FORWARD"; "-i"; ifc; "-j"; forwardChain] in
  h ++ [[bin t; "-F"; inputChain]; [bin t; "-F"; forwardChain]; [bin t; "-X"; inputChain]; [bin t; "-X"; forwardChain]].

Definition teardown (ifc : string) (h : list argv) : list argv := foldl (teardown_table ifc) h tables.

Definition applyTable (m : Manager) (h : list argv) (t : fwTable) : list argv * bool :=
  let '(h, ok) := run_all h (map (cons (bin t)) (table_commands m t)) in
  if negb ok then (h, false)
  else
    let '(h, ok) := run_cmd h (bin t :: forward_jump m) in
    if ok then (h, true)
    else (h ++ [[bin t; "-D"; "INPUT"; "-i"; Iface m; "-j"; inputChain]], false).

Fixpoint apply_tables (m : Manager) (h : list argv) (ts : list fwTable) : list argv * bool :=
  match ts with
  | [] => (h, true)
  | t :: ts' => let '(h', ok) := applyTable m h t in if ok then apply_tables m h' ts' else (h', false)
  end.

Definition Apply (m : Manager) : Manager * result fw_error unit :=
  if negb (forallb (λ t, on_path (log m) (bin t)) tables) then (m, Err ErrNotOnPath)
  else if Iface m =s "" then (m, Err ErrEmptyIface)
  else
    let '(h, ok) := apply_tables m (teardown (Iface m) (log m)) tables in
    if ok then (with_enabled (with_log m h) true, Ok tt)
    else (with_log m (teardown (Iface m) h), Err ErrRule).

Fixpoint intsEqual (a b : list Z) : bool :=
  match a, b with
  | [], [] => true
  | x :: a', y :: b' => (x =? y)%Z && intsEqual a' b'
  | _, _ => false
  end.

Fixpoint grantsEqual (a b : list PortGrant) : bool :=
  match a, b with
  | [], [] => true
  | x :: a', y :: b' =>
      (SourceIP x =s SourceIP y) && (SourceIPv6 x =s SourceIPv6 y) && intsEqual (TCP x) (TCP y) &&
      intsEqual (UDP x) (UDP y) && grantsEqual a' b'
  | _, _ => false
  end.

Definition SetPortGrants (grants : list PortGrant) (m : Manager) : Manager * result fw_error unit :=
  if grantsEqual (portGrants m) grants then (m, Ok tt)
  else
    let m' := with_grants m grants in
    if negb (enabled m') then (m', Ok tt) else Apply m'.

(** One tick of the watchdog: check the INPUT jump in each table, stop at the first that
    misses it, and apply again. *)
Definition watchdog_tick (m : Manager) : Manager :=
  if negb (enabled m) then m
  else
    let '(h, present) := run_all (log m)
        (map (λ t, [bin t; "-C"; "INPUT"; "-i"; Iface m; "-j"; inputChain]) tables) in
    if present then with_log m h else (Apply (with_log m h)).1.

Definition Stop (m : Manager) : Manager :=
  if negb (enabled m) then m else with_enabled (with_log m (teardown (Iface m) (log m))) false.
End Run.

(** ** What a chain does with a packet *)

Record packet := MkPacket { established : bool; proto : string; src : string; dport : Z }.

(** The words of a rule after the chain name, read as iptables documents them: the target
    when the packet matches. *)
Fixpoint target (ws : list string) (p : packet) : option string :=
  match ws with
  | [] => None
  | w :: rest =>
      match rest with
      | [] => None
      | v :: ws' =>
          if w =s "-j" then Some v
          else if (if w =s "--ctstate" then established p
                   else if w =s "-p" then proto p =s v
                   else if w =s "-s" then src p =s v
                   else if w =s "--dport" then itoa (dport p) =s v
                   else w =s "-m")
               then target ws' p else None
      end
  end.

(** First match decides. *)
Fixpoint verdict (rules : list argv) (p : packet) : option string :=
  match rules with
  | [] => None
  | r :: rs => match target (drop 2 r) p with Some t => Some t | None => verdict rs p end
  end.

Definition source_of (v6 : bool) (g : PortGrant) : string := if v6 then SourceIPv6 g else SourceIP g.

(** A grant of that family opens the packet's port to its source. *)
Definition granted (m : Manager) (v6 : bool) (p : packet) : Prop :=
  (0 < dport p)%Z ∧ src p ≠ "" ∧ ∃ g, g ∈ portGrants m ∧ source_of v6 g = src p ∧
    (proto p = "tcp" ∧ dport p ∈ TCP g ∨ proto p = "udp" ∧ dport p ∈ UDP g).

Lemma verdict_app a b p : verdict (a ++ b) p = match verdict a p with Some t => Some t | None => verdict b p end.
Proof. induction a as [|r a IH]; simpl; [done|]. by destruct (target (drop 2 r) p). Qed.

Lemma target_step p v ws :
  target ("-j" :: v :: ws) p = Some v ∧
  target ("-s" :: v :: ws) p = (if src p =s v then target ws p else None) ∧
  target ("-p" :: v :: ws) p = (if proto p =s v then target ws p else None) ∧
  target ("--dport" :: v :: ws) p = (if itoa (dport p) =s v then target ws p else None) ∧
  target ("--ctstate" :: v :: ws) p = (if established p then target ws p else None) ∧
  target ("-m" :: v :: ws) p = target ws p.
Proof. split_and!; reflexivity. Qed.

Lemma dport_text p port : (itoa (dport p) =s itoa port) = (dport p =? port)%Z.
Proof.
  destruct (Z.eqb_spec (dport p) port) as [->|Hn]; [apply seqb_refl|]. apply seqb_false. by intros ?%itoa_inj.
Qed.

Ltac read_rule := repeat match goal with
  | |- context [target (?w :: ?v :: ?ws) ?p] =>
      let H := fresh in pose proof (target_step p v ws) as H;
      destruct H as (? & ? & ? & ? & ? & ?);
      match goal with E : target (w :: v :: ws) p = _ |- _ => rewrite E end;
      repeat match goal with E : target (_ :: v :: ws) p = _ |- _ => clear E end
  end.

Lemma target_grant chain s pr port p :
  target (drop 2 (grant_rule chain s pr port)) p =
  if (src p =s s) && (proto p =s pr) && (dport p =? port)%Z then Some "ACCEPT" else None.
Proof.
  unfold grant_rule. cbn [drop]. read_rule. rewrite dport_text.
  by destruct (src p =s s), (proto p =s pr), (dport p =? port)%Z.
Qed.

(** A list of accepting rules accepts exactly what one of them matches. *)
Lemma verdict_accepts {A} (f : A → argv) (q : A → bool) l p :
  (∀ x, target (drop 2 (f x)) p = if q x then Some "ACCEPT" else None) →
  verdict (map f l) p = if existsb q l then Some "ACCEPT" else None.
Proof. intros Hf. induction l as [|x l IH]; simpl; [done|]. rewrite Hf. by destruct (q x). Qed.

Definition grant_matches (v6 : bool) (p : packet) (g : PortGrant) : bool :=
  negb (source_of v6 g =s "") && (src p =s source_of v6 g) &&
  ((proto p =s "tcp") && existsb (Z.eqb (dport p)) (positive (TCP g)) ||
   (proto p =s "udp") && existsb (Z.eqb (dport p)) (positive (UDP g))).

Lemma existsb_and {A} (b : bool) (q : A → bool) l : existsb (λ x, b && q x) l = b && existsb q l.
Proof. induction l as [|x l IH]; simpl; [by rewrite andb_false_r|]. rewrite IH. by destruct b, (q x). Qed.

Lemma verdict_ports chain s pr ports p :
  verdict (map (grant_rule chain s pr) ports) p =
  if (src p =s s) && (proto p =s pr) && existsb (Z.eqb (dport p)) ports then Some "ACCEPT" else None.
Proof.
  rewrite (verdict_accepts _ (λ port, (src p =s s) && (proto p =s pr) && (dport p =? port)%Z)) by (intros; apply target_grant).
  by rewrite (existsb_and ((src p =s s) && (proto p =s pr)) (Z.eqb (dport p))).
Qed.

Lemma verdict_grants chain grants v6 p :
  verdict (portGrantRules chain grants v6) p = if existsb (grant_matches v6 p) grants then Some "ACCEPT" else None.
Proof.
  induction grants as [|g gs IH]; [done|]. cbn [existsb].
  change (portGrantRules chain (g :: gs) v6) with
    ((if source_of v6 g =s "" then []
      else map (grant_rule chain (source_of v6 g) "tcp") (positive (TCP g)) ++
           map (grant_rule chain (source_of v6 g) "udp") (positive (UDP g))) ++ portGrantRules chain gs v6).
  rewrite verdict_app, IH. unfold grant_matches at 2.
  destruct (source_of v6 g =s ""); [done|]. rewrite verdict_app, !verdict_ports.
  by destruct (src p =s source_of v6 g), (proto p =s "tcp"), (proto p =s "udp"),
    (existsb (Z.eqb (dport p)) (positive (TCP g))), (existsb (Z.eqb (dport p)) (positive (UDP g))).
Qed.

Lemma positive_spec x l : existsb (Z.eqb x) (positive l) = true ↔ (0 < x)%Z ∧ x ∈ l.
Proof.
  unfold positive. rewrite existsb_exists. setoid_rewrite filter_In. setoid_rewrite negb_true_iff.
  setoid_rewrite Z.leb_gt. setoid_rewrite Z.eqb_eq. rewrite list_elem_of_In. naive_solver.
Qed.

Lemma grant_matches_spec m v6 p : existsb (grant_matches v6 p) (portGrants m) = true ↔ granted m v6 p.
Proof.
  assert (Hg : ∀ g, grant_matches v6 p g = true ↔ (0 < dport p)%Z ∧ src p ≠ "" ∧ source_of v6 g = src p ∧
    (proto p = "tcp" ∧ dport p ∈ TCP g ∨ proto p = "udp" ∧ dport p ∈ UDP g)).
  { intros g. unfold grant_matches.
    rewrite !andb_true_iff, orb_true_iff, !andb_true_iff, negb_true_iff, !seqb_true, seqb_false, !positive_spec.
    split; [intros [[H1 H2] [[H3 [H4 H5]]|[H3 [H4 H5]]]]|intros (H1 & H2 & H3 & [[H4 H5]|[H4 H5]])];
      rewrite ?H3 in *; intuition congruence. }
  rewrite existsb_exists. unfold granted. setoid_rewrite Hg. setoid_rewrite <- list_elem_of_In. split.
  - intros (g & Hin & H1 & H2 & H3 & H4). eauto 6.
  - intros (H1 & H2 & g & Hin & H3 & H4). eauto 6.
Qed.

Lemma input_verdict m t p : verdict (input_rules m t) p =
  if established p || (proto p =s icmpProto t) ||
     (proto p =s "tcp") && existsb (Z.eqb (dport p)) (positive (AllowedTCPPorts m)) ||
     existsb (grant_matches (is_v6 t) p) (portGrants m) then Some "ACCEPT" else Some "DROP".
Proof.
  unfold input_rules. cbn [verdict drop]. read_rule.
  destruct (established p); [done|]. destruct (proto p =s icmpProto t); [done|]. cbn [orb].
  rewrite verdict_app, (verdict_accepts _ (λ port, (proto p =s "tcp") && (dport p =? port)%Z)).
  - rewrite (existsb_and (proto p =s "tcp") (Z.eqb (dport p))). destruct (_ && _); [done|]. cbn [orb].
    rewrite verdict_app, verdict_grants. by destruct (existsb _ _).
  - intros port. cbn [drop]. read_rule. rewrite dport_text. by destruct (proto p =s "tcp"), (dport p =? port)%Z.
Qed.

Lemma forward_verdict m t p : verdict (forward_rules m t) p =
  if existsb (grant_matches (is_v6 t) p) (portGrants m) then Some "ACCEPT" else Some "DROP".
Proof. unfold forward_rules. rewrite verdict_app, verdict_grants. by destruct (existsb _ _). Qed.

(** Read first-match-first, the ruleset of a table accepts a packet into the host exactly
    when it belongs to an established connection, is the family's ICMP, goes to one of the
    proxy's TCP ports, or goes from a granted peer address of that family to a port granted to
    it; everything else is dropped. The forward chain accepts granted packets only. *)
Theorem ruleset_confines m t p :
  verdict (input_rules m t) p =
    (if established p || (proto p =s icmpProto t) ||
        (proto p =s "tcp") && existsb (Z.eqb (dport p)) (positive (AllowedTCPPorts m)) ||
        existsb (grant_matches (is_v6 t) p) (portGrants m) then Some "ACCEPT" else Some "DROP") ∧
  verdict (forward_rules m t) p =
    (if existsb (grant_matches (is_v6 t) p) (portGrants m) then Some "ACCEPT" else Some "DROP") ∧
  (existsb (grant_matches (is_v6 t) p) (portGrants m) = true ↔ granted m (is_v6 t) p).
Proof. split_and!; [apply input_verdict|apply forward_verdict|apply grant_matches_spec]. Qed.

(** ** Applying *)

Section Theorems.
Context `{Commands} `{Path}.

(** Every command a successful applyTable runs. *)
Definition full_table (m : Manager) (t : fwTable) : list argv :=
  map (cons (bin t)) (table_commands m t ++ [forward_jump m]).

Lemma run_all_ok h cs h' : run_all h cs = (h', true) → h' = h ++ cs.
Proof.
  revert h. induction cs as [|c cs IH]; intros h; simpl; [intros [= <-]; by rewrite app_nil_r|].
  destruct (runs h c); [|done]. intros ->%IH. by rewrite <- app_assoc.
Qed.

Lemma applyTable_ok m h t h' : applyTable m h t = (h', true) → h' = h ++ full_table m t.
Proof.
  unfold applyTable. destruct (run_all h _) as [h1 []] eqn:E; [|done]. apply run_all_ok in E as ->.
  cbn [negb]. unfold run_cmd. destruct (runs _ _); [|done]. intros [= <-]. unfold full_table.
  rewrite <- app_assoc, (map_app _ (table_commands m t) [forward_jump m]). done.
Qed.

Lemma apply_tables_ok m h ts h' : apply_tables m h ts = (h', true) → h' = h ++ mjoin (map (full_table m) ts).
Proof.
  revert h. induction ts as [|t ts IH]; intros h; simpl; [intros [= <-]; by rewrite app_nil_r|].
  destruct (applyTable m h t) as [h1 []] eqn:E; [|done]. apply applyTable_ok in E as ->. intros ->%IH.
  by rewrite <- app_assoc.
Qed.

(** A successful Apply has, after clearing its own state, run the complete ruleset of both
    families and nothing else, each private chain ending in DROP before the jump to it is
    inserted, and marks the manager enabled; with a binary missing, or with no interface name,
    it runs nothing and changes nothing; when a rule fails, the last thing it does is to clear
    its own state again. *)
Theorem Apply_outcome m m' r : Apply m = (m', r) →
  (r = Ok tt → enabled m' = true ∧
     log m' = teardown (Iface m) (log m) ++ mjoin (map (full_table m) tables)) ∧
  (r = Err ErrNotOnPath ∨ r = Err ErrEmptyIface → m' = m) ∧
  (r = Err ErrRule → enabled m' = enabled m ∧ ∃ h, log m' = teardown (Iface m) h).
Proof.
  unfold Apply. destruct (forallb _ _); cbn [negb]; [|intros [= <- <-]; by split_and!].
  destruct (Iface m =s ""); [intros [= <- <-]; by split_and!|].
  destruct (apply_tables m (teardown (Iface m) (log m)) tables) as [h []] eqn:E; intros Ha; injection Ha as <- <-.
  - apply apply_tables_ok in E as ->. split_and!; [done|by intros [?|?]|done].
  - split_and!; [done|by intros [?|?]|]. intros _. split; [done|]. by eexists.
Qed.

Lemma intsEqual_iff a b : intsEqual a b = true ↔ a = b.
Proof.
  revert b. induction a as [|x a IH]; intros [|y b]; simpl; try done.
  rewrite andb_true_iff, Z.eqb_eq, IH. naive_solver.
Qed.

Lemma grantsEqual_iff a b : grantsEqual a b = true ↔ a = b.
Proof.
  revert b. induction a as [|[i6 i t u] a IH]; intros [|[j6 j t' u'] b]; simpl; try done.
  rewrite !andb_true_iff, !seqb_true, !intsEqual_iff, IH. naive_solver.
Qed.

(** SetPortGrants runs nothing when the grants are the ones it holds, only stores them before
    the first Apply, and otherwise is an Apply with the new grants; grants are compared in
    full, so that any change of address or port rebuilds the ruleset. *)
Theorem SetPortGrants_spec g m :
  (portGrants m = g → SetPortGrants g m = (m, Ok tt)) ∧
  (portGrants m ≠ g → enabled m = false → SetPortGrants g m = (with_grants m g, Ok tt)) ∧
  (portGrants m ≠ g → enabled m = true → SetPortGrants g m = Apply (with_grants m g)).
Proof.
  unfold SetPortGrants. destruct (grantsEqual (portGrants m) g) eqn:E.
  - apply grantsEqual_iff in E. naive_solver.
  - assert (portGrants m ≠ g) by (intros ?%grantsEqual_iff; congruence). cbn [enabled with_grants].
    split_and!; [done|..]; intros _ He; rewrite He; done.
Qed.

Lemma Apply_grants m : portGrants (Apply m).1 = portGrants m.
Proof.
  unfold Apply. destruct (negb _); [done|]. destruct (Iface m =s ""); [done|]. by destruct (apply_tables _ _ _) as [h []].
Qed.

(** A SetPortGrants whose rebuild failed has torn the ruleset down and keeps the new grants:
    asking again for the same grants succeeds without running anything. *)
Lemma failed_rebuild_not_retried g m m' e :
  SetPortGrants g m = (m', Err e) → SetPortGrants g m' = (m', Ok tt).
Proof.
  intros Hs. assert (portGrants m' = g) as Hg.
  { unfold SetPortGrants in Hs. destruct (grantsEqual _ _); [done|]. destruct (negb _); [done|].
    pose proof (Apply_grants (with_grants m g)) as Hg. by rewrite Hs in Hg. }
  unfold SetPortGrants. by rewrite (proj2 (grantsEqual_iff _ _) Hg).
Qed.
End Theorems.

Module Demo.
#[local] Instance lenient : Commands := {| runs h c := negb (bool_decide ("-D" ∈ c)) |}.
#[local] Instance installed : Path := {| on_path h b := true |}.

Definition manager : Manager :=
  MkManager "wg-atreo" [80; 443]%Z false [MkGrant "100.64.9.2" "fd00:64:0:9::2" [22]%Z []] [].

Lemma Apply_outcome_witness :
  let '(m', r) := Apply manager in
  (r = Ok tt → enabled m' = true ∧
     log m' = teardown (Iface manager) (log manager) ++ mjoin (map (full_table manager) tables)) ∧
  (r = Err ErrNotOnPath ∨ r = Err ErrEmptyIface → m' = manager) ∧
  (r = Err ErrRule → enabled m' = enabled manager ∧ ∃ h, log m' = teardown (Iface manager) h).
Proof. destruct (Apply manager) as [m' r] eqn:E. exact (Apply_outcome manager m' r E). Defined.

Example granted_peer_reaches_ssh :
  verdict (input_rules manager (MkTable "iptables" "icmp")) (MkPacket false "tcp" "100.64.9.2" 22) = Some "ACCEPT" ∧
  verdict (input_rules manager (MkTable "iptables" "icmp")) (MkPacket false "tcp" "100.64.9.3" 22) = Some "DROP".
Proof. split; vm_compute; reflexivity. Qed.
End Demo.
