(* ===== verification/Crypto.v ===== *)
(** * internal/crypto: signatures of the agent

    Ed25519, SHA-256, HKDF and AES-GCM are parameters ([Primitives]); the one law the
    round trips use is that a signature made with a private key verifies under its public
    key ([SignLaw]). Everything around them is the code's: what bytes are signed, in which
    order fields are checked. *)

From S2P Require Import Prelude Encoding Json CanonJson.

Class Primitives := {
  ed25519_sign : string → string → string;           (* private key, message *)
  ed25519_public : string → string;                  (* private key to public key *)
  ed25519_verify : string → string → string → bool;  (* public key, message, signature *)
  sha256 : string → string;
  hkdf32 : string → string → string;                 (* secret, info: 32 bytes, no salt *)
  aes_gcm_open : string → string → string → option string (* key, nonce, ciphertext *)
}.

(** crypto/ed25519: Verify accepts what Sign produces, and a signature has 64 bytes. *)
Class SignLaw (P : Primitives) : Prop := {
  verify_sign : ∀ sk m, ed25519_verify (ed25519_public sk) m (ed25519_sign sk m) = true;
  sign_size : ∀ sk m, slen (ed25519_sign sk m) = 64
}.

Definition publicKeySize : nat := 32.
Definition privateKeySize : nat := 64.
Definition signatureSize : nat := 64.

Section Keys.
Context `{Primitives}.

Record KeyManager := MkKeys { privateKey : string; publicKey : string }.

Definition PublicKeyBase64 (km : KeyManager) : string := Base64.encode (publicKey km).

Definition Sign (km : KeyManager) (message : string) : string :=
  Base64.encode (ed25519_sign (privateKey km) message).

Inductive crypto_error :=
| ErrPubKey | ErrSig | ErrReservedKey | ErrBodyNotObject | ErrCanon | ErrNonceHex | ErrClientKey | ErrServerKey.

Definition Verify (pubB64 message sigB64 : string) : result crypto_error bool :=
  let! pub := of_option ErrPubKey (Base64.decode pubB64) in
  let! sig := of_option ErrSig (Base64.decode sigB64) in
  Ok (ed25519_verify pub message sig).

(** ** The agent's own requests *)

Record AuthEnvelope := MkAuth { a_SignerID : string; a_Signature : string; a_Payload : string }.

Definition reserved_keys : list string := ["deviceId"; "intent"; "ts"].
Definition is_reserved (k : string) : bool := existsb (λ r, r =s k) reserved_keys.

Definition auth_intent (intentPrefix deviceID : string) (ts : Z) : string :=
  intentPrefix +:+ "-" +:+ deviceID +:+ "-" +:+ itoa ts.

(** [body] is what json.Marshal makes of the Go value, [None] for a nil body. *)
Definition body_members (body : option json) : result crypto_error (list (string * json)) :=
  match body with
  | None | Some JNull => Ok []
  | Some b => match to_any b with JObj kvs => Ok kvs | _ => Err ErrBodyNotObject end
  end.

Definition auth_payload (deviceID intentPrefix : string) (ts : Z) (kvs : list (string * json)) : json :=
  JObj (foldl (λ m p, map_set p.1 p.2 m)
          [("deviceId", JStr deviceID); ("intent", JStr (auth_intent intentPrefix deviceID ts)); ("ts", JNum (itoa ts))]
          kvs).

Definition SignAgentAuth (km : KeyManager) (deviceID intentPrefix : string) (body : option json) (now : Z)
    : result crypto_error AuthEnvelope :=
  let ts := unix now in
  let! kvs := body_members body in
  check! guard_err (forallb (λ p, negb (is_reserved p.1)) kvs) ErrReservedKey in
  let! canon := map_err (λ _, ErrCanon) (Marshal (auth_payload deviceID intentPrefix ts kvs)) in
  Ok (MkAuth deviceID (Sign km canon) canon).

Definition SignWSConnectAuth (km : KeyManager) (deviceID : string) (now : Z)
    : result crypto_error (string * Z * string) :=
  let ts := unix now in
  let intent := auth_intent "tunnel:connect" deviceID ts in
  let! canon := map_err (λ _, ErrCanon)
      (Marshal (JObj [("deviceId", JStr deviceID); ("intent", JStr intent); ("ts", JNum (itoa ts))])) in
  Ok (intent, ts, Sign km canon).

(** ** The provisioning transcript *)

Record ProvisionTranscriptInput := MkTranscript {
  NonceHex : string;
  ClientPubKeyB64 : string;
  TDeviceID : string;
  ServerPubKeyB64 : string;
  TTunnelIP : string;
  TTunnelIPv6 : string;
  TEndpoint : string;
  TAllowedIPs : string;
  PersistentKeepalive : Z
}.

(** The bytes written to the hash, in order. *)
Definition transcript_bytes (i : ProvisionTranscriptInput) : result crypto_error string :=
  let! nonce := of_option ErrNonceHex (Hex.decode (NonceHex i)) in
  let! ck := of_option ErrClientKey (Base64.decode (ClientPubKeyB64 i)) in
  let! sk := of_option ErrServerKey (Base64.decode (ServerPubKeyB64 i)) in
  Ok ("atreos-wg-server-v2" +:+ nonce +:+ ck +:+ TDeviceID i +:+ sk +:+ TTunnelIP i +:+ TTunnelIPv6 i +:+
      TEndpoint i +:+ TAllowedIPs i +:+ itoa (PersistentKeepalive i)).

Definition serverTranscriptV2 (i : ProvisionTranscriptInput) : result crypto_error string :=
  let! b := transcript_bytes i in Ok (sha256 b).

Definition SignProvisionResponse (km : KeyManager) (i : ProvisionTranscriptInput) : result crypto_error string :=
  let! t := serverTranscriptV2 i in Ok (Sign km t).

(** ** Facts *)

(** The provisioning transcript does not separate its fields: two responses that differ in
    the client's routes and in the keepalive interval have one transcript, hence one signature,
    whatever the hash. (The type's comment says that any change of a field fails verification.) *)
Theorem transcript_ambiguous km : ∃ i j : ProvisionTranscriptInput,
  TAllowedIPs i ≠ TAllowedIPs j ∧ PersistentKeepalive i ≠ PersistentKeepalive j ∧
  is_ok (SignProvisionResponse km i) = true ∧ SignProvisionResponse km i = SignProvisionResponse km j.
Proof.
  exists (MkTranscript "00" "" "d" "" "100.64.9.7" "" "h:51820" "0.0.0.0/1" 25),
         (MkTranscript "00" "" "d" "" "100.64.9.7" "" "h:51820" "0.0.0.0/12" 5).
  split_and!; [discriminate|discriminate|reflexivity|].
  reflexivity.
Qed.

Lemma Verify_Sign `{!SignLaw _} km m : publicKey km = ed25519_public (privateKey km) →
  Verify (PublicKeyBase64 km) m (Sign km m) = Ok true.
Proof.
  intros Hk. unfold Verify, PublicKeyBase64, Sign. rewrite !Base64.decode_encode. cbn [of_option res_bind].
  by rewrite Hk, verify_sign.
Qed.

(** With every field but one fixed, that field is bound. *)
Lemma sapp_inv_l a b c : a +:+ b = a +:+ c → b = c.
Proof. induction a as [|x a IH]; simpl; [done|]. intros [= ?]. auto. Qed.

Lemma map_set_get {A} (d : A) k v m k' : map_get d k' (map_set k v m) = if k' =s k then v else map_get d k' m.
Proof.
  induction m as [|[k0 v0] m IH]; simpl; [done|]. destruct (k =s k0) eqn:E; simpl.
  - apply seqb_true in E as ->. by destruct (k' =s k0).
  - rewrite IH. destruct (k' =s k0) eqn:E1, (k' =s k) eqn:E2; try done.
    apply seqb_true in E1 as ->. apply seqb_true in E2 as ->. by rewrite seqb_refl in E.
Qed.

Lemma foldl_set_get {A} (d : A) kvs m k : k ∉ map fst kvs →
  map_get d k (foldl (λ m p, map_set p.1 p.2 m) m kvs) = map_get d k m.
Proof.
  revert m. induction kvs as [|[k0 v0] kvs IH]; intros m Hk; simpl in *; [done|].
  apply not_elem_of_cons in Hk as [Hk0 Hk]. rewrite IH, map_set_get by done.
  apply seqb_false in Hk0. by rewrite Hk0.
Qed.

Lemma reserved_not_in kvs k : forallb (λ p : string * json, negb (is_reserved p.1)) kvs = true →
  is_reserved k = true → k ∉ map fst kvs.
Proof.
  intros Hall Hr (p & -> & Hp)%list_elem_of_fmap. rewrite forallb_forall in Hall.
  apply list_elem_of_In in Hp. apply Hall in Hp. by rewrite Hr in Hp.
Qed.

(** An authenticated request always carries the device's own ID, the intent built from the
    command, the device and the signing time, and that time, whatever the body says: a body that
    names one of them is refused; and the payload on the wire is the canonical form of those
    fields and the body, the very bytes that were signed. *)
Theorem SignAgentAuth_binding km deviceID intentPrefix body now env :
  SignAgentAuth km deviceID intentPrefix body now = Ok env →
  a_SignerID env = deviceID ∧ a_Signature env = Sign km (a_Payload env) ∧
  ∃ m, Marshal (JObj m) = Ok (a_Payload env) ∧
    map_get JNull "deviceId" m = JStr deviceID ∧
    map_get JNull "intent" m = JStr (auth_intent intentPrefix deviceID (unix now)) ∧
    map_get JNull "ts" m = JNum (itoa (unix now)) ∧
    ∀ kvs k, body_members body = Ok kvs → k ∈ map fst kvs → is_reserved k = false.
Proof.
  unfold SignAgentAuth. intros Hs. res_inv. cbn [a_SignerID a_Signature a_Payload]. split; [done|]. split; [done|].
  match goal with E : forallb _ ?k = true |- _ => rename E into Hr; rename k into kvs end.
  match goal with E : Marshal (auth_payload _ _ _ _) = Ok _ |- _ => unfold auth_payload in E; eexists; split; [exact E|] end.
  assert (Hg : ∀ k, is_reserved k = true → k ∉ map fst kvs) by (intros; by eapply reserved_not_in).
  rewrite !foldl_set_get by by apply Hg. split_and!; try done.
  intros kvs' k Hk' Hin. assert (kvs' = kvs) as -> by congruence.
  destruct (is_reserved k) eqn:E; [|done]. by destruct (Hg k E).
Qed.
End Keys.

(** ** A concrete instance, for the witnesses *)

Module Toy.
(** A stand-in whose signature is the key and the message, padded and cut to 64 bytes. *)
Definition pad : string := "0000000000000000000000000000000000000000000000000000000000000000".
Definition tag (key m : string) : string := stake 64 (key +:+ m +:+ pad).
Definition prims : Primitives := {|
  ed25519_sign sk m := tag (stake 32 sk) m;
  ed25519_public sk := stake 32 sk;
  ed25519_verify pk m s := s =s tag pk m;
  sha256 m := m;
  hkdf32 secret info := stake 32 (secret +:+ info);
  aes_gcm_open key nonce ct := Some ct
|}.
#[local] Existing Instance prims.

#[global] Instance prims_law : SignLaw prims.
Proof.
  split; [intros sk m; apply seqb_refl|]. intros sk m. simpl. unfold tag. rewrite slen_stake; [done|].
  rewrite !slen_app. change (slen pad) with 64. lia.
Qed.

Definition keys : KeyManager := MkKeys "sk" "sk".

Lemma SignAgentAuth_binding_witness :
  let env := MkAuth "d" (Sign keys (sample "{'deviceId':'d','intent':'dns:present-d-5','ts':5,'x':1}"))
               (sample "{'deviceId':'d','intent':'dns:present-d-5','ts':5,'x':1}") in
  a_SignerID env = "d" ∧ a_Signature env = Sign keys (a_Payload env) ∧
  ∃ m, Marshal (JObj m) = Ok (a_Payload env) ∧
    map_get JNull "deviceId" m = JStr "d" ∧
    map_get JNull "intent" m = JStr (auth_intent "dns:present" "d" (unix (5 * second))) ∧
    map_get JNull "ts" m = JNum (itoa (unix (5 * second))) ∧
    ∀ kvs k, body_members (Some (JObj [("x", JNum "1")])) = Ok kvs → k ∈ map fst kvs → is_reserved k = false.
Proof.
  cbv zeta. apply (SignAgentAuth_binding keys "d" "dns:present" (Some (JObj [("x", JNum "1")])) (5 * second)).
  vm_compute. reflexivity.
Defined.
End Toy.
