(* ===== verification/Atreolink.v ===== *)
(** * internal/atreolink: the wire types and the app slugs

    The structs of client.go that the agent's logic works on, with their JSON decoders
    (one per struct, field by field, the way encoding/json fills them), and [Slugify]. A
    json.RawMessage is its parsed value, [None] when the member is absent. A Go pointer is
    an [option], a nil slice is the empty list. *)

From Stdlib Require Import ZifyBool ZifyN.
From S2P Require Import Prelude Encoding Json.

Record App := MkApp {
  app_ID : string;
  app_Name : string;
  app_Slug : string;
  app_InternalURL : string;
  app_Icon : string;
  app_Type : string;
  app_Port : Z;
  app_Protocol : string
}.
#[export] Instance App_eq_dec : EqDecision App.
Proof. solve_decision. Defined.

Definition zero_app : App := MkApp "" "" "" "" "" "" 0 "".

Definition IsPort (a : App) : bool := app_Type a =s "port".

(** ** Slugs *)

Module Slug.
(** A rune of [a-z0-9], as its byte. *)
Definition alnum (r : option N) : option ascii :=
  match r with
  | Some c => if ((97 <=? c) && (c <=? 122) || (48 <=? c) && (c <=? 57))%N then Some (Nb c) else None
  | None => None
  end.

(** One iteration of the loop over the runes: (result, lastHyphen). *)
Definition step (st : string * bool) (p : option N * string) : string * bool :=
  let '(res, hyphen) := st in
  match alnum p.1 with
  | Some c => (res +:+ String c "", false)
  | None => if negb hyphen && negb (res =s "") then (res +:+ "-", true) else (res, hyphen)
  end.
End Slug.

Definition Slugify `{Unicode} (name : string) : string :=
  let s := to_lower (trim_space name) in
  trim_suffix (foldl Slug.step ("", false) (Utf8.runes s)).1 "-".

Definition EffectiveSlug `{Unicode} (a : App) : string :=
  if app_Slug a <>s "" then app_Slug a else Slugify (app_Name a).

(** ** Membership records *)

Record JoinAttestation := MkJoinAttestation {
  ja_InvitePayload : string;
  ja_OwnerSig : string;
  ja_AcceptanceSig : string
}.
#[export] Instance JoinAttestation_eq_dec : EqDecision JoinAttestation.
Proof. solve_decision. Defined.

Record AdmittanceCertificate := MkAdmittance {
  ad_MemberID : string;
  ad_IdentityKey : string;
  ad_NASPubkey : string;
  ad_AdmittedAt : Z;
  ad_AttestationHash : string;
  ad_InitialAllowedAppIDs : list string;
  ad_Signature : string
}.
#[export] Instance AdmittanceCertificate_eq_dec : EqDecision AdmittanceCertificate.
Proof. solve_decision. Defined.

Record ClientRecord := MkClient {
  c_WGPublicKey : string;
  c_TunnelIP : string;
  c_TunnelIPv6 : string;
  c_Label : string;
  c_Platform : string;
  c_EndpointType : string
}.
#[export] Instance ClientRecord_eq_dec : EqDecision ClientRecord.
Proof. solve_decision. Defined.

Definition zero_client : ClientRecord := MkClient "" "" "" "" "" "".

Record MemberACLEntry := MkMember {
  m_MemberID : string;
  m_UserID : string;
  m_MemberName : string;
  m_Email : string;
  m_Role : string;
  m_IdentityKey : string;
  m_IdentityKeyProof : option string;
  m_JoinAttestation : option JoinAttestation;
  m_Admittance : option AdmittanceCertificate;
  m_Clients : list ClientRecord;
  m_AllowedApps : list App;
  m_Status : string
}.
#[export] Instance MemberACLEntry_eq_dec : EqDecision MemberACLEntry.
Proof. solve_decision. Defined.

Definition zero_member : MemberACLEntry := MkMember "" "" "" "" "" "" None None None [] [] "".

(** Field updates. *)
Definition set_clients (m : MemberACLEntry) (cs : list ClientRecord) : MemberACLEntry :=
  MkMember (m_MemberID m) (m_UserID m) (m_MemberName m) (m_Email m) (m_Role m) (m_IdentityKey m)
    (m_IdentityKeyProof m) (m_JoinAttestation m) (m_Admittance m) cs (m_AllowedApps m) (m_Status m).
Definition set_apps (m : MemberACLEntry) (apps : list App) : MemberACLEntry :=
  MkMember (m_MemberID m) (m_UserID m) (m_MemberName m) (m_Email m) (m_Role m) (m_IdentityKey m)
    (m_IdentityKeyProof m) (m_JoinAttestation m) (m_Admittance m) (m_Clients m) apps (m_Status m).
Definition set_status (m : MemberACLEntry) (status : string) : MemberACLEntry :=
  MkMember (m_MemberID m) (m_UserID m) (m_MemberName m) (m_Email m) (m_Role m) (m_IdentityKey m)
    (m_IdentityKeyProof m) (m_JoinAttestation m) (m_Admittance m) (m_Clients m) (m_AllowedApps m) status.

(** ** The signed device state *)

Record DSEnvelope := MkEnvelope {
  e_Payload : option json;
  e_SignerID : string;
  e_Signature : string
}.
Definition zero_envelope : DSEnvelope := MkEnvelope None "" "".

Record TunnelMessage := MkMessage {
  t_Type : string;
  t_CorrelationID : string;
  t_Payload : option json;
  t_SignerID : string;
  t_Signature : string
}.

Definition AsMessage (e : DSEnvelope) (msgType : string) : TunnelMessage :=
  MkMessage msgType "" (e_Payload e) (e_SignerID e) (e_Signature e).

Record TunnelIPLease := MkLease {
  l_DeviceID : string;
  l_WGPublicKey : string;
  l_TunnelIP : string;
  l_NASSignature : string
}.

Record DSClient := MkDSClient {
  dc_WGPublicKey : string;
  dc_Label : string;
  dc_Platform : string;
  dc_RegistrationEnvelope : option DSEnvelope;
  dc_IPLease : option TunnelIPLease;
  dc_EndpointType : string
}.

Record DSMember := MkDSMember {
  dm_MemberID : string;
  dm_UserID : string;
  dm_MemberName : string;
  dm_Email : string;
  dm_Role : string;
  dm_IdentityKey : string;
  dm_JoinAttestation : option JoinAttestation;
  dm_Admittance : option AdmittanceCertificate;
  dm_StatusEnvelope : option DSEnvelope;
  dm_PermissionsEnvelope : option DSEnvelope;
  dm_Clients : list DSClient
}.

Record DSApp := MkDSApp {
  da_ID : string;
  da_Name : string;
  da_Slug : string;
  da_InternalURL : string;
  da_Icon : string;
  da_Envelope : option DSEnvelope
}.

Record DeviceState := MkDeviceState {
  ds_DeviceID : string;
  ds_Generation : Z;
  ds_Members : list DSMember;
  ds_Apps : list DSApp;
  ds_CustomDomain : option DSEnvelope (* DSCustomDomain has the one field *)
}.

(** ** JSON decoding, struct by struct *)

Definition dec_app : App → json → option App := dec_struct (λ o kvs,
  id ← assign dec_string (app_ID o) "id" kvs; name ← assign dec_string (app_Name o) "name" kvs;
  slug ← assign dec_string (app_Slug o) "slug" kvs;
  url ← assign dec_string (app_InternalURL o) "internalUrl" kvs;
  icon ← assign dec_string (app_Icon o) "icon" kvs; ty ← assign dec_string (app_Type o) "type" kvs;
  port ← assign dec_int64 (app_Port o) "port" kvs;
  proto ← assign dec_string (app_Protocol o) "protocol" kvs;
  Some (MkApp id name slug url icon ty port proto)).

Definition dec_attestation : JoinAttestation → json → option JoinAttestation := dec_struct (λ o kvs,
  p ← assign dec_string (ja_InvitePayload o) "invitePayload" kvs;
  s ← assign dec_string (ja_OwnerSig o) "ownerSig" kvs;
  a ← assign dec_string (ja_AcceptanceSig o) "acceptanceSig" kvs;
  Some (MkJoinAttestation p s a)).

Definition dec_admittance : AdmittanceCertificate → json → option AdmittanceCertificate := dec_struct (λ o kvs,
  m ← assign dec_string (ad_MemberID o) "memberId" kvs;
  k ← assign dec_string (ad_IdentityKey o) "identityKey" kvs;
  n ← assign dec_string (ad_NASPubkey o) "nasPubkey" kvs;
  t ← assign dec_int64 (ad_AdmittedAt o) "admittedAt" kvs;
  h ← assign dec_string (ad_AttestationHash o) "attestationHash" kvs;
  ids ← assign (dec_slice "" dec_string) (ad_InitialAllowedAppIDs o) "initialAllowedAppIds" kvs;
  s ← assign dec_string (ad_Signature o) "signature" kvs;
  Some (MkAdmittance m k n t h ids s)).

Definition dec_client : ClientRecord → json → option ClientRecord := dec_struct (λ o kvs,
  k ← assign dec_string (c_WGPublicKey o) "wgPublicKey" kvs;
  ip ← assign dec_string (c_TunnelIP o) "tunnelIp" kvs;
  ip6 ← assign dec_string (c_TunnelIPv6 o) "tunnelIp6" kvs;
  lb ← assign dec_string (c_Label o) "label" kvs; pf ← assign dec_string (c_Platform o) "platform" kvs;
  et ← assign dec_string (c_EndpointType o) "endpointType" kvs;
  Some (MkClient k ip ip6 lb pf et)).

Definition zero_attestation : JoinAttestation := MkJoinAttestation "" "" "".
Definition zero_admittance : AdmittanceCertificate := MkAdmittance "" "" "" 0 "" [] "".
Definition zero_lease : TunnelIPLease := MkLease "" "" "" "".

Definition dec_member : MemberACLEntry → json → option MemberACLEntry := dec_struct (λ o kvs,
  id ← assign dec_string (m_MemberID o) "memberId" kvs; u ← assign dec_string (m_UserID o) "userId" kvs;
  n ← assign dec_string (m_MemberName o) "memberName" kvs; e ← assign dec_string (m_Email o) "email" kvs;
  r ← assign dec_string (m_Role o) "role" kvs; k ← assign dec_string (m_IdentityKey o) "identityKey" kvs;
  kp ← assign (dec_ptr "" dec_string) (m_IdentityKeyProof o) "identityKeyProof" kvs;
  ja ← assign (dec_ptr zero_attestation dec_attestation) (m_JoinAttestation o) "joinAttestation" kvs;
  ad ← assign (dec_ptr zero_admittance dec_admittance) (m_Admittance o) "admittance" kvs;
  cs ← assign (dec_slice zero_client dec_client) (m_Clients o) "clients" kvs;
  apps ← assign (dec_slice zero_app dec_app) (m_AllowedApps o) "allowedApps" kvs;
  st ← assign dec_string (m_Status o) "status" kvs;
  Some (MkMember id u n e r k kp ja ad cs apps st)).

Definition dec_envelope : DSEnvelope → json → option DSEnvelope := dec_struct (λ o kvs,
  p ← assign dec_raw (e_Payload o) "payload" kvs;
  i ← assign dec_string (e_SignerID o) "signerId" kvs;
  s ← assign dec_string (e_Signature o) "signature" kvs;
  Some (MkEnvelope p i s)).

Definition dec_lease : TunnelIPLease → json → option TunnelIPLease := dec_struct (λ o kvs,
  d ← assign dec_string (l_DeviceID o) "deviceId" kvs;
  k ← assign dec_string (l_WGPublicKey o) "wgPublicKey" kvs;
  ip ← assign dec_string (l_TunnelIP o) "tunnelIp" kvs;
  s ← assign dec_string (l_NASSignature o) "nasSignature" kvs;
  Some (MkLease d k ip s)).

Definition dec_ds_client : DSClient → json → option DSClient := dec_struct (λ o kvs,
  k ← assign dec_string (dc_WGPublicKey o) "wgPublicKey" kvs;
  lb ← assign dec_string (dc_Label o) "label" kvs; pf ← assign dec_string (dc_Platform o) "platform" kvs;
  re ← assign (dec_ptr zero_envelope dec_envelope) (dc_RegistrationEnvelope o) "registrationEnvelope" kvs;
  il ← assign (dec_ptr zero_lease dec_lease) (dc_IPLease o) "ipLease" kvs;
  et ← assign dec_string (dc_EndpointType o) "endpointType" kvs;
  Some (MkDSClient k lb pf re il et)).

Definition dec_ds_member : DSMember → json → option DSMember := dec_struct (λ o kvs,
  id ← assign dec_string (dm_MemberID o) "memberId" kvs; u ← assign dec_string (dm_UserID o) "userId" kvs;
  n ← assign dec_string (dm_MemberName o) "memberName" kvs; e ← assign dec_string (dm_Email o) "email" kvs;
  r ← assign dec_string (dm_Role o) "role" kvs; k ← assign dec_string (dm_IdentityKey o) "identityKey" kvs;
  ja ← assign (dec_ptr zero_attestation dec_attestation) (dm_JoinAttestation o) "joinAttestation" kvs;
  ad ← assign (dec_ptr zero_admittance dec_admittance) (dm_Admittance o) "admittance" kvs;
  se ← assign (dec_ptr zero_envelope dec_envelope) (dm_StatusEnvelope o) "statusEnvelope" kvs;
  pe ← assign (dec_ptr zero_envelope dec_envelope) (dm_PermissionsEnvelope o) "permissionsEnvelope" kvs;
  cs ← assign (dec_slice (MkDSClient "" "" "" None None "") dec_ds_client) (dm_Clients o) "clients" kvs;
  Some (MkDSMember id u n e r k ja ad se pe cs)).

Definition dec_ds_app : DSApp → json → option DSApp := dec_struct (λ o kvs,
  id ← assign dec_string (da_ID o) "id" kvs; name ← assign dec_string (da_Name o) "name" kvs;
  slug ← assign dec_string (da_Slug o) "slug" kvs;
  url ← assign dec_string (da_InternalURL o) "internalUrl" kvs;
  icon ← assign dec_string (da_Icon o) "icon" kvs;
  env ← assign (dec_ptr zero_envelope dec_envelope) (da_Envelope o) "envelope" kvs;
  Some (MkDSApp id name slug url icon env)).

Definition dec_custom_domain : DSEnvelope → json → option DSEnvelope := dec_struct (λ o kvs,
  assign dec_envelope o "envelope" kvs).

Definition dec_device_state : DeviceState → json → option DeviceState := dec_struct (λ o kvs,
  d ← assign dec_string (ds_DeviceID o) "deviceId" kvs;
  g ← assign dec_int64 (ds_Generation o) "generation" kvs;
  ms ← assign (dec_slice (MkDSMember "" "" "" "" "" "" None None None None []) dec_ds_member)
         (ds_Members o) "members" kvs;
  apps ← assign (dec_slice (MkDSApp "" "" "" "" "" None) dec_ds_app) (ds_Apps o) "apps" kvs;
  cd ← assign (dec_ptr zero_envelope dec_custom_domain) (ds_CustomDomain o) "customDomain" kvs;
  Some (MkDeviceState d g ms apps cd)).

Definition zero_device_state : DeviceState := MkDeviceState "" 0 [] [] None.

(** ** The grammar of slugs *)

Module SlugFacts.
Import Slug.

Definition alnum_byte (c : ascii) : bool :=
  ((97 <=? bN c) && (bN c <=? 122) || (48 <=? bN c) && (bN c <=? 57))%N.

(** Non-empty words over [a-z0-9] joined by single hyphens. *)
Inductive slug : string → Prop :=
| slug_char c : alnum_byte c = true → slug (String c "")
| slug_more s c : slug s → alnum_byte c = true → slug (s +:+ String c "")
| slug_word s c : slug s → alnum_byte c = true → slug ((s +:+ "-") +:+ String c "").

(** What the loop may have built so far, with its flag. *)
Definition built (st : string * bool) : Prop :=
  match st.2 with
  | false => st.1 = "" ∨ slug st.1
  | true => ∃ r, slug r ∧ st.1 = r +:+ "-"
  end.

Lemma alnum_some r c : alnum r = Some c → alnum_byte c = true ∧ r = Some (bN c).
Proof.
  destruct r as [n|]; simpl; [|done]. case_match eqn:E; [|done]. intros [= <-]. unfold alnum_byte.
  rewrite bN_Nb; [done|]. lia.
Qed.

Lemma step_built st p : built st → built (step st p).
Proof.
  destruct st as [res h]. unfold step. destruct (alnum p.1) as [c|] eqn:E.
  - apply alnum_some in E as [Hc _]. destruct h; unfold built; simpl.
    + intros (r & Hr & ->). right. by apply slug_word.
    + intros [->|Hr]; right; [by constructor|by apply slug_more].
  - destruct h; simpl; [done|]. destruct (res =s "") eqn:Er; simpl; [done|].
    str_inv. unfold built. simpl. intros [->|Hr]; [done|]. exists res. done.
Qed.

Lemma run_built l st : built st → built (foldl step st l).
Proof. revert st. induction l as [|p l IH]; intros st H; simpl; [done|]. apply IH. by apply step_built. Qed.

Lemma slug_last s : slug s → ∃ r c, s = r +:+ String c "" ∧ alnum_byte c = true.
Proof. destruct 1 as [c|s c|s c]; [exists "", c|exists s, c|exists (s +:+ "-"), c]; done. Qed.

Lemma alnum_not_hyphen c : alnum_byte c = true → c ≠ "-"%char.
Proof. by intros H ->. Qed.

Lemma slug_no_suffix s : slug s → trim_suffix s "-" = s.
Proof.
  intros (r & c & -> & Hc)%slug_last. unfold trim_suffix. case_match eqn:E; [|done].
  apply has_suffix_spec in E as [r' E]. exfalso. apply (alnum_not_hyphen c Hc).
  apply (f_equal (λ s, sdrop (slen s - 1) s)) in E. rewrite !slen_app in E. simpl in E.
  rewrite !Nat.add_sub, !sdrop_app in E. by injection E.
Qed.

Lemma trim_built st : built st → trim_suffix st.1 "-" = "" ∨ slug (trim_suffix st.1 "-").
Proof.
  destruct st as [res []]; unfold built; simpl.
  - intros (r & Hr & ->). right. by rewrite trim_suffix_app.
  - intros [->|Hr]; [by left|right]. by rewrite slug_no_suffix.
Qed.

(** *** A slug is its own slug *)

Lemma alnum_small c : alnum_byte c = true → (bN c < 128)%N.
Proof. unfold alnum_byte. lia. Qed.

Lemma alnum_of_byte c : alnum_byte c = true → alnum (Some (bN c)) = Some c.
Proof. unfold alnum, alnum_byte. intros ->. by rewrite Nb_bN. Qed.

Definition slug_byte (c : ascii) : bool := alnum_byte c || ceqb c "-"%char.

Lemma all_bytes_app (P : ascii → bool) a b :
  forallb P (String.list_ascii_of_string (a +:+ b)) =
  forallb P (String.list_ascii_of_string a) && forallb P (String.list_ascii_of_string b).
Proof. induction a as [|c a IH]; simpl; [done|]. by rewrite IH, andb_assoc. Qed.

Lemma slug_bytes s : slug s → forallb slug_byte (String.list_ascii_of_string s) = true.
Proof.
  unfold slug_byte. induction 1 as [c Hc|s c _ IH Hc|s c _ IH Hc]; rewrite ?all_bytes_app; simpl;
    rewrite ?IH, Hc; done.
Qed.

Lemma slug_byte_small c : slug_byte c = true → (bN c < 128)%N.
Proof. unfold slug_byte. intros [H%alnum_small|H%ceqb_true]%orb_prop; [done|by subst]. Qed.

Lemma all_bytes_impl (P Q : ascii → bool) s : (∀ c, P c = true → Q c = true) →
  forallb P (String.list_ascii_of_string s) = true → forallb Q (String.list_ascii_of_string s) = true.
Proof. intros HPQ. induction s; simpl; [done|]. rewrite !andb_true_iff. intros []. auto. Qed.

Lemma runes_app_ascii s c : is_ascii_string s = true → (bN c < 128)%N →
  Utf8.runes (s +:+ String c "") = Utf8.runes s ++ [(Some (bN c), String c "")].
Proof.
  unfold is_ascii_string. induction s as [|d s IH]; simpl String.append; cbn [String.list_ascii_of_string forallb].
  - intros _ Hc. by rewrite Utf8.runes_ascii.
  - intros [Hd Hs]%andb_prop Hc. apply N.ltb_lt in Hd. rewrite !Utf8.runes_ascii by done.
    rewrite IH by done. done.
Qed.

Lemma slug_ascii s : slug s → is_ascii_string s = true.
Proof.
  intros H%slug_bytes. revert H. apply all_bytes_impl. intros c Hc%slug_byte_small. by apply N.ltb_lt.
Qed.

Lemma slug_nonempty s : slug s → (s =s "") = false.
Proof. intros (r & c & -> & _)%slug_last. by destruct r. Qed.

Lemma slug_run_snoc s c : is_ascii_string s = true → (bN c < 128)%N →
  foldl step ("", false) (Utf8.runes (s +:+ String c "")) =
  step (foldl step ("", false) (Utf8.runes s)) (Some (bN c), String c "").
Proof. intros. by rewrite runes_app_ascii, foldl_app. Qed.

Lemma run_slug s : slug s → foldl step ("", false) (Utf8.runes s) = (s, false).
Proof.
  induction 1 as [c Hc|s c Hs IH Hc|s c Hs IH Hc].
  - rewrite Utf8.runes_ascii by by apply alnum_small. cbn [foldl Utf8.runes]. unfold step. cbn [fst].
    by rewrite alnum_of_byte.
  - rewrite slug_run_snoc, IH by (by apply slug_ascii || by apply alnum_small). unfold step. cbn [fst].
    by rewrite alnum_of_byte.
  - assert (is_ascii_string (s +:+ "-") = true).
    { unfold is_ascii_string. rewrite all_bytes_app. apply slug_ascii in Hs. unfold is_ascii_string in Hs.
      by rewrite Hs. }
    rewrite slug_run_snoc by (done || by apply alnum_small).
    rewrite slug_run_snoc, IH by (done || by apply slug_ascii). unfold step. cbn [fst].
    rewrite (alnum_of_byte c) by done. assert (alnum (Some (bN "-")) = None) as -> by done.
    by rewrite slug_nonempty.
Qed.

Lemma lower_slug s : slug s → smap ascii_lower s = s.
Proof.
  intros H%slug_bytes. induction s as [|c s IH]; [done|]. cbn in H |- *. apply andb_prop in H as [Hc Hs].
  rewrite IH by done. f_equal. unfold ascii_lower. unfold slug_byte, alnum_byte in Hc.
  case_match eqn:E; [|done]. apply orb_prop in Hc as [Hc|Hc%ceqb_true]; [lia|by subst].
Qed.

Lemma space_width_ascii s : is_ascii_string s = true →
  space_width s = match s with "" => 0 | String c _ =>
    if ((9 <=? bN c) && (bN c <=? 13) || (bN c =? 32))%N then 1 else 0 end.
Proof.
  unfold is_ascii_string, space_width. destruct s as [|c s]; [done|]. cbn [String.list_ascii_of_string forallb].
  intros [Hc _]%andb_prop. apply N.ltb_lt in Hc.
  repeat (case_match; [|]); try done;
    repeat match goal with H : (_ && _)%bool = true |- _ => apply andb_prop in H as [? ?] end; lia.
Qed.

Lemma ascii_sdrop n s : is_ascii_string s = true → is_ascii_string (sdrop n s) = true.
Proof.
  unfold is_ascii_string. revert s. induction n as [|n IH]; intros [|c s]; simpl; try done.
  intros [_ H]%andb_prop. by apply IH.
Qed.

Lemma space_width_r_alnum r c : is_ascii_string (r +:+ String c "") = true → alnum_byte c = true →
  space_width_r (r +:+ String c "") = 0.
Proof.
  intros Ha Hc. unfold space_width_r. set (s := r +:+ String c "") in *.
  assert (Hw : ∀ n, space_width (sdrop n s) ≤ 1).
  { intros n. rewrite space_width_ascii by by apply ascii_sdrop. repeat case_match; lia. }
  assert (space_width (sdrop (slen s - 1) s) = 0).
  { unfold s. rewrite slen_app, Nat.add_sub, sdrop_app. rewrite space_width_ascii.
    - unfold alnum_byte in Hc. case_match eqn:E; [lia|done].
    - apply alnum_small in Hc. unfold is_ascii_string. simpl. by rewrite (proj2 (N.ltb_lt _ _) Hc). }
  repeat case_bool_decide; try done; match goal with H : _ ∧ _ |- _ => destruct H end;
    try lia; pose proof (Hw (slen s - 2)); pose proof (Hw (slen s - 3)); lia.
Qed.

Lemma slug_first s : slug s → ∃ c r, s = String c r ∧ alnum_byte c = true.
Proof.
  induction 1 as [c Hc|s c _ (d & r & -> & Hd) _|s c _ (d & r & -> & Hd) _]; simpl; eauto.
Qed.

Lemma trim_space_slug s : slug s → trim_space s = s.
Proof.
  intros Hs. pose proof (slug_ascii s Hs) as Ha. unfold trim_space.
  assert (trim_left_fuel (slen s) s = s) as ->.
  { destruct (slug_first s Hs) as (c & r & -> & Hc). simpl. rewrite space_width_ascii by done.
    unfold alnum_byte in Hc.
    by replace ((9 <=? bN c) && (bN c <=? 13) || (bN c =? 32))%N with false by lia. }
  destruct (slug_last s Hs) as (r & c & -> & Hc).
  destruct (slen (r +:+ String c "")); simpl; [done|]. by rewrite space_width_r_alnum.
Qed.

Lemma Slugify_slug `{Unicode} s : slug s → Slugify s = s.
Proof.
  intros Hs. unfold Slugify, to_lower. rewrite trim_space_slug by done.
  rewrite slug_ascii, lower_slug, run_slug by done. by apply slug_no_suffix.
Qed.

Lemma Slugify_shape `{Unicode} name : Slugify name = "" ∨ slug (Slugify name).
Proof. unfold Slugify. apply trim_built, run_built. by left. Qed.

(** A derived slug is empty or consists of non-empty words over [a-z0-9] joined by
    single hyphens, and deriving a slug from it again changes nothing. *)
Theorem Slugify_grammar `{Unicode} name :
  (Slugify name = "" ∨ slug (Slugify name)) ∧ Slugify (Slugify name) = Slugify name.
Proof.
  split; [apply Slugify_shape|]. destruct (Slugify_shape name) as [->|H1]; [reflexivity|by apply Slugify_slug].
Qed.

End SlugFacts.
