(* ===== verification/AclStore.v ===== *)
(** * internal/acl: the access-control store

    [Store] is the Go struct: the member and app slices, the three indexes, the admin pin
    and the applied generation. An index maps a key to a pointer into the member slice,
    here the member's position, so that a store whose slice has moved on while an index has
    not is representable. The mutex makes every method atomic: a method is a function on
    stores. *)

From S2P Require Import Prelude TimeText Encoding Json Atreolink.

Record Store := MkStore {
  members : list MemberACLEntry;
  apps : list App;
  byTunnelIP : gmap string nat;
  byMemberID : gmap string nat;
  byEmailFull : gmap string nat;
  pinnedAdminPubKey : option string;
  generation : Z;
  lastAppliedAt : Z
}.

Inductive acl_error :=
| ErrAdminPinAlreadySet | ErrAdminPinViolation | ErrPinLength | ErrPinParse | ErrPinBase64
| ErrState | ErrIO.

Definition publicKeySize : nat := 32.

Definition NewStore : Store := MkStore [] [] ∅ ∅ ∅ None 0 zero_time.

(** ** Indexes *)

Section WithUnicode.
Context `{Unicode}.

Definition fold_email (e : string) : string := to_lower (trim_space e).

Definition index_client (i : nat) (idx : gmap string nat) (c : ClientRecord) : gmap string nat :=
  let idx1 := if c_TunnelIP c <>s "" then <[c_TunnelIP c := i]> idx else idx in
  if c_TunnelIPv6 c <>s "" then <[c_TunnelIPv6 c := i]> idx1 else idx1.

Definition tunnel_index (ms : list MemberACLEntry) : gmap string nat :=
  foldl (λ idx p, foldl (index_client p.1) idx (m_Clients p.2)) ∅ (imap pair ms).
Definition member_index (ms : list MemberACLEntry) : gmap string nat :=
  foldl (λ idx p, <[m_MemberID p.2 := p.1]> idx) ∅ (imap pair ms).
Definition email_index (ms : list MemberACLEntry) : gmap string nat :=
  foldl (λ idx p, if fold_email (m_Email p.2) <>s "" then <[fold_email (m_Email p.2) := p.1]> idx else idx)
    ∅ (imap pair ms).

Definition with_members (s : Store) (ms : list MemberACLEntry) : Store :=
  MkStore ms (apps s) (byTunnelIP s) (byMemberID s) (byEmailFull s) (pinnedAdminPubKey s)
    (generation s) (lastAppliedAt s).
Definition with_apps (s : Store) (l : list App) : Store :=
  MkStore (members s) l (byTunnelIP s) (byMemberID s) (byEmailFull s) (pinnedAdminPubKey s)
    (generation s) (lastAppliedAt s).
Definition with_pin (s : Store) (pin : option string) : Store :=
  MkStore (members s) (apps s) (byTunnelIP s) (byMemberID s) (byEmailFull s) pin
    (generation s) (lastAppliedAt s).

Definition rebuildIndexes (s : Store) : Store :=
  MkStore (members s) (apps s) (tunnel_index (members s)) (member_index (members s))
    (email_index (members s)) (pinnedAdminPubKey s) (generation s) (lastAppliedAt s).

(** ** Files

    What os.ReadFile returns, and whether the write path (MkdirAll, WriteFile to a
    temporary, Rename) succeeds. *)

Inductive read_file := FileMissing | FileUnreadable | FileBytes (data : string).

Definition dec_pin_file (j : json) : option string :=
  match j with
  | JNull => Some ""
  | JObj kvs => _ ← assign dec_string "" "algorithm" kvs; assign dec_string "" "publicKey" kvs
  | _ => None
  end.

Definition loadPinLocked (f : read_file) (s : Store) : Store * option acl_error :=
  match f with
  | FileMissing => (with_pin s None, None)
  | FileUnreadable => (s, Some ErrIO)
  | FileBytes data =>
      match unmarshal data ≫= dec_pin_file with
      | None => (s, Some ErrPinParse)
      | Some key =>
          if key =s "" then (with_pin s None, None)
          else match Base64.decode key with
               | None => (s, Some ErrPinBase64)
               | Some pub => if slen pub =? publicKeySize then (with_pin s (Some pub), None)
                             else (s, Some ErrPinLength)
               end
      end
  end%nat.

Record persistedState := MkPersisted {
  p_Version : Z;
  p_Members : list MemberACLEntry;
  p_Apps : list App;
  p_Generation : Z;
  p_LastAppliedAt : string
}.

Definition dec_state (j : json) : option persistedState :=
  match j with
  | JNull => Some (MkPersisted 0 [] [] 0 "")
  | JObj kvs =>
      v ← assign dec_int64 0%Z "version" kvs;
      ms ← assign (dec_slice zero_member dec_member) [] "members" kvs;
      l ← assign (dec_slice zero_app dec_app) [] "apps" kvs;
      g ← assign dec_int64 0%Z "generation" kvs;
      t ← assign dec_string "" "lastAppliedAt" kvs;
      Some (MkPersisted v ms l g t)
  | _ => None
  end.

Definition Load (pinFile aclFile : read_file) (s : Store) : Store * option acl_error :=
  match loadPinLocked pinFile s with
  | (s1, Some e) => (s1, Some e)
  | (s1, None) =>
      match aclFile with
      | FileMissing =>
          (MkStore [] [] ∅ ∅ ∅ (pinnedAdminPubKey s1) (generation s1) (lastAppliedAt s1), None)
      | FileUnreadable => (s1, Some ErrIO)
      | FileBytes data =>
          match unmarshal data ≫= dec_state with
          | None => (s1, Some ErrState)
          | Some st =>
              let at_ := if p_LastAppliedAt st <>s ""
                         then default (lastAppliedAt s1) (parse_rfc3339 (p_LastAppliedAt st))
                         else lastAppliedAt s1 in
              (rebuildIndexes (MkStore (p_Members st) (p_Apps st) (byTunnelIP s1) (byMemberID s1)
                 (byEmailFull s1) (pinnedAdminPubKey s1) (p_Generation st) at_), None)
          end
      end
  end.

(** Save: the value handed to json.MarshalIndent and written by rename. *)
Definition Save (s : Store) : persistedState :=
  MkPersisted 1 (members s) (apps s) (generation s)
    (if is_zero_time (lastAppliedAt s) then "" else format_rfc3339 (lastAppliedAt s)).

(** ** The admin pin *)

Definition PinnedAdminPublicKey (s : Store) : option string := pinnedAdminPubKey s.

(** [written] tells whether persistPinLocked succeeds. *)
Definition SetPinnedAdminPublicKey (written : bool) (pub : string) (s : Store) : Store * option acl_error :=
  if negb (slen pub =? publicKeySize)%nat then (s, Some ErrPinLength)
  else match pinnedAdminPubKey s with
       | Some _ => (s, Some ErrAdminPinAlreadySet)
       | None => (with_pin s (Some pub), if written then None else Some ErrIO)
       end.

Definition ClearPinnedAdminPublicKey (removed : bool) (s : Store) : Store * option acl_error :=
  (with_pin s None, if removed then None else Some ErrIO).

Definition is_admin (m : MemberACLEntry) : bool := (m_Role m =s "admin") || (m_Role m =s "owner").

Definition validateAdminPinLocked (s : Store) (ms : list MemberACLEntry) : option acl_error :=
  match pinnedAdminPubKey s with
  | None => None
  | Some pin =>
      let pinB64 := Base64.encode pin in
      if forallb (λ m, if negb (is_admin m) then true
                       else if m_IdentityKey m =s "" then false
                       else m_IdentityKey m =s pinB64) ms
      then None else Some ErrAdminPinViolation
  end.

(** ** Wholesale replacement *)

Definition ReplaceAll (ms : list MemberACLEntry) (s : Store) : Store * option acl_error :=
  match validateAdminPinLocked s ms with
  | Some e => (s, Some e)
  | None => (rebuildIndexes (with_members s ms), None)
  end.

Definition AppliedGeneration (s : Store) : Z := generation s.
Definition LastAppliedAt (s : Store) : Z := lastAppliedAt s.
Definition SetAppliedGeneration (gen at_ : Z) (s : Store) : Store :=
  MkStore (members s) (apps s) (byTunnelIP s) (byMemberID s) (byEmailFull s) (pinnedAdminPubKey s) gen at_.

(** The keys of the clients of a member list, blank keys left out, in order. *)
Definition client_keys (ms : list MemberACLEntry) : list string :=
  List.filter (λ k, k <>s "") (map c_WGPublicKey (mjoin (map m_Clients ms))).

(** removedClientKeys: the loop with its two sets. *)
Definition collect_removed (nextKeys : gset string) (st : gset string * list string) (k : string)
    : gset string * list string :=
  let '(seen, out) := st in
  if k =s "" then st
  else if bool_decide (k ∈ nextKeys) then st
  else if bool_decide (k ∈ seen) then st
  else ({[k]} ∪ seen, out ++ [k]).

Record removals := MkRemovals {
  removedMembers : list MemberACLEntry;
  removedClientKeys : list string;
  removedAppIDs : list string
}.

Definition Reconcile (ms : list MemberACLEntry) (l : list App) (s : Store)
    : Store * result acl_error removals :=
  match validateAdminPinLocked s ms with
  | Some e => (s, Err e)
  | None =>
      let next : gset string := list_to_set (map m_MemberID ms) in
      let nextKeys : gset string := list_to_set (client_keys ms) in
      let gone := List.filter (λ m, negb (bool_decide (m_MemberID m ∈ next))) (members s) in
      let keys := (foldl (collect_removed nextKeys) (∅, [])
                     (map c_WGPublicKey (mjoin (map m_Clients (members s))))).2 in
      let nextApps : gset string := list_to_set (map app_ID l) in
      let goneApps := map app_ID (List.filter (λ a, negb (bool_decide (app_ID a ∈ nextApps))) (apps s)) in
      (rebuildIndexes (with_apps (with_members s ms) l), Ok (MkRemovals gone keys goneApps))
  end.

(** ** Single-entry updates *)

(** A loop that changes the first element that matches and stops there. *)
Fixpoint update_first {A} (p : A → bool) (f : A → A) (l : list A) : list A :=
  match l with
  | [] => []
  | x :: l' => if p x then f x :: l' else x :: update_first p f l'
  end.

Definition has_id (id : string) (m : MemberACLEntry) : bool := m_MemberID m =s id.

Definition orElse (a b : string) : string := if a =s "" then b else a.

(** byKey[k] after inserting the clients in order: the last one with that key. *)
Fixpoint last_with_key (k : string) (cs : list ClientRecord) : option ClientRecord :=
  match cs with
  | [] => None
  | c :: cs' => match last_with_key k cs' with
                | Some c' => Some c'
                | None => if c_WGPublicKey c =s k then Some c else None
                end
  end.

Definition merge_client (existing : list ClientRecord) (c : ClientRecord) : ClientRecord :=
  match last_with_key (c_WGPublicKey c) existing with
  | None => c
  | Some prev =>
      MkClient (c_WGPublicKey c) (orElse (c_TunnelIP c) (c_TunnelIP prev)) (c_TunnelIPv6 c)
        (orElse (c_Label c) (c_Label prev)) (orElse (c_Platform c) (c_Platform prev))
        (orElse (c_EndpointType c) (c_EndpointType prev))
  end.

Definition merge_member (member existing : MemberACLEntry) : MemberACLEntry :=
  match m_Clients member with
  | [] => set_clients member (m_Clients existing)
  | cs => set_clients member (map (merge_client (m_Clients existing)) cs)
  end.

Definition UpsertMember (member : MemberACLEntry) (s : Store) : Store * option acl_error :=
  match validateAdminPinLocked s [member] with
  | Some e => (s, Some e)
  | None =>
      let ms := if existsb (has_id (m_MemberID member)) (members s)
                then update_first (has_id (m_MemberID member)) (merge_member member) (members s)
                else members s ++ [member] in
      (rebuildIndexes (with_members s ms), None)
  end.

Definition SetAllowedApps (id : string) (l : list App) (s : Store) : Store * bool :=
  if existsb (has_id id) (members s)
  then (rebuildIndexes (with_members s (update_first (has_id id) (λ m, set_apps m l) (members s))), true)
  else (s, false).

Definition SetMemberStatus (id status : string) (s : Store) : Store * option (list ClientRecord) :=
  match List.find (has_id id) (members s) with
  | Some m =>
      (rebuildIndexes (with_members s (update_first (has_id id) (λ m, set_status m status) (members s))),
       Some (m_Clients m))
  | None => (s, None)
  end.

(** AddClient's first loop, on a member that is not the target. *)
Definition strips (rec c : ClientRecord) : bool :=
  (c_WGPublicKey c =s c_WGPublicKey rec) || ((c_TunnelIP rec <>s "") && (c_TunnelIP c =s c_TunnelIP rec)).

Definition strip_member (memberID : string) (rec : ClientRecord) (m : MemberACLEntry) : MemberACLEntry :=
  if has_id memberID m then m
  else set_clients m (List.filter (λ c, negb (strips rec c)) (m_Clients m)).

Definition refresh_client (rec c : ClientRecord) : ClientRecord :=
  MkClient (c_WGPublicKey rec) (orElse (c_TunnelIP rec) (c_TunnelIP c))
    (orElse (c_TunnelIPv6 rec) (c_TunnelIPv6 c)) (orElse (c_Label rec) (c_Label c))
    (orElse (c_Platform rec) (c_Platform c)) (orElse (c_EndpointType rec) (c_EndpointType c)).

Definition has_key (k : string) (c : ClientRecord) : bool := c_WGPublicKey c =s k.

(** The target's client list after the second loop. *)
Definition put_client (rec : ClientRecord) (cs : list ClientRecord) : list ClientRecord :=
  if existsb (has_key (c_WGPublicKey rec)) cs
  then update_first (has_key (c_WGPublicKey rec)) (refresh_client rec) cs
  else cs ++ [rec].

Definition AddClient (memberID : string) (rec : ClientRecord) (s : Store) : Store * bool :=
  if c_WGPublicKey rec =s "" then (s, false)
  else
    let ms := map (strip_member memberID rec) (members s) in
    if existsb (has_id memberID) ms
    then (rebuildIndexes (with_members s
            (update_first (has_id memberID) (λ m, set_clients m (put_client rec (m_Clients m))) ms)), true)
    else (with_members s ms, false).

Definition RemoveClient (memberID wgPublicKey : string) (s : Store) : Store * bool :=
  match List.find (has_id memberID) (members s) with
  | None => (s, false)
  | Some m =>
      let removed := existsb (has_key wgPublicKey) (m_Clients m) in
      let s' := with_members s (update_first (has_id memberID)
                  (λ m, set_clients m (List.filter (λ c, negb (has_key wgPublicKey c)) (m_Clients m))) (members s)) in
      (if removed then rebuildIndexes s' else s', removed)
  end.

(** *** Apps *)

Definition has_app_id (id : string) (a : App) : bool := app_ID a =s id.

Definition upsert_app (l : list App) (incoming : App) : list App :=
  if existsb (has_app_id (app_ID incoming)) l
  then update_first (has_app_id (app_ID incoming)) (λ _, incoming) l
  else l ++ [incoming].

(** byID[id]: the last incoming app with that ID. *)
Definition mirror_app (incoming : list App) (a : App) : App :=
  default a (List.find (has_app_id (app_ID a)) (rev incoming)).

Definition SetAppDefinitions (l : list App) (s : Store) : Store :=
  with_members (with_apps s (foldl upsert_app (apps s) l))
    (map (λ m, set_apps m (map (mirror_app l) (m_AllowedApps m))) (members s)).

Definition RemoveAppByID (appID : string) (s : Store) : Store * nat :=
  (with_members (with_apps s (List.filter (λ a, negb (has_app_id appID a)) (apps s)))
     (map (λ m, set_apps m (List.filter (λ a, negb (has_app_id appID a)) (m_AllowedApps m))) (members s)),
   length (List.filter (has_app_id appID) (mjoin (map m_AllowedApps (members s))))).

(** *** Members *)

Fixpoint remove_first {A} (p : A → bool) (l : list A) : list A :=
  match l with
  | [] => []
  | x :: l' => if p x then l' else x :: remove_first p l'
  end.

Definition RemoveMember (id : string) (s : Store) : Store :=
  rebuildIndexes (with_members s (remove_first (has_id id) (members s))).

(** [verify m] is true when the Go callback returns nil. *)
Definition DropMembersFailing (verify : MemberACLEntry → bool) (s : Store) : Store * list MemberACLEntry :=
  let dropped := List.filter (λ m, negb (verify m)) (members s) in
  match dropped with
  | [] => (s, [])
  | _ => (rebuildIndexes (with_members s (List.filter verify (members s))), dropped)
  end.

(** ** Queries *)

Definition LookupByTunnelIP (ip : string) (s : Store) : option MemberACLEntry :=
  i ← byTunnelIP s !! ip; members s !! i.
Definition LookupByMemberID (id : string) (s : Store) : option MemberACLEntry :=
  i ← byMemberID s !! id; members s !! i.
Definition LookupByEmail (email : string) (s : Store) : option MemberACLEntry :=
  i ← byEmailFull s !! fold_email email; members s !! i.

Definition holds_ip (ip : string) (c : ClientRecord) : bool := (c_TunnelIP c =s ip) || (c_TunnelIPv6 c =s ip).

Definition LookupClientByIP (ip : string) (s : Store) : option (string * ClientRecord) :=
  m ← LookupByTunnelIP ip s; c ← List.find (holds_ip ip) (m_Clients m); Some (m_MemberID m, c).

Definition AdminEntry (s : Store) : option MemberACLEntry := List.find is_admin (members s).

Definition suspended (m : MemberACLEntry) : bool := (m_Status m <>s "") && (m_Status m <>s "active").

Definition proxy_app (slug : string) (a : App) : bool := negb (IsPort a) && (EffectiveSlug a =s slug).
Definition port_app (slug : string) (a : App) : bool := IsPort a && (EffectiveSlug a =s slug).

Definition findAppBySlug (slug : string) (s : Store) : option App :=
  match List.find (proxy_app slug) (apps s) with
  | Some a => Some a
  | None => List.find (proxy_app slug) (mjoin (map m_AllowedApps (members s)))
  end.

Definition FindPortAppBySlug (slug : string) (s : Store) : option App :=
  match List.find (port_app slug) (apps s) with
  | Some a => Some a
  | None => List.find (port_app slug) (mjoin (map m_AllowedApps (members s)))
  end.

(** The app when the answer is yes, [None] for (false, nil). *)
Definition IsAppAllowed (sourceIP appSlug : string) (s : Store) : option App :=
  m ← LookupByTunnelIP sourceIP s;
  if suspended m then None
  else if is_admin m then findAppBySlug appSlug s
  else List.find (proxy_app appSlug) (m_AllowedApps m).

Definition IsPortAppAllowed (sourceIP appSlug : string) (s : Store) : option App :=
  m ← LookupByTunnelIP sourceIP s;
  if suspended m then None else List.find (port_app appSlug) (m_AllowedApps m).

End WithUnicode.

(** *** Raw-port grants *)

Record PortGrant := MkGrant {
  g_TunnelIP : string;
  g_TunnelIPv6 : string;
  g_TCP : list Z;
  g_UDP : list Z
}.
#[export] Instance PortGrant_eq_dec : EqDecision PortGrant.
Proof. solve_decision. Defined.

Definition open_port (a : App) : bool := IsPort a && negb ((app_Port a <? 1) || (65535 <? app_Port a))%Z.
Definition is_tcp (a : App) : bool :=
  (app_Protocol a =s "tcp") || (app_Protocol a =s "http") || (app_Protocol a =s "https").
Definition is_udp (a : App) : bool := app_Protocol a =s "udp".

Definition tcp_ports (l : list App) : list Z := map app_Port (List.filter (λ a, open_port a && is_tcp a) l).
Definition udp_ports (l : list App) : list Z := map app_Port (List.filter (λ a, open_port a && is_udp a) l).

Definition member_grants (m : MemberACLEntry) : list PortGrant :=
  if suspended m then []
  else match tcp_ports (m_AllowedApps m), udp_ports (m_AllowedApps m) with
       | [], [] => []
       | tcp, udp => map (λ c, MkGrant (c_TunnelIP c) (c_TunnelIPv6 c) tcp udp)
                       (List.filter (λ c, c_TunnelIP c <>s "") (m_Clients m))
       end.

Definition PortGrants (s : Store) : list PortGrant := mjoin (map member_grants (members s)).

(** ** The indexes *)

Section Facts.
Context `{Unicode}.

Definition holds (ip : string) (m : MemberACLEntry) : bool := existsb (holds_ip ip) (m_Clients m).

Lemma imap_pair_snoc {A} (l : list A) x : imap pair (l ++ [x]) = imap pair l ++ [(length l, x)].
Proof. rewrite imap_app. simpl. by rewrite Nat.add_0_r. Qed.

Lemma index_client_lookup i idx c ip :
  index_client i idx c !! ip = if (ip <>s "") && holds_ip ip c then Some i else idx !! ip.
Proof.
  unfold index_client, holds_ip.
  destruct (decide (ip = "")) as [->|Hip].
  - rewrite (seqb_refl ""). simpl.
    destruct (c_TunnelIP c =s "") eqn:E1, (c_TunnelIPv6 c =s "") eqn:E2; simpl; str_inv;
      rewrite ?lookup_insert_ne by congruence; done.
  - replace (ip =s "") with false by (symmetry; by apply seqb_false). simpl.
    destruct (c_TunnelIP c =s "") eqn:E1, (c_TunnelIPv6 c =s "") eqn:E2, (c_TunnelIP c =s ip) eqn:E3,
      (c_TunnelIPv6 c =s ip) eqn:E4; simpl; str_inv; subst; try congruence; by simplify_map_eq.
Qed.

Lemma index_clients_lookup i cs idx ip :
  foldl (index_client i) idx cs !! ip = if (ip <>s "") && existsb (holds_ip ip) cs then Some i else idx !! ip.
Proof.
  revert idx. induction cs as [|c cs IH]; intros idx; simpl; [by rewrite andb_false_r|].
  rewrite IH, index_client_lookup. destruct (ip <>s ""), (holds_ip ip c), (existsb (holds_ip ip) cs); done.
Qed.

Lemma tunnel_index_snoc ms m : tunnel_index (ms ++ [m]) = foldl (index_client (length ms)) (tunnel_index ms) (m_Clients m).
Proof. unfold tunnel_index. by rewrite imap_pair_snoc, foldl_app. Qed.

(** [byTunnelIP] names the last member that holds the address. *)
Lemma tunnel_index_spec ms ip i : tunnel_index ms !! ip = Some i ↔
  ip ≠ "" ∧ ∃ m, ms !! i = Some m ∧ holds ip m = true ∧ ∀ j m', i < j → ms !! j = Some m' → holds ip m' = false.
Proof.
  induction ms as [|m ms IH] using rev_ind; [split; [done|intros (_ & m & ? & _); done]|].
  rewrite tunnel_index_snoc, index_clients_lookup. fold (holds ip m).
  destruct (decide (ip = "")) as [->|Hip].
  { rewrite (seqb_refl ""). simpl. rewrite IH. naive_solver. }
  replace (ip =s "") with false by (symmetry; by apply seqb_false). simpl. destruct (holds ip m) eqn:E.
  - split.
    + intros [= <-]. split; [done|]. exists m. split; [by rewrite lookup_app_r, Nat.sub_diag|]. split; [done|].
      intros j m' Hj Hl%lookup_lt_Some. rewrite length_app in Hl. simpl in Hl. lia.
    + intros (_ & m' & Hm' & Hh & Hlast). destruct (decide (i < length ms)) as [Hi|Hi].
      * rewrite (Hlast (length ms) m) in E; [done|done|by rewrite lookup_app_r, Nat.sub_diag].
      * apply lookup_lt_Some in Hm'. rewrite length_app in Hm'. simpl in Hm'. f_equal. lia.
  - rewrite IH. split; (intros (_ & m' & Hm' & Hh & Hlast); split; [done|]; exists m').
    + pose proof (lookup_lt_Some _ _ _ Hm'). rewrite lookup_app_l by done. split_and!; [done..|].
      intros j x Hj Hx. apply lookup_app_Some in Hx as [Hx|[Hx1 Hx2]]; [by eapply Hlast|].
      destruct (j - length ms) eqn:Ej; simpl in Hx2; [by simplify_eq|done].
    + apply lookup_app_Some in Hm' as [Hm'|[? Hm']].
      * split_and!; [done..|]. intros j x Hj Hx. apply (Hlast j x Hj). rewrite lookup_app_l; [done|].
        by eapply lookup_lt_Some.
      * destruct (i - length ms); simpl in Hm'; simplify_eq. congruence.
Qed.

(** All three indexes are what rebuildIndexes would make them. *)
Definition fresh (s : Store) : Prop := rebuildIndexes s = s.

Lemma fresh_rebuild s : fresh (rebuildIndexes s).
Proof. done. Qed.

Lemma fresh_iff s : fresh s ↔ byTunnelIP s = tunnel_index (members s) ∧
  byMemberID s = member_index (members s) ∧ byEmailFull s = email_index (members s).
Proof. destruct s. unfold fresh, rebuildIndexes. simpl. naive_solver. Qed.

(** The parts of a member the indexes read. *)
Definition same_keys (m m' : MemberACLEntry) : Prop :=
  m_MemberID m = m_MemberID m' ∧ m_Clients m = m_Clients m' ∧ m_Email m = m_Email m'.

Lemma foldl_imap_ext {A B} (f : A → nat * B → A) (R : B → B → Prop) l l' a k :
  (∀ a i x y, R x y → f a (i, x) = f a (i, y)) → Forall2 R l l' →
  foldl f a (imap (λ i x, (k + i, x)) l) = foldl f a (imap (λ i x, (k + i, x)) l').
Proof.
  intros Hf Hl. revert a k. induction Hl as [|x y l l' Hxy _ IH]; intros a k; simpl; [done|].
  rewrite (Hf _ _ x y) by done. specialize (IH (f a (k + 0, y)) (S k)).
  rewrite (imap_ext _ (λ i x, (S k + i, x)) l), (imap_ext _ (λ i x, (S k + i, x)) l'); [done|..];
    intros; simpl; f_equal; lia.
Qed.

Lemma index_ext ms ms' : Forall2 same_keys ms ms' →
  tunnel_index ms = tunnel_index ms' ∧ member_index ms = member_index ms' ∧ email_index ms = email_index ms'.
Proof.
  intros Hm. unfold tunnel_index, member_index, email_index. split_and!;
    apply (foldl_imap_ext _ same_keys ms ms' ∅ 0); try done; intros a i x y (E1 & E2 & E3); simpl; by rewrite ?E1, ?E2, ?E3.
Qed.

Lemma fresh_same_keys s ms l : fresh s → Forall2 same_keys (members s) ms →
  fresh (with_members (with_apps s l) ms).
Proof.
  rewrite !fresh_iff. simpl. intros (-> & -> & ->) Hm. by apply index_ext.
Qed.

Lemma Forall2_map_same (f : MemberACLEntry → MemberACLEntry) ms :
  (∀ m, same_keys m (f m)) → Forall2 same_keys ms (map f ms).
Proof. intros Hf. induction ms; constructor; auto. Qed.

Lemma set_apps_same m l : same_keys m (set_apps m l).
Proof. done. Qed.

(** ** Operations as a state machine *)

Inductive op :=
| OpLoad (pinFile aclFile : read_file)
| OpSetPin (written : bool) (pub : string)
| OpClearPin (removed : bool)
| OpReplaceAll (ms : list MemberACLEntry)
| OpReconcile (ms : list MemberACLEntry) (l : list App)
| OpSetAppliedGeneration (gen at_ : Z)
| OpUpsertMember (m : MemberACLEntry)
| OpSetAllowedApps (id : string) (l : list App)
| OpSetMemberStatus (id status : string)
| OpAddClient (id : string) (rec : ClientRecord)
| OpRemoveClient (id key : string)
| OpSetAppDefinitions (l : list App)
| OpRemoveAppByID (id : string)
| OpRemoveMember (id : string)
| OpDropMembersFailing (verify : MemberACLEntry → bool).

Definition apply_op (o : op) (s : Store) : Store :=
  match o with
  | OpLoad p a => (Load p a s).1
  | OpSetPin w pub => (SetPinnedAdminPublicKey w pub s).1
  | OpClearPin r => (ClearPinnedAdminPublicKey r s).1
  | OpReplaceAll ms => (ReplaceAll ms s).1
  | OpReconcile ms l => (Reconcile ms l s).1
  | OpSetAppliedGeneration g t => SetAppliedGeneration g t s
  | OpUpsertMember m => (UpsertMember m s).1
  | OpSetAllowedApps id l => (SetAllowedApps id l s).1
  | OpSetMemberStatus id st => (SetMemberStatus id st s).1
  | OpAddClient id rec => (AddClient id rec s).1
  | OpRemoveClient id k => (RemoveClient id k s).1
  | OpSetAppDefinitions l => SetAppDefinitions l s
  | OpRemoveAppByID id => (RemoveAppByID id s).1
  | OpRemoveMember id => RemoveMember id s
  | OpDropMembersFailing v => (DropMembersFailing v s).1
  end.

(** AddClient is called for a member of the store (tunnel/handler.go looks it up first). *)
Definition op_ok (o : op) (s : Store) : bool :=
  match o with
  | OpAddClient id rec => existsb (has_id id) (members s)
  | _ => true
  end.

Inductive step : Store → Store → Prop :=
| step_op o s : op_ok o s = true → step s (apply_op o s).

Definition reachable (s : Store) : Prop := rtc step NewStore s.

Lemma fresh_pin s pin : fresh s → fresh (with_pin s pin).
Proof. rewrite !fresh_iff. done. Qed.

Lemma loadPin_cases f s s' e : loadPinLocked f s = (s', e) → s' = s ∨ ∃ pin, s' = with_pin s pin.
Proof.
  unfold loadPinLocked. destruct f; intros; repeat case_match; simplify_eq; eauto.
Qed.

Lemma fresh_load p a s : fresh s → fresh (Load p a s).1.
Proof.
  intros Hs. unfold Load. destruct (loadPinLocked p s) as [s1 e] eqn:E.
  assert (fresh s1) by (destruct (loadPin_cases _ _ _ _ E) as [->|[pin ->]]; [done|by apply fresh_pin]).
  destruct e; [done|]. destruct a as [| |data]; [done|done|]. by destruct (unmarshal data ≫= dec_state).
Qed.

Lemma existsb_find {A} (p : A → bool) l : existsb p l = bool_decide (is_Some (List.find p l)).
Proof. induction l as [|x l IH]; simpl; [done|]. destruct (p x); simpl; [done|apply IH]. Qed.

Lemma filter_negb_id {A} (p : A → bool) l : existsb p l = false → List.filter (λ x, negb (p x)) l = l.
Proof. induction l as [|x l IH]; simpl; [done|]. intros [-> Hl]%orb_false_elim. simpl. by rewrite IH. Qed.

Lemma update_first_id {A} (p : A → bool) f l : (∀ x, List.find p l = Some x → f x = x) → update_first p f l = l.
Proof.
  induction l as [|x l IH]; simpl; [done|]. intros Hf. destruct (p x); [by rewrite Hf|]. by rewrite IH.
Qed.

Lemma set_clients_id m : set_clients m (m_Clients m) = m.
Proof. by destruct m. Qed.

Lemma with_members_id s : with_members s (members s) = s.
Proof. by destruct s. Qed.

Lemma fresh_remove_client id k s : fresh s → fresh (RemoveClient id k s).1.
Proof.
  intros Hs. unfold RemoveClient. destruct (List.find (has_id id) (members s)) as [m|] eqn:E; [|done].
  destruct (existsb (has_key k) (m_Clients m)) eqn:Ek; simpl; [done|].
  rewrite update_first_id; [by rewrite with_members_id|]. rewrite E. intros x [= <-].
  by rewrite filter_negb_id, set_clients_id.
Qed.

Lemma has_id_strip id id' rec m : has_id id (strip_member id' rec m) = has_id id m.
Proof. unfold strip_member. by destruct (has_id id' m). Qed.

Lemma existsb_strip id id' rec ms : existsb (has_id id) (map (strip_member id' rec) ms) = existsb (has_id id) ms.
Proof. induction ms as [|m ms IH]; simpl; [done|]. by rewrite has_id_strip, IH. Qed.

Lemma fresh_apply o s : op_ok o s = true → fresh s → fresh (apply_op o s).
Proof.
  intros Ho Hs. destruct o; simpl in *.
  - by apply fresh_load.
  - unfold SetPinnedAdminPublicKey. repeat case_match; simpl; try done; by apply fresh_pin.
  - by apply fresh_pin.
  - unfold ReplaceAll. by case_match.
  - unfold Reconcile. by case_match.
  - apply fresh_iff in Hs. by apply fresh_iff.
  - unfold UpsertMember. by case_match.
  - unfold SetAllowedApps. by case_match.
  - unfold SetMemberStatus. by case_match.
  - unfold AddClient. case_match; [done|]. rewrite existsb_strip, Ho. done.
  - by apply fresh_remove_client.
  - apply fresh_same_keys; [done|]. apply Forall2_map_same. intros m. apply set_apps_same.
  - apply fresh_same_keys; [done|]. apply Forall2_map_same. intros m. apply set_apps_same.
  - done.
  - unfold DropMembersFailing. by case_match.
Qed.

Lemma reachable_fresh s : reachable s → fresh s.
Proof.
  intros Hr. unfold reachable in Hr. assert (H0 : fresh NewStore) by done. induction Hr as [|a b c [o s Ho] _ IH]; [done|].
  apply IH. by apply fresh_apply.
Qed.

(** In every store the operations can produce, each index is exactly what a rebuild would
    give: no lookup goes through a stale pointer. *)
Theorem reachable_indexes_fresh s : reachable s →
  byTunnelIP s = tunnel_index (members s) ∧
  byMemberID s = member_index (members s) ∧ byEmailFull s = email_index (members s).
Proof. intros Hr. by apply fresh_iff, reachable_fresh. Qed.

(** ** Authorisation *)

Definition active (m : MemberACLEntry) : Prop := m_Status m = "" ∨ m_Status m = "active".

Lemma suspended_false m : suspended m = false ↔ active m.
Proof.
  unfold suspended, active. destruct (m_Status m =s "") eqn:E1, (m_Status m =s "active") eqn:E2; simpl; str_inv;
    naive_solver.
Qed.

Lemma find_spec {A} (p : A → bool) l x : List.find p l = Some x → x ∈ l ∧ p x = true.
Proof. intros Hf. apply find_some in Hf as [H1 H2]. by rewrite list_elem_of_In. Qed.

Lemma lookup_tunnel_fresh s ip m : fresh s → LookupByTunnelIP ip s = Some m ↔
  ip ≠ "" ∧ ∃ i, members s !! i = Some m ∧ holds ip m = true ∧
    ∀ j m', i < j → members s !! j = Some m' → holds ip m' = false.
Proof.
  intros (Ht & _)%fresh_iff. unfold LookupByTunnelIP. rewrite Ht. split.
  - intros (i & Hi & Hm)%bind_Some. apply tunnel_index_spec in Hi as (Hip & m' & Hm' & Hh). simplify_eq.
    split; [done|]. by exists i.
  - intros (Hip & i & Hm & Hh). apply bind_Some. exists i. split; [|done]. apply tunnel_index_spec.
    split; [done|]. by exists m.
Qed.

(** What a yes of the proxy's gate may rest on. *)
Definition entitled (s : Store) (m : MemberACLEntry) (a : App) : Prop :=
  if is_admin m then a ∈ apps s ∨ ∃ m', m' ∈ members s ∧ a ∈ m_AllowedApps m' else a ∈ m_AllowedApps m.

Lemma findAppBySlug_some slug s a : findAppBySlug slug s = Some a →
  proxy_app slug a = true ∧ (a ∈ apps s ∨ ∃ m', m' ∈ members s ∧ a ∈ m_AllowedApps m').
Proof.
  unfold findAppBySlug. case_match eqn:E; intros Hf; simplify_eq.
  - apply find_spec in E as [? ?]. auto.
  - apply find_spec in Hf as [Hin ?]. split; [done|]. right. apply list_elem_of_join in Hin as (l & Hl & Hin).
    apply list_elem_of_fmap in Hin as (m' & -> & Hm'). eauto.
Qed.

Lemma proxy_app_spec slug a : proxy_app slug a = true ↔ IsPort a = false ∧ EffectiveSlug a = slug.
Proof. unfold proxy_app. rewrite andb_true_iff, negb_true_iff, seqb_true. done. Qed.

Lemma holder_client s ip m : fresh s → LookupByTunnelIP ip s = Some m →
  ∃ c, m ∈ members s ∧ c ∈ m_Clients m ∧ (c_TunnelIP c = ip ∨ c_TunnelIPv6 c = ip) ∧ ip ≠ "".
Proof.
  intros Hf (Hip & i & Hi & Hh & _)%lookup_tunnel_fresh; [|done].
  apply existsb_exists in Hh as (c & Hc & Hci). exists c. apply list_elem_of_In in Hc.
  unfold holds_ip in Hci. apply orb_prop in Hci. rewrite !seqb_true in Hci.
  split_and!; try done. by eapply list_elem_of_lookup_2.
Qed.

Lemma IsAppAllowed_entitled s ip slug a : IsAppAllowed ip slug s = Some a →
  IsPort a = false ∧ EffectiveSlug a = slug ∧ ∃ m, LookupByTunnelIP ip s = Some m ∧ active m ∧ entitled s m a.
Proof.
  unfold IsAppAllowed. intros (m & Hm & Ha)%bind_Some.
  destruct (suspended m) eqn:Es; [done|]. apply suspended_false in Es.
  assert (proxy_app slug a = true ∧ entitled s m a) as [Hp He].
  { unfold entitled. destruct (is_admin m); [by apply findAppBySlug_some|]. by apply find_spec in Ha as [? ?]. }
  apply proxy_app_spec in Hp as [??]. eauto 6.
Qed.


Lemma find_none_all {A} (p : A → bool) l x : List.find p l = None → x ∈ l → p x = false.
Proof. intros Hf Hx%list_elem_of_In. by apply (find_none p l). Qed.

(** Exactly one member holds the address. *)
Definition sole_holder (s : Store) (ip : string) (m : MemberACLEntry) : Prop :=
  ∃ i, members s !! i = Some m ∧ holds ip m = true ∧
       ∀ j m', members s !! j = Some m' → holds ip m' = true → j = i.

Lemma sole_holder_lookup s ip m : fresh s → ip ≠ "" → sole_holder s ip m → LookupByTunnelIP ip s = Some m.
Proof.
  intros Hs Hip (i & Hi & Hh & Hu). apply lookup_tunnel_fresh; [done|]. split; [done|]. exists i.
  split_and!; [done..|]. intros j m' Hj Hm'. destruct (holds ip m') eqn:E; [|done].
  assert (j = i) by eauto. lia.
Qed.

(** For an address held by one member only, the gate answers for that member: no when it
    is suspended (whatever its role or apps), no when it has no entitled proxy app with that
    slug, and yes when it has one. *)
Theorem IsAppAllowed_complete s ip slug m : reachable s → ip ≠ "" → sole_holder s ip m →
  is_Some (IsAppAllowed ip slug s) ↔
  active m ∧ ∃ a, entitled s m a ∧ IsPort a = false ∧ EffectiveSlug a = slug.
Proof.
  intros Hr%reachable_fresh Hip Hm. unfold IsAppAllowed. rewrite (sole_holder_lookup s ip m) by done. simpl.
  destruct (suspended m) eqn:Es.
  { split; [by intros []|]. intros [Ha _]. by apply suspended_false in Ha; congruence. }
  apply suspended_false in Es. unfold entitled. destruct (is_admin m).
  - split.
    + intros [a Ha]. apply findAppBySlug_some in Ha as [Hp Hin]. apply proxy_app_spec in Hp. naive_solver.
    + intros (_ & a & Hin & Hp). unfold findAppBySlug. destruct (List.find (proxy_app slug) (apps s)) eqn:E1; [done|].
      destruct (List.find _ (mjoin _)) eqn:E2; [done|]. exfalso. apply proxy_app_spec in Hp.
      destruct Hin as [Hin|(m' & Hm' & Hin)].
      * by rewrite (find_none_all _ _ _ E1 Hin) in Hp.
      * rewrite (find_none_all _ _ a E2) in Hp; [done|]. apply list_elem_of_join. exists (m_AllowedApps m').
        split; [done|]. by apply list_elem_of_fmap_2.
  - split.
    + intros [a [Hin Hp]%find_spec]. apply proxy_app_spec in Hp. naive_solver.
    + intros (_ & a & Hin & Hp). apply proxy_app_spec in Hp.
      destruct (List.find (proxy_app slug) (m_AllowedApps m)) eqn:E; [done|].
      by rewrite (find_none_all _ _ _ E Hin) in Hp.
Qed.

(** ** The admin pin *)

(** Every admin or owner row carries the pinned key. *)
Definition pin_ok (s : Store) : Prop := ∀ pin m,
  pinnedAdminPubKey s = Some pin → m ∈ members s → is_admin m = true → m_IdentityKey m = Base64.encode pin.

Lemma validate_none s ms : validateAdminPinLocked s ms = None ↔
  ∀ pin m, pinnedAdminPubKey s = Some pin → m ∈ ms → is_admin m = true →
    m_IdentityKey m = Base64.encode pin ∧ m_IdentityKey m ≠ "".
Proof.
  unfold validateAdminPinLocked. destruct (pinnedAdminPubKey s) as [pin|]; [|naive_solver].
  match goal with |- (if ?b then _ else _) = _ ↔ _ => destruct b eqn:E end.
  - split; [|done]. intros _ ? m [= <-] Hm Ha. rewrite forallb_forall in E. specialize (E m).
    rewrite <- list_elem_of_In, Ha in E. specialize (E Hm). simpl in E.
    destruct (m_IdentityKey m =s "") eqn:E1; [done|]. str_inv. done.
  - split; [done|]. intros Hall. exfalso. revert E. apply not_false_iff_true, forallb_forall.
    intros m Hm%list_elem_of_In. destruct (is_admin m) eqn:Ha; [|done]. simpl.
    destruct (Hall pin m eq_refl Hm Ha) as [H1 H2]. apply seqb_false in H2. rewrite H2. by apply seqb_true.
Qed.

(** Each row of [ms'] has the role and key of a row of [ms]. *)
Definition admin_view (m : MemberACLEntry) : string * string := (m_Role m, m_IdentityKey m).
Definition rows_from (ms ms' : list MemberACLEntry) : Prop :=
  ∀ m', m' ∈ ms' → ∃ m, m ∈ ms ∧ admin_view m = admin_view m'.

Lemma pin_ok_rows s s' : pinnedAdminPubKey s' = pinnedAdminPubKey s → rows_from (members s) (members s') →
  pin_ok s → pin_ok s'.
Proof.
  intros Hp Hr Hs pin m' Hpin (m & Hm & [= Hrole Hkey])%Hr Ha. rewrite Hp in Hpin. rewrite <- Hkey.
  apply (Hs pin m); [done|done|]. revert Ha. unfold is_admin. by rewrite Hrole.
Qed.

Lemma rows_refl ms : rows_from ms ms.
Proof. intros m Hm. eauto. Qed.

Lemma rows_map f ms : (∀ m, admin_view (f m) = admin_view m) → rows_from ms (map f ms).
Proof. intros Hf m' (m & -> & Hm)%list_elem_of_fmap. eauto. Qed.

Lemma rows_trans a b c : rows_from a b → rows_from b c → rows_from a c.
Proof. intros H1 H2 m (x & Hx & E)%H2. apply H1 in Hx as (y & Hy & E'). exists y. split; [done|congruence]. Qed.

Lemma rows_update p f ms : (∀ m, admin_view (f m) = admin_view m) → rows_from ms (update_first p f ms).
Proof.
  intros Hf. induction ms as [|m ms IH]; simpl; [by apply rows_refl|]. intros m'. destruct (p m).
  - rewrite elem_of_cons. intros [->|Hm']; [exists m; split; [left|done]|exists m'; split; [by right|done]].
  - rewrite elem_of_cons. intros [->|(x & Hx & E)%IH]; [exists m; split; [left|done]|exists x; split; [by right|done]].
Qed.

Lemma rows_sub ms ms' : ms' ⊆ ms → rows_from ms ms'.
Proof. intros Hs m Hm. exists m. auto. Qed.

Lemma remove_first_sub {A} (p : A → bool) (l : list A) : remove_first p l ⊆ l.
Proof. induction l as [|x l IH]; simpl; [done|]. destruct (p x); set_solver. Qed.

Lemma filter_sub {A} (p : A → bool) (l : list A) : List.filter p l ⊆ l.
Proof. intros x Hx. rewrite !list_elem_of_In in *. by apply filter_In in Hx as []. Qed.

Lemma pin_ok_rebuild s : pin_ok s → pin_ok (rebuildIndexes s).
Proof. done. Qed.

Lemma validate_members s ms : validateAdminPinLocked s ms = None → pin_ok (with_members s ms).
Proof. intros Hv pin m Hp Hm Ha. by apply (proj1 (validate_none s ms) Hv). Qed.

Lemma merge_member_view m e : admin_view (merge_member m e) = admin_view m.
Proof. unfold merge_member. by destruct (m_Clients m). Qed.

Lemma upsert_rows member ms m' :
  m' ∈ update_first (has_id (m_MemberID member)) (merge_member member) ms →
  m' ∈ ms ∨ admin_view m' = admin_view member.
Proof.
  induction ms as [|m ms IH]; simpl; [set_solver|]. destruct (has_id _ m).
  - rewrite !elem_of_cons. intros [->|?]; [right; by apply merge_member_view|auto].
  - rewrite !elem_of_cons. intros [->|[?|?]%IH]; auto.
Qed.

Lemma pin_ok_upsert m s : pin_ok s → pin_ok (UpsertMember m s).1.
Proof.
  intros Hs. unfold UpsertMember. destruct (validateAdminPinLocked s [m]) eqn:E; [done|]. simpl. apply pin_ok_rebuild.
  intros pin m' Hpin Hm' Ha. simpl in *. rewrite validate_none in E. specialize (E pin m Hpin ltac:(left)).
  assert (m' ∈ members s ∨ admin_view m' = admin_view m) as [?|[= Hrole Hkey]].
  { case_match; [by apply upsert_rows|]. apply elem_of_app in Hm' as [?|?%list_elem_of_singleton]; [auto|subst; auto]. }
  - by apply (Hs pin).
  - rewrite Hkey. apply E. revert Ha. unfold is_admin. by rewrite Hrole.
Qed.

Definition replaces_pin (o : op) : bool :=
  match o with OpLoad _ _ | OpSetPin _ _ => true | _ => false end.
Definition drops_pin (o : op) : bool :=
  match o with OpLoad _ _ | OpClearPin _ => true | _ => false end.

Lemma pin_ok_apply o s : replaces_pin o = false → pin_ok s → pin_ok (apply_op o s).
Proof.
  intros Ho Hs. destruct o; simpl in *; try done.
  - unfold ReplaceAll. destruct (validateAdminPinLocked s ms) eqn:E; [done|]. by apply validate_members.
  - unfold Reconcile. destruct (validateAdminPinLocked s ms) eqn:E; [done|]. by apply validate_members.
  - by apply pin_ok_upsert.
  - unfold SetAllowedApps. case_match; [|done]. apply (pin_ok_rows s); [done| |done]. by apply rows_update.
  - unfold SetMemberStatus. case_match; [|done]. apply (pin_ok_rows s); [done| |done]. by apply rows_update.
  - unfold AddClient. case_match; [done|].
    assert (rows_from (members s) (map (strip_member id rec) (members s))).
    { apply rows_map. intros m. unfold strip_member. by destruct (has_id id m). }
    case_match; apply (pin_ok_rows s); try done. eapply rows_trans; [done|]. by apply rows_update.
  - unfold RemoveClient. case_match; [|done]. case_match; apply (pin_ok_rows s); try done; by apply rows_update.
  - apply (pin_ok_rows s); [done| |done]. by apply rows_map.
  - apply (pin_ok_rows s); [done| |done]. by apply rows_map.
  - apply (pin_ok_rows s); [done| |done]. apply rows_sub, remove_first_sub.
  - unfold DropMembersFailing. case_match; [done|]. apply (pin_ok_rows s); [done| |done]. apply rows_sub, filter_sub.
Qed.

Lemma pin_stable o s pin : drops_pin o = false → pinnedAdminPubKey s = Some pin →
  pinnedAdminPubKey (apply_op o s) = Some pin.
Proof.
  intros Ho Hs. destruct o; simpl in *; try done.
  - unfold SetPinnedAdminPublicKey. rewrite Hs. by case_match.
  - unfold ReplaceAll. by case_match.
  - unfold Reconcile. by case_match.
  - unfold UpsertMember. by case_match.
  - unfold SetAllowedApps. by case_match.
  - unfold SetMemberStatus. by case_match.
  - unfold AddClient. case_match; [done|]. by case_match.
  - unfold RemoveClient. case_match; [|done]. by case_match.
  - unfold DropMembersFailing. by case_match.
Qed.

(** Once a pin is set and the rows agree with it, no sequence of operations short of a
    reload or an explicit clear changes the pin or lets a row with the admin or owner role
    and another identity key (a blank one included) into the store. *)
Theorem admin_pin_invariant ops s pin :
  pinnedAdminPubKey s = Some pin → pin_ok s → forallb (λ o, negb (drops_pin o)) ops = true →
  let s' := foldl (λ s o, apply_op o s) s ops in
  pinnedAdminPubKey s' = Some pin ∧
  ∀ m, m ∈ members s' → is_admin m = true → m_IdentityKey m = Base64.encode pin.
Proof.
  revert s. induction ops as [|o ops IH]; intros s Hp Hs Ho; simpl in *; [eauto|].
  apply andb_prop in Ho as [Ho Hos]. apply negb_true_iff in Ho. apply IH; [by apply pin_stable| |done].
  destruct (replaces_pin o) eqn:E; [|by apply pin_ok_apply].
  destruct o; try done. unfold apply_op, SetPinnedAdminPublicKey. rewrite Hp. by case_match.
Qed.

(** A wholesale or single-row update that would break the pin is refused with
    ErrAdminPinViolation and leaves the store as it was. *)
Theorem admin_pin_violation_rejected s pin m ms l :
  pinnedAdminPubKey s = Some pin → m ∈ ms → is_admin m = true → m_IdentityKey m ≠ Base64.encode pin →
  ReplaceAll ms s = (s, Some ErrAdminPinViolation) ∧
  Reconcile ms l s = (s, Err ErrAdminPinViolation) ∧
  UpsertMember m s = (s, Some ErrAdminPinViolation).
Proof.
  intros Hp Hm Ha Hk.
  assert (Hv : ∀ ms, m ∈ ms → validateAdminPinLocked s ms = Some ErrAdminPinViolation).
  { intros ms' Hm'. destruct (validateAdminPinLocked s ms') as [e|] eqn:E.
    - unfold validateAdminPinLocked in E. rewrite Hp in E. case_match; congruence.
    - rewrite validate_none in E. by destruct (E pin m Hp Hm' Ha). }
  unfold ReplaceAll, Reconcile, UpsertMember. rewrite !Hv by (done || left). done.
Qed.

(** ** Reconcile *)

Lemma client_keys_spec ms k : k ∈ client_keys ms ↔
  k ≠ "" ∧ ∃ m c, m ∈ ms ∧ c ∈ m_Clients m ∧ c_WGPublicKey c = k.
Proof.
  unfold client_keys. rewrite list_elem_of_In, filter_In, <- list_elem_of_In. rewrite negb_true_iff, seqb_false.
  rewrite (list_elem_of_fmap c_WGPublicKey). split.
  - intros [(c & -> & Hc) Hk]. apply list_elem_of_join in Hc as (l & Hc & (m & -> & Hm)%list_elem_of_fmap). eauto 6.
  - intros (Hk & m & c & Hm & Hc & <-). split; [|done]. exists c. split; [done|]. apply list_elem_of_join.
    exists (m_Clients m). split; [done|]. by apply list_elem_of_fmap_2.
Qed.

Lemma collect_removed_spec next ks seen out :
  (∀ k, k ∈ seen ↔ k ∈ out) → NoDup out →
  let r := foldl (collect_removed next) (seen, out) ks in
  NoDup r.2 ∧ ∀ k, k ∈ r.2 ↔ k ∈ out ∨ k ∈ ks ∧ k ≠ "" ∧ k ∉ next.
Proof.
  revert seen out. induction ks as [|k ks IH]; intros seen out Hs Hn; simpl; [set_solver|].
  destruct (k =s "") eqn:E; str_inv.
  { subst. destruct (IH seen out Hs Hn) as [H1 H2]. split; [done|]. intros k. rewrite H2. set_solver. }
  case_bool_decide as Hk.
  { destruct (IH seen out Hs Hn) as [H1 H2]. split; [done|]. intros k'. rewrite H2. set_solver. }
  case_bool_decide as Hd.
  { destruct (IH seen out Hs Hn) as [H1 H2]. split; [done|]. intros k'. rewrite H2. apply Hs in Hd. set_solver. }
  destruct (IH ({[k]} ∪ seen) (out ++ [k])) as [H1 H2]; [set_solver| |].
  - apply NoDup_app. split; [done|]. split; [|by apply NoDup_singleton].
    intros x Hx ->%list_elem_of_singleton. by apply Hd, Hs.
  - split; [done|]. intros k'. rewrite H2. set_solver.
Qed.

Lemma in_filter_negb {A} (p : A → bool) l x : x ∈ List.filter (λ x, negb (p x)) l ↔ x ∈ l ∧ p x = false.
Proof. rewrite !list_elem_of_In, filter_In, negb_true_iff. done. Qed.

Lemma Reconcile_ok ms l s s' r : Reconcile ms l s = (s', Ok r) →
  validateAdminPinLocked s ms = None ∧ s' = rebuildIndexes (with_apps (with_members s ms) l) ∧
  NoDup (removedClientKeys r) ∧
  ∀ k, k ∈ removedClientKeys r ↔ k ∈ client_keys (members s) ∧ k ∉ client_keys ms.
Proof.
  unfold Reconcile. destruct (validateAdminPinLocked s ms); [done|]. intros [= <- <-]. simpl.
  destruct (collect_removed_spec (list_to_set (client_keys ms))
    (map c_WGPublicKey (mjoin (map m_Clients (members s)))) ∅ []) as [Hn Hk]; [set_solver|constructor|].
  split_and!; [done..|].
  intros k. rewrite Hk. rewrite elem_of_list_to_set. unfold client_keys at 2.
  rewrite (list_elem_of_In (List.filter _ _)), filter_In, <- list_elem_of_In, negb_true_iff, seqb_false. set_solver.
Qed.

(** Reconcile installs exactly the new members and apps, and reports exactly what the
    store held before and no longer holds: members by ID, app IDs, and each non-blank client
    key of any old member (surviving ones included) that no new member has, once. *)
Theorem Reconcile_removals ms l s s' r : Reconcile ms l s = (s', Ok r) →
  members s' = ms ∧ apps s' = l ∧
  NoDup (removedClientKeys r) ∧
  (∀ k, k ∈ removedClientKeys r ↔ k ∈ client_keys (members s) ∧ k ∉ client_keys ms) ∧
  (∀ m, m ∈ removedMembers r ↔ m ∈ members s ∧ m_MemberID m ∉ map m_MemberID ms) ∧
  (∀ id, id ∈ removedAppIDs r ↔ id ∈ map app_ID (apps s) ∧ id ∉ map app_ID l).
Proof.
  intros Hr. destruct (Reconcile_ok _ _ _ _ _ Hr) as (_ & -> & Hn & Hk). split_and!; [done..| |]; revert Hr;
    unfold Reconcile; (destruct (validateAdminPinLocked s ms); [done|]); intros [= <-]; simpl.
  - intros m. rewrite in_filter_negb, bool_decide_eq_false, elem_of_list_to_set. done.
  - intros id. rewrite (list_elem_of_fmap app_ID), (list_elem_of_fmap app_ID _ id). split.
    + intros (a & -> & Ha). rewrite in_filter_negb, bool_decide_eq_false, elem_of_list_to_set in Ha. naive_solver.
    + intros ((a & -> & Ha) & Hid). exists a. split; [done|].
      by rewrite in_filter_negb, bool_decide_eq_false, elem_of_list_to_set.
Qed.

(** ** AddClient *)

Lemma update_first_cases {A} (p : A → bool) f l x : x ∈ update_first p f l → x ∈ l ∨ ∃ y, y ∈ l ∧ p y = true ∧ x = f y.
Proof.
  induction l as [|y l IH]; simpl; [set_solver|]. destruct (p y) eqn:E.
  - rewrite elem_of_cons. intros [->|?]; [right; exists y; split_and!; [left|done|done]|left; by right].
  - rewrite elem_of_cons. intros [->|[?|(z & ? & ? & ->)]%IH]; [left; left|left; by right|].
    right. exists z. split_and!; [by right|done|done].
Qed.

Lemma update_first_hit {A} (p : A → bool) f l : existsb p l = true → ∃ y, y ∈ l ∧ p y = true ∧ f y ∈ update_first p f l.
Proof.
  induction l as [|y l IH]; simpl; [done|]. destruct (p y) eqn:E; simpl.
  - intros _. exists y. split_and!; [left|done|left].
  - intros (z & Hz & Hp & Hf)%IH. exists z. split_and!; [by right|done|by right].
Qed.

Lemma put_client_key rec cs : ∃ c, c ∈ put_client rec cs ∧ c_WGPublicKey c = c_WGPublicKey rec ∧
  (c_TunnelIP rec ≠ "" → c_TunnelIP c = c_TunnelIP rec).
Proof.
  unfold put_client. case_match eqn:E.
  - destruct (update_first_hit _ (refresh_client rec) _ E) as (y & _ & _ & Hy). eexists. split; [exact Hy|].
    split; [done|]. simpl. unfold orElse. intros Hne. apply seqb_false in Hne. by rewrite Hne.
  - exists rec. split; [apply elem_of_app; right; left|done].
Qed.

Lemma AddClient_holds id rec s s' : AddClient id rec s = (s', true) →
  ∃ m c, m ∈ members s' ∧ m_MemberID m = id ∧ c ∈ m_Clients m ∧ c_WGPublicKey c = c_WGPublicKey rec ∧
         (c_TunnelIP rec ≠ "" → c_TunnelIP c = c_TunnelIP rec).
Proof.
  unfold AddClient. destruct (c_WGPublicKey rec =s "") eqn:E0; [done|]. case_match eqn:Ex; [|done]. intros [= <-]. simpl.
  destruct (update_first_hit _ (λ m, set_clients m (put_client rec (m_Clients m))) _ Ex) as (m & _ & Hid & Hm).
  eexists. destruct (put_client_key rec (m_Clients m)) as (c & Hc & Hk). exists c. split; [exact Hm|].
  apply seqb_true in Hid. done.
Qed.

(** After a successful AddClient the member has a client with the key (and with the
    address, when one was given), and no member with another ID has a client with that key
    or that address any more. *)
Theorem AddClient_exclusive id rec s s' : AddClient id rec s = (s', true) →
  (∃ m c, m ∈ members s' ∧ m_MemberID m = id ∧ c ∈ m_Clients m ∧ c_WGPublicKey c = c_WGPublicKey rec ∧
          (c_TunnelIP rec ≠ "" → c_TunnelIP c = c_TunnelIP rec)) ∧
  (∀ m c, m ∈ members s' → m_MemberID m ≠ id → c ∈ m_Clients m →
     c_WGPublicKey c ≠ c_WGPublicKey rec ∧ (c_TunnelIP rec ≠ "" → c_TunnelIP c ≠ c_TunnelIP rec)).
Proof.
  intros Ha. split; [by eapply AddClient_holds|]. revert Ha.
  unfold AddClient. destruct (c_WGPublicKey rec =s "") eqn:E0; [done|]. case_match eqn:Ex; [|done]. intros [= <-]. simpl.
  set (f := λ m, set_clients m (put_client rec (m_Clients m))).
  intros m c Hm Hid Hc. apply update_first_cases in Hm as [Hm|(y & _ & Hy & ->)]; [|by apply seqb_true in Hy].
  apply list_elem_of_fmap in Hm as (m0 & -> & _). unfold strip_member in Hid, Hc.
  destruct (has_id id m0) eqn:E1; [by apply seqb_true in E1|]. simpl in Hc. apply in_filter_negb in Hc as [_ Hc].
  unfold strips in Hc. apply orb_false_elim in Hc as [H1 H2]. apply seqb_false in H1. split; [done|].
  intros Hne Heq. apply seqb_false in Hne. rewrite Hne, Heq, seqb_refl in H2. done.
Qed.

(** ** Raw ports *)

Lemma port_filter_In l (q : App → bool) a : a ∈ l → open_port a = true → q a = true →
  app_Port a ∈ map app_Port (List.filter (λ a, open_port a && q a) l).
Proof.
  intros Ha Ho Hq. apply list_elem_of_fmap_2. apply list_elem_of_In, filter_In.
  split; [by apply list_elem_of_In|]. by rewrite Ho, Hq.
Qed.

(** A port app the redirect gate allows to an address, with a port in range and a known
    protocol, is open to the holder's client in the grants the firewall is built from. *)
Theorem PortGrants_cover s ip slug a : reachable s → IsPortAppAllowed ip slug s = Some a →
  (1 <= app_Port a <= 65535)%Z → is_tcp a || is_udp a = true →
  ∃ m c, m ∈ members s ∧ c ∈ m_Clients m ∧ holds_ip ip c = true ∧
    (c_TunnelIP c ≠ "" → ∃ g, g ∈ PortGrants s ∧ g_TunnelIP g = c_TunnelIP c ∧ g_TunnelIPv6 g = c_TunnelIPv6 c ∧
       (if is_tcp a then app_Port a ∈ g_TCP g else app_Port a ∈ g_UDP g)).
Proof.
  intros Hr%reachable_fresh Ha Hport Hproto. unfold IsPortAppAllowed in Ha. apply bind_Some in Ha as (m & Hm & Ha).
  apply lookup_tunnel_fresh in Hm as (Hip & i & Hi & Hh & _); [|done].
  destruct (suspended m) eqn:Es; [done|]. apply find_spec in Ha as [Ha Hp].
  unfold holds in Hh. apply existsb_exists in Hh as (c & Hc & Hci). apply list_elem_of_In in Hc.
  exists m, c. split; [by eapply list_elem_of_lookup_2|]. split_and!; [done..|]. intros Hne.
  assert (Ho : open_port a = true).
  { unfold open_port. apply andb_prop in Hp as [-> _]. simpl. apply negb_true_iff, orb_false_iff.
    rewrite !Z.ltb_ge. lia. }
  exists (MkGrant (c_TunnelIP c) (c_TunnelIPv6 c) (tcp_ports (m_AllowedApps m)) (udp_ports (m_AllowedApps m))).
  assert (Hin : if is_tcp a then app_Port a ∈ tcp_ports (m_AllowedApps m) else app_Port a ∈ udp_ports (m_AllowedApps m)).
  { destruct (is_tcp a) eqn:Et; apply port_filter_In; auto. }
  split_and!; [|done..]. apply list_elem_of_join. exists (member_grants m). split.
  - unfold member_grants. rewrite Es.
    assert (Hc' : MkGrant (c_TunnelIP c) (c_TunnelIPv6 c) (tcp_ports (m_AllowedApps m)) (udp_ports (m_AllowedApps m)) ∈
      map (λ c, MkGrant (c_TunnelIP c) (c_TunnelIPv6 c) (tcp_ports (m_AllowedApps m)) (udp_ports (m_AllowedApps m)))
        (List.filter (λ c, c_TunnelIP c <>s "") (m_Clients m))).
    { apply (list_elem_of_fmap_2' _ _ c); [|done]. apply list_elem_of_In, filter_In.
      split; [by apply list_elem_of_In|]. by apply negb_true_iff, seqb_false. }
    destruct (tcp_ports (m_AllowedApps m)), (udp_ports (m_AllowedApps m)); try done.
    destruct (is_tcp a); set_solver.
  - apply list_elem_of_fmap_2. by eapply list_elem_of_lookup_2.
Qed.

Lemma grant_inv s g : g ∈ PortGrants s → ∃ m c, m ∈ members s ∧ c ∈ m_Clients m ∧ suspended m = false ∧
  g = MkGrant (c_TunnelIP c) (c_TunnelIPv6 c) (tcp_ports (m_AllowedApps m)) (udp_ports (m_AllowedApps m)) ∧
  c_TunnelIP c ≠ "".
Proof.
  unfold PortGrants. intros (l & Hg & (m & -> & Hm)%list_elem_of_fmap)%list_elem_of_join.
  unfold member_grants in Hg. destruct (suspended m) eqn:Es; [set_solver|].
  assert (∃ c, c ∈ List.filter (λ c, c_TunnelIP c <>s "") (m_Clients m) ∧
    g = MkGrant (c_TunnelIP c) (c_TunnelIPv6 c) (tcp_ports (m_AllowedApps m)) (udp_ports (m_AllowedApps m))) as (c & Hc & ->).
  { destruct (tcp_ports _), (udp_ports _); [set_solver|..];
      apply list_elem_of_fmap in Hg as (c & -> & Hc); eauto. }
  rewrite list_elem_of_In, filter_In, <- list_elem_of_In, negb_true_iff, seqb_false in Hc. naive_solver.
Qed.

Lemma port_filter_inv l (q : App → bool) p : p ∈ map app_Port (List.filter (λ a, open_port a && q a) l) →
  ∃ a, a ∈ l ∧ app_Port a = p ∧ IsPort a = true ∧ q a = true ∧ (1 <= p <= 65535)%Z.
Proof.
  intros (a & -> & Ha)%list_elem_of_fmap. rewrite list_elem_of_In, filter_In, <- list_elem_of_In in Ha.
  destruct Ha as [Ha Hb]. unfold open_port in Hb. rewrite !andb_true_iff, negb_true_iff, orb_false_iff, !Z.ltb_ge in Hb.
  exists a. intuition lia.
Qed.

(** Every raw port a grant opens is one that a port app allowed to an active member names,
    with the matching protocol, and lies in 1..65535; the grant carries a non-empty address of
    that member's client. *)
Theorem PortGrants_sound s g : g ∈ PortGrants s → ∃ m c,
  m ∈ members s ∧ active m ∧ c ∈ m_Clients m ∧ g_TunnelIP g = c_TunnelIP c ∧ g_TunnelIP g ≠ "" ∧
  g_TunnelIPv6 g = c_TunnelIPv6 c ∧
  (∀ p, p ∈ g_TCP g → ∃ a, a ∈ m_AllowedApps m ∧ app_Port a = p ∧ IsPort a = true ∧ is_tcp a = true ∧ (1 <= p <= 65535)%Z) ∧
  (∀ p, p ∈ g_UDP g → ∃ a, a ∈ m_AllowedApps m ∧ app_Port a = p ∧ IsPort a = true ∧ is_udp a = true ∧ (1 <= p <= 65535)%Z).
Proof.
  intros (m & c & Hm & Hc & Hs & -> & Hne)%grant_inv. exists m, c. apply suspended_false in Hs.
  split_and!; try done; intros p Hp; by apply port_filter_inv.
Qed.

(** ** Revocation *)

Lemma denied s ip slug : (∀ m, LookupByTunnelIP ip s = Some m → suspended m = true) →
  IsAppAllowed ip slug s = None ∧ IsPortAppAllowed ip slug s = None.
Proof.
  intros Hm. unfold IsAppAllowed, IsPortAppAllowed. destruct (LookupByTunnelIP ip s) as [m|]; [|done]. simpl.
  by rewrite Hm.
Qed.

Lemma remove_first_other id ms m : NoDup (map m_MemberID ms) → m ∈ remove_first (has_id id) ms → m_MemberID m ≠ id.
Proof.
  induction ms as [|x ms IH]; simpl; [set_solver|]. intros [Hx Hn]%NoDup_cons.
  destruct (has_id id x) eqn:E.
  - apply seqb_true in E as <-. intros Hm Heq. apply Hx. rewrite <- Heq. by apply list_elem_of_fmap_2.
  - apply seqb_false in E. rewrite elem_of_cons. intros [->|?]; [done|by apply IH].
Qed.

Lemma update_first_id_spec id f ms m : NoDup (map m_MemberID ms) → (∀ x, m_MemberID (f x) = m_MemberID x) →
  m ∈ update_first (has_id id) f ms → m_MemberID m = id → ∃ y, m = f y.
Proof.
  intros Hn Hf. induction ms as [|x ms IH]; simpl in *; [set_solver|]. apply NoDup_cons in Hn as [Hx Hn].
  destruct (has_id id x) eqn:E; rewrite elem_of_cons; intros [->|Hm] Hid.
  - eauto.
  - apply seqb_true in E. destruct Hx. rewrite E, <- Hid. by apply list_elem_of_fmap_2.
  - by apply seqb_false in E.
  - by apply IH.
Qed.

Lemma lookup_tunnel_elem s ip m : fresh s → LookupByTunnelIP ip s = Some m → m ∈ members s ∧ holds ip m = true.
Proof.
  intros Hs (_ & i & Hi & Hh & _)%lookup_tunnel_fresh; [|done]. split; [by eapply list_elem_of_lookup_2|done].
Qed.

(** Removing a member, or setting its status to anything but active, at once closes the
    proxy and every raw port to each address only that member's clients hold. *)
Theorem revocation_immediate s id status ip slug : reachable s →
  NoDup (map m_MemberID (members s)) →
  (∀ m, m ∈ members s → holds ip m = true → m_MemberID m = id) →
  status ≠ "" → status ≠ "active" →
  let removed := RemoveMember id s in
  let stopped := (SetMemberStatus id status s).1 in
  (IsAppAllowed ip slug removed = None ∧ IsPortAppAllowed ip slug removed = None) ∧
  (IsAppAllowed ip slug stopped = None ∧ IsPortAppAllowed ip slug stopped = None).
Proof.
  intros Hr%reachable_fresh Hn Hip Hs1 Hs2. cbn zeta. split; apply denied; intros m Hm.
  - apply lookup_tunnel_elem in Hm as [Hm Hh]; [|done]. simpl in Hm.
    destruct (remove_first_other id (members s) m Hn Hm). apply Hip; [|done]. by apply remove_first_sub in Hm.
  - apply lookup_tunnel_elem in Hm as [Hm Hh]; [|by apply (fresh_apply (OpSetMemberStatus id status))].
    unfold SetMemberStatus in Hm. destruct (List.find (has_id id) (members s)) as [m0|] eqn:E; simpl in Hm.
    + assert (m_MemberID m = id) as Hid.
      { destruct (update_first_cases _ _ _ _ Hm) as [?|(y & Hy & Hyid & ->)]; [by apply Hip|by apply seqb_true in Hyid]. }
      apply update_first_id_spec in Hm as [y ->]; [|done..]. unfold suspended. simpl.
      apply seqb_false in Hs1, Hs2. by rewrite Hs1, Hs2.
    + assert (has_id id m = false) as Hf%seqb_false by by eapply find_none_all. by rewrite Hip in Hf.
Qed.

(** ** Runs *)

Definition run (ops : list op) (s : Store) : option Store :=
  foldl (λ r o, s ← r; if op_ok o s then Some (apply_op o s) else None) (Some s) ops.

Lemma run_snoc ops o s : run (ops ++ [o]) s = (s' ← run ops s; if op_ok o s' then Some (apply_op o s') else None).
Proof. unfold run. by rewrite foldl_app. Qed.

Lemma run_reachable ops s : run ops NewStore = Some s → reachable s.
Proof.
  revert s. induction ops as [|o ops IH] using rev_ind; intros s.
  - intros [= <-]. by constructor.
  - rewrite run_snoc. intros (s' & Hs' & Hs)%bind_Some. destruct (op_ok o s') eqn:E; [|done]. injection Hs as <-.
    eapply rtc_r; [by apply IH|by constructor].
Qed.
End Facts.

(** ** Concrete runs *)

Module Demo.
#[local] Instance ascii_only : Unicode := {| lower_runes := smap ascii_lower |}.

Definition pin : string := "0123456789abcdef0123456789abcdef".
Definition photos : App := MkApp "a1" "Photos" "" "http://127.0.0.1:2342" "" "" 0 "".
Definition ssh : App := MkApp "a2" "SSH box" "" "" "" "port" 22 "tcp".
Definition phone : ClientRecord := MkClient "K1" "10.0.0.2" "" "phone" "ios" "".
Definition laptop : ClientRecord := MkClient "K2" "10.0.0.3" "" "" "" "".
Definition owner : MemberACLEntry :=
  MkMember "o" "u0" "Owner" "o@x" "owner" (Base64.encode pin) None None None [laptop] [] "active".
Definition alice : MemberACLEntry :=
  MkMember "a" "u1" "Alice" "Alice@X" "member" "k" None None None [phone] [photos; ssh] "".

Definition store : Store :=
  default NewStore (run [OpSetPin true pin; OpUpsertMember owner; OpReconcile [owner; alice] [photos; ssh];
                         OpAddClient "a" phone] NewStore).

Lemma store_reachable : reachable store.
Proof.
  apply (run_reachable [OpSetPin true pin; OpUpsertMember owner; OpReconcile [owner; alice] [photos; ssh];
                         OpAddClient "a" phone]).
  vm_compute. reflexivity.
Defined.

Lemma reachable_indexes_fresh_witness :
  byTunnelIP store = tunnel_index (members store) ∧
  byMemberID store = member_index (members store) ∧ byEmailFull store = email_index (members store).
Proof. apply reachable_indexes_fresh, store_reachable. Defined.


Lemma store_members : members store = [owner; alice].
Proof. vm_compute. reflexivity. Qed.

Lemma IsAppAllowed_complete_witness : is_Some (IsAppAllowed "10.0.0.2" "photos" store) ↔
  active alice ∧ ∃ a, entitled store alice a ∧ IsPort a = false ∧ EffectiveSlug a = "photos".
Proof.
  apply IsAppAllowed_complete; [exact store_reachable|intros E; discriminate E|].
  exists 1. rewrite store_members. split; [reflexivity|]. split; [reflexivity|].
  intros [|[|j]] m Hm Hh; simpl in Hm; [|reflexivity|discriminate Hm].
  injection Hm as <-. vm_compute in Hh. discriminate Hh.
Defined.

Lemma admin_pin_invariant_witness :
  let s' := foldl (λ s o, apply_op o s) store [OpRemoveMember "a"; OpUpsertMember alice] in
  pinnedAdminPubKey s' = Some pin ∧
  ∀ m, m ∈ members s' → is_admin m = true → m_IdentityKey m = Base64.encode pin.
Proof.
  apply admin_pin_invariant; [vm_compute; reflexivity| |vm_compute; reflexivity].
  intros p m Hp Hm Ha. assert (p = pin) as -> by (vm_compute in Hp; injection Hp as <-; reflexivity).
  rewrite store_members, !elem_of_cons in Hm. destruct Hm as [->|[->|Hm]].
  - reflexivity.
  - vm_compute in Ha. discriminate Ha.
  - by apply not_elem_of_nil in Hm.
Defined.

Definition mallory : MemberACLEntry :=
  MkMember "x" "u2" "Mallory" "" "admin" "" None None None [] [] "".

Lemma admin_pin_violation_rejected_witness :
  ReplaceAll [mallory] store = (store, Some ErrAdminPinViolation) ∧
  Reconcile [mallory] [] store = (store, Err ErrAdminPinViolation) ∧
  UpsertMember mallory store = (store, Some ErrAdminPinViolation).
Proof.
  apply (admin_pin_violation_rejected store pin mallory [mallory] []);
    [vm_compute; reflexivity|left|reflexivity|vm_compute; discriminate].
Defined.

Definition reconciled : Store * result acl_error removals := Reconcile [owner] [ssh] store.

Lemma Reconcile_removals_witness :
  let s' := reconciled.1 in let r := MkRemovals [alice] ["K1"] ["a1"] in
  members s' = [owner] ∧ apps s' = [ssh] ∧ NoDup (removedClientKeys r) ∧
  (∀ k, k ∈ removedClientKeys r ↔ k ∈ client_keys (members store) ∧ k ∉ client_keys [owner]) ∧
  (∀ m, m ∈ removedMembers r ↔ m ∈ members store ∧ m_MemberID m ∉ map m_MemberID [owner]) ∧
  (∀ id, id ∈ removedAppIDs r ↔ id ∈ map app_ID (apps store) ∧ id ∉ map app_ID [ssh]).
Proof. cbv zeta. apply Reconcile_removals. vm_compute. reflexivity. Defined.

Definition tablet : ClientRecord := MkClient "K1" "10.0.0.3" "" "tablet" "" "".

Lemma AddClient_exclusive_witness :
  let s' := (AddClient "a" tablet store).1 in
  (∃ m c, m ∈ members s' ∧ m_MemberID m = "a" ∧ c ∈ m_Clients m ∧ c_WGPublicKey c = "K1" ∧
          ("10.0.0.3" ≠ "" → c_TunnelIP c = "10.0.0.3")) ∧
  (∀ m c, m ∈ members s' → m_MemberID m ≠ "a" → c ∈ m_Clients m →
     c_WGPublicKey c ≠ "K1" ∧ ("10.0.0.3" ≠ "" → c_TunnelIP c ≠ "10.0.0.3")).
Proof. cbv zeta. apply (AddClient_exclusive "a" tablet store). vm_compute. reflexivity. Defined.

Lemma PortGrants_cover_witness : ∃ m c, m ∈ members store ∧ c ∈ m_Clients m ∧ holds_ip "10.0.0.2" c = true ∧
    (c_TunnelIP c ≠ "" → ∃ g, g ∈ PortGrants store ∧ g_TunnelIP g = c_TunnelIP c ∧ g_TunnelIPv6 g = c_TunnelIPv6 c ∧
       (if is_tcp ssh then app_Port ssh ∈ g_TCP g else app_Port ssh ∈ g_UDP g)).
Proof.
  apply (PortGrants_cover store "10.0.0.2" "ssh-box" ssh);
    [exact store_reachable|vm_compute; reflexivity|simpl; lia|reflexivity].
Defined.

Lemma PortGrants_sound_witness : ∃ m c,
  let g := MkGrant "10.0.0.2" "" [22%Z] [] in
  m ∈ members store ∧ active m ∧ c ∈ m_Clients m ∧ g_TunnelIP g = c_TunnelIP c ∧ g_TunnelIP g ≠ "" ∧
  g_TunnelIPv6 g = c_TunnelIPv6 c ∧
  (∀ p, p ∈ g_TCP g → ∃ a, a ∈ m_AllowedApps m ∧ app_Port a = p ∧ IsPort a = true ∧ is_tcp a = true ∧ (1 <= p <= 65535)%Z) ∧
  (∀ p, p ∈ g_UDP g → ∃ a, a ∈ m_AllowedApps m ∧ app_Port a = p ∧ IsPort a = true ∧ is_udp a = true ∧ (1 <= p <= 65535)%Z).
Proof.
  apply PortGrants_sound. assert (PortGrants store = [MkGrant "10.0.0.2" "" [22%Z] []]) as -> by (vm_compute; reflexivity).
  left.
Defined.

Lemma revocation_immediate_witness :
  let removed := RemoveMember "a" store in
  let stopped := (SetMemberStatus "a" "suspended" store).1 in
  (IsAppAllowed "10.0.0.2" "photos" removed = None ∧ IsPortAppAllowed "10.0.0.2" "photos" removed = None) ∧
  (IsAppAllowed "10.0.0.2" "photos" stopped = None ∧ IsPortAppAllowed "10.0.0.2" "photos" stopped = None).
Proof.
  apply revocation_immediate; [exact store_reachable| | |discriminate|discriminate].
  - rewrite store_members. repeat constructor; set_solver.
  - rewrite store_members. intros m Hm Hh. rewrite !elem_of_cons in Hm. destruct Hm as [->|[->|Hm]].
    + vm_compute in Hh. discriminate Hh.
    + reflexivity.
    + by apply not_elem_of_nil in Hm.
Defined.

(** AddClient for an unknown member returns false after it has already stripped the key from
    its real owner, and leaves byTunnelIP as it was: the address still passes the gate for a
    member that has no such client any more. *)
Lemma AddClient_unknown_member_stale :
  let s' := (AddClient "nobody" (MkClient "K1" "" "" "" "" "") store).1 in
  (AddClient "nobody" (MkClient "K1" "" "" "" "" "") store).2 = false ∧
  map m_Clients (members s') = [[laptop]; []] ∧
  IsAppAllowed "10.0.0.2" "photos" s' = Some photos.
Proof. vm_compute. auto. Qed.

(** The address is kept unique across members only: two clients of one member may share it. *)
Lemma AddClient_same_member_address_shared :
  map m_Clients (members (AddClient "a" (MkClient "K9" "10.0.0.2" "" "" "" "") store).1) =
  [[laptop]; [phone; MkClient "K9" "10.0.0.2" "" "" "" ""]].
Proof. vm_compute. reflexivity. Qed.
End Demo.
