(* ===== verification/Envelope.v ===== *)
(** * internal/tunnel: signed envelopes and certificates

    verify.go (command envelopes), attestation.go (the join chain), admittance.go and
    iplease.go (certificates the agent signs for itself), pair_approval.go (the pairing
    blob). A payload that arrived as a json.RawMessage is its parsed value, and
    canonicalising it is the canonical writer on that value. Timestamps are int64 and the
    skew is computed at that width. *)

From S2P Require Import Prelude TimeText Encoding Json CanonJson Crypto Atreolink AclStore.

Inductive env_error :=
| ErrUnsigned | ErrUnknownSigner | ErrSignerKey | ErrSigEncoding | ErrCanonicalize | ErrInvalidSignature
| ErrNotAdmin | ErrSignerMismatch | ErrIntentMismatch | ErrStaleTimestamp.

(** canonjson.MarshalRaw on the bytes of a RawMessage. *)
Definition canon_payload (p : option json) : result env_error string :=
  match p with
  | None => Err ErrCanonicalize
  | Some j => map_err (λ _, ErrCanonicalize) (writeValue (to_any j))
  end.

(** int64 arithmetic. *)
Definition wrap64 (z : Z) : Z := (z + 2 ^ 63) mod 2 ^ 64 - 2 ^ 63.
Definition int64 (z : Z) : Prop := (- 2 ^ 63 <= z < 2 ^ 63)%Z.

Section Envelopes.
Context `{Unicode} `{Primitives}.

Definition VerifyEnvelope (msg : TunnelMessage) (lookup : string → option string) : result env_error unit :=
  check! guard_err (negb ((t_SignerID msg =s "") || (t_Signature msg =s ""))) ErrUnsigned in
  let! pubB64 := of_option ErrUnknownSigner (lookup (t_SignerID msg)) in
  check! guard_err (pubB64 <>s "") ErrUnknownSigner in
  let! pub := of_option ErrSignerKey (Base64.decode pubB64) in
  check! guard_err (slen pub =? 32)%nat ErrSignerKey in
  let! sig := of_option ErrSigEncoding (Base64.decode (t_Signature msg)) in
  let! canon := canon_payload (t_Payload msg) in
  guard_err (ed25519_verify pub canon sig) ErrInvalidSignature.

Definition verifySignatureAgainst (msg : TunnelMessage) (pub : string) : result env_error unit :=
  check! guard_err (negb ((t_SignerID msg =s "") || (t_Signature msg =s ""))) ErrUnsigned in
  let! sig := of_option ErrSigEncoding (Base64.decode (t_Signature msg)) in
  let! canon := canon_payload (t_Payload msg) in
  guard_err (ed25519_verify pub canon sig) ErrInvalidSignature.

Record CommandEnvelopeFields := MkFields { Intent : string; Timestamp : Z }.

Inductive CommandAuth :=
| AdminAuth | MemberAuth (memberID : string) | MemberOrAdminAuth (memberID : string) | AttestedAuth (pubkey : string).

Definition aclLookup (s : Store) (memberID : string) : option string :=
  m_IdentityKey <$> LookupByMemberID memberID s.

Definition requireAdmin (s : Store) (msg : TunnelMessage) : result env_error unit :=
  check! guard_err (t_SignerID msg <>s "") ErrUnsigned in
  let! entry := of_option ErrUnknownSigner (LookupByMemberID (t_SignerID msg) s) in
  check! guard_err (is_admin entry) ErrNotAdmin in
  VerifyEnvelope msg (aclLookup s).

Definition requireMember (s : Store) (msg : TunnelMessage) (memberID : string) : result env_error unit :=
  check! guard_err (t_SignerID msg =s memberID) ErrSignerMismatch in
  VerifyEnvelope msg (aclLookup s).

Definition auth_verify (s : Store) (a : CommandAuth) (msg : TunnelMessage) : result env_error unit :=
  match a with
  | AdminAuth => requireAdmin s msg
  | MemberAuth id => requireMember s msg id
  | MemberOrAdminAuth id => if t_SignerID msg =s id then requireMember s msg id else requireAdmin s msg
  | AttestedAuth pub => verifySignatureAgainst msg pub
  end.

Definition skew_seconds : Z := 120.

(** The freshness test, at the width of int64. *)
Definition fresh_ts (now ts : Z) : bool :=
  let skew := wrap64 (unix now - ts) in
  let skew := if (skew <? 0)%Z then wrap64 (- skew) else skew in
  negb (skew_seconds <? skew)%Z.

Definition verifyCommand (s : Store) (now : Z) (msg : TunnelMessage) (a : CommandAuth)
    (env : CommandEnvelopeFields) (expectedIntent : string) : result env_error unit :=
  check! guard_err (Intent env =s expectedIntent) ErrIntentMismatch in
  check! guard_err (fresh_ts now (Timestamp env)) ErrStaleTimestamp in
  auth_verify s a msg.

Definition verifyAuthorization (s : Store) (msg : TunnelMessage) (a : CommandAuth)
    (env : CommandEnvelopeFields) (expectedIntent : string) : result env_error unit :=
  check! guard_err (Intent env =s expectedIntent) ErrIntentMismatch in
  auth_verify s a msg.

(** ** Join attestations *)

Record invitePayload := MkInvite {
  inv_InviteID : string;
  inv_DeviceID : string;
  inv_NASPubkey : string;
  inv_AllowedAppIDs : list string;
  inv_ExpiresAt : string;
  inv_TokenHash : string;
  inv_InvitePub : string
}.

Definition dec_invite : invitePayload → json → option invitePayload := dec_struct (λ o kvs,
  i ← assign dec_string (inv_InviteID o) "inviteId" kvs; d ← assign dec_string (inv_DeviceID o) "deviceId" kvs;
  n ← assign dec_string (inv_NASPubkey o) "nasPubkey" kvs;
  a ← assign (dec_slice "" dec_string) (inv_AllowedAppIDs o) "allowedAppIds" kvs;
  e ← assign dec_string (inv_ExpiresAt o) "expiresAt" kvs; t ← assign dec_string (inv_TokenHash o) "tokenHash" kvs;
  p ← assign dec_string (inv_InvitePub o) "invitePub" kvs;
  Some (MkInvite i d n a e t p)).
Definition zero_invite : invitePayload := MkInvite "" "" "" [] "" "" "".

Inductive att_error :=
| ErrInviteOwnerSig | ErrInviteAcceptanceSig | ErrInviteMissing | ErrInvitePayload | ErrInviteExpired | ErrNASKeyUnknown.

Definition inviteExpirySkew : Z := 5 * minute.

Definition VerifyJoinAttestation (member : MemberACLEntry) (ownerPub : option string) (expectedNAS : string) (now : Z)
    : result att_error invitePayload :=
  let! att := of_option ErrInviteMissing (m_JoinAttestation member) in
  check! guard_err (negb ((ja_InvitePayload att =s "") || (ja_OwnerSig att =s "") || (ja_AcceptanceSig att =s ""))) ErrInviteMissing in
  let! payloadBytes := of_option ErrInvitePayload (Base64.decode (ja_InvitePayload att)) in
  let! canon := map_err (λ _, ErrInvitePayload) (MarshalRaw payloadBytes) in
  let! ownerSig := of_option ErrInviteOwnerSig (Base64.decode (ja_OwnerSig att)) in
  let! owner := of_option ErrInviteOwnerSig ownerPub in
  check! guard_err (ed25519_verify owner canon ownerSig) ErrInviteOwnerSig in
  let! inv := of_option ErrInvitePayload (unmarshal payloadBytes ≫= dec_invite zero_invite) in
  check! guard_err (inv_InvitePub inv <>s "") ErrInvitePayload in
  check! (if inv_ExpiresAt inv <>s "" then
            let! exp := of_option ErrInvitePayload (parse_rfc3339 (inv_ExpiresAt inv)) in
            guard_err (negb (exp + inviteExpirySkew <? now)%Z) ErrInviteExpired
          else Ok tt) in
  check! guard_err (expectedNAS <>s "") ErrNASKeyUnknown in
  check! guard_err (inv_NASPubkey inv <>s "") ErrInvitePayload in
  check! guard_err (inv_NASPubkey inv =s expectedNAS) ErrInvitePayload in
  let! invitePub := of_option ErrInvitePayload (Base64.decode (inv_InvitePub inv)) in
  check! guard_err (slen invitePub =? 32)%nat ErrInvitePayload in
  let! memberPub := of_option ErrInvitePayload (Base64.decode (m_IdentityKey member)) in
  check! guard_err (slen memberPub =? 32)%nat ErrInvitePayload in
  let! acceptanceSig := of_option ErrInviteAcceptanceSig (Base64.decode (ja_AcceptanceSig att)) in
  check! guard_err (ed25519_verify invitePub memberPub acceptanceSig) ErrInviteAcceptanceSig in
  Ok inv.

(** ** Admittance certificates *)

Inductive adm_error := ErrAdmittanceMalformed | ErrAdmittanceBinding | ErrAdmittanceSig.

Definition cert_body (c : AdmittanceCertificate) : json :=
  JObj [("memberId", JStr (ad_MemberID c)); ("identityKey", JStr (ad_IdentityKey c));
        ("nasPubkey", JStr (ad_NASPubkey c)); ("admittedAt", JNum (itoa (ad_AdmittedAt c)));
        ("attestationHash", JStr (ad_AttestationHash c));
        ("initialAllowedAppIds", JArr (map JStr (ad_InitialAllowedAppIDs c)))].

Definition certSignedBytes (c : AdmittanceCertificate) : result canon_error string := Marshal (cert_body c).

Definition MintAdmittanceCertificate (memberID identityKey nasPubkey attestationBytes : string)
    (apps : list string) (signer : string) (now : Z) : result adm_error AdmittanceCertificate :=
  check! guard_err (negb ((memberID =s "") || (identityKey =s "") || (nasPubkey =s ""))) ErrAdmittanceMalformed in
  check! guard_err (attestationBytes <>s "") ErrAdmittanceMalformed in
  check! guard_err (slen signer =? privateKeySize)%nat ErrAdmittanceMalformed in
  let cert := MkAdmittance memberID identityKey nasPubkey (unix now)
                (Base64.encode (sha256 attestationBytes)) apps "" in
  let! body := map_err (λ _, ErrAdmittanceMalformed) (certSignedBytes cert) in
  Ok (MkAdmittance memberID identityKey nasPubkey (unix now)
        (Base64.encode (sha256 attestationBytes)) apps (Base64.encode (ed25519_sign signer body))).

Definition VerifyAdmittanceCertificate (cert : option AdmittanceCertificate)
    (memberID identityKey nasPubkey : string) (nasPub : option string) : result adm_error unit :=
  let! c := of_option ErrAdmittanceMalformed cert in
  check! guard_err (ad_MemberID c =s memberID) ErrAdmittanceBinding in
  check! guard_err (ad_IdentityKey c =s identityKey) ErrAdmittanceBinding in
  check! guard_err (ad_NASPubkey c =s nasPubkey) ErrAdmittanceBinding in
  check! guard_err (ad_Signature c <>s "") ErrAdmittanceSig in
  let! sig := of_option ErrAdmittanceSig (Base64.decode (ad_Signature c)) in
  let! body := map_err (λ _, ErrAdmittanceMalformed) (certSignedBytes c) in
  let! pub := of_option ErrAdmittanceSig nasPub in
  guard_err (ed25519_verify pub body sig) ErrAdmittanceSig.

(** The outbound announcement. *)
Definition admit_body (deviceID : string) (c : AdmittanceCertificate) (ts : Z) : json :=
  let intent := "member:admittance-" +:+ deviceID +:+ "-" +:+ ad_MemberID c +:+ "-" +:+ itoa (ad_AdmittedAt c) in
  JObj [("cert", JObj [("memberId", JStr (ad_MemberID c)); ("identityKey", JStr (ad_IdentityKey c));
           ("nasPubkey", JStr (ad_NASPubkey c)); ("admittedAt", JNum (itoa (ad_AdmittedAt c)));
           ("attestationHash", JStr (ad_AttestationHash c));
           ("initialAllowedAppIds", JArr (map JStr (ad_InitialAllowedAppIDs c)));
           ("signature", JStr (ad_Signature c))]);
        ("intent", JStr intent); ("ts", JNum (itoa ts))].

Definition BuildAdmittanceMessage (deviceID : string) (cert : option AdmittanceCertificate) (signer : string) (now : Z)
    : result adm_error (TunnelMessage * string) :=
  let! c := of_option ErrAdmittanceMalformed cert in
  let payload := admit_body deviceID c (unix now) in
  let! canon := map_err (λ _, ErrAdmittanceMalformed) (Marshal payload) in
  Ok (MkMessage "member:admittance" "" (Some payload) deviceID (Base64.encode (ed25519_sign signer canon)), canon).

(** ** Tunnel-address leases *)

Inductive lease_error := ErrIPLeaseMalformed | ErrIPLeaseBinding | ErrIPLeaseSig.

Definition lease_body (deviceID wgPublicKey tunnelIP : string) : json :=
  JObj [("deviceId", JStr deviceID); ("wgPublicKey", JStr wgPublicKey); ("tunnelIp", JStr tunnelIP)].

Definition leaseSignedBytes (deviceID wgPublicKey tunnelIP : string) : result canon_error string :=
  Marshal (lease_body deviceID wgPublicKey tunnelIP).

Definition MintTunnelIPLease (deviceID wgPublicKey tunnelIP signer : string) : result lease_error TunnelIPLease :=
  check! guard_err (negb ((deviceID =s "") || (wgPublicKey =s "") || (tunnelIP =s ""))) ErrIPLeaseMalformed in
  check! guard_err (slen signer =? privateKeySize)%nat ErrIPLeaseMalformed in
  let! body := map_err (λ _, ErrIPLeaseMalformed) (leaseSignedBytes deviceID wgPublicKey tunnelIP) in
  Ok (MkLease deviceID wgPublicKey tunnelIP (Base64.encode (ed25519_sign signer body))).

Definition VerifyTunnelIPLease (lease : option TunnelIPLease) (deviceID wgPublicKey : string) (nasPub : option string)
    : result lease_error unit :=
  let! l := of_option ErrIPLeaseMalformed lease in
  check! guard_err (l_DeviceID l =s deviceID) ErrIPLeaseBinding in
  check! guard_err (l_WGPublicKey l =s wgPublicKey) ErrIPLeaseBinding in
  check! guard_err (l_TunnelIP l <>s "") ErrIPLeaseMalformed in
  check! guard_err (l_NASSignature l <>s "") ErrIPLeaseSig in
  let! sig := of_option ErrIPLeaseSig (Base64.decode (l_NASSignature l)) in
  let! body := map_err (λ _, ErrIPLeaseMalformed) (leaseSignedBytes (l_DeviceID l) (l_WGPublicKey l) (l_TunnelIP l)) in
  let! pub := of_option ErrIPLeaseSig nasPub in
  guard_err (ed25519_verify pub body sig) ErrIPLeaseSig.

(** ** Pairing approval *)

Record PairApprovalBlob := MkBlob { b_Nonce : string; b_Ciphertext : string }.

Record approvalInner := MkInner {
  in_PairSessionID : string;
  in_OwnerIdentityPubkey : string;
  in_ApprovedAt : string;
  in_NASPubkey : string;
  in_NASAttestationSig : string
}.

Definition dec_inner : approvalInner → json → option approvalInner := dec_struct (λ o kvs,
  s ← assign dec_string (in_PairSessionID o) "pairSessionId" kvs;
  p ← assign dec_string (in_OwnerIdentityPubkey o) "ownerIdentityPubkey" kvs;
  a ← assign dec_string (in_ApprovedAt o) "approvedAt" kvs; n ← assign dec_string (in_NASPubkey o) "nasPubkey" kvs;
  g ← assign dec_string (in_NASAttestationSig o) "nasAttestationSig" kvs;
  Some (MkInner s p a n g)).

Inductive pair_error :=
| ErrPairToken | ErrPairNonce | ErrPairCiphertext | ErrPairNonceSize | ErrPairDecrypt | ErrPairShort | ErrPairCanon
| ErrPairInner | ErrPairOwnerKey | ErrPairSession | ErrPairSig | ErrPairNASKeyUnknown | ErrPairNASMismatch | ErrPairNASAttestation.

Definition DecodePairApprovalBlob (blob : PairApprovalBlob) (pairToken sessionID expectedNAS : string)
    : result pair_error (string * string * string) :=
  check! guard_err (pairToken <>s "") ErrPairToken in
  let! nonce := of_option ErrPairNonce (Base64.decode (b_Nonce blob)) in
  let! ct := of_option ErrPairCiphertext (Base64.decode (b_Ciphertext blob)) in
  check! guard_err (slen nonce =? 12)%nat ErrPairNonceSize in
  let! plain := of_option ErrPairDecrypt (aes_gcm_open (hkdf32 pairToken "atreos-pair-v1") nonce ct) in
  check! guard_err (signatureSize <? slen plain)%nat ErrPairShort in
  let innerJSON := stake (slen plain - signatureSize) plain in
  let ownerSelfSig := sdrop (slen plain - signatureSize) plain in
  let! canon := map_err (λ _, ErrPairCanon) (MarshalRaw innerJSON) in
  let! inner := of_option ErrPairInner (unmarshal innerJSON ≫= dec_inner (MkInner "" "" "" "" "")) in
  check! guard_err (in_OwnerIdentityPubkey inner <>s "") ErrPairOwnerKey in
  let! pub := of_option ErrPairOwnerKey (Base64.decode (in_OwnerIdentityPubkey inner)) in
  check! guard_err (slen pub =? 32)%nat ErrPairOwnerKey in
  check! guard_err (negb ((sessionID <>s "") && (in_PairSessionID inner <>s "") &&
                          (in_PairSessionID inner <>s sessionID))) ErrPairSession in
  check! guard_err (ed25519_verify pub canon ownerSelfSig) ErrPairSig in
  check! guard_err (expectedNAS <>s "") ErrPairNASKeyUnknown in
  check! guard_err (in_NASPubkey inner <>s "") ErrPairNASMismatch in
  check! guard_err (in_NASPubkey inner =s expectedNAS) ErrPairNASMismatch in
  check! guard_err (in_NASAttestationSig inner <>s "") ErrPairNASAttestation in
  let! attCanon := map_err (λ _, ErrPairCanon) (Marshal (JObj [("nasPubkey", JStr (in_NASPubkey inner))])) in
  let! attSig := of_option ErrPairNASAttestation (Base64.decode (in_NASAttestationSig inner)) in
  check! guard_err (ed25519_verify pub attCanon attSig) ErrPairNASAttestation in
  Ok (pub, canon, in_ApprovedAt inner).

End Envelopes.

Definition decodeEd25519 (b64 : string) : option string :=
  raw ← Base64.decode b64; if (slen raw =? 32)%nat then Some raw else None.

Lemma Ok_inj {E A} (a b : A) : @Ok E A a = Ok b → a = b.
Proof. by intros [= ->]. Qed.

(** ** Freshness *)

Lemma wrap64_id z : int64 z → wrap64 z = z.
Proof. unfold int64, wrap64. intros Hz. rewrite Z.mod_small by lia. lia. Qed.

(** For a timestamp less than half the int64 range away, the freshness test accepts exactly
    the timestamps within 120 seconds of the clock, on either side. *)
Theorem fresh_ts_window now ts : int64 (unix now - ts) → (unix now - ts ≠ - 2 ^ 63)%Z →
  fresh_ts now ts = true ↔ (Z.abs (unix now - ts) <= 120)%Z.
Proof.
  intros Hi Hm. unfold fresh_ts, skew_seconds. rewrite (wrap64_id _ Hi). unfold int64 in Hi.
  destruct (Z.ltb_spec (unix now - ts) 0); [rewrite wrap64_id by (unfold int64; lia)|];
    rewrite negb_true_iff, Z.ltb_ge; lia.
Qed.

Lemma fresh_ts_window_witness : fresh_ts (1000 * second) 900 = true ↔ (Z.abs (unix (1000 * second) - 900) <= 120)%Z.
Proof. apply fresh_ts_window; [unfold int64; vm_compute; split; [intros E; discriminate E|reflexivity]|vm_compute; discriminate]. Defined.

(** At the one timestamp whose distance is not representable the absolute value stays negative
    and the test passes: the signer can make an envelope that is fresh 2^63 seconds away. *)
Lemma fresh_ts_overflow : fresh_ts (1000 * second) (1000 - 2 ^ 63) = true ∧ int64 (1000 - 2 ^ 63).
Proof. split; [vm_compute; reflexivity|unfold int64; lia]. Qed.

(** ** Command envelopes *)

Section Facts.
Context `{Unicode} `{P : Primitives}.

(** What an accepted envelope proves about [pub]. *)
Definition signed_by (pub : string) (msg : TunnelMessage) : Prop :=
  t_SignerID msg ≠ "" ∧ ∃ sig canon, Base64.decode (t_Signature msg) = Some sig ∧
    canon_payload (t_Payload msg) = Ok canon ∧ ed25519_verify pub canon sig = true.

Lemma guard_nonempty a b : negb ((a =s "") || (b =s "")) = true ↔ a ≠ "" ∧ b ≠ "".
Proof. rewrite negb_true_iff, orb_false_iff, !seqb_false. done. Qed.

Lemma VerifyEnvelope_ok msg lookup : VerifyEnvelope msg lookup = Ok tt →
  ∃ pubB64 pub, lookup (t_SignerID msg) = Some pubB64 ∧ Base64.decode pubB64 = Some pub ∧ slen pub = 32 ∧
    signed_by pub msg.
Proof.
  unfold VerifyEnvelope. intros Hv. res_inv.
  match goal with E : negb (_ || _) = true |- _ => apply guard_nonempty in E as [Hs1 Hs2] end.
  match goal with E : (slen ?p =? 32) = true |- _ => apply Nat.eqb_eq in E; rename p into pub end.
  match goal with E : lookup _ = Some ?p |- _ => exists p, pub end. unfold signed_by. eauto 10.
Qed.

Lemma verifySignature_ok msg pub : verifySignatureAgainst msg pub = Ok tt → signed_by pub msg.
Proof.
  unfold verifySignatureAgainst. intros Hv. res_inv.
  match goal with E : negb (_ || _) = true |- _ => apply guard_nonempty in E as [Hs1 Hs2] end. unfold signed_by. eauto 6.
Qed.

(** A command that passes as an admin's, in a store whose rows agree with the pin, is signed with
    the pinned key itself. *)
Lemma admin_signed s now msg env intent pin :
  pin_ok s → pinnedAdminPubKey s = Some pin →
  verifyCommand s now msg AdminAuth env intent = Ok tt →
  Intent env = intent ∧ fresh_ts now (Timestamp env) = true ∧ signed_by pin msg.
Proof.
  intros Hp Hpin Hv. unfold verifyCommand, auth_verify, requireAdmin in Hv. res_inv.
  repeat match goal with E : (_ =s _) = true |- _ => apply seqb_true in E end.
  split_and!; [done|done|].
  match goal with E : VerifyEnvelope _ _ = _ |- _ => apply VerifyEnvelope_ok in E as (b64 & pub & Hl & Hd & _ & Hs) end.
  match goal with E : LookupByMemberID _ _ = Some ?e |- _ => rename E into Hm; rename e into entry end.
  unfold aclLookup in Hl. rewrite Hm in Hl. injection Hl as <-.
  assert (m_IdentityKey entry = Base64.encode pin) as E.
  { apply (Hp pin entry); [done| |done]. unfold LookupByMemberID in Hm. apply bind_Some in Hm as (i & _ & Hi).
    by eapply list_elem_of_lookup_2. }
  rewrite E, Base64.decode_encode in Hd. by injection Hd as ->.
Qed.

(** A member's own command verifies only with that member as the signer and under the key
    the store holds for the member, never one the message brings. *)
Theorem member_command_bound s now msg env intent memberID :
  verifyCommand s now msg (MemberAuth memberID) env intent = Ok tt →
  Intent env = intent ∧ fresh_ts now (Timestamp env) = true ∧ t_SignerID msg = memberID ∧
  ∃ m pub, LookupByMemberID memberID s = Some m ∧ Base64.decode (m_IdentityKey m) = Some pub ∧ signed_by pub msg.
Proof.
  intros Hv. unfold verifyCommand, auth_verify, requireMember in Hv. res_inv.
  repeat match goal with E : (_ =s _) = true |- _ => apply seqb_true in E end.
  match goal with E : VerifyEnvelope _ _ = _ |- _ => apply VerifyEnvelope_ok in E as (b64 & pub & Hl & Hd & _ & Hs) end.
  split_and!; [done..|]. subst. unfold aclLookup in Hl. apply fmap_Some in Hl as (m & Hm & ->). eauto.
Qed.

(** ** Join attestations *)

(** An accepted join attestation is a chain: the owner's key signed the canonical invite, the
    invite names this server and (if it names a time) has not been expired for more than five
    minutes, and the key inside the invite signed the member's own identity key. *)
Theorem join_attestation_chain member ownerPub nas now inv :
  VerifyJoinAttestation member ownerPub nas now = Ok inv →
  ∃ att owner bytes canon osig ipub mpub asig,
    m_JoinAttestation member = Some att ∧ ownerPub = Some owner ∧
    Base64.decode (ja_InvitePayload att) = Some bytes ∧ MarshalRaw bytes = Ok canon ∧
    Base64.decode (ja_OwnerSig att) = Some osig ∧ ed25519_verify owner canon osig = true ∧
    unmarshal bytes ≫= dec_invite zero_invite = Some inv ∧ inv_NASPubkey inv = nas ∧ nas ≠ "" ∧
    (inv_ExpiresAt inv ≠ "" → ∃ exp, parse_rfc3339 (inv_ExpiresAt inv) = Some exp ∧ (now <= exp + inviteExpirySkew)%Z) ∧
    Base64.decode (inv_InvitePub inv) = Some ipub ∧ Base64.decode (m_IdentityKey member) = Some mpub ∧ slen mpub = 32 ∧
    Base64.decode (ja_AcceptanceSig att) = Some asig ∧ ed25519_verify ipub mpub asig = true.
Proof.
  unfold VerifyJoinAttestation. intros Hv. res_inv.
  repeat match goal with E : (_ =s _) = true |- _ => apply seqb_true in E | E : (_ =? _)%nat = true |- _ => apply Nat.eqb_eq in E
    | E : negb (_ =s _) = true |- _ => apply negb_true_iff, seqb_false in E end.
  do 8 eexists. split_and!; try eassumption; try done.
  intros Hne. match goal with E : (if _ then _ else _) = Ok _ |- _ => rename E into He end.
  apply seqb_false in Hne. rewrite Hne in He. simpl in He. res_inv.
  eexists. split; [eassumption|]. match goal with E : negb (_ <? _)%Z = true |- _ => apply negb_true_iff, Z.ltb_ge in E; lia end.
Qed.

(** ** Certificates and leases the agent issues to itself *)

Lemma flat_decoded kvs : NoDup (map fst kvs) →
  Forall (λ p : string * json, Utf8.valid p.1 = true ∧ distinct p.2 ∧ wf p.2 ∧ (depth p.2 <= 1)%N) kvs →
  decoded (JObj kvs).
Proof.
  intros Hn Hall. split; [|split].
  - apply distinct_obj. split; [done|]. eapply Forall_impl; [exact Hall|]. naive_solver.
  - apply wf_obj. eapply Forall_impl; [exact Hall|]. naive_solver.
  - apply depth_obj. split; [by vm_compute|]. eapply Forall_impl; [exact Hall|].
    intros p (_ & _ & _ & Hd). etrans; [exact Hd|]. by vm_compute.
Qed.

Lemma strings_ok l : Forall (λ s, Utf8.valid s = true) l →
  distinct (JArr (map JStr l)) ∧ wf (JArr (map JStr l)) ∧ (depth (JArr (map JStr l)) <= 1)%N ∧ null_free (JArr (map JStr l)).
Proof.
  intros Hl. split_and!.
  - apply distinct_arr, Forall_fmap. by eapply Forall_impl; [exact Hl|].
  - apply wf_arr, Forall_fmap. by eapply Forall_impl; [exact Hl|].
  - apply depth_arr. split; [done|]. apply Forall_fmap. by eapply Forall_impl; [exact Hl|].
  - apply null_free_arr, Forall_fmap. by eapply Forall_impl; [exact Hl|].
Qed.

(** The strings of a certificate are valid UTF-8, as everything decoded from JSON is. *)
Definition cert_utf8 (c : AdmittanceCertificate) : Prop :=
  Utf8.valid (ad_MemberID c) = true ∧ Utf8.valid (ad_IdentityKey c) = true ∧ Utf8.valid (ad_NASPubkey c) = true ∧
  Utf8.valid (ad_AttestationHash c) = true ∧ Forall (λ s, Utf8.valid s = true) (ad_InitialAllowedAppIDs c).

Lemma cert_decoded c : cert_utf8 c → decoded (cert_body c) ∧ null_free (cert_body c).
Proof.
  intros (H1 & H2 & H3 & H4 & H5). destruct (strings_ok _ H5) as (D & W & Dp & Nf). split.
  - apply flat_decoded.
    + simpl. repeat (constructor; [set_solver|]). constructor.
    + repeat (constructor; [split_and!; (done || apply IntFacts.itoa_valid_num)|]). constructor.
  - apply null_free_obj. repeat (constructor; [done|]). constructor.
Qed.

Lemma signed_text v : decoded v → null_free v → Marshal v = Ok (text Lit.quote (canon v)).
Proof. intros Hd Hn. rewrite Marshal_is_writer by done. apply write_canon; [apply Hd|done]. Qed.

(** Texts of the same bytes are the same value. *)
Lemma Marshal_same v w b : decoded v → null_free v → decoded w → null_free w → Marshal v = Ok b → Marshal w = Ok b → canon v = canon w.
Proof.
  intros Dv Nv Dw Nw. rewrite !signed_text by done. intros [= <-] E. apply Ok_inj in E. by apply text_canon_inj.
Qed.

Lemma lease_decoded d k ip : Utf8.valid d = true → Utf8.valid k = true → Utf8.valid ip = true →
  decoded (lease_body d k ip) ∧ null_free (lease_body d k ip).
Proof.
  intros H1 H2 H3. split.
  - apply flat_decoded.
    + simpl. repeat (constructor; [set_solver|]). constructor.
    + repeat (constructor; [done|]). constructor.
  - apply null_free_obj. repeat (constructor; [done|]). constructor.
Qed.

Lemma sig_text_nonempty `{!SignLaw P} sk m : (Base64.encode (ed25519_sign sk m) <>s "") = true.
Proof.
  apply negb_true_iff, seqb_false, Base64.encode_nonempty. intros E. pose proof (sign_size sk m) as Hs. by rewrite E in Hs.
Qed.

(** The agent accepts the certificates it mints: with non-empty bindings, invite bytes, a
    full-size key and UTF-8 text minting succeeds, and what it returns verifies for that member,
    that identity key and this server under the agent's public key. *)
Theorem admittance_roundtrip `{!SignLaw P} m k nas att ids sk now :
  m ≠ "" → k ≠ "" → nas ≠ "" → att ≠ "" → slen sk = 64 →
  cert_utf8 (MkAdmittance m k nas (unix now) (Base64.encode (sha256 att)) ids "") →
  ∃ c, MintAdmittanceCertificate m k nas att ids sk now = Ok c ∧
       ad_MemberID c = m ∧ ad_IdentityKey c = k ∧ ad_InitialAllowedAppIDs c = ids ∧
       VerifyAdmittanceCertificate (Some c) m k nas (Some (ed25519_public sk)) = Ok tt.
Proof.
  intros Hm Hk Hn Ha Hs Hu. destruct (cert_decoded _ Hu) as [Hd Hf]. pose proof (signed_text _ Hd Hf) as Hb.
  unfold MintAdmittanceCertificate, certSignedBytes. apply seqb_false in Hm, Hk, Hn, Ha.
  rewrite Hm, Hk, Hn, Ha, Hs, Hb. cbn [orb negb guard_err res_bind Nat.eqb privateKeySize map_err].
  eexists. split; [reflexivity|]. split_and!; [done..|].
  unfold VerifyAdmittanceCertificate, certSignedBytes.
  cbn [of_option res_bind ad_MemberID ad_IdentityKey ad_NASPubkey ad_Signature].
  rewrite !seqb_refl, sig_text_nonempty, Base64.decode_encode. cbn [guard_err res_bind of_option].
  change (cert_body (MkAdmittance m k nas (unix now) (Base64.encode (sha256 att)) ids _))
    with (cert_body (MkAdmittance m k nas (unix now) (Base64.encode (sha256 att)) ids "")).
  rewrite Hb. cbn [map_err res_bind]. by rewrite verify_sign.
Qed.

(** Likewise for address leases. *)
Theorem lease_roundtrip `{!SignLaw P} d k ip sk :
  d ≠ "" → k ≠ "" → ip ≠ "" → slen sk = 64 →
  Utf8.valid d = true → Utf8.valid k = true → Utf8.valid ip = true →
  ∃ l, MintTunnelIPLease d k ip sk = Ok l ∧ l_TunnelIP l = ip ∧
       VerifyTunnelIPLease (Some l) d k (Some (ed25519_public sk)) = Ok tt.
Proof.
  intros Hd Hk Hi Hs U1 U2 U3. destruct (lease_decoded d k ip U1 U2 U3) as [Hdec Hf].
  pose proof (signed_text _ Hdec Hf) as Hb. unfold MintTunnelIPLease, leaseSignedBytes.
  apply seqb_false in Hd, Hk, Hi. rewrite Hd, Hk, Hi, Hs, Hb. cbn [orb negb guard_err res_bind Nat.eqb privateKeySize map_err].
  eexists. split; [reflexivity|]. split; [done|]. unfold VerifyTunnelIPLease, leaseSignedBytes.
  cbn [of_option res_bind l_DeviceID l_WGPublicKey l_TunnelIP l_NASSignature].
  rewrite !seqb_refl, Hi, sig_text_nonempty, Base64.decode_encode. cbn [guard_err res_bind of_option negb].
  rewrite Hb. cbn [map_err res_bind]. by rewrite verify_sign.
Qed.

Lemma lease_canon d k ip : canon (lease_body d k ip) =
  JObj [("deviceId", JStr d); ("tunnelIp", JStr ip); ("wgPublicKey", JStr k)].
Proof. reflexivity. Qed.

(** The bytes a lease's signature covers determine the lease: one signature can not serve
    another device, another key or another address. *)
Theorem lease_bytes_injective d k ip d' k' ip' :
  Forall (λ s, Utf8.valid s = true) [d; k; ip; d'; k'; ip'] →
  leaseSignedBytes d k ip = leaseSignedBytes d' k' ip' → d = d' ∧ k = k' ∧ ip = ip'.
Proof.
  intros Hu E. rewrite !Forall_cons in Hu. destruct Hu as (U1 & U2 & U3 & V1 & V2 & V3 & _).
  destruct (lease_decoded d k ip U1 U2 U3) as [D1 F1], (lease_decoded d' k' ip' V1 V2 V3) as [D2 F2].
  unfold leaseSignedBytes in E. rewrite !signed_text in E by done. apply Ok_inj in E.
  apply text_canon_inj in E; [|done..]. rewrite !lease_canon in E. by injection E as -> -> ->.
Qed.

Lemma cert_canon c : canon (cert_body c) =
  JObj [("admittedAt", JNum (itoa (ad_AdmittedAt c))); ("attestationHash", JStr (ad_AttestationHash c));
        ("identityKey", JStr (ad_IdentityKey c));
        ("initialAllowedAppIds", JArr (map canon (map JStr (ad_InitialAllowedAppIDs c))));
        ("memberId", JStr (ad_MemberID c)); ("nasPubkey", JStr (ad_NASPubkey c))].
Proof. reflexivity. Qed.

Lemma map_JStr_inj l l' : map canon (map JStr l) = map canon (map JStr l') → l = l'.
Proof. revert l'. induction l as [|x l IH]; intros [|y l']; simpl; try done. intros [= -> ?]. f_equal. auto. Qed.

Lemma certSignedBytes_text c : cert_utf8 c → certSignedBytes c = Ok (text Lit.quote (canon (cert_body c))).
Proof. intros Hu. destruct (cert_decoded c Hu) as [Hd Hf]. exact (signed_text _ Hd Hf). Qed.

Lemma obj6_inj k1 k2 k3 k4 k5 k6 v1 v2 v3 v4 v5 v6 w1 w2 w3 w4 w5 w6 :
  JObj [(k1, v1); (k2, v2); (k3, v3); (k4, v4); (k5, v5); (k6, v6)] =
  JObj [(k1, w1); (k2, w2); (k3, w3); (k4, w4); (k5, w5); (k6, w6)] →
  v1 = w1 ∧ v2 = w2 ∧ v3 = w3 ∧ v4 = w4 ∧ v5 = w5 ∧ v6 = w6.
Proof. by intros [= -> -> -> -> -> ->]. Qed.

(** The bytes an admittance certificate's signature covers determine every field of it. *)
Theorem cert_bytes_injective c c' : cert_utf8 c → cert_utf8 c' →
  certSignedBytes c = certSignedBytes c' →
  ad_MemberID c = ad_MemberID c' ∧ ad_IdentityKey c = ad_IdentityKey c' ∧ ad_NASPubkey c = ad_NASPubkey c' ∧
  ad_AdmittedAt c = ad_AdmittedAt c' ∧ ad_AttestationHash c = ad_AttestationHash c' ∧
  ad_InitialAllowedAppIDs c = ad_InitialAllowedAppIDs c'.
Proof.
  intros Hu Hu' E. destruct (cert_decoded c Hu) as [D1 F1], (cert_decoded c' Hu') as [D2 F2].
  rewrite !certSignedBytes_text in E by done. apply Ok_inj, text_canon_inj in E; [|done..]. rewrite !cert_canon in E.
  apply obj6_inj in E as (E1 & E2 & E3 & E4 & E5 & E6).
  injection E1 as E1. injection E2 as E2. injection E3 as E3. injection E4 as E4. injection E5 as E5. injection E6 as E6.
  apply itoa_inj in E1. apply map_JStr_inj in E4. done.
Qed.

(** ** Pairing *)

(** An accepted pairing approval was decrypted with the key derived from the pairing token;
    its owner key signed the canonical inner payload and, separately, this server's own key; the
    payload names this server, and names either this pairing session or none. *)
Theorem pair_approval_sound blob token session nas pub canon_bytes at_ :
  DecodePairApprovalBlob blob token session nas = Ok (pub, canon_bytes, at_) →
  ∃ nonce ct plain inner asig abytes,
    aes_gcm_open (hkdf32 token "atreos-pair-v1") nonce ct = Some plain ∧ token ≠ "" ∧
    MarshalRaw (stake (slen plain - 64) plain) = Ok canon_bytes ∧
    ed25519_verify pub canon_bytes (sdrop (slen plain - 64) plain) = true ∧
    unmarshal (stake (slen plain - 64) plain) ≫= dec_inner (MkInner "" "" "" "" "") = Some inner ∧
    Base64.decode (in_OwnerIdentityPubkey inner) = Some pub ∧ slen pub = 32 ∧
    in_NASPubkey inner = nas ∧ nas ≠ "" ∧
    (session ≠ "" → in_PairSessionID inner = session ∨ in_PairSessionID inner = "") ∧
    Marshal (JObj [("nasPubkey", JStr nas)]) = Ok abytes ∧
    Base64.decode (in_NASAttestationSig inner) = Some asig ∧ ed25519_verify pub abytes asig = true.
Proof.
  unfold DecodePairApprovalBlob. intros Hv. res_inv.
  repeat match goal with E : (_ =s _) = true |- _ => apply seqb_true in E | E : (_ =? _)%nat = true |- _ => apply Nat.eqb_eq in E
    | E : negb (_ =s _) = true |- _ => apply negb_true_iff, seqb_false in E
    | E : (_, _) = (_, _) |- _ => injection E as E; subst | E : (_, _, _) = (_, _, _) |- _ => injection E as ? ? ?; subst end.
  do 6 eexists. split_and!; try eassumption; try done; try congruence.
  intros Hs. match goal with E : negb (_ && _ && _) = true |- _ => rename E into He end.
  apply seqb_false in Hs. rewrite Hs in He. cbn [negb andb] in He.
  match type of He with context [?x =s ""] => destruct (x =s "") eqn:E1 end; [right; by apply seqb_true|].
  cbn [negb andb] in He. rewrite negb_involutive in He. left. by apply seqb_true.
Qed.
End Facts.

(** ** Concrete envelopes *)

Module EnvDemo.
#[local] Existing Instance AclStore.Demo.ascii_only.
#[local] Existing Instance Toy.prims.

Definition store : Store := AclStore.Demo.store.
Definition pin : string := AclStore.Demo.pin.

(** [payload] signed with [key] by [signer]. *)
Definition signed (ty signer key : string) (payload : json) : TunnelMessage :=
  MkMessage ty "c1" (Some payload) signer
    (Base64.encode (Toy.tag key (match writeValue (to_any payload) with Ok c => c | Err _ => "" end))).

Definition unpair : TunnelMessage :=
  signed "device:unpaired" "o" pin (JObj [("intent", JStr "unpair-device-d-1000"); ("ts", JNum "1000")]).

Lemma store_pinned : pin_ok store.
Proof.
  intros p m Hp Hm Ha. assert (p = pin) as -> by (vm_compute in Hp; injection Hp as <-; reflexivity).
  unfold store in Hm. rewrite AclStore.Demo.store_members, !elem_of_cons in Hm. destruct Hm as [->|[->|Hm]].
  - reflexivity.
  - vm_compute in Ha. discriminate Ha.
  - destruct (not_elem_of_nil _ Hm).
Qed.

Definition owner_call : TunnelMessage :=
  signed "wg:challenge" "o" pin (JObj [("intent", JStr "wg:challenge-o-1000"); ("ts", JNum "1000")]).

Lemma member_command_bound_witness :
  "wg:challenge-o-1000" = "wg:challenge-o-1000" ∧ fresh_ts (1010 * second) 1000 = true ∧ t_SignerID owner_call = "o" ∧
  ∃ m pub, LookupByMemberID "o" store = Some m ∧ Base64.decode (m_IdentityKey m) = Some pub ∧ signed_by pub owner_call.
Proof.
  apply (member_command_bound store (1010 * second) owner_call (MkFields "wg:challenge-o-1000" 1000) "wg:challenge-o-1000" "o").
  vm_compute. reflexivity.
Defined.

(** An invite for this server, its key signing the member's. *)
Definition invite_key : string := "invite-key-invite-key-invite-key".
Definition member_key : string := "member-key-member-key-member-key".
Definition invite_text : string :=
  sample ("{'allowedAppIds':['a1'],'expiresAt':'2026-01-01T00:00:00Z','invitePub':'" +:+ Base64.encode invite_key +:+
          "','nasPubkey':'NAS'}").
Definition invited : MemberACLEntry :=
  MkMember "a" "u" "Alice" "" "member" (Base64.encode member_key) None
    (Some (MkJoinAttestation (Base64.encode invite_text) (Base64.encode (Toy.tag pin invite_text))
             (Base64.encode (Toy.tag invite_key member_key)))) None [] [] "".
Definition invite : invitePayload :=
  MkInvite "" "" "NAS" ["a1"] "2026-01-01T00:00:00Z" "" (Base64.encode invite_key).

Lemma join_attestation_chain_witness :
  ∃ att owner bytes canon osig ipub mpub asig,
    m_JoinAttestation invited = Some att ∧ Some pin = Some owner ∧
    Base64.decode (ja_InvitePayload att) = Some bytes ∧ MarshalRaw bytes = Ok canon ∧
    Base64.decode (ja_OwnerSig att) = Some osig ∧ ed25519_verify owner canon osig = true ∧
    unmarshal bytes ≫= dec_invite zero_invite = Some invite ∧ inv_NASPubkey invite = "NAS" ∧ "NAS" ≠ "" ∧
    (inv_ExpiresAt invite ≠ "" → ∃ exp, parse_rfc3339 (inv_ExpiresAt invite) = Some exp ∧ (0 <= exp + inviteExpirySkew)%Z) ∧
    Base64.decode (inv_InvitePub invite) = Some ipub ∧ Base64.decode (m_IdentityKey invited) = Some mpub ∧ slen mpub = 32 ∧
    Base64.decode (ja_AcceptanceSig att) = Some asig ∧ ed25519_verify ipub mpub asig = true.
Proof. apply (join_attestation_chain invited (Some pin) "NAS" 0 invite). vm_compute. reflexivity. Defined.

Definition agent_key : string := "agent-private-key-agent-private-key-agent-private-key-agent-priv".

Ltac utf8_cert := unfold cert_utf8; refine (conj _ (conj _ (conj _ (conj _ _))));
  [vm_compute; reflexivity..|repeat (apply Forall_cons; refine (conj _ _); [vm_compute; reflexivity|]); apply Forall_nil; exact I].

Lemma admittance_roundtrip_witness :
  ∃ c, MintAdmittanceCertificate "a" "K" "NAS" "invite" ["a1"] agent_key (7 * second) = Ok c ∧
       ad_MemberID c = "a" ∧ ad_IdentityKey c = "K" ∧ ad_InitialAllowedAppIDs c = ["a1"] ∧
       VerifyAdmittanceCertificate (Some c) "a" "K" "NAS" (Some (ed25519_public agent_key)) = Ok tt.
Proof.
  apply (admittance_roundtrip "a" "K" "NAS" "invite" ["a1"] agent_key (7 * second)); try discriminate; [reflexivity|]. utf8_cert.
Defined.

Lemma lease_roundtrip_witness :
  ∃ l, MintTunnelIPLease "d" "K1" "10.0.0.2" agent_key = Ok l ∧ l_TunnelIP l = "10.0.0.2" ∧
       VerifyTunnelIPLease (Some l) "d" "K1" (Some (ed25519_public agent_key)) = Ok tt.
Proof. apply lease_roundtrip; try discriminate; vm_compute; reflexivity. Defined.

Lemma lease_bytes_injective_witness : "d" = "d" ∧ "K1" = "K1" ∧ "10.0.0.2" = "10.0.0.2".
Proof. apply (lease_bytes_injective "d" "K1" "10.0.0.2" "d" "K1" "10.0.0.2"); [|reflexivity].
  repeat (constructor; [vm_compute; reflexivity|]). constructor.
Defined.

Lemma cert_bytes_injective_witness :
  let c := MkAdmittance "a" "K" "NAS" 7 "h" ["a1"] "s" in let c' := MkAdmittance "a" "K" "NAS" 7 "h" ["a1"] "t" in
  ad_MemberID c = ad_MemberID c' ∧ ad_IdentityKey c = ad_IdentityKey c' ∧ ad_NASPubkey c = ad_NASPubkey c' ∧
  ad_AdmittedAt c = ad_AdmittedAt c' ∧ ad_AttestationHash c = ad_AttestationHash c' ∧
  ad_InitialAllowedAppIDs c = ad_InitialAllowedAppIDs c'.
Proof.
  cbv zeta. apply cert_bytes_injective; [utf8_cert|utf8_cert|unfold certSignedBytes, cert_body; reflexivity].
Defined.

(** An approval whose inner payload leaves the session out: it is accepted for any session. *)
Definition approval_text (session : string) : string :=
  sample ("{'nasAttestationSig':'" +:+
          Base64.encode (Toy.tag pin (sample "{'nasPubkey':'NAS'}")) +:+ "','nasPubkey':'NAS','ownerIdentityPubkey':'" +:+
          Base64.encode pin +:+ "','pairSessionId':'" +:+ session +:+ "'}").
Definition approval (session : string) : PairApprovalBlob :=
  MkBlob (Base64.encode "nonce-nonce-") (Base64.encode (approval_text session +:+ Toy.tag pin (approval_text session))).

Lemma pair_approval_sound_witness :
  ∃ nonce ct plain inner asig abytes,
    aes_gcm_open (hkdf32 "tok" "atreos-pair-v1") nonce ct = Some plain ∧ "tok" ≠ "" ∧
    MarshalRaw (stake (slen plain - 64) plain) = Ok (approval_text "S1") ∧
    ed25519_verify pin (approval_text "S1") (sdrop (slen plain - 64) plain) = true ∧
    unmarshal (stake (slen plain - 64) plain) ≫= dec_inner (MkInner "" "" "" "" "") = Some inner ∧
    Base64.decode (in_OwnerIdentityPubkey inner) = Some pin ∧ slen pin = 32 ∧
    in_NASPubkey inner = "NAS" ∧ "NAS" ≠ "" ∧
    ("S1" ≠ "" → in_PairSessionID inner = "S1" ∨ in_PairSessionID inner = "") ∧
    Marshal (JObj [("nasPubkey", JStr "NAS")]) = Ok abytes ∧
    Base64.decode (in_NASAttestationSig inner) = Some asig ∧ ed25519_verify pin abytes asig = true.
Proof. apply (pair_approval_sound (approval "S1") "tok" "S1" "NAS" pin (approval_text "S1") ""). vm_compute. reflexivity. Defined.

Lemma sessionless_approval_accepted :
  is_ok (DecodePairApprovalBlob (approval "") "tok" "S1" "NAS") = true ∧
  DecodePairApprovalBlob (approval "S0") "tok" "S1" "NAS" = Err ErrPairSession.
Proof. split; vm_compute; reflexivity. Qed.
End EnvDemo.
