(* ===== verification/Handlers.v ===== *)
(** * internal/tunnel/handler.go: the live commands

    [Handlers] holds the components the handlers act on: the WireGuard server, the ACL
    store, the address allocator, the pending nonces, the firewall manager behind the
    reconcile callback, the custom-domain row and the liveness record. A handler takes the
    clock and the random draws it makes as arguments and returns the state after it with
    its reply or its error. url.Parse is a parameter. *)

From S2P Require Import Prelude Encoding Json CanonJson Crypto WgServer Firewall IpAllocator Atreolink AclStore Envelope.

(** url.Parse: the scheme and the host of a URL that parses. *)
Class UrlParser := { url_parse : string → option (string * string) }.

Record nonceEntry := MkNonce {
  n_Nonce : string;
  n_MemberID : string;
  n_ClientKey : string;
  n_CreatedAt : Z
}.

Record livenessState := MkLive {
  bootAt : Z;
  appliedOnce : bool;
  lastPositiveLiveness : Z;
  failClosed : bool
}.

Record CustomDomain := MkDomain {
  cd_ParentZone : string;
  cd_Payload : option json;
  cd_OwnerSig : string;
  cd_VerifiedAt : string
}.

Record Handlers := MkHandlers {
  wg : WgServer.Server;
  wgPublicKey : string;
  acl : AclStore.Store;
  keys : KeyManager;
  alloc : IPAllocator;
  deviceID : string;
  tunnelHost : string;
  nonces : gmap string nonceEntry;
  notify : option (string * Z);                 (* API key and port, when configured *)
  fw : option Firewall.Manager;                 (* behind firewallReconcile, when wired *)
  customDomain : option (option CustomDomain);  (* the stored row, when the feature is wired *)
  live : option livenessState;                  (* None until first used *)
  exited : bool
}.

Definition set_wg (h : Handlers) (x : WgServer.Server) : Handlers :=
  MkHandlers x (wgPublicKey h) (acl h) (keys h) (alloc h) (deviceID h) (tunnelHost h) (nonces h) (notify h) (fw h)
    (customDomain h) (live h) (exited h).
Definition set_acl (h : Handlers) (x : AclStore.Store) : Handlers :=
  MkHandlers (wg h) (wgPublicKey h) x (keys h) (alloc h) (deviceID h) (tunnelHost h) (nonces h) (notify h) (fw h)
    (customDomain h) (live h) (exited h).
Definition set_alloc (h : Handlers) (x : IPAllocator) : Handlers :=
  MkHandlers (wg h) (wgPublicKey h) (acl h) (keys h) x (deviceID h) (tunnelHost h) (nonces h) (notify h) (fw h)
    (customDomain h) (live h) (exited h).
Definition set_nonces (h : Handlers) (x : gmap string nonceEntry) : Handlers :=
  MkHandlers (wg h) (wgPublicKey h) (acl h) (keys h) (alloc h) (deviceID h) (tunnelHost h) x (notify h) (fw h)
    (customDomain h) (live h) (exited h).
Definition set_notify (h : Handlers) (x : option (string * Z)) : Handlers :=
  MkHandlers (wg h) (wgPublicKey h) (acl h) (keys h) (alloc h) (deviceID h) (tunnelHost h) (nonces h) x (fw h)
    (customDomain h) (live h) (exited h).
Definition set_fw (h : Handlers) (x : option Firewall.Manager) : Handlers :=
  MkHandlers (wg h) (wgPublicKey h) (acl h) (keys h) (alloc h) (deviceID h) (tunnelHost h) (nonces h) (notify h) x
    (customDomain h) (live h) (exited h).
Definition set_domain (h : Handlers) (x : option (option CustomDomain)) : Handlers :=
  MkHandlers (wg h) (wgPublicKey h) (acl h) (keys h) (alloc h) (deviceID h) (tunnelHost h) (nonces h) (notify h) (fw h)
    x (live h) (exited h).
Definition set_live (h : Handlers) (x : option livenessState) : Handlers :=
  MkHandlers (wg h) (wgPublicKey h) (acl h) (keys h) (alloc h) (deviceID h) (tunnelHost h) (nonces h) (notify h) (fw h)
    (customDomain h) x (exited h).
Definition set_exited (h : Handlers) : Handlers :=
  MkHandlers (wg h) (wgPublicKey h) (acl h) (keys h) (alloc h) (deviceID h) (tunnelHost h) (nonces h) (notify h) (fw h)
    (customDomain h) (live h) true.

Inductive handler_error :=
| HUnmarshal | HEnvelope (e : env_error) | HNonceGen | HTunnelHost | HNoNonce | HNonceExpired | HNonceMismatch
| HAllocate | HAddClient | HAddPeer | HSign | HLease | HDeviceMismatch | HNotConfigured | HRotate
| HAppPort | HAppProtocol | HAppURL | HAppScheme | HAppHost
| HState | HNoPin | HApp | HAdmittance | HNoAdmission | HAdmission (e : att_error) | HMint | HIdentityKey
| HStatusPayload | HStatusAddress | HStatusValue | HPermissionsPayload | HPermissionsAddress
| HClientPayload | HClientMismatch | HReconcile.

(** ** Payloads *)

Definition dec_fields (kvs : list (string * json)) : option CommandEnvelopeFields :=
  i ← assign dec_string "" "intent" kvs; t ← assign dec_int64 0%Z "ts" kvs; Some (MkFields i t).

(** json.Unmarshal of a RawMessage into a fresh struct. *)
Definition unmarshal_obj {A} (zero : A) (dec : list (string * json) → option A) (p : option json) : option A :=
  match p with
  | Some (JObj kvs) => dec kvs
  | Some JNull => Some zero
  | _ => None
  end.

Definition zero_fields : CommandEnvelopeFields := MkFields "" 0.

Record ChallengePayload := MkChallenge {
  cp_Fields : CommandEnvelopeFields;
  cp_MembershipID : string;
  cp_MemberID : string;
  cp_ClientID : string;
  cp_ClientKey : string;
  cp_IdentityKey : string
}.
Definition dec_challenge (kvs : list (string * json)) : option ChallengePayload :=
  f ← dec_fields kvs; ms ← assign dec_string "" "membershipId" kvs; m ← assign dec_string "" "memberId" kvs;
  c ← assign dec_string "" "clientId" kvs; k ← assign dec_string "" "publicKey" kvs;
  i ← assign dec_string "" "identityKey" kvs; Some (MkChallenge f ms m c k i).

Record ProvisionPayload := MkProvision {
  pp_Fields : CommandEnvelopeFields;
  pp_MemberID : string;
  pp_MembershipID : string;
  pp_ClientID : string;
  pp_ClientKey : string;
  pp_Nonce : string;
  pp_IdentityKey : string;
  pp_ChallengeCorrelID : string
}.
Definition dec_provision (kvs : list (string * json)) : option ProvisionPayload :=
  f ← dec_fields kvs; m ← assign dec_string "" "memberId" kvs; ms ← assign dec_string "" "membershipId" kvs;
  c ← assign dec_string "" "clientId" kvs; k ← assign dec_string "" "publicKey" kvs;
  n ← assign dec_string "" "nonce" kvs; i ← assign dec_string "" "identityKey" kvs;
  x ← assign dec_string "" "challengeCorrelId" kvs; Some (MkProvision f m ms c k n i x).

(** The payloads with the envelope fields and a device ID. *)
Definition dec_device_payload (kvs : list (string * json)) : option (CommandEnvelopeFields * string) :=
  f ← dec_fields kvs; d ← assign dec_string "" "deviceId" kvs; Some (f, d).

(** ** Handlers *)

Section Handle.
Context `{Unicode} `{Primitives} `{Commands} `{Path} `{UrlParser}.

Definition reply (ty correlationID : string) (payload : json) : TunnelMessage :=
  MkMessage ty correlationID (Some payload) "" "".

(** [nonce] is what GenerateNonce returns. *)
Definition HandleChallenge (now : Z) (nonce : option string) (msg : TunnelMessage) (h : Handlers)
    : Handlers * result handler_error TunnelMessage :=
  match unmarshal_obj (MkChallenge zero_fields "" "" "" "" "") dec_challenge (t_Payload msg) with
  | None => (h, Err HUnmarshal)
  | Some p =>
      let memberID := if cp_MembershipID p =s "" then cp_MemberID p else cp_MembershipID p in
      let expected := "wg:challenge-" +:+ memberID +:+ "-" +:+ itoa (Timestamp (cp_Fields p)) in
      match verifyCommand (acl h) now msg (MemberAuth memberID) (cp_Fields p) expected with
      | Err e => (h, Err (HEnvelope e))
      | Ok _ =>
          match nonce with
          | None => (h, Err HNonceGen)
          | Some n =>
              (set_nonces h (<[t_CorrelationID msg := MkNonce n memberID (cp_ClientKey p) now]> (nonces h)),
               Ok (reply "wg:challenge:nonce" (t_CorrelationID msg) (JObj [("nonce", JStr n)])))
          end
      end
  end.

Definition nonceTTL : Z := 5 * minute.

Record ProvisionResponse := MkResponse {
  r_CorrelationID : string;
  r_ServerPublicKey : string;
  r_TunnelIP : string;
  r_TunnelIPv6 : string;
  r_ListenPort : Z;
  r_Endpoint : string;
  r_AllowedIPs : string;
  r_Keepalive : Z;
  r_NASSignature : string;
  r_IPLease : TunnelIPLease
}.

Definition wgQuickPersistentKeepalive : Z := 25.

(** The part of HandleProvision after the envelope has verified. [relay] is what the
    relay-endpoint callback returns, [None] when it is not wired or says no. *)
Definition provision_peer (relay : option string) (correlationID : string) (entry : nonceEntry) (clientKey : string)
    (h : Handlers) : Handlers * result handler_error ProvisionResponse :=
  match Allocate clientKey (alloc h) with
  | (a, Err _) => (set_alloc h a, Err HAllocate)
  | (a, Ok tunnelIP) =>
      let h1 := set_alloc h a in
      let tunnelIPv6 := WgServer.TunnelIPv6 (wg h1) tunnelIP in
      let '(s, added) := AddClient (n_MemberID entry) (MkClient clientKey tunnelIP tunnelIPv6 "" "" "") (acl h1) in
      let h2 := set_acl h1 s in
      if negb added then (set_alloc h2 (Release clientKey (alloc h2)), Err HAddClient)
      else
        match AddPeer clientKey tunnelIP (wg h2) with
        | (w, Err _) =>
            let h3 := set_wg h2 w in
            let h4 := set_acl h3 (RemoveClient (n_MemberID entry) clientKey (acl h3)).1 in
            (set_alloc h4 (Release clientKey (alloc h4)), Err HAddPeer)
        | (w, Ok _) =>
            let h3 := set_wg h2 w in
            let endpoint := default (tunnelHost h3 +:+ ":" +:+ itoa (listenPort (wg h3))) relay in
            let allowedIPs := AllowedIPs (wg h3) in
            match SignProvisionResponse (keys h3)
                    (MkTranscript (n_Nonce entry) clientKey (deviceID h3) (wgPublicKey h3) tunnelIP tunnelIPv6
                       endpoint allowedIPs wgQuickPersistentKeepalive) with
            | Err _ => (h3, Err HSign)
            | Ok sig =>
                match MintTunnelIPLease (deviceID h3) clientKey tunnelIP (privateKey (keys h3)) with
                | Err _ => (h3, Err HLease)
                | Ok lease =>
                    (h3, Ok (MkResponse correlationID (wgPublicKey h3) tunnelIP tunnelIPv6 (listenPort (wg h3)) endpoint
                               allowedIPs wgQuickPersistentKeepalive sig lease))
                end
            end
        end
  end.

Definition HandleProvision (now : Z) (relay : option string) (msg : TunnelMessage) (h : Handlers)
    : Handlers * result handler_error ProvisionResponse :=
  if tunnelHost h =s "" then (h, Err HTunnelHost)
  else match unmarshal_obj (MkProvision zero_fields "" "" "" "" "" "" "") dec_provision (t_Payload msg) with
  | None => (h, Err HUnmarshal)
  | Some p =>
      let nonceKey := if pp_ChallengeCorrelID p =s "" then t_CorrelationID msg else pp_ChallengeCorrelID p in
      match nonces h !! nonceKey with
      | None => (h, Err HNoNonce)
      | Some entry =>
          let h := set_nonces h (delete nonceKey (nonces h)) in
          if (nonceTTL <? time_sub now (n_CreatedAt entry))%Z then (h, Err HNonceExpired)
          else if pp_Nonce p <>s n_Nonce entry then (h, Err HNonceMismatch)
          else
            let clientKey := if pp_ClientKey p =s "" then n_ClientKey entry else pp_ClientKey p in
            let expected := "wg:provision-" +:+ n_MemberID entry +:+ "-" +:+ pp_ClientID p +:+ "-" +:+ pp_Nonce p +:+
                            "-" +:+ itoa (Timestamp (pp_Fields p)) in
            match verifyCommand (acl h) now msg (MemberAuth (n_MemberID entry)) (pp_Fields p) expected with
            | Err e => (h, Err (HEnvelope e))
            | Ok _ => provision_peer relay (t_CorrelationID msg) entry clientKey h
            end
      end
  end.

(** One tick of the nonce reaper. *)
Definition reap_nonces (now : Z) (h : Handlers) : Handlers :=
  set_nonces h (filter (λ kv, ¬ (n_CreatedAt kv.2 < now - nonceTTL)%Z) (nonces h)).

Definition validateInternalURL (raw : string) : result handler_error unit :=
  let! u := of_option HAppURL (url_parse raw) in
  check! guard_err ((u.1 =s "http") || (u.1 =s "https")) HAppScheme in
  guard_err (u.2 <>s "") HAppHost.

Definition validateApp (a : App) : result handler_error unit :=
  if IsPort a then
    check! guard_err (negb ((app_Port a <? 1) || (65535 <? app_Port a)))%Z HAppPort in
    guard_err ((app_Protocol a =s "tcp") || (app_Protocol a =s "udp") || (app_Protocol a =s "http") ||
               (app_Protocol a =s "https")) HAppProtocol
  else validateInternalURL (app_InternalURL a).

(** The checks HandleUnpaired and the two API-key handlers share. *)
Definition admin_device_command (now : Z) (prefix : string) (msg : TunnelMessage) (h : Handlers)
    : result handler_error unit :=
  match unmarshal_obj (zero_fields, "") dec_device_payload (t_Payload msg) with
  | None => Err HUnmarshal
  | Some (f, d) =>
      if (d <>s "") && (d <>s deviceID h) then Err HDeviceMismatch
      else map_err HEnvelope
             (verifyCommand (acl h) now msg AdminAuth f (prefix +:+ deviceID h +:+ "-" +:+ itoa (Timestamp f)))
  end.

(** [removed] tells whether the pin file could be removed; the process exits. *)
Definition HandleUnpaired (now : Z) (removed : bool) (msg : TunnelMessage) (h : Handlers)
    : Handlers * result handler_error unit :=
  match admin_device_command now "unpair-device-" msg h with
  | Err e => (h, Err e)
  | Ok _ =>
      let h1 := set_wg h (WgServer.Stop (wg h)) in
      let h2 := set_acl h1 (ClearPinnedAdminPublicKey removed (acl h1)).1 in
      (set_exited h2, Ok tt)
  end.

Definition HandleNotifyAPIKey (now : Z) (msg : TunnelMessage) (h : Handlers) : result handler_error TunnelMessage :=
  match notify h with
  | None => Err HNotConfigured
  | Some (key, port) =>
      let! _ := admin_device_command now "notify:apikey-" msg h in
      Ok (reply "notify:apikey:response" (t_CorrelationID msg)
            (JObj [("apiKey", JStr key); ("port", JNum (itoa port))]))
  end.

(** [newKey] is what RotateAPIKey returns. *)
Definition HandleNotifyAPIKeyRotate (now : Z) (newKey : option string) (msg : TunnelMessage) (h : Handlers)
    : Handlers * result handler_error TunnelMessage :=
  match notify h with
  | None => (h, Err HNotConfigured)
  | Some (_, port) =>
      match admin_device_command now "notify:apikey:rotate-" msg h with
      | Err e => (h, Err e)
      | Ok _ =>
          match newKey with
          | None => (h, Err HRotate)
          | Some k => (set_notify h (Some (k, port)),
                       Ok (reply "notify:apikey:rotate:response" (t_CorrelationID msg) (JObj [("apiKey", JStr k)])))
          end
      end
  end.
End Handle.

(** ** Facts *)

Section Facts.
Context `{Unicode} `{P : Primitives} `{Commands} `{Path} `{UrlParser}.

(** The parts of the agent a peer's access depends on. *)
Definition access (h : Handlers) : WgServer.Server * AclStore.Store * IPAllocator * option Firewall.Manager :=
  (wg h, acl h, alloc h, fw h).

(** The challenge a provision message answers. *)
Definition challenge_key (msg : TunnelMessage) (p : ProvisionPayload) : string :=
  if pp_ChallengeCorrelID p =s "" then t_CorrelationID msg else pp_ChallengeCorrelID p.
Definition provision_payload (msg : TunnelMessage) : option ProvisionPayload :=
  unmarshal_obj (MkProvision zero_fields "" "" "" "" "" "" "") dec_provision (t_Payload msg).

(** What has been checked when HandleProvision reaches its first side effect. *)
Definition provision_authorized (now : Z) (msg : TunnelMessage) (h : Handlers) (entry : nonceEntry) (p : ProvisionPayload)
    : Prop :=
  provision_payload msg = Some p ∧ nonces h !! challenge_key msg p = Some entry ∧
  (now - n_CreatedAt entry <= nonceTTL)%Z ∧ pp_Nonce p = n_Nonce entry ∧ t_SignerID msg = n_MemberID entry ∧
  ∃ m pub, LookupByMemberID (n_MemberID entry) (acl h) = Some m ∧ Base64.decode (m_IdentityKey m) = Some pub ∧
           signed_by pub msg.

Lemma time_sub_le a b d : (min_duration <= d < max_duration)%Z → (time_sub a b <= d)%Z → (a - b <= d)%Z.
Proof. unfold time_sub, min_duration, max_duration. lia. Qed.

(** HandleProvision either stops before it touches anything but the nonce, or is authorised
    and goes on to install the peer. *)
Lemma HandleProvision_cases now relay msg h h' r : HandleProvision now relay msg h = (h', r) →
  (∃ e, r = Err e ∧ (h' = h ∨ ∃ k, h' = set_nonces h (delete k (nonces h)))) ∨
  ∃ entry p key, provision_authorized now msg h entry p ∧
    key = (if pp_ClientKey p =s "" then n_ClientKey entry else pp_ClientKey p) ∧
    provision_peer relay (t_CorrelationID msg) entry key
      (set_nonces h (delete (challenge_key msg p) (nonces h))) = (h', r).
Proof.
  unfold HandleProvision. destruct (tunnelHost h =s ""); [intros [= <- <-]; left; eauto|].
  fold (provision_payload msg). destruct (provision_payload msg) as [p|] eqn:Ep; [|intros [= <- <-]; left; eauto].
  fold (challenge_key msg p). destruct (nonces h !! challenge_key msg p) as [entry|] eqn:En; [|intros [= <- <-]; left; eauto].
  cbv zeta. destruct (nonceTTL <? _)%Z eqn:Et; [intros [= <- <-]; left; eauto 6|].
  destruct (pp_Nonce p =s n_Nonce entry) eqn:Em; cbn [negb]; [|intros [= <- <-]; left; eauto 6].
  destruct (verifyCommand _ _ _ _ _ _) as [[]|e] eqn:Ev; [|intros [= <- <-]; left; eauto 6].
  intros Hp. right. exists entry, p. eexists. split; [|split; [reflexivity|exact Hp]].
  apply seqb_true in Em. apply Z.ltb_ge in Et.
  unfold verifyCommand, auth_verify, requireMember in Ev. res_inv.
  match goal with E : VerifyEnvelope _ _ = _ |- _ => apply VerifyEnvelope_ok in E as (b64 & pub & Hl & Hd & _ & Hs) end.
  repeat match goal with E : (_ =s _) = true |- _ => apply seqb_true in E end.
  unfold provision_authorized. split_and!; try done.
  - apply time_sub_le; [|done]. vm_compute. by split; [intros Ec|].
  - unfold aclLookup in Hl. change (acl (set_nonces _ _)) with (acl h) in Hl.
    match goal with E : t_SignerID msg = _ |- _ => rewrite E in Hl end.
    apply fmap_Some in Hl as (m & Hm & ->). eauto.
Qed.

Lemma provision_peer_frame relay c entry k h :
  nonces (provision_peer relay c entry k h).1 = nonces h ∧ tunnelHost (provision_peer relay c entry k h).1 = tunnelHost h.
Proof.
  unfold provision_peer. destruct (Allocate k (alloc h)) as [a [ip|e]]; [|done]. cbv zeta.
  destruct (AddClient _ _ _) as [s []]; cbn [negb]; [|done].
  destruct (AddPeer _ _ _) as [w [[]|e]]; [|done].
  destruct (SignProvisionResponse _ _) as [sig|e]; [|done]. by destruct (MintTunnelIPLease _ _ _ _).
Qed.

(** What a successful provision has done for [key]. *)
Lemma provision_peer_ok relay c entry k h h' r : provision_peer relay c entry k h = (h', Ok r) →
  allocated (alloc h') !! k = Some (r_TunnelIP r) ∧
  (∃ p, peers (wg h') !! k = Some p ∧ TunnelIP p = r_TunnelIP r) ∧
  (∃ m cl, m ∈ members (acl h') ∧ m_MemberID m = n_MemberID entry ∧ cl ∈ m_Clients m ∧ c_WGPublicKey cl = k ∧
           (r_TunnelIP r ≠ "" → c_TunnelIP cl = r_TunnelIP r)).
Proof.
  unfold provision_peer. destruct (Allocate k (alloc h)) as [a [ip|e]] eqn:Ea; [|done]. cbv zeta.
  destruct (AddClient _ _ _) as [s []] eqn:Ec; cbn [negb]; [|done].
  destruct (AddPeer _ _ _) as [w [[]|e]] eqn:Ew; [|done].
  destruct (SignProvisionResponse _ _) as [sig|e]; [|done]. destruct (MintTunnelIPLease _ _ _ _); [|done].
  intros [= <- <-]. cbn. split_and!.
  - revert Ea. unfold Allocate. case_match eqn:E; [by intros [= <- <-]|]. case_match; [|done].
    intros [= <- <-]. apply lookup_insert_eq.
  - rewrite (AddPeer_peers _ _ _ _ _ Ew), lookup_insert_eq. eauto.
  - apply AddClient_holds in Ec. exact Ec.
Qed.


(** A challenge can be answered once. After any provision attempt that reaches the nonce,
    whether it succeeds or fails and at whatever step, every further attempt on that challenge
    is refused and changes nothing. *)
Theorem nonce_one_shot now relay msg h p now' relay' msg' p' :
  tunnelHost h ≠ "" → provision_payload msg = Some p → provision_payload msg' = Some p' →
  challenge_key msg' p' = challenge_key msg p →
  let h' := (HandleProvision now relay msg h).1 in
  HandleProvision now' relay' msg' h' = (h', Err HNoNonce).
Proof.
  intros Hth Hp Hp' Hk. cbv zeta.
  assert (Hn : nonces (HandleProvision now relay msg h).1 !! challenge_key msg p = None ∧
               tunnelHost (HandleProvision now relay msg h).1 = tunnelHost h).
  { unfold HandleProvision. apply seqb_false in Hth. rewrite Hth. fold (provision_payload msg). rewrite Hp.
    fold (challenge_key msg p). destruct (nonces h !! challenge_key msg p) as [entry|] eqn:En; [|done]. cbv zeta.
    destruct (nonceTTL <? _)%Z; [split; [apply lookup_delete_eq|done]|].
    destruct (pp_Nonce p =s n_Nonce entry); cbn [negb]; [|split; [apply lookup_delete_eq|done]].
    destruct (verifyCommand _ _ _ _ _ _) as [[]|e]; [|split; [apply lookup_delete_eq|done]].
    match goal with |- context [provision_peer ?r ?c ?e ?k ?x] => destruct (provision_peer_frame r c e k x) as [-> ->] end.
    split; [apply lookup_delete_eq|done]. }
  destruct Hn as [Hn Ht]. unfold HandleProvision at 1. rewrite Ht. apply seqb_false in Hth. rewrite Hth.
  fold (provision_payload msg'). rewrite Hp'. fold (challenge_key msg' p'). by rewrite Hk, Hn.
Qed.

(** A provision that is not authorised leaves the WireGuard server, the access-control
    store, the address allocator and the firewall exactly as they were; all it can do is spend
    the nonce. *)
Theorem unauthorised_provision_inert now relay msg h :
  (∀ entry p, ~ provision_authorized now msg h entry p) →
  is_ok (HandleProvision now relay msg h).2 = false ∧ access (HandleProvision now relay msg h).1 = access h.
Proof.
  intros Hno. destruct (HandleProvision now relay msg h) as [h' r] eqn:E.
  apply HandleProvision_cases in E as [(e & -> & [->|[k ->]])|(entry & p & key & Hauth & _)]; [done..|].
  by destruct (Hno entry p).
Qed.

(** ** The admin's commands *)

Lemma admin_device_pinned now prefix msg h pin : pin_ok (acl h) → pinnedAdminPubKey (acl h) = Some pin →
  admin_device_command now prefix msg h = Ok tt → signed_by pin msg ∧
  ∃ f d, unmarshal_obj (zero_fields, "") dec_device_payload (t_Payload msg) = Some (f, d) ∧
         Intent f = prefix +:+ deviceID h +:+ "-" +:+ itoa (Timestamp f) ∧ fresh_ts now (Timestamp f) = true.
Proof.
  intros Hok Hpin. unfold admin_device_command.
  destruct (unmarshal_obj _ _ _) as [[f d]|] eqn:E; [|done]. destruct (_ && _); [done|]. intros Hv. res_inv.
  destruct (admin_signed (acl h) now msg f _ pin Hok Hpin Hv) as (Hi & Hf & Hs). eauto 8.
Qed.

(** Unpairing, reading the notification key and rotating it happen only on a fresh command
    that names this device in its signed intent and is signed with the pinned admin key. In
    every other case unpairing and rotating change nothing and no key is returned. *)
Theorem admin_commands_need_pin now removed newKey msg h pin :
  pin_ok (acl h) → pinnedAdminPubKey (acl h) = Some pin → ~ signed_by pin msg →
  (∃ e, HandleUnpaired now removed msg h = (h, Err e)) ∧
  (∃ e, HandleNotifyAPIKey now msg h = Err e) ∧
  (∃ e, HandleNotifyAPIKeyRotate now newKey msg h = (h, Err e)).
Proof.
  intros Hok Hpin Hno. assert (Hd : ∀ prefix, ∃ e, admin_device_command now prefix msg h = Err e).
  { intros prefix. destruct (admin_device_command now prefix msg h) as [[]|e] eqn:E; [|eauto].
    by destruct Hno; eapply admin_device_pinned. }
  unfold HandleUnpaired, HandleNotifyAPIKey, HandleNotifyAPIKeyRotate.
  destruct (Hd "unpair-device-") as [e1 ->], (Hd "notify:apikey-") as [e2 ->], (Hd "notify:apikey:rotate-") as [e3 ->].
  destruct (notify h) as [[key port]|]; cbn [res_bind]; split_and!; eexists; reflexivity.
Qed.
End Facts.

(** ** Concrete runs *)

Module HandDemo.
#[local] Existing Instance AclStore.Demo.ascii_only.
#[local] Existing Instance Toy.prims.
(** Commands succeed until [n] have run. *)
Definition until (n : nat) : Commands := {| runs h c := (length h <? n)%nat |}.
#[local] Instance normal : Commands := until 100.
#[local] Instance on_host : Path := {| on_path h b := true |}.
(** scheme://host, nothing else. *)
#[local] Instance urls : UrlParser := {| url_parse s := match cut_at ":" s with
  | Some (scheme, rest) => Some (scheme, trim_prefix rest "//") | None => None end |}.

Definition key : string := WgServer.Demo.key.
Definition pin : string := EnvDemo.pin.

Definition handlers : Handlers :=
  MkHandlers WgServer.Demo.server key EnvDemo.store
    (MkKeys EnvDemo.agent_key (ed25519_public EnvDemo.agent_key))
    (MkAllocator "100.64.9.1" "100.64.9" ∅ ({["100.64.9.1"]} ∪ {["100.64.9.0"]} ∪ {["100.64.9.255"]}))
    "d" "host.example" (<["c0" := MkNonce "ab" "o" key (990 * second)]> ∅) (Some ("secret", 8088%Z))
    None None None false.

Definition provision (nonce : string) : TunnelMessage :=
  EnvDemo.signed "wg:provision" "o" pin
    (JObj [("intent", JStr ("wg:provision-o-cl-" +:+ nonce +:+ "-1000")); ("ts", JNum "1000"); ("nonce", JStr nonce);
           ("clientId", JStr "cl"); ("challengeCorrelId", JStr "c0")]).

Definition provisioned : Handlers * result handler_error ProvisionResponse :=
  HandleProvision (1010 * second) None (provision "ab") handlers.


Definition first_try : Handlers := (HandleProvision (1010 * second) None (provision "cd") handlers).1.

Lemma nonce_one_shot_witness :
  HandleProvision (1020 * second) None (provision "ab") first_try = (first_try, Err HNoNonce).
Proof.
  assert (Hp : is_Some (provision_payload (provision "cd")) ∧ is_Some (provision_payload (provision "ab")))
    by (split; vm_compute; eexists; reflexivity).
  destruct Hp as [[p Hp] [p' Hp']]. unfold first_try.
  apply (nonce_one_shot (1010 * second) None (provision "cd") handlers p (1020 * second) None (provision "ab") p');
    [vm_compute; discriminate|exact Hp|exact Hp'|].
  vm_compute in Hp, Hp'. injection Hp as <-. injection Hp' as <-. vm_compute. reflexivity.
Defined.

Lemma unauthorised_provision_inert_witness :
  let h := set_nonces handlers ∅ in
  is_ok (HandleProvision (1010 * second) None (provision "ab") h).2 = false ∧
  access (HandleProvision (1010 * second) None (provision "ab") h).1 = access h.
Proof.
  cbv zeta. apply (unauthorised_provision_inert). intros entry p (_ & Hn & _).
  change (nonces (set_nonces handlers ∅)) with (∅ : gmap string nonceEntry) in Hn. rewrite lookup_empty in Hn. discriminate Hn.
Defined.

Definition impostor : TunnelMessage :=
  EnvDemo.signed "device:unpaired" "o" EnvDemo.member_key
    (JObj [("intent", JStr "unpair-device-d-1000"); ("ts", JNum "1000")]).

Lemma admin_commands_need_pin_witness :
  (∃ e, HandleUnpaired (1010 * second) true impostor handlers = (handlers, Err e)) ∧
  (∃ e, HandleNotifyAPIKey (1010 * second) impostor handlers = Err e) ∧
  (∃ e, HandleNotifyAPIKeyRotate (1010 * second) (Some "new") impostor handlers = (handlers, Err e)).
Proof.
  apply (admin_commands_need_pin (1010 * second) true (Some "new") impostor handlers pin);
    [exact EnvDemo.store_pinned|vm_compute; reflexivity|].
  intros (_ & sig & canon & Hs & Hc & Hv). vm_compute in Hs, Hc. injection Hs as <-. injection Hc as <-.
  vm_compute in Hv. discriminate Hv.
Defined.

(** The genuine command goes through. *)
Example unpaired_by_owner :
  exited (HandleUnpaired (1010 * second) true EnvDemo.unpair handlers).1 = true.
Proof. vm_compute. reflexivity. Qed.

(** The rollback of a failed AddPeer takes back more than the failed attempt did: a client that
    asks again for the configuration it already has, when wg fails once, loses its address and
    its client record, while the peer it had stays in the table. *)
Definition again : Handlers :=
  set_nonces provisioned.1 (<["c0" := MkNonce "ef" "o" key (1000 * second)]> ∅).
Definition failed_again : Handlers * result handler_error ProvisionResponse :=
  @HandleProvision _ _ (until 0) (1010 * second) None (provision "ef") again.

Definition has_record (k : string) (h : Handlers) : bool := existsb (λ x, x =s k) (client_keys (members (acl h))).
Definition footprint (h : Handlers) : string * bool * bool :=
  (Lookup key (alloc h), has_record key h, bool_decide (is_Some (peers (wg h) !! key))).

Lemma rollback_removes_existing_client :
  footprint again = ("100.64.9.2", true, true) ∧ is_ok failed_again.2 = false ∧
  footprint failed_again.1 = ("", false, true).
Proof. split_and!; vm_compute; reflexivity. Qed.

(** A suspended member's signature still provisions a peer: no step looks at the status. *)
Definition suspended_owner : Handlers :=
  set_acl handlers (SetMemberStatus "o" "suspended" (acl handlers)).1.

Lemma suspended_member_provisions :
  let r := HandleProvision (1010 * second) None (provision "ab") suspended_owner in
  is_ok r.2 = true ∧ is_Some (peers (wg r.1) !! key) ∧
  (m_Status <$> LookupByMemberID "o" (acl r.1)) = Some "suspended".
Proof. split_and!; [vm_compute; reflexivity|vm_compute; eexists; reflexivity|vm_compute; reflexivity]. Qed.
End HandDemo.
