(* ===== verification/DeviceState.v ===== *)
(** * internal/tunnel/devicestate.go: the signed device state and liveness

    A push is verified item by item against the pinned owner key before anything is applied;
    then addresses are assigned, the store is replaced wholesale, peers and firewall grants
    follow, and the generation is recorded. gzip is a parameter; whether the custom domain's
    certificate can be obtained and whether its row can be read and written are arguments. *)

From S2P Require Import Prelude TimeText Encoding Json CanonJson Crypto WgServer Firewall IpAllocator Atreolink AclStore Envelope Handlers.

(** io.ReadAll(io.LimitReader(gzip.NewReader(b), n)), [None] when either step fails. *)
Class Gzip := { gunzip : Z → string → option string }.

(** ** Liveness *)

Definition staleBound : Z := 30 * minute.
Definition coldStartTimeout : Z := 90 * second.

(** [liveness] and the state with the record in place. *)
Definition liveness (now : Z) (h : Handlers) : livenessState :=
  default (MkLive now false zero_time false) (live h).

Definition markLiveness (now : Z) (applied : bool) (h : Handlers) : Handlers :=
  let l := liveness now h in
  set_live h (Some (MkLive (bootAt l) (applied || appliedOnce l) now false)).

(** The payload's []byte: a base64 string, or an array of small numbers. *)
Definition dec_byte (j : json) : option ascii :=
  match j with
  | JNull => Some (Nb 0)
  | JNum n => if has_prefix n "-" then None
              else v ← Num.parse_int n; if (v <=? 255)%Z then Some (Nb (Z.to_N v)) else None
  | _ => None
  end.
Definition dec_bytes (j : json) : option string :=
  match j with
  | JNull => Some ""
  | JStr s => Base64.decode s
  | JArr l => String.string_of_list_ascii <$> mapM dec_byte l
  | _ => None
  end.

(** ** Payloads of the signed items *)

Record AppUpsertedPayload := MkAppUpserted { ap_Fields : CommandEnvelopeFields; ap_DeviceID : string; ap_App : App }.
Definition dec_app_upserted (kvs : list (string * json)) : option AppUpsertedPayload :=
  f ← dec_fields kvs; d ← assign dec_string "" "deviceId" kvs; a ← assign dec_app zero_app "app" kvs;
  Some (MkAppUpserted f d a).

Record MemberStatusPayload := MkStatus {
  sp_Fields : CommandEnvelopeFields;
  sp_DeviceID : string;
  sp_MemberID : string;
  sp_Status : string;
  sp_ChangedAt : string
}.
Definition dec_status (kvs : list (string * json)) : option MemberStatusPayload :=
  f ← dec_fields kvs; d ← assign dec_string "" "deviceId" kvs; m ← assign dec_string "" "memberId" kvs;
  s ← assign dec_string "" "status" kvs; c ← assign dec_string "" "changedAt" kvs; Some (MkStatus f d m s c).

Record MemberPermissionsPayload := MkPermissions {
  mp_Fields : CommandEnvelopeFields;
  mp_DeviceID : string;
  mp_MemberID : string;
  mp_AllowedAppIDs : list string
}.
Definition dec_permissions (kvs : list (string * json)) : option MemberPermissionsPayload :=
  f ← dec_fields kvs; d ← assign dec_string "" "deviceId" kvs; m ← assign dec_string "" "memberId" kvs;
  a ← assign (dec_slice "" dec_string) [] "allowedAppIds" kvs; Some (MkPermissions f d m a).

Record ClientRegisterPayload := MkRegister {
  cr_Fields : CommandEnvelopeFields;
  cr_DeviceID : string;
  cr_MemberID : string;
  cr_PublicKey : string;
  cr_ClientName : string;
  cr_Platform : string
}.
Definition dec_register (kvs : list (string * json)) : option ClientRegisterPayload :=
  f ← dec_fields kvs; d ← assign dec_string "" "deviceId" kvs; m ← assign dec_string "" "memberId" kvs;
  k ← assign dec_string "" "publicKey" kvs; n ← assign dec_string "" "clientName" kvs;
  p ← assign dec_string "" "platform" kvs; Some (MkRegister f d m k n p).

Record CustomDomainSetPayload := MkDomainSet {
  ds_Fields : CommandEnvelopeFields;
  ds_Device : string;
  ds_ParentZone : string;
  ds_ActedAt : string
}.
Definition dec_domain_set (kvs : list (string * json)) : option CustomDomainSetPayload :=
  f ← dec_fields kvs; d ← assign dec_string "" "deviceId" kvs; z ← assign dec_string "" "parentZone" kvs;
  a ← assign dec_string "" "actedAt" kvs; Some (MkDomainSet f d z a).

(** handler_customdomain.go. *)
Definition normaliseZone `{Unicode} (zone : string) : string :=
  trim_prefix (trim_suffix (to_lower (trim_space zone)) ".") "*.".

Definition traverse {E A B} (f : A → result E B) : list A → result E (list B) :=
  fix go l := match l with
              | [] => Ok []
              | x :: l' => let! y := f x in let! ys := go l' in Ok (y :: ys)
              end.

Section State.
Context `{Unicode} `{Primitives} `{Commands} `{Path} `{UrlParser} `{Gzip}.

(** ** Liveness checks *)

Definition drop_peers (ms : list MemberACLEntry) (w : WgServer.Server) : WgServer.Server :=
  foldl (λ w c, if c_WGPublicKey c =s "" then w else RemovePeer (c_WGPublicKey c) w) w (mjoin (map m_Clients ms)).

Definition dropAllPeers (h : Handlers) : Handlers := set_wg h (drop_peers (members (acl h)) (wg h)).

(** One tick of the watch. *)
Definition checkLiveness (now : Z) (h : Handlers) : Handlers :=
  let l := liveness now h in
  let at_ := LastAppliedAt (acl h) in
  let keep := set_live h (Some l) in
  let trip (b : bool) :=
    if b then dropAllPeers (set_live h (Some (MkLive (bootAt l) (appliedOnce l) (lastPositiveLiveness l) true))) else keep in
  if failClosed l then keep
  else if negb (appliedOnce l) then
    if negb (is_zero_time at_) && (time_sub now at_ <=? staleBound)%Z then
      set_live h (Some (MkLive (bootAt l) true
        (if is_zero_time (lastPositiveLiveness l) then at_ else lastPositiveLiveness l) false))
    else trip (coldStartTimeout <? time_sub now (bootAt l))%Z
  else
    let ref := if is_zero_time (lastPositiveLiveness l) then at_ else lastPositiveLiveness l in
    trip (negb (is_zero_time ref) && (staleBound <? time_sub now ref)%Z).

Definition HandleHeartbeatAck (now : Z) (msg : TunnelMessage) (h : Handlers) : Handlers * result handler_error unit :=
  match unmarshal_obj 0%Z (assign dec_int64 0%Z "generation") (t_Payload msg) with
  | None => (h, Err HUnmarshal)
  | Some g => (if (g =? AppliedGeneration (acl h))%Z then markLiveness now false h else h, Ok tt)
  end.

(** ** Decoding *)

Definition gunzip_limit : Z := 8 * 2 ^ 20.

Definition decodeDeviceState (msg : TunnelMessage) : result handler_error DeviceState :=
  if t_Type msg =s "device:state:gz" then
    let! gz := of_option HState (t_Payload msg ≫= dec_bytes) in
    let! raw := of_option HState (gunzip gunzip_limit gz) in
    of_option HState (unmarshal raw ≫= dec_device_state zero_device_state)
  else of_option HState (t_Payload msg ≫= dec_device_state zero_device_state).

(** ** Verification of one push *)

Section Verify.
Variables (s : Store) (deviceID ownerPub nasPub : string) (km : KeyManager) (now : Z).

(** verifyAuthorization of an envelope against a key the caller vouches for. *)
Definition attested (env : DSEnvelope) (ty : string) (pub : string) (f : CommandEnvelopeFields) (intent : string)
    : result handler_error unit :=
  map_err HEnvelope (verifyAuthorization s (AsMessage env ty) (AttestedAuth pub) f intent).

Definition verify_app (da : DSApp) : result handler_error (option App) :=
  match da_Envelope da with
  | None => Ok None
  | Some env =>
      let! ap := of_option HApp (unmarshal_obj (MkAppUpserted zero_fields "" zero_app) dec_app_upserted (e_Payload env)) in
      check! attested env "app:upserted" ownerPub (ap_Fields ap)
               ("app:upserted-" +:+ deviceID +:+ "-" +:+ app_ID (ap_App ap)) in
      check! validateApp (ap_App ap) in
      Ok (Some (ap_App ap))
  end.

Definition verify_apps (l : list DSApp) : result handler_error (list App) :=
  let! r := traverse verify_app l in Ok (omap id r).

(** appByID: the last of the apps with an ID. *)
Definition appByID (vApps : list App) (id : string) : option App := List.find (has_app_id id) (rev vApps).

(** entry.Admittance, initialAppIDs, and the certificate to announce. *)
Record admission := MkAdmission {
  ad_cert : option AdmittanceCertificate;
  ad_initial : list string;
  ad_pending : option AdmittanceCertificate
}.

Definition base_entry (dm : DSMember) (att : option JoinAttestation) : MemberACLEntry :=
  MkMember (dm_MemberID dm) (dm_UserID dm) (dm_MemberName dm) (dm_Email dm) (dm_Role dm) (dm_IdentityKey dm)
    None att None [] [] "active".

Definition ds_admin (dm : DSMember) : bool := (dm_Role dm =s "admin") || (dm_Role dm =s "owner").

Definition verify_cert (cert : AdmittanceCertificate) (dm : DSMember) : result handler_error unit :=
  map_err (λ _, HAdmittance)
    (VerifyAdmittanceCertificate (Some cert) (dm_MemberID dm) (dm_IdentityKey dm) nasPub (Some (publicKey km))).

Definition verify_admission (dm : DSMember) : result handler_error admission :=
  if ds_admin dm then Ok (MkAdmission None [] None)
  else match dm_Admittance dm with
  | Some cert =>
      check! verify_cert cert dm in
      Ok (MkAdmission (Some cert) (ad_InitialAllowedAppIDs cert) None)
  | None =>
      match LookupByMemberID (dm_MemberID dm) s ≫= m_Admittance with
      | Some cert =>
          check! verify_cert cert dm in
          Ok (MkAdmission (Some cert) (ad_InitialAllowedAppIDs cert) (Some cert))
      | None =>
          let! att := of_option HNoAdmission (dm_JoinAttestation dm) in
          let! inv := map_err HAdmission (VerifyJoinAttestation (base_entry dm (Some att)) (Some ownerPub) nasPub now) in
          let! inviteBytes := of_option HMint (Base64.decode (ja_InvitePayload att)) in
          let! cert := map_err (λ _, HMint)
            (MintAdmittanceCertificate (dm_MemberID dm) (dm_IdentityKey dm) nasPub inviteBytes (inv_AllowedAppIDs inv)
               (privateKey km) now) in
          Ok (MkAdmission (Some cert) (ad_InitialAllowedAppIDs cert) (Some cert))
      end
  end.

Definition verify_status (dm : DSMember) : result handler_error string :=
  match dm_StatusEnvelope dm with
  | None => Ok "active"
  | Some env =>
      let! sp := of_option HStatusPayload (unmarshal_obj (MkStatus zero_fields "" "" "" "") dec_status (e_Payload env)) in
      check! guard_err (sp_MemberID sp =s dm_MemberID dm) HStatusAddress in
      check! guard_err ((sp_Status sp =s "active") || (sp_Status sp =s "suspended")) HStatusValue in
      check! attested env "member:status" ownerPub (sp_Fields sp)
               ("member:status-" +:+ deviceID +:+ "-" +:+ sp_MemberID sp +:+ "-" +:+ sp_Status sp +:+ "-" +:+
                itoa (Timestamp (sp_Fields sp))) in
      Ok (sp_Status sp)
  end.

Definition verify_permissions (vApps : list App) (initial : list string) (dm : DSMember) : result handler_error (list App) :=
  match dm_PermissionsEnvelope dm with
  | Some env =>
      let! pp := of_option HPermissionsPayload
        (unmarshal_obj (MkPermissions zero_fields "" "" []) dec_permissions (e_Payload env)) in
      check! guard_err (mp_MemberID pp =s dm_MemberID dm) HPermissionsAddress in
      check! attested env "member:permissions" ownerPub (mp_Fields pp)
               ("member:permissions-" +:+ deviceID +:+ "-" +:+ mp_MemberID pp +:+ "-" +:+ itoa (Timestamp (mp_Fields pp))) in
      Ok (omap (appByID vApps) (mp_AllowedAppIDs pp))
  | None => Ok (if ds_admin dm then vApps else omap (appByID vApps) initial)
  end.

(** The client's record and, with a valid lease, the address it restores. *)
Definition verify_client (dm : DSMember) (memberPub : string) (dc : DSClient)
    : result handler_error (option (ClientRecord * option string)) :=
  match dc_RegistrationEnvelope dc with
  | None => Ok None
  | Some env =>
      let! cp := of_option HClientPayload
        (unmarshal_obj (MkRegister zero_fields "" "" "" "" "") dec_register (e_Payload env)) in
      check! attested env "wg:client-register" memberPub (cr_Fields cp)
               ("wg:client-register-" +:+ deviceID +:+ "-" +:+ cr_MemberID cp +:+ "-" +:+ dc_WGPublicKey dc +:+ "-" +:+
                itoa (Timestamp (cr_Fields cp))) in
      check! guard_err (negb ((cr_MemberID cp <>s dm_MemberID dm) || (cr_PublicKey cp <>s dc_WGPublicKey dc))) HClientMismatch in
      let lease := match dc_IPLease dc with
                   | Some l => if is_ok (VerifyTunnelIPLease (Some l) deviceID (dc_WGPublicKey dc) (Some (publicKey km)))
                               then Some (l_TunnelIP l) else None
                   | None => None
                   end in
      Ok (Some (MkClient (dc_WGPublicKey dc) "" "" (dc_Label dc) (dc_Platform dc) (dc_EndpointType dc), lease))
  end.

(** The entry of leaseIP for a client, if any. *)
Definition lease_of (p : ClientRecord * option string) : option (string * string) :=
  match p.2 with Some ip => Some (c_WGPublicKey p.1, ip) | None => None end.

Record verified := MkVerified {
  v_Entry : MemberACLEntry;
  v_Leases : list (string * string);
  v_Pending : option AdmittanceCertificate
}.

Definition verify_member (vApps : list App) (dm : DSMember) : result handler_error verified :=
  let! adm := verify_admission dm in
  let! memberPub := of_option HIdentityKey (decodeEd25519 (dm_IdentityKey dm)) in
  let! status := verify_status dm in
  let! allowed := verify_permissions vApps (ad_initial adm) dm in
  let! clients := traverse (verify_client dm memberPub) (dm_Clients dm) in
  let kept := omap id clients in
  Ok (MkVerified
        (MkMember (dm_MemberID dm) (dm_UserID dm) (dm_MemberName dm) (dm_Email dm) (dm_Role dm) (dm_IdentityKey dm)
           None None (ad_cert adm) (map fst kept) allowed status)
        (omap lease_of kept)
        (ad_pending adm)).

Definition verify_members (vApps : list App) (l : list DSMember) : result handler_error (list verified) :=
  traverse (verify_member vApps) l.
End Verify.

(** ** Addresses *)

Definition with_ip (c : ClientRecord) (ip : string) : ClientRecord :=
  MkClient (c_WGPublicKey c) ip (c_TunnelIPv6 c) (c_Label c) (c_Platform c) (c_EndpointType c).
Definition with_ip6 (c : ClientRecord) (ip6 : string) : ClientRecord :=
  MkClient (c_WGPublicKey c) (c_TunnelIP c) ip6 (c_Label c) (c_Platform c) (c_EndpointType c).

(** leaseIP: a later lease for a key replaces an earlier one. *)
Definition lease_map (l : list (string * string)) : gmap string string := foldl (λ m p, <[p.1 := p.2]> m) ∅ l.

Definition assign_client (leases : gmap string string) (a : IPAllocator) (c : ClientRecord)
    : IPAllocator * result handler_error ClientRecord :=
  let k := c_WGPublicKey c in
  if k =s "" then (a, Ok c)
  else if Lookup k a <>s "" then (a, Ok (with_ip c (Lookup k a)))
  else
    let lip := default "" (leases !! k) in
    let '(a1, adopted) := if lip <>s "" then TryAdopt k lip a else (a, false) in
    if adopted then (a1, Ok (with_ip c lip))
    else match Allocate k a1 with
         | (a2, Ok ip) => (a2, Ok (with_ip c ip))
         | (a2, Err _) => (a2, Err HAllocate)
         end.

(** A loop that threads the allocator and stops at the first error. *)
Definition traverse_alloc {A B} (f : IPAllocator → A → IPAllocator * result handler_error B)
    : IPAllocator → list A → IPAllocator * result handler_error (list B) :=
  fix go a l := match l with
                | [] => (a, Ok [])
                | x :: l' =>
                    match f a x with
                    | (a1, Err e) => (a1, Err e)
                    | (a1, Ok y) => match go a1 l' with
                                    | (a2, Err e) => (a2, Err e)
                                    | (a2, Ok ys) => (a2, Ok (y :: ys))
                                    end
                    end
                end.

Definition assign_member (leases : gmap string string) (a : IPAllocator) (m : MemberACLEntry)
    : IPAllocator * result handler_error MemberACLEntry :=
  match traverse_alloc (assign_client leases) a (m_Clients m) with
  | (a1, Ok cs) => (a1, Ok (set_clients m cs))
  | (a1, Err e) => (a1, Err e)
  end.

Definition derive_client (w : WgServer.Server) (c : ClientRecord) : ClientRecord :=
  if c_TunnelIP c <>s "" then with_ip6 c (WgServer.TunnelIPv6 w (c_TunnelIP c)) else c.
Definition derive_member (w : WgServer.Server) (m : MemberACLEntry) : MemberACLEntry :=
  set_clients m (map (derive_client w) (m_Clients m)).

(** ** Application *)

Definition remove_pruned (keys : list string) (h : Handlers) : Handlers :=
  foldl (λ h k, set_alloc (set_wg h (RemovePeer k (wg h))) (Release k (alloc h))) h keys.

Definition apply_member (w : WgServer.Server) (m : MemberACLEntry) : WgServer.Server :=
  if m_Status m =s "suspended" then
    foldl (λ w c, if c_WGPublicKey c <>s "" then RemovePeer (c_WGPublicKey c) w else w) w (m_Clients m)
  else
    foldl (λ w c, if (c_WGPublicKey c =s "") || (c_TunnelIP c =s "") then w
                  else (AddPeer (c_WGPublicKey c) (c_TunnelIP c) w).1) w (m_Clients m).

(** agent.reconcileFirewallGrants, the callback SetFirewallReconcile wires. *)
Definition fw_grant (g : AclStore.PortGrant) : Firewall.PortGrant :=
  Firewall.MkGrant (g_TunnelIP g) (g_TunnelIPv6 g) (g_TCP g) (g_UDP g).
Definition reconcileFirewallGrants (h : Handlers) : Handlers :=
  match fw h with
  | None => h
  | Some m => set_fw h (Some (SetPortGrants (map fw_grant (PortGrants (acl h))) m).1)
  end.

(** How the calls around the custom-domain row go: Get, EnsureCert, Set, Clear. *)
Record domain_io := MkIO {
  row_read : bool;
  cert_obtained : string → bool;
  row_written : bool;
  row_cleared : bool
}.

Definition reconcileCustomDomain (io : domain_io) (now : Z) (cd : option DSEnvelope) (ownerPub : string) (h : Handlers)
    : Handlers :=
  match customDomain h with
  | None => h
  | Some row =>
      match cd with
      | None =>
          if row_read io && bool_decide (is_Some row) && row_cleared io then set_domain h (Some None) else h
      | Some env =>
          match unmarshal_obj (MkDomainSet zero_fields "" "" "") dec_domain_set (e_Payload env) with
          | None => h
          | Some p =>
              let zone := normaliseZone (ds_ParentZone p) in
              if zone =s "" then h
              else match verifyAuthorization (acl h) (AsMessage env "device:custom-domain-set") (AttestedAuth ownerPub)
                           (ds_Fields p) ("custom-domain-set-" +:+ deviceID h +:+ "-" +:+ zone) with
                   | Err _ => h
                   | Ok _ =>
                       if row_read io && bool_decide ((cd_ParentZone <$> row) = Some zone) then h
                       else if negb (cert_obtained io zone) then h
                       else if row_written io
                       then set_domain h (Some (Some (MkDomain zone (e_Payload env) (e_Signature env) (format_rfc3339 now))))
                       else h
                   end
          end
      end
  end.

Inductive outcome := Ignored | Applied (upstream : list TunnelMessage).

(** The certificates to announce, as the messages that can be built. *)
Definition announcements (h : Handlers) (now : Z) (certs : list AdmittanceCertificate) : list TunnelMessage :=
  omap (λ c, match BuildAdmittanceMessage (deviceID h) (Some c) (privateKey (keys h)) now with
             | Ok p => Some p.1 | Err _ => None end) certs.

(** What follows the replacement of the store: peers, firewall, domain, generation. *)
Definition install (io : domain_io) (now : Z) (ownerPub : string) (st : DeviceState) (vMembers : list MemberACLEntry)
    (gone : removals) (h : Handlers) : Handlers :=
  let h := remove_pruned (removedClientKeys gone) h in
  let h := set_wg h (foldl apply_member (wg h) vMembers) in
  let h := reconcileFirewallGrants h in
  let h := reconcileCustomDomain io now (ds_CustomDomain st) ownerPub h in
  let h := set_acl h (SetAppliedGeneration (ds_Generation st) now (acl h)) in
  markLiveness now true h.

(** Everything after verification. *)
Definition apply_state (io : domain_io) (sender : bool) (now : Z) (ownerPub : string) (st : DeviceState)
    (vApps : list App) (vs : list verified) (h : Handlers) : Handlers * result handler_error outcome :=
  match traverse_alloc (assign_member (lease_map (mjoin (map v_Leases vs)))) (alloc h) (map v_Entry vs) with
  | (a, Err e) => (set_alloc h a, Err e)
  | (a, Ok assigned) =>
      let h := set_alloc h a in
      let vMembers := map (derive_member (wg h)) assigned in
      match Reconcile vMembers vApps (acl h) with
      | (_, Err _) => (h, Err HReconcile)
      | (s, Ok gone) =>
          let h := install io now ownerPub st vMembers gone (set_acl h s) in
          (h, Ok (Applied (if sender then announcements h now (omap v_Pending vs) else [])))
      end
  end.

(** [sender] tells whether SetUpstreamSender has been called. *)
Definition HandleDeviceState (io : domain_io) (sender : bool) (now : Z) (msg : TunnelMessage) (h : Handlers)
    : Handlers * result handler_error outcome :=
  match decodeDeviceState msg with
  | Err e => (h, Err e)
  | Ok st =>
      if (ds_DeviceID st <>s "") && (ds_DeviceID st <>s deviceID h) then (h, Err HDeviceMismatch)
      else if (ds_Generation st <? AppliedGeneration (acl h))%Z then (h, Ok Ignored)
      else match PinnedAdminPublicKey (acl h) with
      | None => (h, Err HNoPin)
      | Some ownerPub =>
          match verify_apps (acl h) (deviceID h) ownerPub (ds_Apps st) with
          | Err e => (h, Err e)
          | Ok vApps =>
              match verify_members (acl h) (deviceID h) ownerPub (PublicKeyBase64 (keys h)) (keys h) now vApps (ds_Members st) with
              | Err e => (h, Err e)
              | Ok vs => apply_state io sender now ownerPub st vApps vs h
              end
          end
      end
  end.
End State.

(** ** Loops *)

Lemma traverse_ok {E A B} (f : A → result E B) l ys : traverse f l = Ok ys ↔ Forall2 (λ x y, f x = Ok y) l ys.
Proof.
  revert ys. induction l as [|x l IH]; intros ys; simpl.
  - split; [by intros [= <-]|by intros ->%Forall2_nil_inv_l].
  - rewrite res_bind_ok. setoid_rewrite res_bind_ok. setoid_rewrite IH. split.
    + intros (y & Hy & zs & Hzs & [= <-]). by constructor.
    + intros (y & zs & Hy & Hzs & ->)%Forall2_cons_inv_l. eauto 6.
Qed.

Lemma traverse_elem {E A B} (f : A → result E B) l ys y : traverse f l = Ok ys → y ∈ ys → ∃ x, x ∈ l ∧ f x = Ok y.
Proof.
  intros Ht Hy. apply traverse_ok in Ht. apply list_elem_of_lookup in Hy as [i Hi].
  destruct (Forall2_lookup_r _ _ _ _ _ Ht Hi) as (x & Hx & Hf). exists x. split; [by eapply list_elem_of_lookup_2|done].
Qed.

Lemma traverse_alloc_ok {A B} (f : IPAllocator → A → IPAllocator * result handler_error B) (R : A → B → Prop) a l a' ys :
  (∀ a x a' y, f a x = (a', Ok y) → R x y) → traverse_alloc f a l = (a', Ok ys) → Forall2 R l ys.
Proof.
  intros Hf. revert a ys. induction l as [|x l IH]; intros a ys; simpl; [by intros [= _ <-]|].
  destruct (f a x) as [a1 [y|e]] eqn:E; [|done].
  destruct (traverse_alloc f a1 l) as [a2 [zs|e]] eqn:E2; [|done]. intros [= -> <-]. constructor; eauto.
Qed.

Lemma omap_id_elem {A} (l : list (option A)) x : x ∈ omap id l ↔ Some x ∈ l.
Proof. rewrite list_elem_of_omap. split; [intros (y & Hy & E); simpl in E; by subst|by exists (Some x)]. Qed.

(** ** What verification establishes *)

Section Sound.
Context `{Unicode} `{P : Primitives} `{Commands} `{Path} `{UrlParser} `{Gzip}.

Lemma attested_ok s env ty pub f intent : attested s env ty pub f intent = Ok tt →
  Intent f = intent ∧ signed_by pub (AsMessage env ty).
Proof.
  unfold attested, verifyAuthorization, auth_verify. intros Hv. res_inv.
  match goal with E : (_ =s _) = true |- _ => apply seqb_true in E end. split; [done|]. by apply verifySignature_ok.
Qed.

(** The owner signed exactly this app for this device, and it is well-formed. *)
Definition app_authorised (dev owner : string) (l : list DSApp) (a : App) : Prop :=
  validateApp a = Ok tt ∧ ∃ da env ap, da ∈ l ∧ da_Envelope da = Some env ∧
    unmarshal_obj (MkAppUpserted zero_fields "" zero_app) dec_app_upserted (e_Payload env) = Some ap ∧ ap_App ap = a ∧
    Intent (ap_Fields ap) = "app:upserted-" +:+ dev +:+ "-" +:+ app_ID a ∧ signed_by owner (AsMessage env "app:upserted").

Lemma verify_apps_sound s dev owner l vApps a : verify_apps s dev owner l = Ok vApps → a ∈ vApps → app_authorised dev owner l a.
Proof.
  unfold verify_apps. intros Hv Ha. res_inv. apply omap_id_elem in Ha.
  match goal with E : traverse _ _ = Ok _ |- _ => destruct (traverse_elem _ _ _ _ E Ha) as (da & Hda & Hf) end.
  unfold verify_app in Hf. destruct (da_Envelope da) as [env|] eqn:Ee; [|done]. res_inv.
  repeat match goal with E : unit |- _ => destruct E end.
  match goal with E : attested _ _ _ _ _ _ = _ |- _ => apply attested_ok in E as [Hi Hs] end. split; [done|]. eauto 10.
Qed.

(** The member was admitted: this agent certified the member's key, earlier or now, and if now
    then on an invitation the owner signed and the member accepted. *)
Definition member_admitted (owner nas : string) (km : KeyManager) (now : Z) (dm : DSMember) (m : MemberACLEntry) : Prop :=
  ∃ cert, m_Admittance m = Some cert ∧
    (VerifyAdmittanceCertificate (Some cert) (m_MemberID m) (m_IdentityKey m) nas (Some (publicKey km)) = Ok tt ∨
     ∃ att inv bytes, dm_JoinAttestation dm = Some att ∧
       VerifyJoinAttestation (base_entry dm (Some att)) (Some owner) nas now = Ok inv ∧
       MintAdmittanceCertificate (m_MemberID m) (m_IdentityKey m) nas bytes (inv_AllowedAppIDs inv) (privateKey km) now = Ok cert).

Lemma verify_admission_sound s owner nas km now dm adm : verify_admission s owner nas km now dm = Ok adm → ds_admin dm = false →
  ∃ cert, ad_cert adm = Some cert ∧ ad_initial adm = ad_InitialAllowedAppIDs cert ∧
    (VerifyAdmittanceCertificate (Some cert) (dm_MemberID dm) (dm_IdentityKey dm) nas (Some (publicKey km)) = Ok tt ∨
     ∃ att inv bytes, dm_JoinAttestation dm = Some att ∧
       VerifyJoinAttestation (base_entry dm (Some att)) (Some owner) nas now = Ok inv ∧
       MintAdmittanceCertificate (dm_MemberID dm) (dm_IdentityKey dm) nas bytes (inv_AllowedAppIDs inv) (privateKey km) now = Ok cert).
Proof.
  unfold verify_admission, verify_cert. intros Hv Ha. rewrite Ha in Hv.
  destruct (dm_Admittance dm) as [cert|].
  { res_inv. repeat match goal with E : unit |- _ => destruct E end. eexists. split_and!; [done..|]. by left. }
  destruct (LookupByMemberID (dm_MemberID dm) s ≫= m_Admittance) as [cert|]; res_inv.
  - repeat match goal with E : unit |- _ => destruct E end. eexists. split_and!; [done..|]. by left.
  - eexists. split_and!; [done..|]. right. eauto 10.
Qed.

(** The owner suspended the member; a member who is not suspended is active. *)
Definition status_authorised (dev owner : string) (dm : DSMember) (status : string) : Prop :=
  (dm_StatusEnvelope dm = None ∧ status = "active") ∨
  ∃ env sp, dm_StatusEnvelope dm = Some env ∧
    unmarshal_obj (MkStatus zero_fields "" "" "" "") dec_status (e_Payload env) = Some sp ∧
    sp_MemberID sp = dm_MemberID dm ∧ sp_Status sp = status ∧ (status = "active" ∨ status = "suspended") ∧
    Intent (sp_Fields sp) = "member:status-" +:+ dev +:+ "-" +:+ dm_MemberID dm +:+ "-" +:+ status +:+ "-" +:+
                            itoa (Timestamp (sp_Fields sp)) ∧
    signed_by owner (AsMessage env "member:status").

Lemma verify_status_sound s dev owner dm status : verify_status s dev owner dm = Ok status → status_authorised dev owner dm status.
Proof.
  unfold verify_status. destruct (dm_StatusEnvelope dm) as [env|] eqn:Ee; intros Hv; res_inv; [|by left].
  right. repeat match goal with E : unit |- _ => destruct E end.
  match goal with E : attested _ _ _ _ _ _ = _ |- _ => apply attested_ok in E as [Hi Hs] end.
  repeat match goal with E : (_ =s _) = true |- _ => apply seqb_true in E
    | E : (_ || _) = true |- _ => rewrite orb_true_iff, !seqb_true in E end.
  match goal with E : sp_MemberID _ = _ |- _ => rewrite <- E end. do 2 eexists. split_and!; try eassumption; done.
Qed.

Lemma appByID_elem vApps id a : appByID vApps id = Some a → a ∈ vApps ∧ app_ID a = id.
Proof.
  unfold appByID. intros [Hin Hid]%find_spec. split; [|by apply seqb_true in Hid].
  by rewrite list_elem_of_In, in_rev, <- list_elem_of_In.
Qed.

(** Where a member's apps come from: the owner's permissions envelope when there is one, else
    the whole catalogue for an admin, else the apps named at admission. *)
Definition permissions_authorised (dev owner : string) (vApps : list App) (initial : list string) (dm : DSMember)
    (allowed : list App) : Prop :=
  match dm_PermissionsEnvelope dm with
  | None => allowed = if ds_admin dm then vApps else omap (appByID vApps) initial
  | Some env => ∃ pp, unmarshal_obj (MkPermissions zero_fields "" "" []) dec_permissions (e_Payload env) = Some pp ∧
      mp_MemberID pp = dm_MemberID dm ∧ allowed = omap (appByID vApps) (mp_AllowedAppIDs pp) ∧
      Intent (mp_Fields pp) = "member:permissions-" +:+ dev +:+ "-" +:+ dm_MemberID dm +:+ "-" +:+ itoa (Timestamp (mp_Fields pp)) ∧
      signed_by owner (AsMessage env "member:permissions")
  end.

Lemma verify_permissions_sound s dev owner vApps initial dm allowed :
  verify_permissions s dev owner vApps initial dm = Ok allowed → permissions_authorised dev owner vApps initial dm allowed.
Proof.
  unfold verify_permissions, permissions_authorised. destruct (dm_PermissionsEnvelope dm) as [env|]; intros Hv; res_inv; [|done].
  repeat match goal with E : unit |- _ => destruct E end.
  match goal with E : attested _ _ _ _ _ _ = _ |- _ => apply attested_ok in E as [Hi Hs] end.
  match goal with E : (_ =s _) = true |- _ => apply seqb_true in E; rewrite E in Hi end. eauto 8.
Qed.

(** The member's own key signed the registration of this WireGuard key for this device. *)
Definition client_authorised (dev : string) (dm : DSMember) (k : string) : Prop :=
  ∃ pub dc env cp, decodeEd25519 (dm_IdentityKey dm) = Some pub ∧ dc ∈ dm_Clients dm ∧ dc_WGPublicKey dc = k ∧
    dc_RegistrationEnvelope dc = Some env ∧
    unmarshal_obj (MkRegister zero_fields "" "" "" "" "") dec_register (e_Payload env) = Some cp ∧
    cr_MemberID cp = dm_MemberID dm ∧ cr_PublicKey cp = k ∧
    Intent (cr_Fields cp) = "wg:client-register-" +:+ dev +:+ "-" +:+ dm_MemberID dm +:+ "-" +:+ k +:+ "-" +:+
                            itoa (Timestamp (cr_Fields cp)) ∧
    signed_by pub (AsMessage env "wg:client-register").

Lemma verify_client_sound s dev km dm pub dc r : decodeEd25519 (dm_IdentityKey dm) = Some pub → dc ∈ dm_Clients dm →
  verify_client s dev km dm pub dc = Ok (Some r) → client_authorised dev dm (c_WGPublicKey r.1).
Proof.
  intros Hp Hin. unfold verify_client. destruct (dc_RegistrationEnvelope dc) as [env|] eqn:Ee; [|done]. intros Hv. res_inv.
  cbn [fst c_WGPublicKey].
  repeat match goal with E : unit |- _ => destruct E end.
  match goal with E : attested _ _ _ _ _ _ = _ |- _ => apply attested_ok in E as [Hi Hs] end.
  match goal with E : negb _ = true |- _ => apply negb_true_iff, orb_false_iff in E as [E1 E2] end.
  apply negb_false_iff, seqb_true in E1, E2. rewrite E1 in Hi. unfold client_authorised. eauto 15.
Qed.

(** One member of the store a push installs. *)
Record member_authorised (dev owner nas : string) (km : KeyManager) (now : Z) (vApps : list App) (dm : DSMember)
    (m : MemberACLEntry) : Prop := {
  ma_identity : m_MemberID m = dm_MemberID dm ∧ m_Role m = dm_Role dm ∧ m_IdentityKey m = dm_IdentityKey dm;
  ma_admitted : is_admin m = false → member_admitted owner nas km now dm m;
  ma_status : status_authorised dev owner dm (m_Status m);
  ma_apps : permissions_authorised dev owner vApps (default [] (ad_InitialAllowedAppIDs <$> m_Admittance m)) dm (m_AllowedApps m);
  ma_clients : ∀ c, c ∈ m_Clients m → client_authorised dev dm (c_WGPublicKey c)
}.

Lemma verify_member_sound s dev owner nas km now vApps dm v : verify_member s dev owner nas km now vApps dm = Ok v →
  member_authorised dev owner nas km now vApps dm (v_Entry v).
Proof.
  unfold verify_member. intros Hv. res_inv. cbn [v_Entry].
  match goal with E : verify_admission _ _ _ _ _ _ = Ok ?a |- _ => rename E into Hadm; rename a into adm end.
  assert (Hi : ad_initial adm = default [] (ad_InitialAllowedAppIDs <$> ad_cert adm)).
  { destruct (ds_admin dm) eqn:Ea.
    - unfold verify_admission in Hadm. rewrite Ea in Hadm. by injection Hadm as <-.
    - destruct (verify_admission_sound _ _ _ _ _ _ _ Hadm Ea) as (cert & -> & -> & _). done. }
  constructor; cbn [m_MemberID m_Role m_IdentityKey m_Admittance m_Status m_AllowedApps m_Clients].
  - done.
  - intros Ha. destruct (verify_admission_sound _ _ _ _ _ _ _ Hadm Ha) as (cert & -> & _ & Hc). by exists cert.
  - by eapply verify_status_sound.
  - rewrite <- Hi. by eapply verify_permissions_sound.
  - intros c (r & -> & Hr)%list_elem_of_fmap. apply omap_id_elem in Hr.
    match goal with E : traverse _ _ = Ok _ |- _ => destruct (traverse_elem _ _ _ _ E Hr) as (dc & Hdc & Hf) end.
    by eapply verify_client_sound.
Qed.

(** *** Addresses do not change who is authorised *)

Definition readdressed (m m' : MemberACLEntry) : Prop :=
  m' = set_clients m (m_Clients m') ∧ map c_WGPublicKey (m_Clients m') = map c_WGPublicKey (m_Clients m).

Lemma authorised_readdressed dev owner nas km now vApps dm m m' :
  readdressed m m' → member_authorised dev owner nas km now vApps dm m → member_authorised dev owner nas km now vApps dm m'.
Proof.
  intros [Hm Hk] [Ai Aa As Ap Ac]. rewrite Hm. constructor; try done.
  intros c Hc. assert (c_WGPublicKey c ∈ map c_WGPublicKey (m_Clients m)) as (c0 & -> & Hc0)%list_elem_of_fmap.
  { rewrite <- Hk. by apply list_elem_of_fmap_2. }
  by apply Ac.
Qed.

Lemma assign_client_key leases a c a' c' : assign_client leases a c = (a', Ok c') → c_WGPublicKey c' = c_WGPublicKey c.
Proof.
  unfold assign_client. intros Hc. repeat case_match; try discriminate Hc; by injection Hc as _ <-.
Qed.

Lemma Forall2_keys cs cs' : Forall2 (λ c c', c_WGPublicKey c' = c_WGPublicKey c) cs cs' → map c_WGPublicKey cs' = map c_WGPublicKey cs.
Proof. induction 1; simpl; congruence. Qed.

Lemma assign_member_readdressed leases a m a' m' : assign_member leases a m = (a', Ok m') → readdressed m m'.
Proof.
  unfold assign_member. destruct (traverse_alloc _ _ _) as [a1 [cs|e]] eqn:E; [|done]. intros [= _ <-]. split; [done|].
  apply Forall2_keys. eapply traverse_alloc_ok; [|exact E]. intros ? ? ? ?. apply assign_client_key.
Qed.

Lemma derive_member_readdressed w m : readdressed m (derive_member w m).
Proof.
  split; [done|]. simpl. rewrite map_map. apply map_ext. intros c. unfold derive_client. by case_match.
Qed.

Lemma readdressed_trans a b c : readdressed a b → readdressed b c → readdressed a c.
Proof. intros [E1 K1] [E2 K2]. split; [by rewrite E2, E1|congruence]. Qed.

(** *** The steps of an applied push *)

Lemma remove_pruned_frame keys h : remove_pruned keys h =
  set_alloc (set_wg h (foldl (λ w k, RemovePeer k w) (wg h) keys)) (foldl (λ a k, Release k a) (alloc h) keys).
Proof.
  unfold remove_pruned. revert h. induction keys as [|k keys IH]; intros h; [by destruct h|]. cbn [foldl]. by rewrite IH.
Qed.

Lemma firewall_frame h : reconcileFirewallGrants h =
  set_fw h ((λ m, (SetPortGrants (map fw_grant (PortGrants (acl h))) m).1) <$> fw h).
Proof. unfold reconcileFirewallGrants. destruct h as [? ? ? ? ? ? ? ? ? [m|] ? ? ?]; done. Qed.

Lemma domain_frame io now cd owner h : reconcileCustomDomain io now cd owner h =
  set_domain h (customDomain (reconcileCustomDomain io now cd owner h)).
Proof. unfold reconcileCustomDomain. by repeat case_match; destruct h. Qed.

Lemma install_frame io now owner st vm gone h : let h' := install io now owner st vm gone h in
  acl h' = SetAppliedGeneration (ds_Generation st) now (acl h) ∧
  wg h' = foldl apply_member (foldl (λ w k, RemovePeer k w) (wg h) (removedClientKeys gone)) vm ∧
  alloc h' = foldl (λ a k, Release k a) (alloc h) (removedClientKeys gone) ∧
  fw h' = (λ m, (SetPortGrants (map fw_grant (PortGrants (acl h))) m).1) <$> fw h ∧
  (nonces h' = nonces h ∧ keys h' = keys h ∧ deviceID h' = deviceID h).
Proof. unfold install. cbv zeta. rewrite domain_frame, firewall_frame, remove_pruned_frame. done. Qed.

Definition nas_of (h : Handlers) : string := PublicKeyBase64 (keys h).

(** A push that was applied: what its phases computed, and the state it leaves. *)
Record applied_run (io : domain_io) (now : Z) (msg : TunnelMessage) (h h' : Handlers) (st : DeviceState) (owner : string)
    (vApps : list App) (vs : list verified) (a : IPAllocator) (assigned vm : list MemberACLEntry) (gone : list string) : Prop := {
  ar_dec : decodeDeviceState msg = Ok st;
  ar_gen : (generation (acl h) <= ds_Generation st)%Z;
  ar_pin : pinnedAdminPubKey (acl h) = Some owner;
  ar_apps : verify_apps (acl h) (deviceID h) owner (ds_Apps st) = Ok vApps;
  ar_members : verify_members (acl h) (deviceID h) owner (nas_of h) (keys h) now vApps (ds_Members st) = Ok vs;
  ar_assign : traverse_alloc (assign_member (lease_map (mjoin (map v_Leases vs)))) (alloc h) (map v_Entry vs) = (a, Ok assigned);
  ar_derive : vm = map (derive_member (wg h)) assigned;
  ar_valid : validateAdminPinLocked (acl h) vm = None;
  ar_gone : ∀ k, k ∈ gone ↔ k ∈ client_keys (members (acl h)) ∧ k ∉ client_keys vm;
  ar_acl : acl h' = SetAppliedGeneration (ds_Generation st) now (rebuildIndexes (with_apps (with_members (acl h) vm) vApps));
  ar_wg : wg h' = foldl apply_member (foldl (λ w k, RemovePeer k w) (wg h) gone) vm;
  ar_alloc : alloc h' = foldl (λ a k, Release k a) a gone;
  ar_fw : fw h' = (λ m, (SetPortGrants (map fw_grant (PortGrants (acl h'))) m).1) <$> fw h;
  ar_live : (λ l, (appliedOnce l, lastPositiveLiveness l, failClosed l)) <$> live h' = Some (true, now, false);
  ar_domain : ∃ h1, customDomain h1 = customDomain h ∧ deviceID h1 = deviceID h ∧
    customDomain h' = customDomain (reconcileCustomDomain io now (ds_CustomDomain st) owner h1)
}.

Lemma HandleDeviceState_cases io sender now msg h h' r : HandleDeviceState io sender now msg h = (h', r) →
  (∃ e, r = Err e ∧ h' = set_alloc h (alloc h')) ∨
  (r = Ok Ignored ∧ h' = h ∧ ∃ st, decodeDeviceState msg = Ok st ∧ (ds_Generation st < generation (acl h))%Z) ∨
  (∃ msgs, r = Ok (Applied msgs) ∧ ∃ st owner vApps vs a assigned vm gone,
     applied_run io now msg h h' st owner vApps vs a assigned vm gone).
Proof.
  assert (Hid : h = set_alloc h (alloc h)) by by destruct h.
  unfold HandleDeviceState. destruct (decodeDeviceState msg) as [st|e] eqn:Ed; [|intros [= <- <-]; left; eauto].
  destruct (_ && _); [intros [= <- <-]; left; eauto|].
  destruct (ds_Generation st <? _)%Z eqn:Eg; [intros [= <- <-]; apply Z.ltb_lt in Eg; right; left; eauto|].
  apply Z.ltb_ge in Eg. destruct (PinnedAdminPublicKey (acl h)) as [owner|] eqn:Ep; [|intros [= <- <-]; left; eauto].
  destruct (verify_apps _ _ _ _) as [vApps|e] eqn:Ea; [|intros [= <- <-]; left; eauto].
  destruct (verify_members _ _ _ _ _ _ _ _) as [vs|e] eqn:Em; [|intros [= <- <-]; left; eauto].
  unfold apply_state. destruct (traverse_alloc _ _ _) as [a [assigned|e]] eqn:Et; [|intros [= <- <-]; left; eauto]. cbv zeta.
  change (wg (set_alloc h a)) with (wg h). change (acl (set_alloc h a)) with (acl h).
  destruct (Reconcile _ _ _) as [s [gone|e]] eqn:Er; [|intros [= <- <-]; left; eauto].
  intros [= <- <-]. right. right. eexists. split; [reflexivity|]. apply Reconcile_ok in Er as (Hv & -> & _ & Hgone).
  exists st, owner, vApps, vs, a, assigned, (map (derive_member (wg h)) assigned), (removedClientKeys gone).
  set (vm := map (derive_member (wg h)) assigned) in *.
  set (h1 := set_acl (set_alloc h a) (rebuildIndexes (with_apps (with_members (acl h) vm) vApps))).
  destruct (install_frame io now owner st vm gone h1) as (Ha & Hw & Hal & Hf & _). constructor; try done.
  - by rewrite Hf, Ha.
  - set (h2 := remove_pruned (removedClientKeys gone) h1).
    exists (reconcileFirewallGrants (set_wg h2 (foldl apply_member (wg h2) vm))).
    rewrite firewall_frame. subst h2. rewrite remove_pruned_frame. split_and!; [done..|].
    unfold install. by rewrite firewall_frame, remove_pruned_frame.
Qed.

Lemma run_members now h st owner vApps vs a assigned m :
  verify_members (acl h) (deviceID h) owner (nas_of h) (keys h) now vApps (ds_Members st) = Ok vs →
  traverse_alloc (assign_member (lease_map (mjoin (map v_Leases vs)))) (alloc h) (map v_Entry vs) = (a, Ok assigned) →
  m ∈ map (derive_member (wg h)) assigned →
  ∃ dm, dm ∈ ds_Members st ∧ member_authorised (deviceID h) owner (nas_of h) (keys h) now vApps dm m.
Proof.
  intros Hmem Hassign (m1 & -> & [i Hi]%list_elem_of_lookup)%list_elem_of_fmap.
  apply (traverse_alloc_ok _ readdressed) in Hassign; [|intros ? ? ? ?; apply assign_member_readdressed].
  destruct (Forall2_lookup_r _ _ _ _ _ Hassign Hi) as (m0 & Hm0 & Hr).
  rewrite list_lookup_fmap in Hm0. apply fmap_Some in Hm0 as (v & Hv & ->). apply list_elem_of_lookup_2 in Hv.
  destruct (traverse_elem _ _ _ _ Hmem Hv) as (dm & Hdm & Hvm). exists dm. split; [done|].
  eapply authorised_readdressed; [|by eapply verify_member_sound].
  eapply readdressed_trans; [exact Hr|apply derive_member_readdressed].
Qed.

(** C3: after a push is applied, everything in the access-control store traces to a signature.
    Each app is one the pinned owner signed for this device. Each member comes from a member of
    the push: an admin has the pinned key, anyone else a certificate this agent issued (now, on
    an owner-signed and accepted invitation, or earlier); the status is the one the owner
    signed, active if none; the apps are those of the owner's signed permissions if any; and
    each client's WireGuard key was registered for this device with a signature of that very
    member's identity key. *)
Theorem applied_state_authorised io sender now msg h h' msgs :
  HandleDeviceState io sender now msg h = (h', Ok (Applied msgs)) →
  ∃ st owner, decodeDeviceState msg = Ok st ∧ pinnedAdminPubKey (acl h) = Some owner ∧
    pinnedAdminPubKey (acl h') = Some owner ∧
    (∀ a, a ∈ apps (acl h') → app_authorised (deviceID h) owner (ds_Apps st) a) ∧
    ∀ m, m ∈ members (acl h') →
      (is_admin m = true → m_IdentityKey m = Base64.encode owner) ∧
      ∃ dm, dm ∈ ds_Members st ∧ member_authorised (deviceID h) owner (nas_of h) (keys h) now (apps (acl h')) dm m.
Proof.
  intros [(e & He & _)|[(Hi & _)|(ms & _ & st & owner & vApps & vs & a & assigned & vm & gone & [])]]%HandleDeviceState_cases; [done..|].
  exists st, owner. rewrite ar_acl0. split_and!; [done..| |].
  - intros app. simpl. by eapply verify_apps_sound.
  - simpl. intros m Hm. split.
    + intros Ha. rewrite validate_none in ar_valid0. by apply (ar_valid0 owner).
    + subst vm. by eapply run_members.
Qed.

(** C16: a push has one of three outcomes. Rejected: the store, the peers, the firewall, the
    domain, the nonces and the liveness record are as before (the allocator may have handed out
    addresses). Ignored, being older than what was applied: nothing changed. Applied: the store
    carries the push's generation and the time, and fail-closed is lifted. In no case does the
    generation go back. *)
Theorem push_outcome io sender now msg h h' r : HandleDeviceState io sender now msg h = (h', r) →
  (generation (acl h) <= generation (acl h'))%Z ∧
  match r with
  | Err _ => h' = set_alloc h (alloc h')
  | Ok Ignored => h' = h ∧ ∃ st, decodeDeviceState msg = Ok st ∧ (ds_Generation st < generation (acl h))%Z
  | Ok (Applied _) => ∃ st, decodeDeviceState msg = Ok st ∧ generation (acl h') = ds_Generation st ∧
      lastAppliedAt (acl h') = now ∧
      (λ l, (appliedOnce l, lastPositiveLiveness l, failClosed l)) <$> live h' = Some (true, now, false)
  end.
Proof.
  intros [(e & -> & Hh)|[(-> & -> & st & Hst)|(ms & -> & st & owner & vApps & vs & a & assigned & vm & gone & [])]]%HandleDeviceState_cases.
  - split; [|done]. by rewrite Hh.
  - split; [done|]. eauto.
  - rewrite ar_acl0. split; [done|]. exists st. done.
Qed.

(** *** Peers *)

Lemma removed_peers keys w k : peers (foldl (λ w k, RemovePeer k w) w keys) !! k =
  if bool_decide (k ∈ keys) then None else peers w !! k.
Proof.
  revert w. induction keys as [|k0 keys IH]; intros w; cbn [foldl]; [done|]. rewrite IH.
  destruct (RemovePeer_state k0 w) as [_ ->].
  case_bool_decide; case_bool_decide; try set_solver; [|rewrite lookup_delete_ne; set_solver].
  destruct (decide (k = k0)) as [->|]; [apply lookup_delete_eq|set_solver].
Qed.

Definition key_of (k : string) (m : MemberACLEntry) : bool := existsb (has_key k) (m_Clients m).

Lemma key_of_spec k m : key_of k m = true ↔ ∃ c, c ∈ m_Clients m ∧ c_WGPublicKey c = k.
Proof. unfold key_of. rewrite existsb_exists. setoid_rewrite <- list_elem_of_In. unfold has_key. by setoid_rewrite seqb_true. Qed.

Lemma drop_clients_peers cs w k : k ≠ "" →
  peers (foldl (λ w c, if c_WGPublicKey c <>s "" then RemovePeer (c_WGPublicKey c) w else w) w cs) !! k =
  if existsb (has_key k) cs then None else peers w !! k.
Proof.
  intros Hk. revert w. induction cs as [|c cs IH]; intros w; cbn [foldl existsb]; [done|]. rewrite IH.
  unfold has_key at 2. destruct (c_WGPublicKey c =s "") eqn:E0; cbn [negb].
  - apply seqb_true in E0. rewrite E0. destruct ("" =s k) eqn:E1; [by apply seqb_true in E1; subst|done].
  - destruct (RemovePeer_state (c_WGPublicKey c) w) as [_ ->]. destruct (c_WGPublicKey c =s k) eqn:E1; cbn [orb].
    + apply seqb_true in E1 as ->. rewrite lookup_delete_eq. by destruct (existsb _ _).
    + apply seqb_false in E1. by rewrite lookup_delete_ne.
Qed.

Lemma add_clients_peers cs w k : existsb (has_key k) cs = false →
  peers (foldl (λ w c, if (c_WGPublicKey c =s "") || (c_TunnelIP c =s "") then w
                       else (AddPeer (c_WGPublicKey c) (c_TunnelIP c) w).1) w cs) !! k = peers w !! k.
Proof.
  revert w. induction cs as [|c cs IH]; intros w; cbn [foldl existsb]; [done|].
  rewrite orb_false_iff. intros [Hc Hcs]. rewrite (IH _ Hcs). destruct (_ || _); [done|].
  destruct (AddPeer _ _ w) as [w' r] eqn:E. cbn [fst]. rewrite (AddPeer_peers _ _ _ _ _ E).
  destruct r; [|done]. apply seqb_false in Hc. by rewrite lookup_insert_ne.
Qed.

(** Peers after the members have been gone through, for a key no active member has. *)
Lemma apply_members_peers ms w k : k ≠ "" →
  (∀ m, m ∈ ms → key_of k m = true → m_Status m = "suspended") →
  peers (foldl apply_member w ms) !! k = if existsb (key_of k) ms then None else peers w !! k.
Proof.
  intros Hk. revert w. induction ms as [|m ms IH]; intros w Hms; cbn [foldl existsb]; [done|].
  rewrite IH by (intros; apply Hms; [by right|done]). unfold apply_member. fold (key_of k m).
  destruct (key_of k m) eqn:Em.
  - rewrite (Hms m) by (try left; done). rewrite seqb_refl, drop_clients_peers by done. unfold key_of in Em. rewrite Em.
    by destruct (existsb (key_of k) ms).
  - cbn [orb]. destruct (existsb (key_of k) ms); [done|]. case_match.
    + rewrite drop_clients_peers by done. unfold key_of in Em. by rewrite Em.
    + by apply add_clients_peers.
Qed.

(** The blank key is never touched. *)
Lemma blank_peers ms w : peers (foldl apply_member w ms) !! "" = peers w !! "".
Proof.
  revert w. induction ms as [|m ms IH]; intros w; cbn [foldl]; [done|]. rewrite IH. unfold apply_member.
  destruct (m_Status m =s "suspended"); generalize (m_Clients m) as cs; clear; intros cs; revert w;
    induction cs as [|c cs IH]; intros w; cbn [foldl]; try done; rewrite IH; destruct (c_WGPublicKey c =s "") eqn:E;
    cbn [negb orb]; try done; apply seqb_false in E.
  - destruct (RemovePeer_state (c_WGPublicKey c) w) as [_ ->]. by rewrite lookup_delete_ne.
  - destruct (c_TunnelIP c =s ""); [done|]. destruct (AddPeer _ _ w) as [w' r] eqn:Ea. cbn [fst].
    rewrite (AddPeer_peers _ _ _ _ _ Ea). destruct r; [|done]. by rewrite lookup_insert_ne.
Qed.

(** Every peer of the server is a client of the store. *)
Definition covered (h : Handlers) : Prop := ∀ k, is_Some (peers (wg h) !! k) → k ∈ client_keys (members (acl h)).

Lemma push_peers_active io sender now msg h h' msgs : covered h →
  HandleDeviceState io sender now msg h = (h', Ok (Applied msgs)) →
  ∀ k, is_Some (peers (wg h') !! k) → ∃ m c, m ∈ members (acl h') ∧ c ∈ m_Clients m ∧ c_WGPublicKey c = k ∧
    m_Status m ≠ "suspended".
Proof.
  intros Hcov [(e & He & _)|[(Hi & _)|(ms & _ & st & owner & vApps & vs & a & assigned & vm & gone & [])]]%HandleDeviceState_cases k Hk;
    [done..|]. rewrite ar_acl0. cbn [members SetAppliedGeneration rebuildIndexes with_apps with_members].
  destruct (existsb (λ m, key_of k m && (m_Status m <>s "suspended")) vm) eqn:Ex.
  { apply existsb_exists in Ex as (m & Hm & [Hkm Hs]%andb_true_iff). apply list_elem_of_In in Hm.
    apply key_of_spec in Hkm as (c & Hc & Hck). apply negb_true_iff, seqb_false in Hs. eauto 6. }
  exfalso. assert (Hsus : ∀ m, m ∈ vm → key_of k m = true → m_Status m = "suspended").
  { intros m Hm Hkm. destruct (m_Status m =s "suspended") eqn:E; [by apply seqb_true|].
    assert (existsb (λ m, key_of k m && (m_Status m <>s "suspended")) vm = true); [|congruence].
    apply existsb_exists. exists m. rewrite <- list_elem_of_In, Hkm, E. done. }
  destruct (decide (k = "")) as [->|Hne].
  { rewrite ar_wg0, blank_peers, removed_peers in Hk. case_bool_decide; [by destruct Hk|]. apply Hcov in Hk. apply client_keys_spec in Hk as [? _]. done. }
  rewrite ar_wg0, apply_members_peers, removed_peers in Hk by done.
  destruct (existsb (key_of k) vm) eqn:Em; [by destruct Hk|]. case_bool_decide as Hin; [by destruct Hk|].
  apply Hin, ar_gone0. split; [by apply Hcov|]. intros (_ & m & c & Hm & Hc & Hck)%client_keys_spec.
  assert (existsb (key_of k) vm = true); [|congruence]. apply existsb_exists. exists m. rewrite <- list_elem_of_In.
  split; [done|]. apply key_of_spec. eauto.
Qed.

(** C7: once a push is applied, every WireGuard peer that is left is a client of a member of the
    new store who is not suspended, provided the server had no peers the store did not know:
    removed members, removed clients and suspended members have lost their peers. *)
Theorem applied_peers_active io sender now msg h h' msgs : covered h →
  HandleDeviceState io sender now msg h = (h', Ok (Applied msgs)) →
  ∀ k, is_Some (peers (wg h') !! k) → ∃ m c, m ∈ members (acl h') ∧ c ∈ m_Clients m ∧ c_WGPublicKey c = k ∧
    m_Status m ≠ "suspended".
Proof. apply push_peers_active. Qed.

(** *** Addresses *)

Lemma traverse_alloc_inv {A B} (f : IPAllocator → A → IPAllocator * result handler_error B)
    (I : IPAllocator → Prop) (Q : IPAllocator → B → Prop) a l a' ys :
  (∀ a x a' y, I a → f a x = (a', Ok y) → I a' ∧ allocated a ⊆ allocated a' ∧ Q a' y) →
  (∀ a a' y, allocated a ⊆ allocated a' → Q a y → Q a' y) →
  I a → traverse_alloc f a l = (a', Ok ys) → I a' ∧ allocated a ⊆ allocated a' ∧ Forall (Q a') ys.
Proof.
  intros Hf Hq. revert a ys. induction l as [|x l IH]; intros a ys Ha; simpl; [intros [= <- <-]; by split_and!|].
  destruct (f a x) as [a1 [y|e]] eqn:E; [|done]. destruct (Hf _ _ _ _ Ha E) as (H1' & H2' & H3').
  destruct (traverse_alloc f a1 l) as [a2 [zs|e]] eqn:E2; [|done]. intros [= -> <-].
  destruct (IH _ _ H1' E2) as (H4' & H5' & H6'). split_and!; [done|by etrans|]. constructor; [|done]. by eapply Hq.
Qed.

(** A client with a key has the address the allocator holds for the key. *)
Definition addressed (a : IPAllocator) (c : ClientRecord) : Prop :=
  c_WGPublicKey c ≠ "" → allocated a !! c_WGPublicKey c = Some (c_TunnelIP c).

Lemma addressed_mono a a' c : allocated a ⊆ allocated a' → addressed a c → addressed a' c.
Proof. intros Hs Hc Hk. eapply lookup_weaken; [by apply Hc|done]. Qed.

Lemma Allocate_grows k a a' ip : Allocate k a = (a', Ok ip) → allocated a ⊆ allocated a' ∧ allocated a' !! k = Some ip.
Proof.
  unfold Allocate. destruct (allocated a !! k) as [ip0|] eqn:E; [by intros [= <- <-]|].
  case_match; [|done]. intros [= <- <-]. simpl. split; [by apply insert_subseteq|apply lookup_insert_eq].
Qed.

Lemma TryAdopt_grows k ip a a' : allocated a !! k = None → TryAdopt k ip a = (a', true) →
  allocated a ⊆ allocated a' ∧ allocated a' !! k = Some ip.
Proof.
  intros E. unfold TryAdopt. repeat case_match; try done; intros [= <-]; simpl; try congruence.
  split; [by apply insert_subseteq|apply lookup_insert_eq].
Qed.

Lemma TryAdopt_refused k ip a a' : TryAdopt k ip a = (a', false) → a' = a.
Proof. unfold TryAdopt. repeat case_match; congruence. Qed.

Lemma assign_client_spec leases a c a' c' : Inv a → assign_client leases a c = (a', Ok c') →
  Inv a' ∧ allocated a ⊆ allocated a' ∧ addressed a' c'.
Proof.
  intros Ha. unfold assign_client, addressed. cbv zeta. destruct (c_WGPublicKey c =s "") eqn:E0.
  { intros [= <- <-]. split_and!; try done. apply seqb_true in E0. by rewrite E0. }
  destruct (Lookup (c_WGPublicKey c) a <>s "") eqn:El.
  { intros [= <- <-]. split_and!; try done. intros _. simpl. apply negb_true_iff, seqb_false in El.
    unfold Lookup in *. by destruct (allocated a !! c_WGPublicKey c). }
  assert (Hn : allocated a !! c_WGPublicKey c = None).
  { destruct (allocated a !! c_WGPublicKey c) as [ip|] eqn:E; [|done]. apply (inv_prefix _ Ha) in E as Hp.
    apply negb_false_iff, seqb_true in El. unfold Lookup in El. rewrite E in El. simpl in El. subst.
    apply has_prefix_spec in Hp as [r Hr]. by destruct (prefix a). }
  match goal with |- (let '(_, _) := ?x in _) = _ → _ => destruct x as [a1 ad] eqn:Et end.
  assert (Hi1 : Inv a1 ∧ (ad = false → a1 = a) ∧
    (ad = true → allocated a ⊆ allocated a1 ∧ allocated a1 !! c_WGPublicKey c = Some (default "" (leases !! c_WGPublicKey c)))).
  { destruct (default "" (leases !! c_WGPublicKey c) <>s "") in Et; [|injection Et as <- <-; done].
    split_and!; [change a1 with (a1, ad).1; rewrite <- Et; by apply try_adopt_inv| |]; intros ->;
      [by eapply TryAdopt_refused|by apply TryAdopt_grows]. }
  destruct Hi1 as (Hi1 & Hf & Ht). destruct ad.
  { intros [= <- <-]. destruct (Ht eq_refl). done. }
  destruct (Allocate (c_WGPublicKey c) a1) as [a2 [ip|e]] eqn:Ea; [|done]. intros [= <- <-].
  rewrite (Hf eq_refl) in *. destruct (Allocate_grows _ _ _ _ Ea). split_and!; [|done|done].
  change a2 with (a2, Ok ip : result alloc_error string).1. rewrite <- Ea. by apply allocate_inv.
Qed.

Lemma assign_members_spec leases a l a' ms : Inv a → traverse_alloc (assign_member leases) a l = (a', Ok ms) →
  Inv a' ∧ allocated a ⊆ allocated a' ∧ Forall (λ m, Forall (addressed a') (m_Clients m)) ms.
Proof.
  apply (traverse_alloc_inv _ _ (λ a m, Forall (addressed a) (m_Clients m))).
  - intros a0 m a1 m' Hi. unfold assign_member.
    destruct (traverse_alloc _ _ (m_Clients m)) as [a2 [cs|e]] eqn:E; [|done]. intros [= <- <-].
    apply (traverse_alloc_inv _ Inv addressed) in E; [exact E| |apply addressed_mono|done].
    intros ? ? ? ? Hi'. by apply assign_client_spec.
  - intros a0 a1 m Hs Hc. eapply Forall_impl; [exact Hc|]. intros c. by apply addressed_mono.
Qed.

Lemma release_keys a ks k : k ∉ ks → Inv a →
  Inv (foldl (λ a k, Release k a) a ks) ∧ allocated (foldl (λ a k, Release k a) a ks) !! k = allocated a !! k.
Proof.
  revert a. induction ks as [|k0 ks IH]; intros a Hk Hi; cbn [foldl]; [done|].
  apply not_elem_of_cons in Hk as [Hk0 Hk]. destruct (IH (Release k0 a) Hk (release_inv _ _ Hi)) as [H1' ->].
  split; [done|]. unfold Release. case_match; [|done]. simpl. by rewrite lookup_delete_ne.
Qed.

Lemma derived_addressed a ks w c : Inv a → addressed a c → c_WGPublicKey (derive_client w c) ≠ "" →
  c_WGPublicKey (derive_client w c) ∉ ks →
  allocated a !! c_WGPublicKey (derive_client w c) = Some (c_TunnelIP (derive_client w c)) ∧
  allocated (foldl (λ a k, Release k a) a ks) !! c_WGPublicKey (derive_client w c) = Some (c_TunnelIP (derive_client w c)) ∧
  c_TunnelIPv6 (derive_client w c) = WgServer.TunnelIPv6 w (c_TunnelIP (derive_client w c)).
Proof.
  intros Hi Hc Hk Hn. assert (Ek : c_WGPublicKey (derive_client w c) = c_WGPublicKey c) by (unfold derive_client; by case_match).
  assert (Ei : c_TunnelIP (derive_client w c) = c_TunnelIP c) by (unfold derive_client; by case_match).
  rewrite Ek in *. rewrite Ei. pose proof (Hc Hk) as Hal. destruct (release_keys a ks _ Hn Hi) as [_ ->]. split_and!; [done..|].
  unfold derive_client. apply (inv_prefix _ Hi) in Hal as (r & Hr)%has_prefix_spec.
  destruct (c_TunnelIP c =s "") eqn:E; [|done]. apply seqb_true in E. rewrite E in Hr. by destruct (prefix a).
Qed.

Lemma push_addresses io sender now msg h h' msgs : Inv (alloc h) →
  HandleDeviceState io sender now msg h = (h', Ok (Applied msgs)) →
  Inv (alloc h') ∧ ∀ m c, m ∈ members (acl h') → c ∈ m_Clients m → c_WGPublicKey c ≠ "" →
    allocated (alloc h') !! c_WGPublicKey c = Some (c_TunnelIP c) ∧
    (∀ ip, allocated (alloc h) !! c_WGPublicKey c = Some ip → c_TunnelIP c = ip) ∧
    c_TunnelIPv6 c = WgServer.TunnelIPv6 (wg h) (c_TunnelIP c) ∧
    (∀ m' c', m' ∈ members (acl h') → c' ∈ m_Clients m' → c_WGPublicKey c' ≠ "" → c_TunnelIP c' = c_TunnelIP c →
       c_WGPublicKey c' = c_WGPublicKey c).
Proof.
  intros Hi [(e & He & _)|[(? & _)|(ms & _ & st & owner & vApps & vs & a & assigned & vm & gone & [])]]%HandleDeviceState_cases; [done..|].
  rewrite ar_acl0, ar_alloc0. cbn [members SetAppliedGeneration rebuildIndexes with_apps with_members].
  destruct (assign_members_spec _ _ _ _ _ Hi ar_assign0) as (Hia & Hsub & Hall).
  assert (Hend : Inv (foldl (λ a k, Release k a) a gone)).
  { clear -Hia. revert a Hia. induction gone as [|k l IH]; intros a Hia; [done|]. by apply IH, release_inv. }
  assert (Hone : ∀ m c, m ∈ vm → c ∈ m_Clients m → c_WGPublicKey c ≠ "" →
    allocated a !! c_WGPublicKey c = Some (c_TunnelIP c) ∧
    allocated (foldl (λ a k, Release k a) a gone) !! c_WGPublicKey c = Some (c_TunnelIP c) ∧
    c_TunnelIPv6 c = WgServer.TunnelIPv6 (wg h) (c_TunnelIP c)).
  { intros m c Hm Hc Hk. assert (Hnot : c_WGPublicKey c ∉ gone).
    { intros [_ Hx]%ar_gone0. apply Hx, client_keys_spec. eauto 6. }
    subst vm. apply list_elem_of_fmap in Hm as (m0 & -> & Hm0). simpl in Hc. apply list_elem_of_fmap in Hc as (c0 & -> & Hc0).
    rewrite Forall_forall in Hall. specialize (Hall m0 Hm0). rewrite Forall_forall in Hall. specialize (Hall c0 Hc0).
    by eapply derived_addressed. }
  split; [done|]. intros m c Hm Hc Hk. destruct (Hone m c Hm Hc Hk) as (A1 & A2 & A3). split_and!; [done| |done|].
  - intros ip Hip. pose proof (lookup_weaken _ _ _ _ Hip Hsub). congruence.
  - intros m' c' Hm' Hc' Hk' Heq. destruct (Hone m' c' Hm' Hc' Hk') as (B1 & _). rewrite Heq in B1. by eapply (inv_inj _ Hia).
Qed.

(** The agent owns the binding of keys to addresses. After a push is applied each client of
    the store has, for its key, exactly the address the allocator holds; a key that had an
    address before the push keeps it, whatever lease the push carries; two clients with one
    address have one key; the IPv6 address is the one derived from the IPv4 address. *)
Theorem applied_addresses io sender now msg h h' msgs : Inv (alloc h) →
  HandleDeviceState io sender now msg h = (h', Ok (Applied msgs)) →
  Inv (alloc h') ∧ ∀ m c, m ∈ members (acl h') → c ∈ m_Clients m → c_WGPublicKey c ≠ "" →
    allocated (alloc h') !! c_WGPublicKey c = Some (c_TunnelIP c) ∧
    (∀ ip, allocated (alloc h) !! c_WGPublicKey c = Some ip → c_TunnelIP c = ip) ∧
    c_TunnelIPv6 c = WgServer.TunnelIPv6 (wg h) (c_TunnelIP c) ∧
    (∀ m' c', m' ∈ members (acl h') → c' ∈ m_Clients m' → c_WGPublicKey c' ≠ "" → c_TunnelIP c' = c_TunnelIP c →
       c_WGPublicKey c' = c_WGPublicKey c).
Proof. apply push_addresses. Qed.

(** *** Raw ports, from the owner's signature to the packet filter *)

Lemma SetPortGrants_holds g m : portGrants (SetPortGrants g m).1 = g.
Proof.
  unfold SetPortGrants. destruct (grantsEqual (portGrants m) g) eqn:E; [by apply grantsEqual_iff|].
  destruct (negb _); [done|]. by rewrite Apply_grants.
Qed.

(** The member behind a packet from [src] to [port]. *)
Definition entitled_port (s : Store) (v6 : bool) (p : packet) : Prop :=
  ∃ m c a, m ∈ members s ∧ m_Status m ≠ "suspended" ∧ c ∈ m_Clients m ∧
    (if v6 then c_TunnelIPv6 c else c_TunnelIP c) = src p ∧ src p ≠ "" ∧ a ∈ m_AllowedApps m ∧
    IsPort a = true ∧ app_Port a = dport p ∧ (is_tcp a = true ∧ proto p = "tcp" ∨ is_udp a = true ∧ proto p = "udp").

Lemma grant_entitled s m v6 p : portGrants m = map fw_grant (PortGrants s) → granted m v6 p → entitled_port s v6 p.
Proof.
  intros Hg (_ & Hne & g & Hin & Hsrc & Hport). rewrite Hg in Hin. apply list_elem_of_fmap in Hin as (g0 & -> & Hin).
  apply grant_inv in Hin as (mem & c & Hm & Hc & Hs & -> & _). unfold source_of, fw_grant in *. simpl in *.
  assert (m_Status mem ≠ "suspended") by (intros E; unfold suspended in Hs; rewrite E in Hs; by vm_compute in Hs).
  destruct Hport as [[Hp Hd]|[Hp Hd]]; apply port_filter_inv in Hd as (app & Ha & Hport & Hi & Hq & _);
    exists mem, c, app; split_and!; auto.
Qed.


(** *** Fail-closed *)

Lemma time_sub_lt a b d : (min_duration <= d < max_duration)%Z → (d < time_sub a b)%Z ↔ (d < a - b)%Z.
Proof. unfold time_sub, min_duration, max_duration. lia. Qed.

(** No usable verified state: never applied since boot, with nothing recent on disk, for ninety
    seconds; or the last sign of the server is older than half an hour. *)
Definition unusable (now : Z) (h : Handlers) : Prop :=
  let l := liveness now h in
  let at_ := lastAppliedAt (acl h) in
  let ref := if is_zero_time (lastPositiveLiveness l) then at_ else lastPositiveLiveness l in
  (appliedOnce l = false ∧ (at_ = zero_time ∨ (staleBound < now - at_)%Z) ∧ (coldStartTimeout < now - bootAt l)%Z) ∨
  (appliedOnce l = true ∧ ref ≠ zero_time ∧ (staleBound < now - ref)%Z).

Lemma foldl_keys ms w :
  foldl (λ w c, if c_WGPublicKey c =s "" then w else RemovePeer (c_WGPublicKey c) w) w (mjoin (map m_Clients ms)) =
  foldl (λ w k, if k =s "" then w else RemovePeer k w) w (map c_WGPublicKey (mjoin (map m_Clients ms))).
Proof. generalize (mjoin (map m_Clients ms)) as cs. intros cs. revert w. induction cs as [|c cs IH]; intros w; simpl; auto. Qed.

Lemma drop_peers_spec ms w k : peers (drop_peers ms w) !! k =
  if bool_decide (k ∈ client_keys ms) then None else peers w !! k.
Proof.
  unfold drop_peers, client_keys. rewrite (foldl_keys ms). generalize (map c_WGPublicKey (mjoin (map m_Clients ms))) as ks.
  intros ks. revert w. induction ks as [|k0 ks IH]; intros w; [done|]. cbn [foldl List.filter]. rewrite IH.
  destruct (k0 =s "") eqn:E; cbn [negb]; [done|]. destruct (RemovePeer_state k0 w) as [_ ->].
  case_bool_decide; case_bool_decide; try set_solver; [|rewrite lookup_delete_ne; set_solver].
  destruct (decide (k = k0)) as [->|]; [apply lookup_delete_eq|set_solver].
Qed.

Lemma dropAllPeers_spec h x : wg x = wg h → acl x = acl h →
  (∀ k, k ∈ client_keys (members (acl h)) → peers (wg (dropAllPeers x)) !! k = None) ∧
  (covered h → peers (wg (dropAllPeers x)) = ∅).
Proof.
  intros Hw Ha. unfold dropAllPeers. cbn [wg set_wg]. rewrite Hw, Ha. split.
  - intros k Hk. rewrite drop_peers_spec. by rewrite bool_decide_true.
  - intros Hc. apply map_empty. intros k. rewrite drop_peers_spec. case_bool_decide as Hk; [done|].
    apply eq_None_not_Some. intros Hs. by apply Hk, Hc.
Qed.

Lemma bound_range d : d = staleBound ∨ d = coldStartTimeout → (min_duration <= d < max_duration)%Z.
Proof. intros [->| ->]; vm_compute; by split; [intros Ec|]. Qed.

Lemma is_zero_time_true t : is_zero_time t = true ↔ t = zero_time.
Proof. apply Z.eqb_eq. Qed.

Lemma fail_closed_drops now h : failClosed (liveness now h) = false →
  let h' := checkLiveness now h in
  acl h' = acl h ∧ alloc h' = alloc h ∧ fw h' = fw h ∧
  (unusable now h → failClosed <$> live h' = Some true ∧
     (∀ k, k ∈ client_keys (members (acl h)) → peers (wg h') !! k = None) ∧ (covered h → peers (wg h') = ∅)) ∧
  (~ unusable now h → failClosed <$> live h' = Some false ∧ wg h' = wg h).
Proof.
  intros Hfc. unfold checkLiveness, LastAppliedAt. rewrite Hfc. cbv zeta.
  unfold unusable. cbv zeta. set (l := liveness now h) in *.
  destruct (appliedOnce l) eqn:Eo; cbn [negb].
  - set (ref := if is_zero_time (lastPositiveLiveness l) then _ else _).
    destruct (negb (is_zero_time ref) && (staleBound <? time_sub now ref)%Z) eqn:Et.
    + apply andb_true_iff in Et as [Et1 Et2]. apply Z.ltb_lt, time_sub_lt in Et2; [|apply bound_range; auto].
      apply negb_true_iff, not_true_iff_false in Et1. rewrite is_zero_time_true in Et1.
      split_and!; [done..|intros _; split; [done|by apply dropAllPeers_spec]|]. intros Hn. destruct Hn. right. done.
    + split_and!; [done..| |intros _; simpl; by rewrite Hfc].
      intros [[? _]|(_ & Hr & Hs)]; [done|]. apply andb_false_iff in Et as [Et|Et].
      * apply negb_false_iff, is_zero_time_true in Et. done.
      * apply Z.ltb_ge in Et. assert (staleBound < time_sub now ref)%Z by (apply time_sub_lt; [apply bound_range; auto|done]). lia.
  - destruct (negb (is_zero_time (lastAppliedAt (acl h))) && (time_sub now (lastAppliedAt (acl h)) <=? staleBound)%Z) eqn:Ea.
    + split_and!; [done..| |done]. apply andb_true_iff in Ea as [Ea1 Ea2]. apply negb_true_iff, not_true_iff_false in Ea1.
      rewrite is_zero_time_true in Ea1. apply Z.leb_le in Ea2. intros [(_ & [?|Hs] & _)|[? _]]; [done| |done].
      assert (staleBound < time_sub now (lastAppliedAt (acl h)))%Z by (apply time_sub_lt; [apply bound_range; auto|done]). lia.
    + assert (Hold : lastAppliedAt (acl h) = zero_time ∨ (staleBound < now - lastAppliedAt (acl h))%Z).
      { apply andb_false_iff in Ea as [Ea|Ea]; [left; by apply negb_false_iff, is_zero_time_true in Ea|right].
        apply Z.leb_gt in Ea. by apply time_sub_lt in Ea; [|apply bound_range; auto]. }
      destruct (coldStartTimeout <? time_sub now (bootAt l))%Z eqn:Ec.
      * apply Z.ltb_lt, time_sub_lt in Ec; [|apply bound_range; auto]. split_and!; [done..|intros _; split; [done|by apply dropAllPeers_spec]|].
        intros Hn. destruct Hn. left. done.
      * split_and!; [done..| |intros _; simpl; by rewrite Hfc]. apply Z.ltb_ge in Ec. intros [(_ & _ & Hs)|[? _]]; [|done].
        assert (coldStartTimeout < time_sub now (bootAt l))%Z by (apply time_sub_lt; [apply bound_range; auto|done]). lia.
Qed.


(** A heartbeat acknowledgement moves the liveness clock, and only when the server confirms the
    very generation that is applied. *)
Lemma heartbeat_frame now msg h : let h' := (HandleHeartbeatAck now msg h).1 in
  h' = h ∨ h' = markLiveness now false h ∧
    unmarshal_obj 0%Z (assign dec_int64 0%Z "generation") (t_Payload msg) = Some (generation (acl h)).
Proof.
  unfold HandleHeartbeatAck, AppliedGeneration. cbv zeta. destruct (unmarshal_obj _ _ _) as [g|]; [|by left]. cbn [fst].
  destruct (g =? generation (acl h))%Z eqn:E; [|by left]. apply Z.eqb_eq in E as ->. by right.
Qed.

(** *** The custom domain *)

(** The custom-domain row changes only by being cleared, when the push has no domain, or by
    being set to the zone that an envelope signed with the pinned owner key names for this
    device, once its certificate has been obtained; the row keeps the envelope's payload and
    signature. A push that repeats the zone leaves the row as it is. *)
Theorem custom_domain_authorised io sender now msg h h' r row' :
  HandleDeviceState io sender now msg h = (h', r) → customDomain h' ≠ customDomain h → customDomain h' = Some row' →
  ∃ st owner, decodeDeviceState msg = Ok st ∧ pinnedAdminPubKey (acl h) = Some owner ∧
    (row' = None ∧ ds_CustomDomain st = None ∨
     ∃ row env p, row' = Some row ∧ ds_CustomDomain st = Some env ∧
       unmarshal_obj (MkDomainSet zero_fields "" "" "") dec_domain_set (e_Payload env) = Some p ∧
       cd_ParentZone row = normaliseZone (ds_ParentZone p) ∧ cd_ParentZone row ≠ "" ∧
       cd_Payload row = e_Payload env ∧ cd_OwnerSig row = e_Signature env ∧
       Intent (ds_Fields p) = "custom-domain-set-" +:+ deviceID h +:+ "-" +:+ cd_ParentZone row ∧
       signed_by owner (AsMessage env "device:custom-domain-set") ∧ cert_obtained io (cd_ParentZone row) = true).
Proof.
  intros [(e & _ & ->)|[(_ & -> & _)|(ms & _ & st & owner & vApps & vs & a & assigned & vm & gone & [])]]%HandleDeviceState_cases Hne Hrow;
    [done..|]. exists st, owner. split; [done|]. split; [done|]. destruct ar_domain0 as (h1 & Hd & Hdev & Hh').
  rewrite <- Hd, Hh' in Hne. rewrite Hh' in Hrow. rewrite <- Hdev. clear -Hne Hrow.
  unfold reconcileCustomDomain in *. destruct (customDomain h1) as [row|] eqn:Er; [|congruence].
  destruct (ds_CustomDomain st) as [env|].
  - right. destruct (unmarshal_obj _ _ _) as [p|] eqn:Ep; [|congruence]. cbv zeta in *.
    destruct (normaliseZone (ds_ParentZone p) =s "") eqn:Ez; [congruence|]. apply seqb_false in Ez.
    destruct (verifyAuthorization _ _ _ _ _) as [[]|] eqn:Ev; [|congruence].
    assert (Ha : attested (acl h1) env "device:custom-domain-set" owner (ds_Fields p)
      ("custom-domain-set-" +:+ deviceID h1 +:+ "-" +:+ normaliseZone (ds_ParentZone p)) = Ok tt)
      by (unfold attested; by rewrite Ev).
    apply attested_ok in Ha as [Hi Hs]. destruct (_ && _); [congruence|].
    destruct (cert_obtained io _) eqn:Ec; cbn [negb] in *; [|congruence]. destruct (row_written io); [|congruence].
    cbn [customDomain set_domain] in Hrow. injection Hrow as <-. eexists _, env, p. split_and!; [reflexivity|..]; done.
  - destruct (_ && _); [|congruence]. cbn [customDomain set_domain] in Hrow. injection Hrow as <-. by left.
Qed.
End Sound.

(** ** Concrete pushes *)

Module DevDemo.
#[local] Existing Instance AclStore.Demo.ascii_only.
#[local] Existing Instance Toy.prims.
#[local] Existing Instance HandDemo.normal.
#[local] Existing Instance HandDemo.on_host.
#[local] Existing Instance HandDemo.urls.
#[local] Instance plain : Gzip := {| gunzip n s := Some s |}.

Definition pin : string := EnvDemo.pin.
Definition key : string := HandDemo.key.
Definition bob_key : string := EnvDemo.member_key.

(** An item of the push, signed with [k]. *)
Definition item (k : string) (payload : json) : json :=
  JObj [("payload", payload); ("signerId", JStr "s");
        ("signature", JStr (Base64.encode (Toy.tag k (match writeValue (to_any payload) with Ok c => c | Err _ => "" end))))].

Definition app_item (k : string) : json :=
  JObj [("envelope", item k (JObj [("intent", JStr "app:upserted-d-a2");
    ("app", JObj [("id", JStr "a2"); ("type", JStr "port"); ("port", JNum "22"); ("protocol", JStr "tcp")])]))].

Definition client_item (k member wgKey : string) : json :=
  JObj [("wgPublicKey", JStr wgKey);
        ("registrationEnvelope", item k (JObj [("intent", JStr ("wg:client-register-d-" +:+ member +:+ "-" +:+ wgKey +:+ "-7"));
           ("ts", JNum "7"); ("memberId", JStr member); ("publicKey", JStr wgKey)]))].

Definition owner_item : json :=
  JObj [("memberId", JStr "o"); ("role", JStr "owner"); ("identityKey", JStr (Base64.encode pin));
        ("clients", JArr [client_item pin "o" key])].

(** A certificate this agent issued to Bob, and Bob suspended or not. *)
Definition bob_cert : AdmittanceCertificate :=
  match MintAdmittanceCertificate "b" (Base64.encode bob_key) (nas_of HandDemo.handlers) "invite" ["a2"]
          EnvDemo.agent_key (5 * second) with Ok c => c | Err _ => zero_admittance end.
Definition bob_wg : string := "BBBBBBBBBBBBBBBBBBBBBBBBBBBBBBBBBBBBBBBBBBA=".
Definition bob_item (status : string) : json :=
  JObj [("memberId", JStr "b"); ("role", JStr "member"); ("identityKey", JStr (Base64.encode bob_key));
        ("admittance", JObj [("memberId", JStr (ad_MemberID bob_cert)); ("identityKey", JStr (ad_IdentityKey bob_cert));
           ("nasPubkey", JStr (ad_NASPubkey bob_cert)); ("admittedAt", JNum (itoa (ad_AdmittedAt bob_cert)));
           ("attestationHash", JStr (ad_AttestationHash bob_cert));
           ("initialAllowedAppIds", JArr (map JStr (ad_InitialAllowedAppIDs bob_cert)));
           ("signature", JStr (ad_Signature bob_cert))]);
        ("statusEnvelope", item pin (JObj [("intent", JStr ("member:status-d-b-" +:+ status +:+ "-9")); ("ts", JNum "9");
           ("memberId", JStr "b"); ("status", JStr status)]));
        ("clients", JArr [client_item bob_key "b" bob_wg])].

Definition push (generation : string) (apps members : list json) (domain : list (string * json)) : TunnelMessage :=
  MkMessage "device:state" "" (Some (JObj ([("deviceId", JStr "d"); ("generation", JNum generation);
    ("apps", JArr apps); ("members", JArr members)] ++ domain))) "" "".

Definition domain_item : list (string * json) :=
  [("customDomain", JObj [("envelope", item pin (JObj [("intent", JStr "custom-domain-set-d-home.example");
      ("parentZone", JStr "*.Home.Example.")]))])].

Definition full (status : string) : TunnelMessage := push "3" [app_item pin] [owner_item; bob_item status] domain_item.

Definition io : domain_io := MkIO true (λ _, true) true true.

(** The agent of [HandDemo] with a firewall and the domain feature wired. *)
Definition start : Handlers :=
  set_domain (set_fw HandDemo.handlers (Some Firewall.Demo.manager)) (Some None).

Definition run (msg : TunnelMessage) (h : Handlers) : Handlers * result handler_error outcome :=
  HandleDeviceState io true (1000 * second) msg h.
Definition after (msg : TunnelMessage) (h : Handlers) : Handlers := (run msg h).1.

Definition summary (h : Handlers) : Z * list (string * string * list string) * list string :=
  (generation (acl h), map (λ m, (m_MemberID m, m_Status m, map c_TunnelIP (m_Clients m))) (members (acl h)),
   map fst (map_to_list (peers (wg h)))).

Example applied_active : summary (after (full "active") start) =
  (3%Z, [("o", "active", ["100.64.9.2"]); ("b", "active", ["100.64.9.3"])], [key; bob_wg]).
Proof. vm_compute. reflexivity. Qed.

Example applied_suspended : summary (after (full "suspended") (after (full "active") start)) =
  (3%Z, [("o", "active", ["100.64.9.2"]); ("b", "suspended", ["100.64.9.3"])], [key]).
Proof. vm_compute. reflexivity. Qed.

(** A forged app envelope rejects the whole push. *)
Example forged_rejected : (run (push "3" [app_item bob_key] [owner_item; bob_item "active"] []) start).2 =
  Err (HEnvelope ErrInvalidSignature).
Proof. vm_compute. reflexivity. Qed.

Definition is_applied (r : result handler_error outcome) : bool :=
  match r with Ok (Applied _) => true | _ => false end.

Local Notation pushed := (HandleDeviceState io true (1000 * second) (full "suspended") start).
Lemma pushed_applied : is_applied pushed.2 = true.
Proof. vm_compute. reflexivity. Qed.

Lemma applied_state_authorised_witness :
  match pushed with
  | (h', Ok (Applied _)) =>
      ∃ st owner, decodeDeviceState (full "suspended") = Ok st ∧ pinnedAdminPubKey (acl start) = Some owner ∧
        pinnedAdminPubKey (acl h') = Some owner ∧
        (∀ a, a ∈ apps (acl h') → app_authorised (deviceID start) owner (ds_Apps st) a) ∧
        ∀ m, m ∈ members (acl h') →
          (is_admin m = true → m_IdentityKey m = Base64.encode owner) ∧
          ∃ dm, dm ∈ ds_Members st ∧
            member_authorised (deviceID start) owner (nas_of start) (keys start) (1000 * second) (apps (acl h')) dm m
  | _ => False
  end.
Proof.
  pose proof pushed_applied as Hok. destruct pushed as [h' [[|msgs]|e]] eqn:E; [discriminate Hok| |discriminate Hok].
  exact (applied_state_authorised io true (1000 * second) (full "suspended") start h' msgs E).
Defined.

Lemma push_outcome_witness :
  match pushed with
  | (h', Ok (Applied _)) =>
      (generation (acl start) <= generation (acl h'))%Z ∧ ∃ st, decodeDeviceState (full "suspended") = Ok st ∧
        generation (acl h') = ds_Generation st ∧ lastAppliedAt (acl h') = (1000 * second)%Z ∧
        (λ l, (appliedOnce l, lastPositiveLiveness l, failClosed l)) <$> live h' = Some (true, (1000 * second)%Z, false)
  | _ => False
  end.
Proof.
  pose proof pushed_applied as Hok. destruct pushed as [h' [[|msgs]|e]] eqn:E; [discriminate Hok| |discriminate Hok].
  exact (push_outcome io true (1000 * second) (full "suspended") start h' (Ok (Applied msgs)) E).
Defined.

Lemma start_covered : covered start.
Proof. intros k [p Hp]. change (peers (wg start)) with (∅ : gmap string Peer) in Hp. rewrite lookup_empty in Hp. discriminate Hp. Qed.

Lemma applied_peers_active_witness :
  match pushed with
  | (h', Ok (Applied _)) => ∀ k, is_Some (peers (wg h') !! k) → ∃ m c, m ∈ members (acl h') ∧ c ∈ m_Clients m ∧
      c_WGPublicKey c = k ∧ m_Status m ≠ "suspended"
  | _ => False
  end.
Proof.
  pose proof pushed_applied as Hok. destruct pushed as [h' [[|msgs]|e]] eqn:E; [discriminate Hok| |discriminate Hok].
  exact (applied_peers_active io true (1000 * second) (full "suspended") start h' msgs start_covered E).
Defined.

Lemma start_alloc : Inv (alloc start).
Proof.
  constructor; [unfold reserved; simpl; set_solver|..]; intros *;
    change (allocated (alloc start)) with (∅ : gmap string string); rewrite lookup_empty; discriminate.
Qed.

Lemma applied_addresses_witness :
  match pushed with
  | (h', Ok (Applied _)) =>
      Inv (alloc h') ∧ ∀ m c, m ∈ members (acl h') → c ∈ m_Clients m → c_WGPublicKey c ≠ "" →
        allocated (alloc h') !! c_WGPublicKey c = Some (c_TunnelIP c) ∧
        (∀ ip, allocated (alloc start) !! c_WGPublicKey c = Some ip → c_TunnelIP c = ip) ∧
        c_TunnelIPv6 c = WgServer.TunnelIPv6 (wg start) (c_TunnelIP c) ∧
        (∀ m' c', m' ∈ members (acl h') → c' ∈ m_Clients m' → c_WGPublicKey c' ≠ "" → c_TunnelIP c' = c_TunnelIP c →
           c_WGPublicKey c' = c_WGPublicKey c)
  | _ => False
  end.
Proof.
  pose proof pushed_applied as Hok. destruct pushed as [h' [[|msgs]|e]] eqn:E; [discriminate Hok| |discriminate Hok].
  exact (applied_addresses io true (1000 * second) (full "suspended") start h' msgs start_alloc E).
Defined.


(** The owner's laptop reaches ssh; the suspended member's phone does not. *)
Example ssh_for_owner_only :
  match fw (HandleDeviceState io true (1000 * second) (full "suspended") start).1 with
  | Some f => map (λ a, verdict (input_rules f (MkTable "iptables" "icmp")) (MkPacket false "tcp" a 22)) ["100.64.9.2"; "100.64.9.3"]
  | None => []
  end = [Some "ACCEPT"; Some "DROP"].
Proof. vm_compute. reflexivity. Qed.

Lemma custom_domain_authorised_witness :
  match pushed with
  | (h', r) => ∃ st owner, decodeDeviceState (full "suspended") = Ok st ∧ pinnedAdminPubKey (acl start) = Some owner ∧
      ∀ row', customDomain h' = Some row' →
      (row' = None ∧ ds_CustomDomain st = None ∨
       ∃ row env p, row' = Some row ∧ ds_CustomDomain st = Some env ∧
         unmarshal_obj (MkDomainSet zero_fields "" "" "") dec_domain_set (e_Payload env) = Some p ∧
         cd_ParentZone row = normaliseZone (ds_ParentZone p) ∧ cd_ParentZone row ≠ "" ∧
         cd_Payload row = e_Payload env ∧ cd_OwnerSig row = e_Signature env ∧
         Intent (ds_Fields p) = "custom-domain-set-" +:+ deviceID start +:+ "-" +:+ cd_ParentZone row ∧
         signed_by owner (AsMessage env "device:custom-domain-set") ∧ cert_obtained io (cd_ParentZone row) = true)
  end.
Proof.
  assert (Hd : ∃ row, customDomain pushed.1 = Some (Some row)) by (vm_compute; eexists; reflexivity).
  destruct pushed as [h' r] eqn:E. destruct Hd as [row Hd]. cbn [fst] in Hd.
  assert (Hne : customDomain h' ≠ customDomain start).
  { rewrite Hd. change (customDomain start) with (Some (@None CustomDomain)). discriminate. }
  destruct (custom_domain_authorised io true (1000 * second) (full "suspended") start h' r (Some row) E Hne Hd)
    as (st & owner & H1 & H2 & H3).
  exists st, owner. split; [exact H1|]. split; [exact H2|]. intros row' Hr. rewrite Hd in Hr. injection Hr as <-. exact H3.
Defined.

(** Half an hour and a second after the last push. *)
Definition later : Z := 2801 * second.
Definition served : Handlers := after (full "active") start.

Lemma served_not_tripped : failClosed (liveness later served) = false.
Proof. vm_compute. reflexivity. Qed.


Example stale_agent_drops_peers :
  (summary (checkLiveness later served)).2 = [] ∧ (summary (checkLiveness (later - 2 * second) served)).2 = [key; bob_wg].
Proof. split; vm_compute; reflexivity. Qed.

(** A heartbeat that confirms the generation lifts fail-closed without putting the peers back:
    the agent then believes it is serving while every peer is gone, until a push is applied. *)
Definition ack : TunnelMessage := MkMessage "acl:heartbeat:ack" "" (Some (JObj [("generation", JNum "3")])) "" "".
Definition acked : Handlers := (HandleHeartbeatAck later ack (checkLiveness later served)).1.

Lemma heartbeat_lifts_without_peers :
  failClosed <$> live acked = Some false ∧ (summary acked).2 = [] ∧
  (summary (checkLiveness (later + 60 * second) acked)).2 = [].
Proof. split_and!; vm_compute; reflexivity. Qed.

(** A push that is rejected by the admin pin, the last check, has already taken an address for
    each of its clients: the store does not change, the allocator does. *)
Definition pin_breaker : TunnelMessage :=
  push "3" [] [JObj [("memberId", JStr "x"); ("role", JStr "owner"); ("identityKey", JStr (Base64.encode bob_key));
                     ("clients", JArr [client_item bob_key "x" bob_wg])]] [].

Lemma rejected_push_takes_address :
  (run pin_breaker start).2 = Err HReconcile ∧ Lookup bob_wg (alloc start) = "" ∧
  Lookup bob_wg (alloc (run pin_breaker start).1) = "100.64.9.2" ∧
  summary (run pin_breaker start).1 = summary start.
Proof. split_and!; vm_compute; reflexivity. Qed.

(** A member without a permissions envelope gets the apps named at admission, and an admin the
    whole catalogue, not no apps. *)
Lemma missing_permissions_seed_apps :
  map (λ m, (m_MemberID m, map app_ID (m_AllowedApps m))) (members (acl (after (full "active") start))) =
  [("o", ["a2"]); ("b", ["a2"])].
Proof. vm_compute. reflexivity. Qed.
End DevDemo.
