(* ===== verification/Proxy.v ===== *)
(** * internal/proxy: who a request is let through to

    server.go (the per-app reverse proxy), auth.go (the forward-auth endpoint) and trusted.go.
    A request is the part of http.Request the decision reads; the answer is the decision:
    which app the request is proxied to, where it is redirected, or which error is written.
    What httputil.ReverseProxy then does with the upstream is not modelled. *)

From S2P Require Import Prelude NetAddr Atreolink AclStore.

(** ** net.SplitHostPort *)

Definition SplitHostPort (s : string) : option (string * string) :=
  match s with
  | String "[" r =>
      match cut_at "]" r with
      | Some (host, String ":" port) =>
          if contains_byte ":" port || contains_byte "[" r || contains_byte "]" port then None else Some (host, port)
      | _ => None
      end
  | _ =>
      match cut_at ":" s with
      | Some (host, port) =>
          if contains_byte ":" port || contains_byte "[" s || contains_byte "]" s then None else Some (host, port)
      | None => None
      end
  end.

(** ** trusted.go *)

Definition ParseTrustedNetworks (cidrs : list string) : list IPNet := omap (λ c, snd <$> ParseCIDR c) cidrs.

Definition IsTrusted (ip : string) (trusted : list IPNet) : bool :=
  match ParseIP ip with
  | None => false
  | Some parsed => existsb (λ n, Contains n parsed) trusted
  end.

(** ** Slugs from host names *)

(** The order of the suffixes: longest first, then by bytes. *)
Definition before (a b : string) : Prop := slen b < slen a ∨ slen a = slen b ∧ String.le a b.
#[export] Instance before_dec : RelDecision before.
Proof. intros a b. unfold before. apply _. Defined.

Definition strip_port (host : string) : string :=
  match SplitHostPort host with Some (h, _) => h | None => host end.

(** One iteration: the slug this suffix yields. *)
Definition slug_under (host suf : string) : option string :=
  if suf =s "" then None
  else if negb (has_suffix host ("." +:+ suf)) then None
  else let slug := trim_suffix host ("." +:+ suf) in
       if (slug =s "") || contains_byte "." slug then None else Some slug.

Fixpoint first_some {A B} (f : A → option B) (l : list A) : option B :=
  match l with
  | [] => None
  | x :: l' => match f x with Some y => Some y | None => first_some f l' end
  end.

Definition ExtractSlug (host : string) (suffixes : list string) : string :=
  let host := strip_port host in
  if (host =s "") || bool_decide (suffixes = []) then ""
  else default "" (first_some (slug_under host) (merge_sort before suffixes)).

Definition atreolinkSlug : string := "atreolink".
Definition reservedSlugPrefix : string := "atreo-".
Definition isReservedSlug (slug : string) : bool := (slug =s atreolinkSlug) || has_prefix slug reservedSlugPrefix.

(** ** Requests and answers *)

Record Request := MkRequest {
  RemoteAddr : string;
  Host : string;
  Method : string;
  URLPath : string;
  RawQuery : string;
  LocalAddr : option string;  (* the connection's local address, when the context has one *)
  Header : string → string    (* r.Header.Get *)
}.

Inductive errKind := errKindBadRequest | errKindNotFound | errKindForbidden | errKindBadGateway.

Inductive response :=
| ErrorPage (k : errKind)
| Proxied (app : App) (slug : string)
| Redirected (scheme host port path query : string)
| NetInfo (via host : string)
| NoContent.

Record Server := MkProxy {
  trustedNetworks : list IPNet;
  overlayNets : list IPNet;
  overlayGatewayV4 : string;
  overlayGatewayV6 : string;
  suffixes : list string   (* what registry.Suffixes() returns *)
}.

(** localIP. *)
Definition localIP (r : Request) : string :=
  match LocalAddr r with
  | None => ""
  | Some addr =>
      let host := strip_port addr in
      let host := match cut_at "%" host with Some (h, _) => h | None => host end in
      match ParseIP host with Some _ => host | None => "" end
  end.

Definition isWebPort (app : option App) : bool :=
  match app with
  | None => false
  | Some a => IsPort a && ((app_Protocol a =s "http") || (app_Protocol a =s "https")) &&
              (1 <=? app_Port a)%Z && (app_Port a <=? 65535)%Z
  end.

(** net.JoinHostPort brackets a host with a colon; host and port stay apart here. *)
Definition redirectPortApp (s : Server) (r : Request) (a : App) (sourceIP : string) : response :=
  let host := localIP r in
  let host := if host =s "" then
                match ParseIP sourceIP with
                | Some ip => match To4 ip with None => overlayGatewayV6 s | Some _ => overlayGatewayV4 s end
                | None => overlayGatewayV4 s
                end
              else host in
  Redirected (app_Protocol a) host (itoa (app_Port a)) (URLPath r) (RawQuery r).

Definition serveReserved (s : Server) (r : Request) (sourceIP : string) : response :=
  if (Method r =s "GET") && (URLPath r =s "/net") then
    let via := if IsTrusted sourceIP (overlayNets s) then "tunnel"
               else if IsTrusted sourceIP (trustedNetworks s) then "lan" else "" in
    if (via <>s "") && (localIP r <>s "") then NetInfo via (localIP r) else NoContent
  else NoContent.

Section Serve.
Context `{Unicode}.
(** url.Parse succeeds. *)
Variable url_ok : string → bool.

Definition proxyTo (a : App) (slug : string) : response :=
  if url_ok (app_InternalURL a) then Proxied a slug else ErrorPage errKindBadGateway.

Definition ServeHTTP (s : Server) (acl : Store) (r : Request) : response :=
  match SplitHostPort (RemoteAddr r) with
  | None => ErrorPage errKindBadRequest
  | Some (sourceIP, _) =>
      let slug := ExtractSlug (Host r) (suffixes s) in
      if isReservedSlug slug then serveReserved s r sourceIP
      else if slug =s "" then ErrorPage errKindNotFound
      else if IsTrusted sourceIP (trustedNetworks s) then
        match findAppBySlug slug acl with
        | Some a => proxyTo a slug
        | None =>
            match FindPortAppBySlug slug acl with
            | Some pa => if isWebPort (Some pa) then redirectPortApp s r pa sourceIP else ErrorPage errKindNotFound
            | None => ErrorPage errKindNotFound
            end
        end
      else
        match IsAppAllowed sourceIP slug acl with
        | Some a => proxyTo a slug
        | None =>
            match IsPortAppAllowed sourceIP slug acl with
            | Some pa => if isWebPort (Some pa) then redirectPortApp s r pa sourceIP else ErrorPage errKindForbidden
            | None => ErrorPage errKindForbidden
            end
        end
  end.

(** ** The forward-auth endpoint *)

Record AuthServer := MkAuthServer {
  a_trustedNetworks : list IPNet;
  a_trustedProxies : list IPNet;
  a_suffixes : list string
}.

(** The status, and the X-Auth headers of a 200. *)
Inductive auth_response :=
| AuthOK (headers : list (string * string))
| AuthMissing
| AuthForbidden.

(** The source address and the host the decision is about. *)
Definition auth_subject (s : AuthServer) (r : Request) : string * string :=
  let remoteIP := match SplitHostPort (RemoteAddr r) with Some (h, _) => h | None => "" end in
  if (remoteIP <>s "") && IsTrusted remoteIP (a_trustedProxies s) then
    let ip := Header r "X-Forwarded-For" in
    let ip := if ip =s "" then Header r "X-Real-IP" else ip in
    let ip := match cut_at "," ip with Some (h, _) => h | None => ip end in
    let ip := trim_space ip in
    let ip := if ip =s "" then remoteIP else ip in
    let host := Header r "X-Forwarded-Host" in
    (ip, if host =s "" then Host r else host)
  else (remoteIP, Host r).

Definition AuthServeHTTP (s : AuthServer) (acl : Store) (r : Request) : auth_response :=
  let '(sourceIP, host) := auth_subject s r in
  if sourceIP =s "" then AuthMissing
  else if IsTrusted sourceIP (a_trustedNetworks s) then AuthOK [("X-Auth-User", "local"); ("X-Auth-Role", "admin")]
  else
    let slug := ExtractSlug host (a_suffixes s) in
    if slug =s "" then AuthForbidden
    else match IsAppAllowed sourceIP slug acl with
         | None => AuthForbidden
         | Some _ => AuthOK (match LookupByTunnelIP sourceIP acl with
                             | Some m => [("X-Auth-User", m_MemberName m); ("X-Auth-Member-ID", m_MemberID m);
                                          ("X-Auth-Role", m_Role m)]
                             | None => []
                             end)
         end.
End Serve.

(** ** Slugs *)

Lemma slug_under_spec host suf slug : slug_under host suf = Some slug ↔
  suf ≠ "" ∧ slug ≠ "" ∧ cut_at "." host = Some (slug, suf).
Proof.
  unfold slug_under. destruct (suf =s "") eqn:E0; [apply seqb_true in E0 as ->; naive_solver|]. apply seqb_false in E0.
  destruct (has_suffix host ("." +:+ suf)) eqn:Es; cbn [negb].
  - apply has_suffix_spec in Es as [p ->]. rewrite trim_suffix_app. split.
    + destruct (p =s "") eqn:Ep; [done|]. destruct (contains_byte "." p) eqn:Ec; [done|]. intros [= <-]. apply seqb_false in Ep.
      split_and!; [done..|]. by apply (cut_at_app "." p suf).
    + intros (_ & Hne & Hc). pose proof (cut_at_spec "." (p +:+ "." +:+ suf)) as Hs. rewrite Hc in Hs.
      destruct Hs as [Heq Hd]. change (String "." suf) with ("." +:+ suf) in Heq. apply sapp_inv_r in Heq as ->.
      apply seqb_false in Hne. by rewrite Hne, Hd.
  - split; [done|]. intros (_ & _ & Hc). pose proof (cut_at_spec "." host) as Hs. rewrite Hc in Hs. destruct Hs as [-> _].
    change (String "." suf) with ("." +:+ suf) in Es. by rewrite has_suffix_app in Es.
Qed.

Lemma first_some_spec {A B} (f : A → option B) l y : first_some f l = Some y → ∃ x, x ∈ l ∧ f x = Some y.
Proof.
  induction l as [|x l IH]; simpl; [done|]. destruct (f x) as [z|] eqn:E.
  - intros [= ->]. exists x. split; [left|done].
  - intros (x' & Hx & Hf)%IH. exists x'. split; [by right|done].
Qed.

Lemma first_some_none {A B} (f : A → option B) l : first_some f l = None → ∀ x, x ∈ l → f x = None.
Proof.
  induction l as [|x l IH]; simpl; [set_solver|]. destruct (f x) eqn:E; [done|]. intros Hn y [->|Hy]%elem_of_cons; auto.
Qed.

(** What ExtractSlug computes, without the sorting and the scan: the first label, if what
    follows it is one of the suffixes. *)
Definition slug_reference (host : string) (sufs : list string) : string :=
  match cut_at "." (strip_port host) with
  | Some (label, rest) => if (label <>s "") && (rest <>s "") && bool_decide (rest ∈ sufs) then label else ""
  | None => ""
  end.

(** The longest-suffix-first search over the served suffixes finds exactly the first label
    of the host when the rest of the host is, byte for byte, one of the suffixes; the order of
    the suffixes does not matter, and a host with more labels than one above a suffix has no
    slug. *)
Theorem ExtractSlug_equiv host sufs : ExtractSlug host sufs = slug_reference host sufs.
Proof.
  unfold ExtractSlug, slug_reference. cbv zeta. set (h := strip_port host).
  assert (Hin : ∀ x, x ∈ merge_sort before sufs ↔ x ∈ sufs) by (intros x; by rewrite merge_sort_Permutation).
  destruct (first_some (slug_under h) (merge_sort before sufs)) as [slug|] eqn:Ef; cbn [default].
  - apply first_some_spec in Ef as (suf & Hs & (Hne & Hsl & Hc)%slug_under_spec). apply Hin in Hs. rewrite Hc.
    rewrite (bool_decide_true (suf ∈ sufs)), (proj2 (seqb_false slug "") Hsl), (proj2 (seqb_false suf "") Hne) by done.
    destruct (h =s "") eqn:E; [apply seqb_true in E; by rewrite E in Hc|]. destruct sufs; [set_solver|done].
  - transitivity ""; [by destruct (_ || _)|]. destruct (cut_at "." h) as [[a b]|] eqn:Ec; [|done].
    destruct ((a <>s "") && (b <>s "") && bool_decide (b ∈ sufs)) eqn:E; [|done].
    rewrite !andb_true_iff, !negb_true_iff, !seqb_false, bool_decide_eq_true in E. destruct E as [[Ha Hb] Hin'].
    assert (slug_under h b = Some a) by (by apply slug_under_spec).
    assert (slug_under h b = None); [|congruence]. eapply first_some_none; [exact Ef|]. by apply Hin.
Qed.

(** ** Access *)

Section Access.
Context `{Unicode}.
Variable url_ok : string → bool.

(** The member behind an address of the tunnel may have the app. *)
Definition tunnel_access (acl : Store) (ip slug : string) (a : App) : Prop :=
  EffectiveSlug a = slug ∧ ∃ m c, m ∈ members acl ∧ active m ∧ c ∈ m_Clients m ∧
    (c_TunnelIP c = ip ∨ c_TunnelIPv6 c = ip) ∧ ip ≠ "" ∧
    (IsPort a = false ∧ entitled acl m a ∨ isWebPort (Some a) = true ∧ a ∈ m_AllowedApps m).

Lemma allowed_access acl ip slug a : fresh acl → IsAppAllowed ip slug acl = Some a → tunnel_access acl ip slug a.
Proof.
  intros Hf (Hp & Hs & m & Hm & Hact & He)%IsAppAllowed_entitled.
  destruct (holder_client acl ip m Hf Hm) as (c & Hin & Hc & Hip & Hne). split; [done|]. exists m, c. auto 10.
Qed.

Lemma port_access acl ip slug a : fresh acl → IsPortAppAllowed ip slug acl = Some a → isWebPort (Some a) = true →
  tunnel_access acl ip slug a.
Proof.
  intros Hf Ha Hw. unfold IsPortAppAllowed in Ha. apply bind_Some in Ha as (m & Hm & Ha).
  destruct (suspended m) eqn:Es; [done|]. apply suspended_false in Es. apply find_spec in Ha as [Hin Hp].
  unfold port_app in Hp. apply andb_true_iff in Hp as [_ Hp]. apply seqb_true in Hp.
  destruct (holder_client acl ip m Hf Hm) as (c & Hmem & Hc & Hip & Hne). split; [done|]. exists m, c. auto 10.
Qed.


(** The forward-auth endpoint says yes only for a trusted source or for a member entitled to
    the app of the host, and then its headers carry that member's own name, ID and role; and
    unless the connection comes from a trusted proxy no header of the request has any say. *)
Theorem auth_endpoint_sound s acl r : reachable acl →
  (∀ hs, AuthServeHTTP s acl r = AuthOK hs →
     let '(ip, host) := auth_subject s r in
     (IsTrusted ip (a_trustedNetworks s) = true ∧ hs = [("X-Auth-User", "local"); ("X-Auth-Role", "admin")]) ∨
     (∃ a m, tunnel_access acl ip (ExtractSlug host (a_suffixes s)) a ∧ LookupByTunnelIP ip acl = Some m ∧ active m ∧
        hs = [("X-Auth-User", m_MemberName m); ("X-Auth-Member-ID", m_MemberID m); ("X-Auth-Role", m_Role m)])) ∧
  (∀ ip port hdr, SplitHostPort (RemoteAddr r) = Some (ip, port) → IsTrusted ip (a_trustedProxies s) = false →
     AuthServeHTTP s acl (MkRequest (RemoteAddr r) (Host r) (Method r) (URLPath r) (RawQuery r) (LocalAddr r) hdr) =
     AuthServeHTTP s acl r).
Proof.
  intros Hf%reachable_fresh. split.
  - intros hs. unfold AuthServeHTTP. destruct (auth_subject s r) as [ip host]. destruct (ip =s ""); [done|].
    destruct (IsTrusted ip (a_trustedNetworks s)); [intros [= <-]; by left|]. cbv zeta. destruct (_ =s ""); [done|].
    destruct (IsAppAllowed _ _ _) as [a|] eqn:Ea; [|done]. intros [= <-]. right.
    pose proof (allowed_access _ _ _ _ Hf Ea). apply IsAppAllowed_entitled in Ea as (_ & _ & m & Hm & Hact & _).
    rewrite Hm. eauto 8.
  - intros ip port hdr Hs Ht. unfold AuthServeHTTP, auth_subject. cbn [RemoteAddr Host]. by rewrite Hs, Ht, andb_false_r.
Qed.
End Access.

(** ** Concrete requests *)

Module ProxyDemo.
#[local] Existing Instance AclStore.Demo.ascii_only.

Definition server : Server :=
  MkProxy (ParseTrustedNetworks ["192.168.1.0/24"; "bad"]) (ParseTrustedNetworks ["10.0.0.0/24"]) "10.0.0.1" "fd00::1"
    ["home.example"; "a.home.example"].
Definition any_url (_ : string) : bool := true.
Definition no_header (_ : string) : string := "".
Definition get (remote host : string) : Request := MkRequest remote host "GET" "/x" "" (Some "10.0.0.1:443") no_header.

Definition serve (remote host : string) : response := ServeHTTP any_url server AclStore.Demo.store (get remote host).

Example served :
  (serve "10.0.0.2:999" "photos.home.example:443", serve "10.0.0.9:1" "photos.home.example",
   serve "192.168.1.7:1" "photos.home.example", serve "10.0.0.2:1" "x.photos.home.example",
   serve "10.0.0.2:1" "atreo-net.home.example", serve "nohost" "photos.home.example") =
  (Proxied AclStore.Demo.photos "photos", ErrorPage errKindForbidden, Proxied AclStore.Demo.photos "photos",
   ErrorPage errKindNotFound, NoContent, ErrorPage errKindBadRequest).
Proof. vm_compute. reflexivity. Qed.


Definition auth : AuthServer :=
  MkAuthServer (ParseTrustedNetworks ["192.168.1.0/24"]) (ParseTrustedNetworks ["172.17.0.0/16"]) ["home.example"].
Definition spoof (k : string) : string := if k =s "X-Forwarded-For" then "192.168.1.7, 10.0.0.2" else "".

Example spoofing_needs_a_trusted_proxy :
  (AuthServeHTTP auth AclStore.Demo.store (MkRequest "10.0.0.9:1" "photos.home.example" "GET" "/" "" None spoof),
   AuthServeHTTP auth AclStore.Demo.store (MkRequest "172.17.0.2:1" "photos.home.example" "GET" "/" "" None spoof)) =
  (AuthForbidden, AuthOK [("X-Auth-User", "local"); ("X-Auth-Role", "admin")]).
Proof. vm_compute. reflexivity. Qed.

Lemma auth_endpoint_sound_witness :
  let r := get "10.0.0.2:999" "photos.home.example" in
  (∀ hs, AuthServeHTTP auth AclStore.Demo.store r = AuthOK hs →
     let '(ip, host) := auth_subject auth r in
     (IsTrusted ip (a_trustedNetworks auth) = true ∧ hs = [("X-Auth-User", "local"); ("X-Auth-Role", "admin")]) ∨
     (∃ a m, tunnel_access AclStore.Demo.store ip (ExtractSlug host (a_suffixes auth)) a ∧
        LookupByTunnelIP ip AclStore.Demo.store = Some m ∧ active m ∧
        hs = [("X-Auth-User", m_MemberName m); ("X-Auth-Member-ID", m_MemberID m); ("X-Auth-Role", m_Role m)])) ∧
  (∀ ip port hdr, SplitHostPort (RemoteAddr r) = Some (ip, port) → IsTrusted ip (a_trustedProxies auth) = false →
     AuthServeHTTP auth AclStore.Demo.store
       (MkRequest (RemoteAddr r) (Host r) (Method r) (URLPath r) (RawQuery r) (LocalAddr r) hdr) =
     AuthServeHTTP auth AclStore.Demo.store r).
Proof.
  exact (auth_endpoint_sound auth AclStore.Demo.store (get "10.0.0.2:999" "photos.home.example") AclStore.Demo.store_reachable).
Defined.
End ProxyDemo.
