(* ===== verification/Pairing.v ===== *)
(** * internal/atreolink/client.go and agent.Run: pairing and authenticated requests

    What an HTTP exchange returns is an argument ([response]): the coordination service is not
    trusted, and the theorems hold for every answer it can give. Pair polls until an approval;
    the list of poll answers ends where the context is cancelled. agent.Run then pins the owner
    key and installs the owner's row. *)

From S2P Require Import Prelude Encoding Json CanonJson Crypto Atreolink AclStore Envelope Handlers.

(** ** HTTP *)

(** The request could not be sent or its body not be read; or a status and a body. *)
Inductive response := NoResponse | Response (status : Z) (body : string).

Inductive http_error := ErrRequestFailed | ErrHTTP (status : Z) | ErrDecodeResponse | ErrNotPaired | ErrSign (e : crypto_error).

(** [dec] is json.Unmarshal into the zero result, [None] when the caller wants no result. *)
Definition doJSONWith {A} (zero : A) (dec : option (string → option A)) (r : response) : result http_error A :=
  match r with
  | NoResponse => Err ErrRequestFailed
  | Response status body =>
      if ((status <? 200) || (300 <=? status))%Z then Err (ErrHTTP status)
      else match dec with
           | Some d => if body <>s "" then of_option ErrDecodeResponse (d body) else Ok zero
           | None => Ok zero
           end
  end.

Record EndpointResult := MkEndpoint { er_Hostname : string; er_IP : string }.
Definition zero_endpoint : EndpointResult := MkEndpoint "" "".
Definition dec_endpoint : EndpointResult → json → option EndpointResult := dec_struct (λ o kvs,
  n ← assign dec_string (er_Hostname o) "hostname" kvs; i ← assign dec_string (er_IP o) "ip" kvs; Some (MkEndpoint n i)).

Record PairingInitResponse := MkInit { pi_SessionID : string; pi_UserCode : string; pi_AuthURL : string }.
Definition zero_init : PairingInitResponse := MkInit "" "" "".
Definition dec_init : PairingInitResponse → json → option PairingInitResponse := dec_struct (λ o kvs,
  s ← assign dec_string (pi_SessionID o) "sessionId" kvs; u ← assign dec_string (pi_UserCode o) "userCode" kvs;
  a ← assign dec_string (pi_AuthURL o) "authUrl" kvs; Some (MkInit s u a)).

Definition dec_blob : PairApprovalBlob → json → option PairApprovalBlob := dec_struct (λ o kvs,
  n ← assign dec_string (b_Nonce o) "nonce" kvs; c ← assign dec_string (b_Ciphertext o) "ciphertext" kvs; Some (MkBlob n c)).

Record PairingPollResponse := MkPoll {
  pp_Status : string;
  pp_DeviceID : string;
  pp_AppsHostname : string;
  pp_TunnelHost : string;
  pp_ApprovalBlob : option PairApprovalBlob;
  pp_OwnerMemberID : string;
  pp_OwnerUserID : string;
  pp_OwnerEmail : string;
  pp_OwnerName : string
}.
Definition zero_poll : PairingPollResponse := MkPoll "" "" "" "" None "" "" "" "".
Definition dec_poll : PairingPollResponse → json → option PairingPollResponse := dec_struct (λ o kvs,
  s ← assign dec_string (pp_Status o) "status" kvs; d ← assign dec_string (pp_DeviceID o) "deviceId" kvs;
  a ← assign dec_string (pp_AppsHostname o) "appsHostname" kvs; t ← assign dec_string (pp_TunnelHost o) "tunnelHost" kvs;
  b ← assign (dec_ptr (MkBlob "" "") dec_blob) (pp_ApprovalBlob o) "approvalBlob" kvs;
  m ← assign dec_string (pp_OwnerMemberID o) "ownerMemberId" kvs; u ← assign dec_string (pp_OwnerUserID o) "ownerUserId" kvs;
  e ← assign dec_string (pp_OwnerEmail o) "ownerEmail" kvs; n ← assign dec_string (pp_OwnerName o) "ownerName" kvs;
  Some (MkPoll s d a t b m u e n)).

Definition into {A} (zero : A) (dec : A → json → option A) : option (string → option A) :=
  Some (λ body, unmarshal body ≫= dec zero).

Definition InitPairing (r : response) : result http_error PairingInitResponse := doJSONWith zero_init (into zero_init dec_init) r.
Definition PollPairing (r : response) : result http_error PairingPollResponse := doJSONWith zero_poll (into zero_poll dec_poll) r.

Section Client.
Context `{Primitives}.

(** The body posted and what comes back; [answer] is the exchange of that body. A client built
    by New always has its key manager. *)
Definition authPostVia {A} (km : KeyManager) (deviceID intentPrefix : string) (body : option json) (now : Z)
    (answer : AuthEnvelope → response) (zero : A) (dec : option (string → option A)) : result http_error A :=
  check! guard_err (deviceID <>s "") ErrNotPaired in
  let! env := map_err ErrSign (SignAgentAuth km deviceID intentPrefix body now) in
  doJSONWith zero dec (answer env).

(** One report per family; [now4] and [now6] are when each was signed. *)
Definition UpdateEndpoint (km : KeyManager) (deviceID ipOverride : string) (now4 now6 : Z)
    (answer4 answer6 : AuthEnvelope → response) : result http_error (list EndpointResult) :=
  let post body now answer :=
    authPostVia km deviceID "device:endpoint" body now answer zero_endpoint (into zero_endpoint dec_endpoint) in
  if ipOverride <>s "" then
    let! r := post (Some (JObj [("ip", JStr ipOverride)])) now4 answer4 in Ok [r]
  else
    let ok := omap (λ r, match r with Ok x => Some x | Err _ => None end) [post None now4 answer4; post None now6 answer6] in
    match ok with [] => Err ErrRequestFailed | _ => Ok ok end.

(** The TXT record of the DNS-01 challenge; [present] tells the two calls apart. *)
Definition DNSChallenge (present : bool) (km : KeyManager) (deviceID fqdn value : string) (now : Z)
    (answer : AuthEnvelope → response) : result http_error unit :=
  authPostVia km deviceID (if present then "dns:present" else "dns:cleanup")
    (Some (JObj [("fqdn", JStr fqdn); ("value", JStr value)])) now answer tt None.
End Client.

(** ** Pair *)

Record PairResult := MkPair {
  pr_DeviceID : string;
  pr_AppsHostname : string;
  pr_TunnelHost : string;
  pr_OwnerIdentityPubkey : string;
  pr_OwnerMemberID : string;
  pr_OwnerUserID : string;
  pr_OwnerEmail : string;
  pr_OwnerName : string;
  pr_ApprovalPayloadCanon : string;
  pr_ApprovedAt : string
}.

Inductive flow_error :=
| FInit (e : http_error) | FRelativeURL | FNoBlob | FDecode (e : pair_error) | FCancelled | FPin (e : acl_error) | FOwner (e : acl_error).

Section Pairing.
Context `{Unicode} `{Primitives} `{UrlParser}.
Variable decoder : PairApprovalBlob → string → result pair_error (string * string * string).

(** The polling loop: an error or any status but approved polls again. *)
Fixpoint poll_loop (sessionID : string) (polls : list response) : result flow_error PairResult :=
  match polls with
  | [] => Err FCancelled
  | r :: rest =>
      match PollPairing r with
      | Err _ => poll_loop sessionID rest
      | Ok p =>
          if pp_Status p <>s "approved" then poll_loop sessionID rest
          else
            let! blob := of_option FNoBlob (pp_ApprovalBlob p) in
            let! d := map_err FDecode (decoder blob sessionID) in
            Ok (MkPair (pp_DeviceID p) (pp_AppsHostname p) (pp_TunnelHost p) d.1.1 (pp_OwnerMemberID p) (pp_OwnerUserID p)
                  (pp_OwnerEmail p) (pp_OwnerName p) d.1.2 d.2)
      end
  end.

(** u.Scheme == "" || u.Host == "" refused. *)
Definition absolute (u : string) : bool :=
  match url_parse u with Some (scheme, host) => (scheme <>s "") && (host <>s "") | None => false end.

Definition Pair (buildURL : string → string) (initAnswer : response) (polls : list response) : result flow_error PairResult :=
  let! initResp := map_err FInit (InitPairing initAnswer) in
  check! guard_err (absolute (buildURL (pi_AuthURL initResp))) FRelativeURL in
  poll_loop (pi_SessionID initResp) polls.
End Pairing.

(** base64.RawURLEncoding: the other alphabet, no padding. *)
Definition raw_url_encode (s : string) : string :=
  let strip := λ t, trim_suffix (trim_suffix t "=") "=" in
  smap (λ c, if ceqb c "+" then "-"%char else if ceqb c "/" then "_"%char else c) (strip (Base64.encode s)).

(** ** The pairing branch of Run *)

Definition set_identity (h : Handlers) (id host : string) : Handlers :=
  MkHandlers (wg h) (wgPublicKey h) (acl h) (keys h) (alloc h) id host (nonces h) (notify h) (fw h)
    (customDomain h) (live h) (exited h).

Definition owner_entry (r : PairResult) : MemberACLEntry :=
  MkMember (pr_OwnerMemberID r) (pr_OwnerUserID r) (pr_OwnerName r) (pr_OwnerEmail r) "owner"
    (Base64.encode (pr_OwnerIdentityPubkey r)) None None None [] [] "active".

Section Run.
Context `{Unicode} `{Primitives} `{UrlParser}.

Definition auth_url (pairToken authURL : string) : string :=
  if authURL =s "" then "" else authURL +:+ "#" +:+ raw_url_encode pairToken.

(** [pairToken] is the random token, [pinWritten] whether the pin file can be written. *)
Definition run_pairing (pairToken : string) (pinWritten : bool) (initAnswer : response) (polls : list response) (h : Handlers)
    : Handlers * result flow_error PairResult :=
  let decoder blob session := DecodePairApprovalBlob blob pairToken session (PublicKeyBase64 (keys h)) in
  match Pair decoder (auth_url pairToken) initAnswer polls with
  | Err e => (h, Err e)
  | Ok r =>
      let h := set_identity h (pr_DeviceID r) (pr_TunnelHost r) in
      match SetPinnedAdminPublicKey pinWritten (pr_OwnerIdentityPubkey r) (acl h) with
      | (s, Some e) => (set_acl h s, Err (FPin e))
      | (s, None) =>
          if pr_OwnerMemberID r =s "" then (set_acl h s, Ok r)
          else match UpsertMember (owner_entry r) s with
               | (s', Some e) => (set_acl h s', Err (FOwner e))
               | (s', None) => (set_acl h s', Ok r)
               end
      end
  end.

Lemma poll_loop_ok decoder session polls r : poll_loop decoder session polls = Ok r →
  ∃ a p blob, a ∈ polls ∧ PollPairing a = Ok p ∧ pp_Status p = "approved" ∧ pp_ApprovalBlob p = Some blob ∧
    decoder blob session = Ok (pr_OwnerIdentityPubkey r, pr_ApprovalPayloadCanon r, pr_ApprovedAt r).
Proof.
  induction polls as [|a polls IH]; simpl; [done|]. destruct (PollPairing a) as [p|] eqn:Ep.
  - destruct (pp_Status p =s "approved") eqn:Es; cbn [negb].
    + apply seqb_true in Es. intros Hr. res_inv. exists a, p. eexists. split_and!; [by left|done|done|eassumption|].
      match goal with E : decoder _ _ = Ok ?x |- _ => by destruct x as [[? ?] ?] end.
    + intros (a' & p' & b & Hin & Hrest)%IH. exists a', p', b. split; [by right|done].
  - intros (a' & p' & b & Hin & Hrest)%IH. exists a', p', b. split; [by right|done].
Qed.

End Run.

(** ** A run *)

Module PairDemo.
#[local] Existing Instance AclStore.Demo.ascii_only.
#[local] Existing Instance Toy.prims.
#[local] Existing Instance HandDemo.urls.

Definition text (j : json) : string := match writeValue (to_any j) with Ok c => c | Err _ => "" end.

(** A new agent: nothing pinned, nothing loaded. *)
Definition fresh : Handlers := set_acl HandDemo.handlers NewStore.
Definition nas : string := PublicKeyBase64 (keys fresh).

Definition inner : string := text (JObj [("pairSessionId", JStr "S1"); ("ownerIdentityPubkey", JStr (Base64.encode EnvDemo.pin));
  ("nasPubkey", JStr nas);
  ("nasAttestationSig", JStr (Base64.encode (Toy.tag EnvDemo.pin (text (JObj [("nasPubkey", JStr nas)])))))]).
Definition blob : json := JObj [("nonce", JStr (Base64.encode "nonce-nonce-"));
  ("ciphertext", JStr (Base64.encode (inner +:+ Toy.tag EnvDemo.pin inner)))].

Definition init : response := Response 200 (text (JObj [("sessionId", JStr "S1"); ("userCode", JStr "1234"); ("authUrl", JStr "https://link.example")])).
Definition approved : response := Response 200 (text (JObj [("status", JStr "approved"); ("deviceId", JStr "d"); ("tunnelHost", JStr "t.example");
  ("approvalBlob", blob); ("ownerMemberId", JStr "o"); ("ownerUserId", JStr "u")])).
Definition polls : list response := [NoResponse; Response 503 ""; Response 200 (text (JObj [("status", JStr "pending")])); approved].

Local Notation paired := (run_pairing "tok" true init polls fresh).


(** An approval without a blob is refused, and so is one for another session. *)
Example forged_approval :
  (run_pairing "tok" true init [Response 200 (text (JObj [("status", JStr "approved")]))] fresh).2 = Err FNoBlob ∧
  (run_pairing "tok" true (Response 200 (text (JObj [("sessionId", JStr "S2"); ("authUrl", JStr "https://link.example")]))) polls fresh).2 =
    Err (FDecode ErrPairSession) ∧
  (run_pairing "tok" true (Response 200 "") polls fresh).2 = Err FRelativeURL.
Proof. split_and!; vm_compute; reflexivity. Qed.

(** The pin's guard against an unintended second pairing looks at the pin in memory, and the
    agent pairs before it loads the list: an owner pinned on disk by an earlier pairing does not
    stop a new one, which replaces the file. *)
Lemma repairing_replaces_pin token written init polls h : acl h = NewStore →
  (run_pairing token written init polls h).2 ≠ Err (FPin ErrAdminPinAlreadySet).
Proof.
  intros Hn. unfold run_pairing.
  destruct (Pair _ _ init polls) as [r|e'] eqn:Ep; [|cbn [snd]; intros [= ->]; unfold Pair in Ep].
  - cbn [acl set_identity]. rewrite Hn. unfold SetPinnedAdminPublicKey. cbn [pinnedAdminPubKey NewStore].
    destruct (negb _); [done|]. destruct written; cbn [snd]; [|done]. destruct (_ =s _); [done|]. by destruct (UpsertMember _ _) as [? [|]].
  - destruct (InitPairing init); [|discriminate Ep]. cbn [map_err res_bind] in Ep. destruct (absolute _); [|discriminate Ep].
    cbn [guard_err res_bind] in Ep. revert Ep. induction polls as [|ans l IH]; [done|]. cbn [poll_loop].
    destruct (PollPairing ans); [|done]. destruct (_ <>s _); [done|]. destruct (pp_ApprovalBlob _); [|done]. cbn [of_option res_bind].
    by destruct (DecodePairApprovalBlob _ _ _ _).
Qed.
End PairDemo.
