(* ===== verification/Boot.v ===== *)
(** * internal/agent/agent.go: from start-up to the first peers

    [boot] is the part of Run that brings the interface up, installs the packet filter, loads
    the persisted access-control list, verifies it again and re-aligns the WireGuard peers with
    it. The agent's components are the ones [Handlers] holds.

    reconcilePeers ranges over a copy of the member rows whose Clients slices still point into
    the store, while AddClient filters and overwrites those very arrays: [b_views] is what the
    ranged slices show, refreshed by [overwrite] after every AddClient. An append that outgrows
    a row's array happens only for a row with the same member id earlier in the list, whose
    slice has been ranged over already. Taking the first 16 bytes of a shorter key panics. *)

From S2P Require Import Prelude NetAddr Encoding Json CanonJson Overlay Crypto WgServer Firewall IpAllocator Atreolink AclStore Envelope Handlers DeviceState.

Inductive panic := SliceBounds.

(** ** reconcilePeers *)

Definition mark_all (ms : list MemberACLEntry) (a : IPAllocator) : IPAllocator :=
  foldl (λ a c, MarkUsed (c_WGPublicKey c) (c_TunnelIP c) a) a (mjoin (map m_Clients ms)).

Record bstate := MkBoot {
  b_h : Handlers;
  b_views : list (list ClientRecord);
  b_valid : gset string;
  b_added : nat
}.

(** What a slice of the array shows once [cs] has been written from its start. *)
Definition overwrite (cs view : list ClientRecord) : list ClientRecord :=
  take (length view) (cs ++ drop (length cs) view).

Definition refresh_views (s : Store) (views : list (list ClientRecord)) : list (list ClientRecord) :=
  zip_with (λ m v, overwrite (m_Clients m) v) (members s) views.

(** key[:16] *)
Definition short_panics (k : string) (b : bstate) : result panic bstate :=
  if (slen k <? 16)%nat then Err SliceBounds else Ok b.

Section Boot.
Context `{Unicode} `{Primitives} `{Commands} `{Path}.

(** The address a client keeps or gets. *)
Definition boot_address (c : ClientRecord) (a : IPAllocator) : IPAllocator * result alloc_error string :=
  if (c_TunnelIP c =s "") || negb (InSubnet a (c_TunnelIP c)) then Allocate (c_WGPublicKey c) a else (a, Ok (c_TunnelIP c)).

(** The body of the inner loop for the client at position [j] of row [i]. *)
Definition boot_client (b : bstate) (pos : MemberACLEntry * nat * nat) : result panic bstate :=
  let '(m, i, j) := pos in
  match b_views b !! i ≫= (.!! j) with
  | None => Ok b
  | Some c =>
      let k := c_WGPublicKey c in
      if k =s "" then Ok b
      else
        let valid := {[k]} ∪ b_valid b in
        let h := b_h b in
        match boot_address c (alloc h) with
        | (a, Err _) => short_panics k (MkBoot (set_alloc h a) (b_views b) valid (b_added b))
        | (a, Ok ip) =>
            let h := set_alloc h a in
            let v6 := TunnelIPv6 (wg h) ip in
            match AddPeer k ip (wg h) with
            | (w, Err _) => short_panics k (MkBoot (set_wg h w) (b_views b) valid (b_added b))
            | (w, Ok _) =>
                let s := (AddClient (m_MemberID m) (MkClient k ip v6 (c_Label c) (c_Platform c) "") (acl h)).1 in
                Ok (MkBoot (set_acl (set_wg h w) s) (refresh_views s (b_views b)) valid (S (b_added b)))
            end
        end
  end.

(** The positions the two loops visit: suspended members are skipped. *)
Definition positions (ms : list MemberACLEntry) : list (MemberACLEntry * nat * nat) :=
  mjoin (imap (λ i m, if suspended m then [] else map (λ j, (m, i, j)) (seq 0 (length (m_Clients m)))) ms).

Fixpoint fold_res {E A S} (f : S → A → result E S) (s : S) (l : list A) : result E S :=
  match l with
  | [] => Ok s
  | x :: l' => let! s' := f s x in fold_res f s' l'
  end.

Definition drop_stale (valid : gset string) (h : Handlers) : Handlers :=
  foldl (λ h p, if bool_decide (PublicKey p ∈ valid) then h
                else set_alloc (set_wg h (RemovePeer (PublicKey p) (wg h))) (Release (PublicKey p) (alloc h)))
    h (ListPeers (wg h)).

(** The counters of the closing log line; the list is saved when one of them is not 0. *)
Record boot_report := MkReport { added : nat; removed : nat; skippedSuspended : nat }.

Definition reconcilePeers (h : Handlers) : result panic (Handlers * boot_report) :=
  let ms := members (acl h) in
  let start := MkBoot (set_alloc h (mark_all ms (alloc h))) (map m_Clients ms) ∅ 0 in
  let! b := fold_res boot_client start (positions ms) in
  let stale := List.filter (λ p, negb (bool_decide (PublicKey p ∈ b_valid b))) (ListPeers (wg (b_h b))) in
  Ok (reconcileFirewallGrants (drop_stale (b_valid b) (b_h b)),
      MkReport (b_added b) (length stale) (length (mjoin (map m_Clients (List.filter suspended ms))))).

(** ** Bringing the tunnel up *)

Record boot_config := MkBootConfig {
  AppsHostname : string;
  FirewallEnabled : option bool;
  HTTPSPort : Z;
  HTTPPort : Z
}.

Inductive boot_error :=
| BAppsHostname | BTunnelHost | BWireGuard (e : wg_error) | BFirewall (e : fw_error) | BPanic (p : panic).

(** The two hostname checks, the interface, the packet filter. *)
Definition bring_up (cfg : boot_config) (keyWritten : bool) (h : Handlers) : Handlers * result boot_error unit :=
  if AppsHostname cfg =s "" then (h, Err BAppsHostname)
  else if tunnelHost h =s "" then (h, Err BTunnelHost)
  else match WgServer.Start keyWritten (wg h) with
  | (w, Err e) => (set_wg h w, Err (BWireGuard e))
  | (w, Ok _) =>
      let h := set_wg h w in
      if default false (FirewallEnabled cfg) then
        match Apply (NewManager "wg-atreo" [HTTPSPort cfg; HTTPPort cfg]) with
        | (m, Err e) => (set_wg (set_fw h (Some m)) (WgServer.Stop (wg h)), Err (BFirewall e))
        | (m, Ok _) => (set_fw h (Some m), Ok tt)
        end
      else (h, Ok tt)
  end.

(** The callback of DropMembersFailing. *)
Definition keeps (h : Handlers) (m : MemberACLEntry) : bool :=
  is_admin m ||
  match m_Admittance m with
  | None => false
  | Some cert => is_ok (VerifyAdmittanceCertificate (Some cert) (m_MemberID m) (m_IdentityKey m)
                          (PublicKeyBase64 (keys h)) (Some (publicKey (keys h))))
  end.

(** aclStore.Load, whose error is only logged, and the second verification. *)
Definition load_acl (pinFile aclFile : read_file) (h : Handlers) : Handlers :=
  let s := (Load pinFile aclFile (acl h)).1 in
  match PinnedAdminPublicKey s with
  | None => set_acl h s
  | Some _ => set_acl h (DropMembersFailing (keeps h) s).1
  end.

Definition boot (cfg : boot_config) (keyWritten : bool) (pinFile aclFile : read_file) (h : Handlers)
    : Handlers * result boot_error boot_report :=
  match bring_up cfg keyWritten h with
  | (h, Err e) => (h, Err e)
  | (h, Ok _) =>
      let h := load_acl pinFile aclFile h in
      match reconcilePeers h with
      | Err p => (h, Err (BPanic p))
      | Ok (h, r) => (h, Ok r)
      end
  end.
End Boot.

(** ** Which keys can be seen *)

Definition keys_of (cs : list ClientRecord) : gset string := list_to_set (map c_WGPublicKey cs).

Lemma keys_of_spec k cs : k ∈ keys_of cs ↔ ∃ c, c ∈ cs ∧ c_WGPublicKey c = k.
Proof. unfold keys_of. rewrite elem_of_list_to_set, list_elem_of_fmap. naive_solver. Qed.

(** The keys of the rows of active members. *)
Definition active_keys (ms : list MemberACLEntry) : gset string :=
  keys_of (mjoin (map m_Clients (List.filter (λ m, negb (suspended m)) ms))).

Lemma active_keys_spec k ms : k ∈ active_keys ms ↔
  ∃ m c, m ∈ ms ∧ suspended m = false ∧ c ∈ m_Clients m ∧ c_WGPublicKey c = k.
Proof.
  unfold active_keys. rewrite keys_of_spec. setoid_rewrite list_elem_of_join. setoid_rewrite list_elem_of_fmap.
  setoid_rewrite list_elem_of_In. setoid_rewrite filter_In. setoid_rewrite negb_true_iff. naive_solver.
Qed.

(** Rows that gained at most the key [k]. *)
Definition gains (k : string) (m m' : MemberACLEntry) : Prop :=
  keys_of (m_Clients m') ⊆ {[k]} ∪ keys_of (m_Clients m).

Lemma keys_of_app a b : keys_of (a ++ b) = keys_of a ∪ keys_of b.
Proof. unfold keys_of. by rewrite map_app, list_to_set_app_L. Qed.

Lemma keys_of_sub a b : a ⊆ b → keys_of a ⊆ keys_of b.
Proof. intros Hab k. rewrite !keys_of_spec. intros (c & Hc & <-). eauto. Qed.

Lemma put_client_gains rec cs : keys_of (put_client rec cs) ⊆ {[c_WGPublicKey rec]} ∪ keys_of cs.
Proof.
  unfold put_client. destruct (existsb _ _); [|rewrite keys_of_app; unfold keys_of; set_solver].
  intros k (c & [Hc|(c' & Hc' & _ & ->)]%update_first_cases & <-)%keys_of_spec.
  - apply elem_of_union_r, keys_of_spec. eauto.
  - set_solver.
Qed.

Lemma update_first_Forall2 {A} (R : A → A → Prop) p f (l : list A) : (∀ x, R x x) → (∀ x, R x (f x)) → Forall2 R l (update_first p f l).
Proof.
  intros Hr Hf. induction l as [|x l IH]; simpl; [constructor|]. case_match; constructor; auto. by apply Forall_Forall2_diag, Forall_true.
Qed.

Lemma AddClient_gains `{Unicode} id rec s : Forall2 (gains (c_WGPublicKey rec)) (members s) (members (AddClient id rec s).1).
Proof.
  assert (Hid : ∀ m, gains (c_WGPublicKey rec) m m) by (unfold gains; set_solver).
  unfold AddClient. destruct (c_WGPublicKey rec =s ""); [by apply Forall_Forall2_diag, Forall_true|].
  set (ms := map _ _). assert (Hms : Forall2 (λ m m', keys_of (m_Clients m') ⊆ keys_of (m_Clients m)) (members s) ms).
  { apply Forall2_fmap_r, Forall_Forall2_diag, Forall_true. intros m. unfold compose, strip_member. destruct (has_id id m); [done|].
    apply keys_of_sub, filter_sub. }
  destruct (existsb _ ms); simpl; [|eapply Forall2_impl; [exact Hms|unfold gains; set_solver]].
  eapply Forall2_comp; [|exact Hms|apply (update_first_Forall2 (gains (c_WGPublicKey rec))); [done|]].
  - unfold gains. set_solver.
  - intros m. unfold gains. destruct m. simpl. apply put_client_gains.
Qed.

Lemma overwrite_keys cs v : keys_of (overwrite cs v) ⊆ keys_of cs ∪ keys_of v.
Proof.
  intros k (c & Hc & <-)%keys_of_spec. unfold overwrite in Hc.
  assert (c ∈ cs ++ drop (length cs) v) as [Hc'|Hc']%elem_of_app.
  { rewrite <- (take_drop (length v) (cs ++ drop (length cs) v)). apply elem_of_app. by left. }
  - apply elem_of_union_l, keys_of_spec. eauto.
  - apply elem_of_union_r, keys_of_spec. exists c. split; [|done].
    rewrite <- (take_drop (length cs) v). apply elem_of_app. by right.
Qed.

(** ** The loop's invariant *)

Section Invariant.
Variable ms : list MemberACLEntry.

(** The row of an active member shows and holds only keys of active members. *)
Definition confined (cs : list (list ClientRecord)) : Prop := Forall2 (λ m v, suspended m = false → keys_of v ⊆ active_keys ms) ms cs.

Record BInv (b : bstate) : Prop := {
  bi_views : confined (b_views b);
  bi_rows : confined (map m_Clients (members (acl (b_h b))));
  bi_valid : b_valid b ⊆ active_keys ms;
  bi_peers : ∀ k p, peers (wg (b_h b)) !! k = Some p → PublicKey p = k
}.

Lemma confined_start : confined (map m_Clients ms).
Proof.
  apply Forall2_fmap_r, Forall_Forall2_diag, Forall_forall. intros m Hm Ha k (c & Hc & <-)%keys_of_spec. apply active_keys_spec. eauto 6.
Qed.

Lemma confined_gains k l l' : k ∈ active_keys ms → Forall2 (gains k) l l' → confined (map m_Clients l) → confined (map m_Clients l').
Proof.
  intros Hk Hg Hc. unfold confined in *. rewrite Forall2_fmap_r in *. eapply Forall2_comp; [|exact Hc|exact Hg].
  unfold gains. simpl. intros m x y Hx Hxy Ha. specialize (Hx Ha). set_solver.
Qed.

Lemma confined_refresh s views : confined (map m_Clients (members s)) → confined views → confined (refresh_views s views).
Proof.
  unfold confined, refresh_views. generalize (active_keys ms) as A. generalize (members s) as l. revert views.
  induction ms as [|m l0 IH]; intros views l A Hl Hv.
  - apply Forall2_nil_inv_l in Hl. apply fmap_nil_inv in Hl as ->. constructor.
  - apply Forall2_cons_inv_l in Hl as (cs & l' & Hcs & Hl & El). apply Forall2_cons_inv_l in Hv as (v & vs & Hv & Hvs & ->).
    destruct l as [|x l]; [done|]. injection El as <- <-. simpl. constructor; [|by apply IH].
    intros Ha. specialize (Hcs Ha). specialize (Hv Ha). pose proof (overwrite_keys (m_Clients x) v). set_solver.
Qed.
End Invariant.

Section Theorems.
Context `{Unicode} `{Primitives} `{Commands} `{Path}.

(** Where the visited positions come from. *)
Lemma positions_spec ms m i j : (m, i, j) ∈ positions ms → ms !! i = Some m ∧ suspended m = false ∧ j < length (m_Clients m).
Proof.
  unfold positions. intros (l & Hin & Hl)%list_elem_of_join. apply elem_of_lookup_imap in Hl as (i' & m' & -> & Hi).
  destruct (suspended m') eqn:E; [by apply elem_of_nil in Hin|].
  apply list_elem_of_fmap in Hin as (j' & [= -> -> ->] & Hj). apply elem_of_seq in Hj. split_and!; [done|done|lia].
Qed.

Lemma confined_row ms views i m c : confined ms views → ms !! i = Some m → suspended m = false →
  c ∈ default [] (views !! i) → c_WGPublicKey c ∈ active_keys ms.
Proof.
  intros Hc Hi Ha Hin. destruct (Forall2_lookup_l _ _ _ _ _ Hc Hi) as (v & Hv & Hsub). rewrite Hv in Hin.
  apply (Hsub Ha), keys_of_spec. eauto.
Qed.

Lemma short_panics_ok k b b' : short_panics k b = Ok b' → b' = b.
Proof. unfold short_panics. by destruct (_ <? _)%nat; intros [= <-]. Qed.

(** How one iteration can go. *)
Lemma boot_client_inv ms b pos : pos ∈ positions ms → BInv ms b →
  (∀ k, k ∈ active_keys ms → k ≠ "" → 16 ≤ slen k) ∨ is_ok (boot_client b pos) = true →
  ∃ b', boot_client b pos = Ok b' ∧ BInv ms b'.
Proof.
  destruct pos as [[m i] j]. intros (Hi & Ha & Hj)%positions_spec [Hv Hr Hval Hp] Hlong. unfold boot_client in *.
  destruct (b_views b !! i ≫= (.!! j)) as [c|] eqn:Ec; [|by eexists].
  assert (Hk : c_WGPublicKey c ∈ active_keys ms).
  { apply bind_Some in Ec as (v & Hvi & Hc). eapply confined_row; [exact Hv|exact Hi|done|]. rewrite Hvi. by eapply list_elem_of_lookup_2. }
  destruct (c_WGPublicKey c =s "") eqn:Ek; [by eexists|]. apply seqb_false in Ek.
  assert (Hshort : ∀ x, BInv ms x → (∀ k, k ∈ active_keys ms → k ≠ "" → 16 ≤ slen k) ∨ is_ok (short_panics (c_WGPublicKey c) x) = true →
    ∃ b', short_panics (c_WGPublicKey c) x = Ok b' ∧ BInv ms b').
  { intros x Hx Hl. exists x. split; [|done]. unfold short_panics in *. destruct (Nat.ltb_spec (slen (c_WGPublicKey c)) 16) as [Hlt|]; [|done].
    destruct Hl as [Hl|]; [|done]. specialize (Hl _ Hk Ek). lia. }
  destruct (boot_address c _) as [a [ip|]]; [|apply Hshort; [by split; [| |set_solver|]|done]].
  destruct (AddPeer _ ip _) as [w [u|]] eqn:Ea; apply AddPeer_peers in Ea.
  - eexists. split; [reflexivity|]. set (s := (AddClient _ _ _).1) in *.
    assert (Hrows : confined ms (map m_Clients (members s))).
    { subst s. match goal with |- context [AddClient ?i ?r ?x] => pose proof (AddClient_gains i r x) as Hg end.
      by apply (confined_gains ms _ _ _ Hk Hg). }
    split; simpl; [by apply confined_refresh|done|set_solver|]. intros k p. cbn [wg set_alloc] in Ea. rewrite Ea.
    intros [[<- <-]|[_ ?]]%lookup_insert_Some; eauto.
  - apply Hshort; [|done]. split; [done|done|set_solver|]. simpl. rewrite Ea. done.
Qed.

Lemma fold_client_inv ms l b : (∀ pos, pos ∈ l → pos ∈ positions ms) → BInv ms b →
  (∀ k, k ∈ active_keys ms → k ≠ "" → 16 ≤ slen k) ∨ is_ok (fold_res boot_client b l) = true →
  ∃ b', fold_res boot_client b l = Ok b' ∧ BInv ms b'.
Proof.
  revert b. induction l as [|pos l IH]; intros b Hl Hb Hlong; [by eexists|]. cbn [fold_res] in *.
  destruct (boot_client_inv ms b pos) as (b1 & E & Hb1); [apply Hl; by left|done| |].
  { destruct Hlong as [?|Hok]; [by left|right]. by destruct (boot_client b pos). }
  rewrite E in *. cbn [res_bind] in *. apply IH; [|done|done]. intros; apply Hl. by right.
Qed.

Lemma drop_stale_spec valid h k : (∀ k p, peers (wg h) !! k = Some p → PublicKey p = k) →
  is_Some (peers (wg (drop_stale valid h)) !! k) → k ∈ valid ∧ is_Some (peers (wg h) !! k).
Proof.
  intros Hk. unfold drop_stale. assert (Hl : ∀ p, peers (wg h) !! k = Some p → k ∉ valid → ∃ p, p ∈ ListPeers (wg h) ∧ PublicKey p = k).
  { intros p Hp _. exists p. split; [|by eapply Hk]. apply list_elem_of_fmap. exists (k, p). split; [done|]. by apply elem_of_map_to_list. }
  assert (Hgen : ∀ l h0, is_Some (peers (wg (foldl (λ h p, if bool_decide (PublicKey p ∈ valid) then h
      else set_alloc (set_wg h (RemovePeer (PublicKey p) (wg h))) (Release (PublicKey p) (alloc h))) h0 l)) !! k) →
      is_Some (peers (wg h0) !! k) ∧ (k ∈ valid ∨ ∀ p, p ∈ l → PublicKey p ≠ k)).
  { clear. induction l as [|p l IH]; intros h0; cbn [foldl]; [intros; split; [done|]; right; set_solver|]. intros [Q1 Q2]%IH.
    case_bool_decide as Hp; [split; [done|]; destruct Q2 as [|Q2]; [by left|]; destruct (decide (PublicKey p = k)) as [<-|];
      [by left|right; set_solver]|].
    cbn [wg set_alloc set_wg] in Q1. destruct (RemovePeer_state (PublicKey p) (wg h0)) as [_ Er]. rewrite Er in Q1.
    destruct (decide (PublicKey p = k)) as [<-|Hne]; [rewrite lookup_delete_eq in Q1; by destruct Q1|].
    rewrite lookup_delete_ne in Q1 by done. split; [done|]. destruct Q2; [by left|right; set_solver]. }
  intros [[p Hp] Hor]%Hgen. split; [|by eexists]. destruct Hor as [?|Hn]; [done|]. destruct (decide (k ∈ valid)); [done|].
  destruct (Hl p Hp) as (p' & Hin & <-); [done|]. by destruct (Hn p' Hin).
Qed.

Definition keyed (w : WgServer.Server) : Prop := ∀ k p, peers w !! k = Some p → PublicKey p = k.

Lemma start_inv h : keyed (wg h) →
  BInv (members (acl h)) (MkBoot (set_alloc h (mark_all (members (acl h)) (alloc h))) (map m_Clients (members (acl h))) ∅ 0).
Proof. intros Hk. split; [apply confined_start|apply confined_start|set_solver|exact Hk]. Qed.

(** The peers that reconcilePeers leaves. *)
Lemma reconcilePeers_keys h h' r : keyed (wg h) → reconcilePeers h = Ok (h', r) →
  ∀ k, is_Some (peers (wg h') !! k) → k ∈ active_keys (members (acl h)).
Proof.
  intros Hk Hr k Hp. unfold reconcilePeers in Hr. apply res_bind_ok in Hr as (b & Hb & [= <- _]).
  destruct (fold_client_inv (members (acl h)) (positions (members (acl h))) _ (λ _ H, H) (start_inv h Hk)) as (b' & Eb & [_ _ Hv Hkb]).
  { right. by rewrite Hb. }
  rewrite Hb in Eb. injection Eb as <-. rewrite firewall_frame in Hp. cbn [wg set_fw] in Hp.
  apply drop_stale_spec in Hp as [Hin _]; [|done]. by apply Hv.
Qed.

(** A panic names its cause. *)
Lemma reconcilePeers_panics h p : keyed (wg h) → reconcilePeers h = Err p →
  ∃ k, k ∈ active_keys (members (acl h)) ∧ k ≠ "" ∧ slen k < 16.
Proof.
  intros Hk Hr. set (A := active_keys (members (acl h))).
  destruct (decide (set_Exists (λ k, k ≠ "" ∧ slen k < 16) A)) as [He|Hn]; [exact He|]. exfalso.
  destruct (fold_client_inv (members (acl h)) (positions (members (acl h))) _ (λ _ H, H) (start_inv h Hk)) as (b & Eb & _).
  { left. intros k Hin Hne. destruct (decide (16 ≤ slen k)); [done|]. destruct Hn. exists k. split; [done|]. split; [done|lia]. }
  unfold reconcilePeers in Hr. rewrite Eb in Hr. discriminate Hr.
Qed.

Lemma boot_client_fw b pos b' : boot_client b pos = Ok b' → fw (b_h b') = fw (b_h b).
Proof.
  destruct pos as [[m i] j]. unfold boot_client. destruct (_ ≫= _) as [c|]; [|by intros [= <-]].
  destruct (_ =s _); [by intros [= <-]|]. destruct (boot_address _ _) as [a [ip|]]; [|by intros ->%short_panics_ok].
  destruct (AddPeer _ _ _) as [w [|]]; [by intros [= <-]|by intros ->%short_panics_ok].
Qed.

Lemma fold_client_fw l b b' : fold_res boot_client b l = Ok b' → fw (b_h b') = fw (b_h b).
Proof.
  revert b. induction l as [|pos l IH]; intros b; cbn [fold_res]; [by intros [= <-]|].
  intros (b1 & E1 & E2)%res_bind_ok. rewrite (IH _ E2). by eapply boot_client_fw.
Qed.

Lemma drop_stale_frame valid h : drop_stale valid h = set_alloc (set_wg h (wg (drop_stale valid h))) (alloc (drop_stale valid h)).
Proof.
  unfold drop_stale. generalize (ListPeers (wg h)) as l. intros l. revert h. induction l as [|p l IH]; intros h; [by destruct h|].
  cbn [foldl]. rewrite IH. by case_bool_decide.
Qed.

Lemma reconcilePeers_fw h h' r : reconcilePeers h = Ok (h', r) →
  fw h' = (λ m, (SetPortGrants (map fw_grant (PortGrants (acl h'))) m).1) <$> fw h.
Proof.
  unfold reconcilePeers. intros (b & Hb & E)%res_bind_ok. injection E as <- _. apply fold_client_fw in Hb.
  rewrite drop_stale_frame. unfold reconcileFirewallGrants. cbn [fw set_alloc set_wg]. cbn [fw b_h set_alloc] in Hb. rewrite Hb. by destruct (fw h).
Qed.

Lemma bring_up_frame cfg kw h h' r : bring_up cfg kw h = (h', r) →
  acl h' = acl h ∧ keys h' = keys h ∧ alloc h' = alloc h ∧ peers (wg h') = peers (wg h).
Proof.
  unfold bring_up. destruct (_ =s _); [by intros [= <- <-]|]. destruct (tunnelHost h =s ""); [by intros [= <- <-]|].
  destruct (WgServer.Start kw (wg h)) as [w rw] eqn:E. destruct (Start_cases _ _ _ _ E) as (Hp & _).
  destruct rw; [|by intros [= <- <-]]. destruct (default false _); [|by intros [= <- <-]].
  destruct (Apply _) as [m [|]]; intros [= <- <-]; [done|]. split_and!; [done..|].
  cbn [wg set_wg set_fw]. unfold WgServer.Stop. by destruct (negb _).
Qed.

Lemma load_acl_members pf af h m : m ∈ members (acl (load_acl pf af h)) →
  m ∈ members (Load pf af (acl h)).1 ∧
  (pinnedAdminPubKey (Load pf af (acl h)).1 ≠ None → keeps h m = true).
Proof.
  unfold load_acl. set (s := (Load pf af (acl h)).1). unfold PinnedAdminPublicKey.
  destruct (pinnedAdminPubKey s); [|by intros Hm; split]. unfold DropMembersFailing.
  destruct (List.filter (λ m, negb (keeps h m)) (members s)) as [|d l] eqn:Ed; cbn [fst acl set_acl]; intros Hm.
  - split; [done|]. intros _. destruct (keeps h m) eqn:Ek; [done|].
    assert (m ∈ List.filter (λ m, negb (keeps h m)) (members s)) as Hd.
    { apply list_elem_of_In, filter_In. rewrite <- list_elem_of_In, Ek. done. }
    rewrite Ed in Hd. by apply elem_of_nil in Hd.
  - apply list_elem_of_In, filter_In in Hm as [Hm Hk]. apply list_elem_of_In in Hm. done.
Qed.

(** C18: after a successful start every WireGuard peer is a client that the access-control list
    read from disk gives to an active member; and when an owner key is pinned, that member is an
    administrator or holds an admittance certificate, for its own id and identity key, that
    verifies under this agent's key. *)
Theorem boot_peers_authorised cfg kw pf af h h' r : keyed (wg h) → boot cfg kw pf af h = (h', Ok r) →
  let s := (Load pf af (acl h)).1 in
  ∀ k, is_Some (peers (wg h') !! k) → ∃ m c, m ∈ members s ∧ c ∈ m_Clients m ∧ c_WGPublicKey c = k ∧ active m ∧
    (pinnedAdminPubKey s ≠ None → is_admin m = true ∨
       ∃ cert, m_Admittance m = Some cert ∧
         VerifyAdmittanceCertificate (Some cert) (m_MemberID m) (m_IdentityKey m) (PublicKeyBase64 (keys h))
           (Some (publicKey (keys h))) = Ok tt).
Proof.
  intros Hk Hb s k Hp. unfold boot in Hb. destruct (bring_up cfg kw h) as [h1 [u|]] eqn:Eu; [|done].
  destruct (bring_up_frame _ _ _ _ _ Eu) as (Ea & Ek & _ & Ep).
  destruct (reconcilePeers _) as [[h2 r2]|] eqn:Er; [|done]. injection Hb as <- <-.
  assert (Hk1 : keyed (wg (load_acl pf af h1))).
  { unfold load_acl. unfold keyed. destruct (PinnedAdminPublicKey _); cbn [wg set_acl]; rewrite Ep; exact Hk. }
  pose proof (reconcilePeers_keys _ _ _ Hk1 Er k Hp) as (m & c & Hm & Ha & Hc & Hkey)%active_keys_spec.
  apply load_acl_members in Hm as [Hm Hkeep]. rewrite Ea in *. exists m, c. split_and!; [done..|by apply suspended_false|].
  intros Hpin. specialize (Hkeep Hpin). unfold keeps in Hkeep. rewrite Ek in Hkeep.
  apply orb_true_iff in Hkeep as [?|Hcert]; [by left|right]. destruct (m_Admittance m) as [cert|]; [|done].
  exists cert. split; [done|]. by destruct (VerifyAdmittanceCertificate _ _ _ _ _) as [[]|].
Qed.

(** C33: how a start can end. When the packet filter cannot be installed, the interface is taken
    down again, no peer has been added and the list has not been read; a panic means that an
    active member's client has a non-empty key of fewer than 16 bytes; and a start that succeeds
    with the filter enabled has a complete ruleset installed before any peer, and gives the
    filter the port grants of the list it ends with. *)
Theorem boot_outcome cfg kw pf af h h' r : keyed (wg h) → boot cfg kw pf af h = (h', r) →
  (∀ e, r = Err (BFirewall e) → FirewallEnabled cfg = Some true ∧ running (wg h') = false ∧
     peers (wg h') = peers (wg h) ∧ acl h' = acl h) ∧
  (∀ p, r = Err (BPanic p) → ∃ m c, m ∈ members (Load pf af (acl h)).1 ∧ active m ∧ c ∈ m_Clients m ∧
     c_WGPublicKey c ≠ "" ∧ slen (c_WGPublicKey c) < 16) ∧
  (∀ rep, r = Ok rep → FirewallEnabled cfg = Some true →
     ∃ m, Apply (NewManager "wg-atreo" [HTTPSPort cfg; HTTPPort cfg]) = (m, Ok tt) ∧
       fw h' = Some (SetPortGrants (map fw_grant (PortGrants (acl h'))) m).1).
Proof.
  intros Hk Hb. unfold boot in Hb. destruct (bring_up cfg kw h) as [h1 ru] eqn:Eu.
  destruct (bring_up_frame _ _ _ _ _ Eu) as (Ea & _ & _ & Ep).
  assert (Hk1 : keyed (wg (load_acl pf af h1))).
  { unfold load_acl. unfold keyed. destruct (PinnedAdminPublicKey _); cbn [wg set_acl]; rewrite Ep; exact Hk. }
  split_and!.
  - intros e ->. destruct ru as [u|e']; [destruct (reconcilePeers _) as [[? ?]|]; discriminate Hb|]. injection Hb as -> ->.
    split_and!; [| |done|done]; unfold bring_up in Eu.
    all: destruct (_ =s _); [done|]; destruct (tunnelHost h =s ""); [done|].
    all: destruct (WgServer.Start kw (wg h)) as [w [|]]; [|done]; destruct (FirewallEnabled cfg) as [[]|]; try done.
    cbn [default] in Eu. destruct (Apply _) as [m [|]]; [done|]. injection Eu as <- _. cbn [wg set_wg]. unfold WgServer.Stop.
    by destruct (running w) eqn:Er.
  - intros p ->. destruct ru as [u|]; [|destruct e; try discriminate Hb; unfold bring_up in Eu].
    + destruct (reconcilePeers _) as [[? ?]|p'] eqn:Er; [discriminate Hb|].
      destruct (reconcilePeers_panics _ _ Hk1 Er) as (k & (m & c & Hm & Ha & Hc & <-)%active_keys_spec & Hne & Hl).
      apply load_acl_members in Hm as [Hm _]. rewrite Ea in Hm. apply suspended_false in Ha. eauto 8.
    + repeat case_match; done.
  - intros rep -> Hf. destruct ru as [u|]; [|done]. unfold bring_up in Eu.
    destruct (_ =s _); [done|]. destruct (tunnelHost h =s ""); [done|]. destruct (WgServer.Start kw (wg h)) as [w [|]]; [|done].
    rewrite Hf in Eu. cbn [default] in Eu. destruct (Apply _) as [m [[]|]] eqn:Em; [|done]. exists m. split; [done|].
    injection Eu as <- <-. destruct (reconcilePeers _) as [[h2 r2]|] eqn:Er; [|done]. injection Hb as <- <-.
    rewrite (reconcilePeers_fw _ _ _ Er). unfold load_acl. by destruct (PinnedAdminPublicKey _).
Qed.
End Theorems.

(** ** Runs *)

Module BootDemo.
#[local] Existing Instance AclStore.Demo.ascii_only.
#[local] Existing Instance Toy.prims.
#[local] Existing Instance HandDemo.normal.
#[local] Existing Instance HandDemo.on_host.
#[local] Existing Instance HandDemo.urls.
#[local] Existing Instance DevDemo.plain.

Definition text (j : json) : string := match writeValue (to_any j) with Ok c => c | Err _ => "" end.

Definition pin_file : read_file := FileBytes (text (JObj [("algorithm", JStr "ed25519"); ("publicKey", JStr (Base64.encode DevDemo.pin))])).

Definition client (k ip : string) : json := JObj [("wgPublicKey", JStr k); ("tunnelIp", JStr ip)].

(** A member row as acl.json has it. *)
Definition row (id role key status : string) (more : list (string * json)) (clients : list json) : json :=
  JObj ([("memberId", JStr id); ("role", JStr role); ("identityKey", JStr (Base64.encode key)); ("status", JStr status);
         ("clients", JArr clients)] ++ more).

Definition cert_json (c : AdmittanceCertificate) : json :=
  JObj [("memberId", JStr (ad_MemberID c)); ("identityKey", JStr (ad_IdentityKey c)); ("nasPubkey", JStr (ad_NASPubkey c));
        ("admittedAt", JNum (itoa (ad_AdmittedAt c))); ("attestationHash", JStr (ad_AttestationHash c));
        ("initialAllowedAppIds", JArr (map JStr (ad_InitialAllowedAppIDs c))); ("signature", JStr (ad_Signature c))].

Definition acl_file (rows : list json) : read_file := FileBytes (text (JObj [("version", JNum "1"); ("members", JArr rows)])).

Definition owner_row : json := row "o" "owner" DevDemo.pin "active" [] [client DevDemo.key "100.64.9.7"].
Definition bob_row (status : string) (more : list (string * json)) : json :=
  row "b" "member" DevDemo.bob_key status more [client DevDemo.bob_wg "10.0.0.2"].
Definition admitted : list (string * json) := [("admittance", cert_json DevDemo.bob_cert)].

Definition cfg : boot_config := MkBootConfig "apps.example" (Some true) 443 80.
Definition run (c : boot_config) (rows : list json) : Handlers * result boot_error boot_report :=
  boot c true pin_file (acl_file rows) HandDemo.handlers.

Definition summary (r : Handlers * result boot_error boot_report)
    : result boot_error boot_report * list (string * string) * list (string * list string) :=
  (r.2, map (λ p, (p.1, TunnelIP p.2)) (map_to_list (peers (wg r.1))),
   map (λ m, (m_MemberID m, map c_TunnelIP (m_Clients m))) (members (acl r.1))).

(** Bob's address is outside the overlay and is replaced. *)
Example renumbered : summary (run cfg [owner_row; bob_row "active" admitted]) =
  (Ok (MkReport 2 0 0), [(DevDemo.key, "100.64.9.7"); (DevDemo.bob_wg, "100.64.9.2")],
   [("o", ["100.64.9.7"]); ("b", ["100.64.9.2"])]).
Proof. vm_compute. reflexivity. Qed.

Example suspended_skipped : summary (run cfg [owner_row; bob_row "suspended" admitted]) =
  (Ok (MkReport 1 0 1), [(DevDemo.key, "100.64.9.7")], [("o", ["100.64.9.7"]); ("b", ["10.0.0.2"])]).
Proof. vm_compute. reflexivity. Qed.

Example uncertified_dropped : summary (run cfg [owner_row; bob_row "active" []]) =
  (Ok (MkReport 1 0 0), [(DevDemo.key, "100.64.9.7")], [("o", ["100.64.9.7"])]).
Proof. vm_compute. reflexivity. Qed.

Local Notation booted := (boot cfg true pin_file (acl_file [owner_row; bob_row "active" admitted]) HandDemo.handlers).

Lemma fresh_keyed : keyed (wg HandDemo.handlers).
Proof. intros k p Hp. discriminate Hp. Qed.

Lemma boot_peers_authorised_witness :
  match booted with
  | (h', Ok _) => ∀ k, is_Some (peers (wg h') !! k) →
      let s := (Load pin_file (acl_file [owner_row; bob_row "active" admitted]) (acl HandDemo.handlers)).1 in
      ∃ m c, m ∈ members s ∧ c ∈ m_Clients m ∧ c_WGPublicKey c = k ∧ active m ∧
        (pinnedAdminPubKey s ≠ None → is_admin m = true ∨
           ∃ cert, m_Admittance m = Some cert ∧
             VerifyAdmittanceCertificate (Some cert) (m_MemberID m) (m_IdentityKey m) (PublicKeyBase64 (keys HandDemo.handlers))
               (Some (publicKey (keys HandDemo.handlers))) = Ok tt)
  | _ => False
  end.
Proof.
  assert (Hok : is_ok booted.2 = true) by (vm_compute; reflexivity).
  destruct booted as [h' [r|e]] eqn:E; [|discriminate Hok].
  exact (boot_peers_authorised cfg true pin_file (acl_file [owner_row; bob_row "active" admitted]) HandDemo.handlers h' r fresh_keyed E).
Defined.

(** A client whose key is a short string: an active member's own registration is enough. *)
Definition short_row : json := row "o" "owner" DevDemo.pin "active" [] [client "short" "100.64.9.7"].
Local Notation crashed := (boot cfg true pin_file (acl_file [short_row]) HandDemo.handlers).

Lemma boot_outcome_witness :
  crashed.2 = Err (BPanic SliceBounds) ∧
  ∃ m c, m ∈ members (Load pin_file (acl_file [short_row]) (acl HandDemo.handlers)).1 ∧ active m ∧ c ∈ m_Clients m ∧
     c_WGPublicKey c ≠ "" ∧ slen (c_WGPublicKey c) < 16.
Proof.
  assert (Hr : crashed.2 = Err (BPanic SliceBounds)) by (vm_compute; reflexivity). split; [exact Hr|].
  destruct crashed as [h' r] eqn:E. cbn [snd] in Hr.
  destruct (boot_outcome cfg true pin_file (acl_file [short_row]) HandDemo.handlers h' r fresh_keyed E) as (_ & Hp & _).
  exact (Hp SliceBounds Hr).
Defined.

(** The key comes in through a signed push, which applies and stores it; AddPeer then refuses
    it, and so does every later start, in the branch that panics. *)
Definition short_owner : json :=
  JObj [("memberId", JStr "o"); ("role", JStr "owner"); ("identityKey", JStr (Base64.encode DevDemo.pin));
        ("clients", JArr [DevDemo.client_item DevDemo.pin "o" "short"])].

Lemma short_key_crashes_start :
  let '(h, r) := DevDemo.run (DevDemo.push "3" [] [short_owner] []) DevDemo.start in
  DevDemo.is_applied r = true ∧ reconcilePeers h = Err SliceBounds.
Proof. vm_compute. split; reflexivity. Qed.

(** A row whose role says admin is not verified again on load: an edited acl.json that adds one
    with any identity key keeps it, peer included, while the pin is another key. *)
Lemma tampered_admin_survives_load :
  summary (run cfg [row "x" "admin" DevDemo.bob_key "active" [] [client DevDemo.bob_wg "100.64.9.9"]]) =
    (Ok (MkReport 1 0 0), [(DevDemo.bob_wg, "100.64.9.9")], [("x", ["100.64.9.9"])]) ∧
  pinnedAdminPubKey (acl (run cfg [row "x" "admin" DevDemo.bob_key "active" [] [client DevDemo.bob_wg "100.64.9.9"]]).1) =
    Some DevDemo.pin ∧ DevDemo.pin ≠ DevDemo.bob_key.
Proof. split_and!; [vm_compute; reflexivity|vm_compute; reflexivity|discriminate]. Qed.

(** Without iptables the start fails, and nothing is left running. *)
Example no_filter_no_start : let r := @boot _ _ _ {| on_path h b := false |} cfg true pin_file (acl_file [owner_row]) HandDemo.handlers in
  r.2 = Err (BFirewall ErrNotOnPath) ∧ running (wg r.1) = false ∧ peers (wg r.1) = ∅.
Proof. split_and!; vm_compute; reflexivity. Qed.
End BootDemo.
