(* ===== verification/Reachability.v ===== *)
(** * internal/agent/reachability.go and the loops of agent.go that watch the public path

    Classification of the address a gateway reports, the decision to use the relay, the
    debounced transport report, the once-per-episode warning of members with a direct
    configuration, and one tick of the port-mapping renewal with its rate-limited alerts.
    What the network answers (the mapping, whether a message could be sent, whether a marker
    file could be written) is an argument of each tick. *)

From S2P Require Import Prelude Encoding NetAddr Atreolink AclStore.

(** ** Addresses (net/netip) *)

(** netip.ParseAddr: an IPv6 literal may carry a zone. *)
Definition ParseAddr (s : string) : option (addr * string) :=
  c ← first_sep s;
  if ceqb c "." then (λ b, (Addr4 b, "")) <$> parse_ipv4 s
  else if ceqb c ":" then
    match cut_at "%" s with
    | Some (a, z) => if z =s "" then None else (λ b, (Addr6 b, z)) <$> parse_ipv6 a
    | None => (λ b, (Addr6 b, "")) <$> parse_ipv6 s
    end
  else None.

(** Unmap: an IPv4-mapped address loses its prefix and its zone. *)
Definition Unmap (a : addr * string) : addr * string :=
  match a.1 with
  | Addr4 _ => a
  | Addr6 b => match To4 b with Some b4 => (Addr4 b4, "") | None => a end
  end.

Definition byte (i : nat) (b : list N) : N := nth i b 0%N.

(** cgnatRange.Contains: 100.64.0.0/10. *)
Definition in_cgnat (a : addr) : bool :=
  match a with Addr4 b => ((byte 0 b =? 100) && (64 <=? byte 1 b) && (byte 1 b <=? 127))%N | Addr6 _ => false end.

Definition IsPrivate (a : addr) : bool :=
  match a with
  | Addr4 b => ((byte 0 b =? 10) || (byte 0 b =? 172) && (16 <=? byte 1 b) && (byte 1 b <=? 31) ||
                (byte 0 b =? 192) && (byte 1 b =? 168))%N
  | Addr6 b => (N.land (byte 0 b) 0xfe =? 0xfc)%N
  end.

Definition IsLoopback (a : addr) : bool :=
  match a with Addr4 b => (byte 0 b =? 127)%N | Addr6 b => bool_decide (b = replicate 15 0%N ++ [1%N]) end.

Definition IsLinkLocalUnicast (a : addr) : bool :=
  match a with
  | Addr4 b => ((byte 0 b =? 169) && (byte 1 b =? 254))%N
  | Addr6 b => ((byte 0 b =? 0xfe) && (N.land (byte 1 b) 0xc0 =? 0x80))%N
  end.

(** Equality with the unspecified address compares the zone too. *)
Definition IsUnspecified (a : addr * string) : bool :=
  match a.1 with
  | Addr4 b => bool_decide (b = replicate 4 0%N)
  | Addr6 b => bool_decide (b = replicate 16 0%N) && (a.2 =s "")
  end.

(** ** Classification *)

Inductive reachability := reachUnknown | reachPublic | reachCarrierNAT.

Definition classifyMappedIP (ip : string) : reachability :=
  match ParseAddr ip with
  | None => reachUnknown
  | Some a =>
      let a := Unmap a in
      if in_cgnat a.1 || IsPrivate a.1 then reachCarrierNAT
      else if IsLoopback a.1 || IsLinkLocalUnicast a.1 || IsUnspecified a then reachUnknown
      else reachPublic
  end.

Definition usablePublic (r : reachability) : bool := match r with reachPublic => true | _ => false end.

Definition relayWanted (endpointIP mappedIP : string) (mappedPort : Z) : bool :=
  if endpointIP <>s "" then false
  else if (mappedPort =? 0)%Z then true
  else negb (usablePublic (classifyMappedIP mappedIP)).

(** ** The transport report *)

Inductive transportState := transportUnknown | transportDirect | transportRelay.
#[export] Instance transport_dec : EqDecision transportState.
Proof. solve_decision. Defined.

Definition transportReportDecision (cur last : transportState) (relayStreak : Z) : transportState :=
  if bool_decide (cur = transportDirect) && negb (bool_decide (last = transportDirect)) then transportDirect
  else if bool_decide (cur = transportRelay) && negb (bool_decide (last = transportRelay)) && (2 <=? relayStreak)%Z then transportRelay
  else transportUnknown.

Definition hasDirectConfig (clients : list ClientRecord) : bool :=
  existsb (λ c, (c_Platform c =s "other") && (c_EndpointType c =s "direct")) clients.

(** The members warned, in order, and the marker afterwards; [created] tells whether the marker
    file can be created, [notifyUp] whether there is a notification server. *)
Definition warnDirectConfigHolders (notifyUp created : bool) (s : Store) (marker : bool) : list MemberACLEntry * bool :=
  if negb notifyUp || marker then ([], marker)
  else (List.filter (λ m, negb (suspended m) && hasDirectConfig (m_Clients m)) (members s), created).

Record transport := MkTransport { t_last : transportState; t_streak : Z; t_marker : bool }.

(** What one tick meets. *)
Record tick_io := MkTick { relay_needed : bool; sent_ok : bool; notify_up : bool; marker_created : bool }.

(** A tick: what is reported (or nothing), who is warned, the state. *)
Definition transport_tick (s : Store) (io : tick_io) (t : transport) : transport * transportState * list MemberACLEntry :=
  let cur := if relay_needed io then transportRelay else transportDirect in
  let streak := if relay_needed io then (t_streak t + 1)%Z else 0%Z in
  let report := transportReportDecision cur (t_last t) streak in
  match report with
  | transportUnknown => (MkTransport (t_last t) streak (t_marker t), report, [])
  | transportRelay =>
      let '(warned, marker) := warnDirectConfigHolders (notify_up io) (marker_created io) s (t_marker t) in
      (MkTransport (if sent_ok io then report else t_last t) streak marker, report, warned)
  | transportDirect => (MkTransport (if sent_ok io then report else t_last t) streak false, report, [])
  end.

(** ** Rate-limited alerts to the owner *)

Definition hour : Z := 60 * minute.
Definition portMappingAlertCooldown : Z := 24 * hour.

(** [stamp] is the modification time of the cooldown file, if there is one. *)
Definition portMappingAlertOnCooldown (now : Z) (stamp : option Z) : bool :=
  match stamp with None => false | Some t => (time_sub now t <? portMappingAlertCooldown)%Z end.

(** notifyOwner: whether the alert reaches the owner's devices. *)
Definition notifyOwner (notifyUp delivered : bool) (s : Store) : bool :=
  notifyUp && match AdminEntry s with Some o => (m_UserID o <>s "") && delivered | None => false end.

(** Handled or not, delivered or not, the stamp afterwards. *)
Definition portMappingAlert (now : Z) (notifyUp delivered stamped : bool) (s : Store) (stamp : option Z) : bool * bool * option Z :=
  if portMappingAlertOnCooldown now stamp then (true, false, stamp)
  else if notifyOwner notifyUp delivered s then (true, true, if stamped then Some now else stamp)
  else (false, false, stamp).

(** ** One renewal tick of Run *)

Record mapping := MkMapping {
  mismatchSince : Z;
  mismatchNotified : bool;
  renewalFailures : Z;
  renewalFailNotified : bool;
  alertStamp : option Z
}.

(** RenewMapping's outcome, with the port of the last mapping when it fails. *)
Inductive renewal := RenewFailed (lastPort : Z) | Renewed (ip : string) (port : Z).

Record mapping_io := MkMapIO { m_now : Z; m_renewal : renewal; m_notify : bool; m_delivered : bool; m_stamped : bool; m_sentAll : Z }.

Inductive notice := MappingLost | MappingRestored | RelayNotice | PortLost | PortRecovered.

Section Tick.
Variables (s : Store) (expectedPort : Z).

(** The alert of the cooldown family: handled, the notice if delivered, the stamp. *)
Definition alert (io : mapping_io) (n : notice) (st : mapping) : bool * list notice * option Z :=
  let '(handled, delivered, stamp) := portMappingAlert (m_now io) (m_notify io) (m_delivered io) (m_stamped io) s (alertStamp st) in
  (handled, if delivered then [n] else [], stamp).

Definition renewal_failed (io : mapping_io) (lastPort : Z) (st : mapping) : mapping * list notice :=
  if (lastPort =? 0)%Z then (st, [])
  else
    let failures := (renewalFailures st + 1)%Z in
    if negb (renewalFailNotified st) && (2 <=? failures)%Z then
      let '(handled, out, stamp) := alert io MappingLost st in
      (MkMapping (mismatchSince st) (mismatchNotified st) failures handled stamp, out)
    else (MkMapping (mismatchSince st) (mismatchNotified st) failures (renewalFailNotified st) (alertStamp st), []).

(** The renewal is healthy: clear the cooldown, announce the recovery, watch the port. *)
Definition port_check (io : mapping_io) (port : Z) (st : mapping) : mapping * list notice :=
  if negb (port =? expectedPort)%Z then
    let since := if is_zero_time (mismatchSince st) then m_now io else mismatchSince st in
    if negb (mismatchNotified st) && (35 * minute <=? time_sub (m_now io) since)%Z && m_notify io && (0 <? m_sentAll io)%Z
    then (MkMapping since true (renewalFailures st) (renewalFailNotified st) (alertStamp st), [PortLost])
    else (MkMapping since (mismatchNotified st) (renewalFailures st) (renewalFailNotified st) (alertStamp st), [])
  else if is_zero_time (mismatchSince st) then (st, [])
  else (MkMapping zero_time false (renewalFailures st) (renewalFailNotified st) (alertStamp st),
        if m_notify io then [PortRecovered] else []).

Definition renewed (io : mapping_io) (ip : string) (port : Z) (st : mapping) : mapping * list notice :=
  if negb (usablePublic (classifyMappedIP ip)) then
    let '(_, out, stamp) := alert io RelayNotice st in
    (MkMapping (mismatchSince st) (mismatchNotified st) 0 false stamp, out)
  else
    let restored := (0 <? renewalFailures st)%Z && renewalFailNotified st && notifyOwner (m_notify io) (m_delivered io) s in
    let st1 := if (0 <? renewalFailures st)%Z then MkMapping (mismatchSince st) (mismatchNotified st) 0 false None
               else MkMapping (mismatchSince st) (mismatchNotified st) (renewalFailures st) (renewalFailNotified st) None in
    let '(st2, out) := port_check io port st1 in
    (st2, (if restored then [MappingRestored] else []) ++ out).

Definition mapping_tick (io : mapping_io) (st : mapping) : mapping * list notice :=
  match m_renewal io with
  | RenewFailed lastPort => renewal_failed io lastPort st
  | Renewed ip port => renewed io ip port st
  end.
End Tick.

(** ** Which addresses are usable *)

Definition v4_number (a b c d : N) : N := (((a * 256 + b) * 256 + c) * 256 + d)%N.

Definition between (lo hi n : N) : Prop := (lo <= n <= hi)%N.

Lemma not_usable (p q : bool) :
  negb (usablePublic (if p then reachCarrierNAT else if q then reachUnknown else reachPublic)) = p || q.
Proof. by destruct p, q. Qed.

(** Of the IPv4 addresses a gateway can report, exactly those outside the shared, private,
    loopback and link-local blocks and other than 0.0.0.0, given here as intervals of 32-bit
    numbers, count as a usable public path; with no operator override and a mapped port, the
    relay is wanted for all the others and for no usable one. *)
Theorem classify_v4_exact a b c d port : (a < 256)%N → (b < 256)%N → (c < 256)%N → (d < 256)%N → port ≠ 0%Z →
  relayWanted "" (string4 [a; b; c; d]) port = true ↔
  let n := v4_number a b c d in
  n = 0%N ∨ between 0x0a000000 0x0affffff n ∨ between 0x64400000 0x647fffff n ∨ between 0x7f000000 0x7fffffff n ∨
  between 0xa9fe0000 0xa9feffff n ∨ between 0xac100000 0xac1fffff n ∨ between 0xc0a80000 0xc0a8ffff n.
Proof.
  intros Ha Hb Hc Hd Hp. unfold relayWanted. rewrite seqb_refl. cbn [negb]. rewrite (proj2 (Z.eqb_neq port 0) Hp).
  assert (Hparse : ParseAddr (string4 [a; b; c; d]) = Some (Addr4 [a; b; c; d], "")).
  { unfold ParseAddr. rewrite first_sep_string4 by done. simpl. by rewrite parse_string4. }
  unfold classifyMappedIP. rewrite Hparse. unfold Unmap, in_cgnat, IsPrivate, IsLoopback, IsLinkLocalUnicast, IsUnspecified, byte, between, v4_number.
  cbn [fst snd nth replicate].
  assert (Hz : bool_decide ([a; b; c; d] = [0; 0; 0; 0]%N) = (v4_number a b c d =? 0)%N).
  { unfold v4_number. case_bool_decide as E; [injection E as -> -> -> ->; done|]. symmetry. apply N.eqb_neq. intros Hn. apply E. repeat f_equal; lia. }
  rewrite Hz, not_usable. unfold v4_number.
  rewrite !orb_true_iff, !andb_true_iff, !N.eqb_eq, !N.leb_le. split; intros; lia.
Qed.

(** ** The report is debounced *)

Definition start_transport : transport := MkTransport transportUnknown 0 false.

(** The ticks of a run: each tick's report and whether it could be sent, and the state. *)
Definition run_transport (s : Store) (ios : list tick_io) (t : transport) : transport * list (transportState * bool) :=
  foldl (λ acc io, let '(t', report, _) := transport_tick s io acc.1 in (t', acc.2 ++ [(report, sent_ok io)])) (t, []) ios.

Lemma run_transport_snoc s ios io t : run_transport s (ios ++ [io]) t =
  let '(t', report, _) := transport_tick s io (run_transport s ios t).1 in
  (t', (run_transport s ios t).2 ++ [(report, sent_ok io)]).
Proof. unfold run_transport. by rewrite foldl_snoc. Qed.

(** What the service has been told, in order. *)
Definition delivered (l : list (transportState * bool)) : list transportState :=
  omap (λ p, if p.2 && negb (bool_decide (p.1 = transportUnknown)) then Some p.1 else None) l.

(** How many of the last observations wanted the relay. *)
Fixpoint relay_run (ios : list tick_io) : Z :=
  match ios with
  | [] => 0
  | io :: rest => if relay_needed io then 1 + relay_run rest else 0
  end%Z.

Lemma relay_run_nonneg l : (0 <= relay_run l)%Z.
Proof. induction l as [|io l IH]; simpl; [done|]. destruct (relay_needed io); lia. Qed.

Lemma decision_new cur last streak : transportReportDecision cur last streak ≠ transportUnknown →
  transportReportDecision cur last streak ≠ last.
Proof. unfold transportReportDecision. destruct cur, last, (2 <=? streak)%Z; by vm_compute. Qed.

Lemma decision_relay (b : bool) last streak :
  transportReportDecision (if b then transportRelay else transportDirect) last streak = transportRelay ↔
  b = true ∧ last ≠ transportRelay ∧ (2 <=? streak)%Z = true.
Proof. unfold transportReportDecision. destruct b, last, (2 <=? streak)%Z; vm_compute; split; naive_solver. Qed.

Lemma decision_direct (b : bool) last streak :
  transportReportDecision (if b then transportRelay else transportDirect) last streak = transportDirect ↔
  b = false ∧ last ≠ transportDirect.
Proof. unfold transportReportDecision. destruct b, last, (2 <=? streak)%Z; vm_compute; split; naive_solver. Qed.

Lemma tick_cases s io t : let '(t', report, _) := transport_tick s io t in
  report = transportReportDecision (if relay_needed io then transportRelay else transportDirect) (t_last t) (t_streak t') ∧
  t_streak t' = (if relay_needed io then t_streak t + 1 else 0)%Z ∧
  t_last t' = (if sent_ok io && negb (bool_decide (report = transportUnknown)) then report else t_last t).
Proof.
  unfold transport_tick. destruct (transportReportDecision _ _ _) eqn:E; simpl.
  - by rewrite andb_false_r.
  - by destruct (sent_ok io).
  - destruct (warnDirectConfigHolders _ _ _ _); simpl. by destruct (sent_ok io).
Qed.

Lemma run_transport_state s ios : let '(t, out) := run_transport s ios start_transport in
  t_streak t = relay_run (reverse ios) ∧ t_last t = default transportUnknown (last (delivered out)).
Proof.
  induction ios as [|io ios IH] using rev_ind; [done|]. rewrite run_transport_snoc.
  destruct (run_transport s ios start_transport) as [t out]. cbn [fst snd]. destruct IH as [IH1 IH2].
  pose proof (tick_cases s io t) as Ht. destruct (transport_tick s io t) as [[t' report] w]. destruct Ht as (_ & Hs & Hl).
  rewrite reverse_snoc, Hs, Hl, IH1, IH2. split; [simpl; destruct (relay_needed io); lia|]. unfold delivered. rewrite omap_app. simpl.
  destruct (_ && _); simpl; [by rewrite last_snoc|by rewrite app_nil_r].
Qed.

(** Consecutive elements differ. *)
Definition alternating (l : list transportState) : Prop := ∀ i x, l !! i = Some x → l !! S i ≠ Some x.

Lemma alternating_snoc l x : alternating l → last l ≠ Some x → alternating (l ++ [x]).
Proof.
  intros Ha Hl i y Hi Hsi. destruct (decide (S i < length l)) as [Hlt|].
  - rewrite lookup_app_l in Hi by lia. rewrite lookup_app_l in Hsi by done. exact (Ha i y Hi Hsi).
  - apply lookup_lt_Some in Hsi as Hlen. rewrite length_app in Hlen. simpl in Hlen. assert (S i = length l) as Hi' by lia.
    rewrite Hi', lookup_app_r, Nat.sub_diag in Hsi by lia. injection Hsi as <-. rewrite lookup_app_l in Hi by lia. apply Hl.
    rewrite last_lookup, <- Hi'. exact Hi.
Qed.

(** Over any run of the watch, the transport states delivered to the coordination service
    alternate; at every tick, relay is reported exactly when this and the previous observation
    both lack a public path and relay is not what was last delivered, and direct is reported as
    soon as there is a path again and direct is not what was last delivered. *)
Theorem transport_debounced s ios io : let '(t, out) := run_transport s ios start_transport in
  let '(_, report, _) := transport_tick s io t in
  let told := last (delivered out) in
  alternating (delivered out) ∧
  (report = transportRelay ↔ relay_needed io = true ∧ told ≠ Some transportRelay ∧
     ∃ io', last ios = Some io' ∧ relay_needed io' = true) ∧
  (report = transportDirect ↔ relay_needed io = false ∧ told ≠ Some transportDirect).
Proof.
  destruct (run_transport s ios start_transport) as [t out] eqn:E.
  pose proof (run_transport_state s ios) as Hst. rewrite E in Hst. destruct Hst as [Hs Hl].
  pose proof (tick_cases s io t) as Ht. destruct (transport_tick s io t) as [[t' report] w]. destruct Ht as (Hr & Hs' & _).
  assert (Hrun : (2 <=? t_streak t')%Z = true ↔ relay_needed io = true ∧ ∃ io', last ios = Some io' ∧ relay_needed io' = true).
  { rewrite Hs', Hs. destruct ios as [|io' ios _] using rev_ind; [rewrite Z.leb_le; destruct (relay_needed io); simpl; (split; [lia|naive_solver])|].
    rewrite reverse_snoc, last_snoc, Z.leb_le. simpl. pose proof (relay_run_nonneg (reverse ios)).
    split.
    - intros H2. destruct (relay_needed io), (relay_needed io') eqn:E'; try lia. eauto.
    - intros (-> & x & [= <-] & ->). lia. }
  cbv zeta. split_and!.
  - clear Hr Hrun Hs' Hs Hl. revert t out E. induction ios as [|io' ios IH] using rev_ind; intros t out E; [by injection E as <- <-; intros i x Hi|].
    rewrite run_transport_snoc in E. destruct (run_transport s ios start_transport) as [t0 out0] eqn:E0. cbn [fst snd] in E.
    pose proof (run_transport_state s ios) as Hst. rewrite E0 in Hst. destruct Hst as [_ Hl].
    pose proof (tick_cases s io' t0) as Ht. destruct (transport_tick s io' t0) as [[t1 report1] w1]. destruct Ht as (Hr & _ & _).
    injection E as <- <-. unfold delivered. rewrite omap_app. fold (delivered out0). simpl.
    destruct (_ && _) eqn:Eb; [|rewrite app_nil_r; by eapply IH]. apply alternating_snoc; [by eapply IH|].
    intros Hlast. rewrite Hlast in Hl. cbn [default] in Hl. apply andb_true_iff in Eb as [_ Hne%negb_true_iff%bool_decide_eq_false].
    rewrite Hr in Hne, Hl. by destruct (decision_new _ _ _ Hne).
  - rewrite Hr, decision_relay, Hrun, Hl. split.
    + intros (? & Hn & _ & ?). split_and!; [done| |done]. intros Ht. by rewrite Ht in Hn.
    + intros (? & Hn & ?). split_and!; [done| |done..]. by destruct (last (delivered out)) as [[]|].
  - rewrite Hr, decision_direct, Hl. split; intros [? Hn]; (split; [done|]).
    + intros Ht. by rewrite Ht in Hn.
    + by destruct (last (delivered out)) as [[]|].
Qed.

(** ** Alerts are rate-limited *)

Definition limited (n : notice) : bool := match n with MappingLost | RelayNotice => true | _ => false end.

Lemma alert_spec s io n st handled out stamp : alert s io n st = (handled, out, stamp) →
  (out = [] ∧ stamp = alertStamp st) ∨
  (out = [n] ∧ handled = true ∧ portMappingAlertOnCooldown (m_now io) (alertStamp st) = false ∧
   stamp = if m_stamped io then Some (m_now io) else alertStamp st).
Proof.
  unfold alert, portMappingAlert. destruct (portMappingAlertOnCooldown _ _); [intros [= <- <- <-]; by left|].
  destruct (notifyOwner _ _ _); intros [= <- <- <-]; [by right|by left].
Qed.

(** The stamp and the notices of the cooldown family in one tick. *)
Lemma tick_limited s port io st st' out : mapping_tick s port io st = (st', out) →
  (List.filter limited out = [] ∧ (alertStamp st' = alertStamp st ∨ ∃ ip p, m_renewal io = Renewed ip p ∧
     usablePublic (classifyMappedIP ip) = true ∧ alertStamp st' = None)) ∨
  (∃ n, out = [n] ∧ limited n = true ∧ portMappingAlertOnCooldown (m_now io) (alertStamp st) = false ∧
     alertStamp st' = if m_stamped io then Some (m_now io) else alertStamp st).
Proof.
  unfold mapping_tick. destruct (m_renewal io) as [lastPort|ip p].
  - unfold renewal_failed. destruct (lastPort =? 0)%Z; [intros [= <- <-]; left; eauto|].
    destruct (negb (renewalFailNotified st) && _); [|intros [= <- <-]; left; eauto].
    destruct (alert s io MappingLost st) as [[h o] stamp] eqn:Ea. intros [= <- <-]. apply alert_spec in Ea as [[-> ->]|(-> & _ & ? & ->)]; eauto 8.
  - unfold renewed. destruct (usablePublic _) eqn:Eu; cbn [negb].
    + set (st1 := if (0 <? renewalFailures st)%Z then _ else _).
      destruct (port_check port io p st1) as [st2 o] eqn:Ep. intros [= <- <-]. left.
      assert (alertStamp st1 = None) as Hn by (subst st1; by destruct (0 <? _)%Z).
      assert (List.filter limited o = [] ∧ alertStamp st2 = None) as [Ho Hs].
      { unfold port_check in Ep. repeat case_match; injection Ep as <- <-; done. }
      rewrite List.filter_app, Ho, app_nil_r. split; [|right; eauto]. by destruct (_ && _ && _).
    + destruct (alert s io RelayNotice st) as [[h o] stamp] eqn:Ea. intros [= <- <-]. apply alert_spec in Ea as [[-> ->]|(-> & _ & ? & ->)]; eauto 8.
Qed.

(** Ticks in order; the times at which the cooldown family reached the owner. *)
Fixpoint alert_times (s : Store) (port : Z) (ios : list mapping_io) (st : mapping) : list Z :=
  match ios with
  | [] => []
  | io :: rest =>
      let '(st', out) := mapping_tick s port io st in
      (if existsb limited out then [m_now io] else []) ++ alert_times s port rest st'
  end.

(** While no renewal is healthy, the owner gets at most one port-mapping or relay alert per
    day: any two of the moments at which one was delivered, restarts included as long as the
    cooldown file survives, are at least 24 hours apart. *)
Theorem alerts_one_per_day s port ios st : Forall (λ io, m_stamped io = true) ios →
  Forall (λ io, ∀ ip p, m_renewal io = Renewed ip p → usablePublic (classifyMappedIP ip) = false) ios →
  let times := alert_times s port ios st in
  (∀ t0 t, alertStamp st = Some t0 → head times = Some t → (portMappingAlertCooldown <= t - t0)%Z) ∧
  ∀ i t1 t2, times !! i = Some t1 → times !! S i = Some t2 → (portMappingAlertCooldown <= t2 - t1)%Z.
Proof.
  revert st. induction ios as [|io ios IH]; intros st Hst Hun; [done|]. inversion_clear Hst as [|? ? Hs1 Hs]. inversion_clear Hun as [|? ? Hu1 Hu].
  cbn [alert_times]. destruct (mapping_tick s port io st) as [st' out] eqn:E.
  destruct (IH st' Hs Hu) as [IH1 IH2]. apply tick_limited in E as [[Hf [Hsame|(ip & p & Hr & Hpub & _)]]|(n & -> & Hn & Hc & Hstamp)].
  - assert (existsb limited out = false) as ->.
    { destruct (existsb limited out) eqn:Ex; [|done]. apply existsb_exists in Ex as (x & Hx & Hl).
      assert (In x (List.filter limited out)) by (by apply filter_In). by rewrite Hf in *. }
    cbn [app]. rewrite Hsame in IH1. done.
  - by rewrite (Hu1 _ _ Hr) in Hpub.
  - cbn [existsb]. rewrite Hn. cbn [orb app]. rewrite Hs1 in Hstamp. cbn zeta. split.
    + intros t0 t Ht0 [= <-]. rewrite Ht0 in Hc. cbn [portMappingAlertOnCooldown] in Hc. apply time_sub_ge in Hc; [done|]. by vm_compute.
    + intros [|i] t1 t2; [|exact (IH2 i t1 t2)]. cbn. intros [= <-] H2. apply (IH1 _ _ Hstamp). by rewrite head_lookup.
Qed.

(** ** Runs *)

Module ReachDemo.
#[local] Existing Instance AclStore.Demo.ascii_only.

Lemma classify_v4_exact_witness : relayWanted "" "100.127.0.1" 51820 = true ∧
  (0x64400000 <= v4_number 100 127 0 1 <= 0x647fffff)%N.
Proof.
  assert (H : relayWanted "" (string4 [100; 127; 0; 1]%N) 51820 = true).
  { apply (classify_v4_exact 100 127 0 1 51820); [done..|]. right; right; left. by vm_compute. }
  split; [exact H|by vm_compute].
Defined.

Example zone_and_mapped :
  map classifyMappedIP ["fe80::1%eth0"; "::ffff:100.64.0.1"; "2001:db8::1"; "fd00::1"; "::"; "1.2.3.4"; "01.2.3.4"; "x"] =
  [reachUnknown; reachCarrierNAT; reachPublic; reachCarrierNAT; reachUnknown; reachPublic; reachUnknown; reachUnknown].
Proof. vm_compute. reflexivity. Qed.

Definition relay : tick_io := MkTick true true true true.
Definition direct : tick_io := MkTick false true true true.

(** One relay read is a miss, two are a change; a failed send is retried. *)
Example flapping :
  (run_transport AclStore.Demo.store [direct; relay; direct; relay; MkTick true false true true; relay; relay; direct] start_transport).2 =
  [(transportDirect, true); (transportUnknown, true); (transportUnknown, true); (transportUnknown, true);
   (transportRelay, false); (transportRelay, true); (transportUnknown, true); (transportDirect, true)].
Proof. vm_compute. reflexivity. Qed.

Definition owned : Store := (UpsertMember (MkMember "o" "u" "" "" "owner" (Base64.encode "k") None None None [] [] "active") NewStore).1.
Definition failing (t : Z) : mapping_io := MkMapIO t (RenewFailed 51820) true true true 1.
Definition idle : mapping := MkMapping zero_time false 0 false None.

(** Carrier NAT at every tick: one notice a day. *)
Definition carrier (t : Z) : mapping_io := MkMapIO t (Renewed "100.64.3.4" 51820) true true true 1.
Definition ticks : list mapping_io := map carrier [0; hour; 25 * hour; 30 * hour; 50 * hour]%Z.

Example carrier_times : alert_times owned 51820 ticks idle = [0; 25 * hour; 50 * hour]%Z.
Proof. vm_compute. reflexivity. Qed.

Lemma alerts_one_per_day_witness : (portMappingAlertCooldown <= 25 * hour - 0)%Z.
Proof.
  refine (proj2 (alerts_one_per_day owned 51820 ticks idle _ _) 0 0%Z (25 * hour)%Z _ _).
  - repeat constructor.
  - repeat constructor; intros ip p [= <- <-]; vm_compute; reflexivity.
  - vm_compute. reflexivity.
  - vm_compute. reflexivity.
Defined.

(** A lost mapping is reported at the second failure, and its recovery once. *)
Example lost_and_restored :
  let t1 := mapping_tick owned 51820 (failing 0) idle in
  let t2 := mapping_tick owned 51820 (failing (5 * minute)) t1.1 in
  let t3 := mapping_tick owned 51820 (MkMapIO (10 * minute) (Renewed "1.2.3.4" 51820) true true true 1) t2.1 in
  (t1.2, t2.2, t3.2, t3.1) = ([], [MappingLost], [MappingRestored], idle).
Proof. vm_compute. reflexivity. Qed.
End ReachDemo.
