(* ===== verification/Relay.v ===== *)
(** * internal/relay: the client of the traffic relay

    Frames on the data association (frame.go), the grant (grant.go), the bridge between the
    association and the local WireGuard socket (shim.go) and the session manager (client.go).
    The shim's goroutines are events of one machine: a datagram from the relay, a datagram a
    pump read from its loopback socket, the end of a pump, a reaper tick, the end of the
    association. Sockets are numbered in the order they are opened. *)

From S2P Require Import Prelude Bytes Encoding Json CanonJson Crypto Atreolink Envelope.

(** ** Frames *)

Definition sessionTokenLen : nat := 32.
Definition tunnelIDLen : nat := 8.
Definition dataHeaderLen : nat := 9.

Inductive frame_error := errShortFrame | errFrameType.

(** typ, tunnelID and payload of the three types parseFrame accepts. *)
Inductive parsedFrame := Data (tunnelID : Z) (payload : string) | Close (tunnelID : Z) | Keepalive.

(** copy into 32 bytes: cut or padded with zeros. *)
Definition encodeBind (token : string) : string :=
  let t := stake sessionTokenLen token in String (Nb 1) (t +:+ zeros (sessionTokenLen - slen t)).
Definition encodeKeepalive : string := String (Nb 3) "".
Definition encodeData (tunnelID : Z) (payload : string) : string := String (Nb 2) (put_be 8 tunnelID +:+ payload).

Definition parseFrame (buf : string) : result frame_error parsedFrame :=
  match buf with
  | "" => Err errShortFrame
  | String t rest =>
      if (bN t =? 2)%N then
        if (slen buf <? dataHeaderLen)%nat then Err errShortFrame else Ok (Data (get_be (stake 8 rest)) (sdrop 8 rest))
      else if (bN t =? 4)%N then
        if (slen buf <? 1 + tunnelIDLen)%nat then Err errShortFrame else Ok (Close (get_be (stake 8 rest)))
      else if (bN t =? 3)%N then Ok Keepalive
      else Err errFrameType
  end.

(** ** The shim *)

Definition maxTunnels : nat := 256.
Definition tunnelIdleTimeout : Z := 5 * minute.
Definition capWarnInterval : Z := minute.

(** [tunnels] maps a tunnel to its socket and its last activity; [pumps] has, for a socket with
    a running replyPump, the tunnel it was started for; [nextSock] sockets have been opened. *)
Record shim := MkShim {
  tunnels : gmap Z (nat * Z);
  pumps : gmap nat Z;
  closed : gset nat;
  nextSock : nat;
  lastCapWarn : Z
}.

Definition newShim : shim := MkShim ∅ ∅ ∅ 0 zero_time.

(** A datagram written to a loopback socket, or to the relay. *)
Inductive output := ToWireGuard (sock : nat) (payload : string) | ToRelay (datagram : string).

(** [dialed] tells whether net.DialUDP succeeds. *)
Definition toWireGuard (now : Z) (dialed : bool) (id : Z) (payload : string) (s : shim) : shim * list output :=
  match tunnels s !! id with
  | Some (sock, _) => (MkShim (<[id := (sock, now)]> (tunnels s)) (pumps s) (closed s) (nextSock s) (lastCapWarn s), [ToWireGuard sock payload])
  | None =>
      if (maxTunnels <=? size (tunnels s))%nat then
        (MkShim (tunnels s) (pumps s) (closed s) (nextSock s)
           (if (time_sub now (lastCapWarn s) <? capWarnInterval)%Z then lastCapWarn s else now), [])
      else if negb dialed then (s, [])
      else
        let sock := nextSock s in
        (MkShim (<[id := (sock, now)]> (tunnels s)) (<[sock := id]> (pumps s)) (closed s) (S sock) (lastCapWarn s), [ToWireGuard sock payload])
  end.

Definition closeTunnel (id : Z) (s : shim) : shim :=
  match tunnels s !! id with
  | Some (sock, _) => MkShim (delete id (tunnels s)) (pumps s) ({[sock]} ∪ closed s) (nextSock s) (lastCapWarn s)
  | None => s
  end.

(** One datagram of the association, in run. *)
Definition onDatagram (now : Z) (dialed : bool) (buf : string) (s : shim) : shim * list output :=
  match parseFrame buf with
  | Err _ | Ok Keepalive => (s, [])
  | Ok (Data id payload) => toWireGuard now dialed id payload s
  | Ok (Close id) => (closeTunnel id s, [])
  end.

Definition sockets (m : gmap Z (nat * Z)) : gset nat := list_to_set (map (λ kv, kv.2.1) (map_to_list m)).

Definition idle (cutoff : Z) (kv : Z * (nat * Z)) : Prop := (kv.2.2 < cutoff)%Z.

#[export] Instance idle_dec cutoff kv : Decision (idle cutoff kv).
Proof. unfold idle. apply _. Defined.

(** UnixNano of now minus the timeout: the cut-off. *)
Definition reapOnce (now : Z) (s : shim) : shim :=
  let cutoff := (now - tunnelIdleTimeout)%Z in
  MkShim (filter (λ kv, ¬ idle cutoff kv) (tunnels s)) (pumps s)
    (sockets (filter (idle cutoff) (tunnels s)) ∪ closed s) (nextSock s) (lastCapWarn s).

Definition closeAll (s : shim) : shim := MkShim ∅ (pumps s) (sockets (tunnels s) ∪ closed s) (nextSock s) (lastCapWarn s).

(** A pump read [data] from its socket; [written] tells whether the association took the frame. *)
Definition pumpRead (now : Z) (sock : nat) (data : string) (written : bool) (s : shim) : shim * list output :=
  match pumps s !! sock with
  | None => (s, [])
  | Some id =>
      let touched := match tunnels s !! id with
                     | Some (sock', _) => if (sock' =? sock)%nat then <[id := (sock, now)]> (tunnels s) else tunnels s
                     | None => tunnels s
                     end in
      if written then (MkShim touched (pumps s) (closed s) (nextSock s) (lastCapWarn s), [ToRelay (encodeData id data)])
      else (MkShim touched (delete sock (pumps s)) (closed s) (nextSock s) (lastCapWarn s), [])
  end.

(** A pump's read failed, because its socket was closed or for any other reason. *)
Definition pumpEnd (sock : nat) (s : shim) : shim :=
  MkShim (tunnels s) (delete sock (pumps s)) (closed s) (nextSock s) (lastCapWarn s).

(** The interleavings: a read can only return data while the socket is open. *)
Inductive shim_step : shim → list output → shim → Prop :=
| step_datagram s now dialed buf s' out : onDatagram now dialed buf s = (s', out) → shim_step s out s'
| step_pump s now sock data written s' out : sock ∉ closed s → pumpRead now sock data written s = (s', out) → shim_step s out s'
| step_pump_end s sock : shim_step s [] (pumpEnd sock s)
| step_reap s now : shim_step s [] (reapOnce now s)
| step_close_all s : shim_step s [] (closeAll s).

Inductive shim_run : list output → shim → Prop :=
| run_start : shim_run [] newShim
| run_step outs s out s' : shim_run outs s → shim_step s out s' → shim_run (outs ++ out) s'.

(** *** Frames round trip *)

Lemma parse_encodeData id payload : (0 <= id < 2 ^ 64)%Z → parseFrame (encodeData id payload) = Ok (Data id payload).
Proof.
  intros Hid. unfold parseFrame, encodeData. replace (bN (Nb 2) =? 2)%N with true by reflexivity.
  destruct (Nat.ltb_spec (slen (String (Nb 2) (put_be 8 id +:+ payload))) dataHeaderLen) as [Hlt|_].
  { cbn [String.length] in Hlt. rewrite slen_app, slen_put in Hlt. unfold dataHeaderLen in Hlt. lia. }
  rewrite <- (slen_put 8 id) at 1 3. rewrite stake_app, sdrop_app, get_put; [done|]. exact Hid.
Qed.

Lemma stake_short n s : slen (stake n s) ≤ n.
Proof. revert s. induction n; intros [|c s]; simpl; try lia. specialize (IHn s). lia. Qed.

Lemma parseFrame_range buf id payload : parseFrame buf = Ok (Data id payload) → (0 <= id < 2 ^ 64)%Z.
Proof.
  unfold parseFrame. destruct buf as [|t rest]; [done|]. repeat case_match; try done. intros [= <- <-].
  pose proof (get_be_range (stake 8 rest)) as Hr. pose proof (stake_short 8 rest) as Hl.
  pose proof (Z.pow_le_mono_r 256 (Z.of_nat (slen (stake 8 rest))) 8 ltac:(lia) ltac:(lia)) as Hm. split; [apply Hr|]. eapply Z.lt_le_trans; [apply Hr|exact Hm].
Qed.

(** *** The shim's invariant *)

Record SInv (s : shim) : Prop := {
  si_cap : size (tunnels s) ≤ maxTunnels;
  si_open : ∀ id sock t, tunnels s !! id = Some (sock, t) → sock < nextSock s ∧ sock ∉ closed s ∧ (0 <= id < 2 ^ 64)%Z;
  si_closed : ∀ sock, sock ∈ closed s → sock < nextSock s;
  si_inj : ∀ id id' sock t t', tunnels s !! id = Some (sock, t) → tunnels s !! id' = Some (sock, t') → id = id';
  si_kept : ∀ sock, sock < nextSock s → sock ∉ closed s → ∃ id t, tunnels s !! id = Some (sock, t);
  si_pumps : ∀ sock id, pumps s !! sock = Some id → sock < nextSock s ∧ ∀ id' t, tunnels s !! id' = Some (sock, t) → id' = id
}.

Lemma sockets_spec m sock : sock ∈ sockets m ↔ ∃ id t, m !! id = Some (sock, t).
Proof.
  unfold sockets. rewrite elem_of_list_to_set, list_elem_of_fmap. split.
  - intros ([id [k t]] & -> & Hin). apply elem_of_map_to_list in Hin. eauto.
  - intros (id & t & Hm). exists (id, (sock, t)). split; [done|]. by apply elem_of_map_to_list.
Qed.

Lemma new_shim_inv : SInv newShim.
Proof. split; simpl; intros *; try done; [rewrite map_size_empty; unfold maxTunnels; lia|lia]. Qed.

(** Only the activity of tunnel [id] changes. *)
Lemma touch_inv s id sock t now pumps' warn : SInv s → tunnels s !! id = Some (sock, t) → pumps' ⊆ pumps s →
  SInv (MkShim (<[id := (sock, now)]> (tunnels s)) pumps' (closed s) (nextSock s) warn).
Proof.
  intros [Hc Ho Hd Hi Hk Hp] Hid Hsub. split; simpl.
  - by rewrite map_size_insert_Some by (by eexists).
  - intros id' sock' t' [[<- [= <- <-]]|[_ ?]]%lookup_insert_Some; eauto.
  - done.
  - intros a b k t1 t2 [[<- [= <- <-]]|[_ ?]]%lookup_insert_Some [[<- Hx]|[_ ?]]%lookup_insert_Some; simplify_eq; eauto.
  - intros sock' H1 H2. destruct (Hk sock' H1 H2) as (id' & t' & Ht). destruct (decide (id = id')) as [<-|Hne].
    + rewrite Hid in Ht. injection Ht as <- <-. exists id, now. apply lookup_insert_eq.
    + exists id', t'. by rewrite lookup_insert_ne.
  - intros sock' id' Hs. destruct (Hp sock' id') as [H1 H2]; [by eapply lookup_weaken|]. split; [done|].
    intros id'' t'' [[<- [= <- <-]]|[_ ?]]%lookup_insert_Some; eauto.
Qed.

Lemma open_inv s id now : SInv s → (0 <= id < 2 ^ 64)%Z → tunnels s !! id = None → size (tunnels s) < maxTunnels →
  SInv (MkShim (<[id := (nextSock s, now)]> (tunnels s)) (<[nextSock s := id]> (pumps s)) (closed s) (S (nextSock s)) (lastCapWarn s)).
Proof.
  intros [Hc Ho Hd Hi Hk Hp] Hr Hid Hsz.
  assert (Hfresh : ∀ id' t, tunnels s !! id' = Some (nextSock s, t) → False) by (intros ? ? [? _]%Ho; lia).
  split; simpl.
  - rewrite map_size_insert_None by done. lia.
  - intros id' sock' t' [[<- [= <- <-]]|[_ [? [? ?]]%Ho]]%lookup_insert_Some; [|split_and!; try done; lia].
    split_and!; [lia| |lia..]. intros Hin%Hd. lia.
  - intros sock' Hin%Hd. lia.
  - intros a b k t1 t2 [[<- [= <- <-]]|[_ ?]]%lookup_insert_Some [[<- Hx]|[_ ?]]%lookup_insert_Some; simplify_eq; eauto; by exfalso; eauto.
  - intros sock' H1 H2. destruct (decide (sock' = nextSock s)) as [->|Hne]; [exists id, now; apply lookup_insert_eq|].
    destruct (Hk sock') as (id' & t' & Ht); [lia|done|]. exists id', t'. rewrite lookup_insert_ne; [done|]. by intros ->; simplify_eq.
  - intros sock' id' [[<- <-]|[Hne Hs]]%lookup_insert_Some.
    + split; [lia|]. intros id'' t'' [[<- _]|[_ ?]]%lookup_insert_Some; [done|by exfalso; eauto].
    + destruct (Hp sock' id' Hs) as [H1 H2]. split; [lia|]. intros id'' t'' [[<- [= <- <-]]|[_ ?]]%lookup_insert_Some; [done|eauto].
Qed.

(** Tunnels are dropped and exactly their sockets closed. *)
Lemma drop_inv s m gone : SInv s → m ⊆ tunnels s →
  (∀ id sock t, tunnels s !! id = Some (sock, t) → m !! id = None ↔ sock ∈ gone) →
  (∀ sock, sock ∈ gone → ∃ id t, tunnels s !! id = Some (sock, t)) →
  SInv (MkShim m (pumps s) (gone ∪ closed s) (nextSock s) (lastCapWarn s)).
Proof.
  intros [Hc Ho Hd Hi Hk Hp] Hm Hg Hfrom.
  assert (Hin : ∀ id v, m !! id = Some v → tunnels s !! id = Some v) by (intros; by eapply lookup_weaken). split; simpl.
  - etransitivity; [|exact Hc]. by apply map_subseteq_size.
  - intros id sock t Hl. destruct (Ho id sock t (Hin _ _ Hl)) as (? & ? & ?). split_and!; try lia.
    rewrite elem_of_union. intros [Hgo|]; [|done]. apply (Hg id sock t (Hin _ _ Hl)) in Hgo. congruence.
  - intros sock [(id & t & [? _]%Ho)%Hfrom|?]%elem_of_union; auto.
  - intros; eapply Hi; eauto.
  - intros sock H1 H2. destruct (Hk sock H1) as (id & t & Hl); [set_solver|]. exists id, t.
    destruct (m !! id) as [v|] eqn:E; [apply Hin in E; congruence|]. apply (Hg id sock t Hl) in E. set_solver.
  - intros sock id Hs. destruct (Hp sock id Hs) as [? Ht]. split; [done|]. eauto.
Qed.

Lemma close_inv id s : SInv s → SInv (closeTunnel id s).
Proof.
  intros Hs. unfold closeTunnel. destruct (tunnels s !! id) as [[sock t]|] eqn:E; [|done]. destruct Hs as [? ? ? Hi ? ?] eqn:Es. clear Es.
  apply drop_inv; [done|apply delete_subseteq| |].
  - intros id' sock' t' Hl. rewrite elem_of_singleton. split.
    + intros [<-|Hn]%lookup_delete_None; congruence.
    + intros ->. rewrite (Hi _ _ _ _ _ Hl E). apply lookup_delete_eq.
  - intros sock' ->%elem_of_singleton. eauto.
Qed.

Lemma reap_inv now s : SInv s → SInv (reapOnce now s).
Proof.
  intros Hs. unfold reapOnce. apply drop_inv; [done|apply map_filter_subseteq| |].
  - intros id sock t Hl. rewrite map_lookup_filter_None, sockets_spec. split.
    + intros [?|Hn]; [congruence|]. specialize (Hn _ Hl). exists id, t. apply map_lookup_filter_Some. split; [done|]. by apply dec_stable.
    + intros (id' & t' & [Hl' Hi]%map_lookup_filter_Some). right. intros x Hx. rewrite Hl in Hx. injection Hx as <-.
      assert (id' = id) as -> by (by eapply (si_inj s Hs)). rewrite Hl in Hl'. injection Hl' as <-. auto.
  - intros sock (id & t & [Hl _]%map_lookup_filter_Some)%sockets_spec. eauto.
Qed.

Lemma closeAll_inv s : SInv s → SInv (closeAll s).
Proof.
  intros Hs. unfold closeAll. apply drop_inv; [done|apply map_empty_subseteq| |].
  - intros id sock t Hl. rewrite sockets_spec. split; [eauto|done].
  - intros sock Hin. by apply sockets_spec.
Qed.

Lemma toWireGuard_inv now dialed id payload s : (0 <= id < 2 ^ 64)%Z → SInv s → SInv (toWireGuard now dialed id payload s).1.
Proof.
  intros Hr Hs. unfold toWireGuard. destruct (tunnels s !! id) as [[sock t]|] eqn:E; [by eapply touch_inv|].
  destruct (Nat.leb_spec maxTunnels (size (tunnels s))) as [|Hlt]; [by destruct Hs|]. destruct dialed; [|done]. by apply open_inv.
Qed.

Lemma pump_inv now sock data written s : SInv s → SInv (pumpRead now sock data written s).1.
Proof.
  intros Hs. unfold pumpRead. destruct (pumps s !! sock) as [id|] eqn:Ep; [|done].
  assert (Hplain : ∀ p, p ⊆ pumps s → SInv (MkShim (tunnels s) p (closed s) (nextSock s) (lastCapWarn s))).
  { intros p Hsub. destruct Hs as [? ? ? ? ? Hp]. split; simpl; try done. intros ? ? ?. apply Hp. by eapply lookup_weaken. }
  destruct (tunnels s !! id) as [[sock' t]|] eqn:Et; [destruct (Nat.eqb_spec sock' sock) as [->|]|];
    destruct written; cbn [fst];
    first [eapply touch_inv; [done|exact Et|]|apply Hplain]; first [apply delete_subseteq|reflexivity].
Qed.

Lemma step_inv s out s' : shim_step s out s' → SInv s → SInv s'.
Proof.
  destruct 1 as [s now dialed buf s' out E|s now sock data written s' out _ E|s sock|s now|s]; intros Hs.
  - unfold onDatagram in E. destruct (parseFrame buf) as [[id payload|id|]|] eqn:Ef; try by injection E as <- <-.
    + apply parseFrame_range in Ef. replace s' with (toWireGuard now dialed id payload s).1 by (by rewrite E). by apply toWireGuard_inv.
    + injection E as <- <-. by apply close_inv.
  - replace s' with (pumpRead now sock data written s).1 by (by rewrite E). by apply pump_inv.
  - destruct Hs as [? ? ? ? ? Hp]. split; simpl; try done. intros ? ? [_ ?]%lookup_delete_Some. by apply Hp.
  - by apply reap_inv.
  - by apply closeAll_inv.
Qed.

Lemma shim_run_inv outs s : shim_run outs s → SInv s.
Proof. induction 1; [apply new_shim_inv|by eapply step_inv]. Qed.


(** A pump that has ended (one failed write to the association is enough) is not started again
    while its tunnel lives, and every datagram of the client renews the tunnel: the client's
    packets keep going in and no answer comes out. *)
Lemma dead_pump_not_restarted now dialed buf id payload sock t s s' out :
  tunnels s !! id = Some (sock, t) → pumps s !! sock = None → parseFrame buf = Ok (Data id payload) →
  onDatagram now dialed buf s = (s', out) →
  out = [ToWireGuard sock payload] ∧ tunnels s' !! id = Some (sock, now) ∧ pumps s' !! sock = None ∧
  ∀ later, (later <= now + tunnelIdleTimeout)%Z → tunnels (reapOnce later s') !! id = Some (sock, now).
Proof.
  intros Ht Hp Hf. unfold onDatagram, toWireGuard. rewrite Hf, Ht. intros [= <- <-].
  split_and!; [done|apply lookup_insert_eq|done|]. intros later Hl. unfold reapOnce. simpl.
  apply map_lookup_filter_Some. split; [apply lookup_insert_eq|]. unfold idle. simpl. lia.
Qed.

(** ** Grants *)

(** The signed payload as raw JSON, absent when the field is. *)
Record SignedGrant := MkSigned { sg_Payload : option json; sg_Signature : string }.

Record Grant := MkGrant {
  g_DeviceID : string;
  g_AgentEd25519Pub : string;
  g_RelayHost : string;
  g_RelayPort : Z;
  g_ControlURL : string;
  g_IssuedAt : Z;
  g_ExpiresAt : Z
}.
Definition zero_grant : Grant := MkGrant "" "" "" 0 "" 0 0.
Definition dec_grant : Grant → json → option Grant := dec_struct (λ o kvs,
  d ← assign dec_string (g_DeviceID o) "deviceId" kvs; a ← assign dec_string (g_AgentEd25519Pub o) "agentEd25519Pub" kvs;
  h ← assign dec_string (g_RelayHost o) "relayHost" kvs; p ← assign dec_int64 (g_RelayPort o) "relayPort" kvs;
  u ← assign dec_string (g_ControlURL o) "controlUrl" kvs; i ← assign dec_int64 (g_IssuedAt o) "iat" kvs;
  e ← assign dec_int64 (g_ExpiresAt o) "exp" kvs;
  Some (MkGrant d a h p u i e)).

Inductive relay_error := ErrGrantParse | ErrGrantMissing | ErrRead | ErrRejected | ErrUnexpected | ErrPayload | ErrTranscript | ErrToken.

Definition Parse (s : SignedGrant) : result relay_error Grant :=
  let! g := of_option ErrGrantParse (sg_Payload s ≫= dec_grant zero_grant) in
  check! guard_err (negb ((g_ControlURL g =s "") || (g_RelayHost g =s "") || (g_RelayPort g =? 0)%Z)) ErrGrantMissing in
  Ok g.

(** ** The handshake *)

Record ctrlMsg := MkCtrl { ct_Type : string; ct_Payload : option json }.

Record readyPayload := MkReady { rd_PublicHost : string; rd_DataPort : Z; rd_IngestPort : Z; rd_SessionToken : string }.
Definition dec_ready : readyPayload → json → option readyPayload := dec_struct (λ o kvs,
  h ← assign dec_string (rd_PublicHost o) "publicHost" kvs; d ← assign dec_int64 (rd_DataPort o) "dataPort" kvs;
  i ← assign dec_int64 (rd_IngestPort o) "ingestPort" kvs; t ← assign dec_string (rd_SessionToken o) "sessionToken" kvs;
  Some (MkReady h d i t)).

Definition transcript_body (deviceID nonce relayHost : string) : json :=
  JObj [("intent", JStr "relay:challenge"); ("deviceId", JStr deviceID); ("nonce", JStr nonce); ("relayHost", JStr relayHost)].

Definition dec_nonce : string → json → option string := dec_struct (λ o kvs, assign dec_string o "nonce" kvs).

(** A read message of the expected type. *)
Definition expect (ty : string) (m : option ctrlMsg) : result relay_error ctrlMsg :=
  let! c := of_option ErrRead m in
  check! guard_err (ct_Type c <>s "relay:error") ErrRejected in
  check! guard_err (ct_Type c =s ty) ErrUnexpected in
  Ok c.

Section Handshake.
Context `{Primitives}.

(** The answer to the challenge. *)
Definition challenge_response (km : KeyManager) (info : Grant) (chMsg : option ctrlMsg) : result relay_error string :=
  let! ch := expect "relay:challenge" chMsg in
  let! nonce := of_option ErrPayload (ct_Payload ch ≫= dec_nonce "") in
  let! transcript := map_err (λ _, ErrTranscript) (Marshal (transcript_body (g_DeviceID info) nonce (g_RelayHost info))) in
  Ok (Sign km transcript).

(** [chMsg] and [rdMsg] are what the two reads return; [written] whether the two writes pass.
    The signature sent and the payload received. *)
Definition authenticate (km : KeyManager) (info : Grant) (written : bool) (chMsg rdMsg : option ctrlMsg)
    : result relay_error (string * readyPayload) :=
  let! sig := challenge_response km info chMsg in
  check! guard_err written ErrRead in
  let! rd := expect "relay:ready" rdMsg in
  let! ready := of_option ErrPayload (ct_Payload rd ≫= dec_ready (MkReady "" 0 0 "")) in
  Ok (sig, ready).
End Handshake.

(** net.JoinHostPort. *)
Definition JoinHostPort (host port : string) : string :=
  if contains_byte ":" host then "[" +:+ host +:+ "]:" +:+ port else host +:+ ":" +:+ port.

(** What runSession derives from the ready message: the token, the ingest address and the
    endpoint offered to clients. *)
Definition session_addresses (info : Grant) (ready : readyPayload) : result relay_error (string * string * string) :=
  let host := if rd_PublicHost ready =s "" then g_RelayHost info else rd_PublicHost ready in
  let! token := of_option ErrToken (Hex.decode (rd_SessionToken ready)) in
  check! guard_err (slen token =? sessionTokenLen)%nat ErrToken in
  Ok (token, JoinHostPort host (itoa (rd_IngestPort ready)), JoinHostPort host (itoa (rd_DataPort ready))).

(** ** The manager *)

Definition grantRefreshLead : Z := 10 * minute.
Definition grantReqMinInterval : Z := 30 * second.
Definition relayFailoverThreshold : Z := 3.

Record Manager := MkManager {
  enabled : bool;
  grant : option (SignedGrant * Grant);
  endpoint : string;
  started : bool;
  requester : bool;            (* SetRequester has been called *)
  lastRequest : Z;
  keepAlive : bool;
  session : bool;              (* cancelSession is set *)
  woken : bool                 (* the wake channel holds a token *)
}.

Definition NewManager (en : bool) : Manager := MkManager en None "" false false zero_time false false false.

Definition set_endpoint (m : Manager) (ep : string) : Manager :=
  MkManager (enabled m) (grant m) ep (started m) (requester m) (lastRequest m) (keepAlive m) (session m) (woken m).
Definition set_session (m : Manager) (b : bool) : Manager :=
  MkManager (enabled m) (grant m) (endpoint m) (started m) (requester m) (lastRequest m) (keepAlive m) b (woken m).
Definition set_last (m : Manager) (t : Z) : Manager :=
  MkManager (enabled m) (grant m) (endpoint m) (started m) (requester m) t (keepAlive m) (session m) (woken m).
Definition Wake (m : Manager) : Manager :=
  MkManager (enabled m) (grant m) (endpoint m) (started m) (requester m) (lastRequest m) (keepAlive m) (session m) true.
(** The wait at the end of a pass takes the token. *)
Definition clear_wake (m : Manager) : Manager :=
  MkManager (enabled m) (grant m) (endpoint m) (started m) (requester m) (lastRequest m) (keepAlive m) (session m) false.
Definition SetRequester (m : Manager) : Manager :=
  MkManager (enabled m) (grant m) (endpoint m) (started m) true (lastRequest m) (keepAlive m) (session m) (woken m).

(** Whether the loop is launched, and the manager. *)
Definition Start (m : Manager) : Manager * bool :=
  if started m || negb (enabled m) then (m, false)
  else (MkManager (enabled m) (grant m) (endpoint m) true (requester m) (lastRequest m) (keepAlive m) (session m) (woken m), true).

(** [should] is what shouldRelay answers, [None] when there is no such function. *)
Definition relayWanted (should : option bool) (m : Manager) : bool := keepAlive m || default true should.

(** The manager, and whether the live session is cancelled. *)
Definition SetKeepAlive (should : option bool) (keep : bool) (m : Manager) : Manager * bool :=
  let m1 := MkManager (enabled m) (grant m) (endpoint m) (started m) (requester m) (lastRequest m) keep (session m) (woken m) in
  (Wake m1, negb (relayWanted should m1) && session m).

Definition SetGrant (sg : SignedGrant) (m : Manager) : Manager * result relay_error unit :=
  match Parse sg with
  | Err e => (m, Err e)
  | Ok info => (Wake (MkManager (enabled m) (Some (sg, info)) (endpoint m) (started m) (requester m) (lastRequest m) (keepAlive m)
                        (session m) (woken m)), Ok tt)
  end.

Definition Endpoint (should : option bool) (m : Manager) : string * bool :=
  (endpoint m, (endpoint m <>s "") && enabled m && relayWanted should m).

Definition grantExpired (now : Z) (info : Grant) : bool := negb (g_ExpiresAt info =? 0)%Z && (g_ExpiresAt info <=? unix now)%Z.
Definition grantExpiring (now : Z) (info : Grant) : bool :=
  negb (g_ExpiresAt info =? 0)%Z && (g_ExpiresAt info <=? unix (now + grantRefreshLead))%Z.

(** A request that reached the tunnel: when, and the failed-host hint. *)
Notation request := (Z * string)%type.

(** [sent] tells whether the callback returns nil. *)
Definition requestGrant (now : Z) (sent : bool) (failedHost : string) (m : Manager) : Manager * list request :=
  let throttled := (failedHost =s "") && (time_sub now (lastRequest m) <? grantReqMinInterval)%Z in
  if negb (requester m) || throttled || negb sent then (m, []) else (set_last m now, [(now, failedHost)]).

(** The handlers may run while a session is up. *)
Inductive handler_op := OpGrant (sg : SignedGrant) | OpKeepAlive (should : option bool) (keep : bool) | OpWake.
Definition apply_handler (m : Manager) (o : handler_op) : Manager :=
  match o with
  | OpGrant sg => (SetGrant sg m).1
  | OpKeepAlive should keep => (SetKeepAlive should keep m).1
  | OpWake => Wake m
  end.

(** What one pass of the loop meets: the clock before and after the session, shouldRelay's
    answer, whether requests can be sent, whether the session reached ready and with which
    endpoint, and the handlers that ran meanwhile. *)
Record pass_io := MkPass {
  p_now : Z;
  p_after : Z;
  p_should : option bool;
  p_sent : bool;
  p_established : bool;
  p_endpoint : string;
  p_during : list handler_op
}.

Record loop_state := MkLoop { l_mgr : Manager; l_attempt : Z; l_failures : Z }.

(** While the session is up, as the handlers see it. *)
Definition in_session (io : pass_io) (m : Manager) : Manager :=
  set_session (if p_established io then set_endpoint m (p_endpoint io) else m) true.

(** What follows a session. *)
Definition after_session (io : pass_io) (info : Grant) (m : Manager) (attempt failures : Z) : loop_state * list request :=
  let m := clear_wake m in
  if p_established io then (MkLoop m 1 0, [])
  else
    let failures := (failures + 1)%Z in
    if (relayFailoverThreshold <=? failures)%Z then
      if keepAlive m then (MkLoop m (attempt + 1) 0, [])
      else let '(m, reqs) := requestGrant (p_after io) (p_sent io) (g_RelayHost info) m in (MkLoop m (attempt + 1) 0, reqs)
    else (MkLoop m (attempt + 1) failures, []).

(** One pass, from the top of the loop to the top again. *)
Definition loop_pass (io : pass_io) (l : loop_state) : loop_state * list request :=
  let m := l_mgr l in
  if negb (relayWanted (p_should io) m) then (MkLoop (clear_wake (foldl apply_handler m (p_during io))) (l_attempt l) (l_failures l), [])
  else match grant m with
  | Some (sg, info) =>
      if grantExpired (p_now io) info then
        let '(m, reqs) := requestGrant (p_now io) (p_sent io) "" m in
        (MkLoop (clear_wake (foldl apply_handler m (p_during io))) (l_attempt l) (l_failures l), reqs)
      else
        let '(m, reqs) := if grantExpiring (p_now io) info then requestGrant (p_now io) (p_sent io) "" m else (m, []) in
        let m := foldl apply_handler (in_session io m) (p_during io) in
        let m := set_endpoint (set_session m false) "" in
        let '(l', reqs') := after_session io info m (l_attempt l) (l_failures l) in
        (l', reqs ++ reqs')
  | None =>
      let '(m, reqs) := requestGrant (p_now io) (p_sent io) "" m in
      (MkLoop (clear_wake (foldl apply_handler m (p_during io))) (l_attempt l) (l_failures l), reqs)
  end.

(** backoffSteps[min(attempt, 3)], before the random factor in [0.75, 1.25). *)
Definition backoffSteps : list Z := [second; 2 * second; 4 * second; 8 * second]%Z.
Definition backoff_base (attempt : Z) : Z :=
  if (attempt <? 4)%Z then nth (Z.to_nat attempt) backoffSteps 0%Z else (8 * second)%Z.

(** *** Requests are limited *)

Lemma handler_frame m o : lastRequest (apply_handler m o) = lastRequest m ∧ requester (apply_handler m o) = requester m ∧
  enabled (apply_handler m o) = enabled m.
Proof. destruct o; simpl; try done. unfold SetGrant. by destruct (Parse sg). Qed.

Lemma handlers_frame l m : lastRequest (foldl apply_handler m l) = lastRequest m.
Proof. revert m. induction l as [|o l IH]; intros m; [done|]. simpl. rewrite IH. apply handler_frame. Qed.

Lemma requestGrant_spec now sent host m m' reqs : requestGrant now sent host m = (m', reqs) →
  (m' = m ∧ reqs = []) ∨
  (m' = set_last m now ∧ reqs = [(now, host)] ∧ (host = "" → (grantReqMinInterval <= now - lastRequest m)%Z)).
Proof.
  unfold requestGrant. destruct (requester m); [|intros [= <- <-]; by left]. cbn [negb orb].
  destruct ((host =s "") && _) eqn:Et; [intros [= <- <-]; by left|]. cbn [orb]. destruct sent; intros [= <- <-]; [right|by left].
  split_and!; [done|done|]. intros ->. apply time_sub_ge; [by vm_compute|exact Et].
Qed.

(** Whether a pass ran a session that never reached ready. *)
Definition session_failed (io : pass_io) (l : loop_state) : bool :=
  relayWanted (p_should io) (l_mgr l) &&
  match grant (l_mgr l) with Some (_, info) => negb (grantExpired (p_now io) info) && negb (p_established io) | None => false end.

(** Each request of the list keeps its distance from the one before, the first from [t0]. *)
Fixpoint spaced (t0 : Z) (reqs : list request) : Prop :=
  match reqs with
  | [] => True
  | (t, host) :: rest => (host = "" → (grantReqMinInterval <= t - t0)%Z) ∧ spaced t rest
  end.

Definition last_time (t0 : Z) (reqs : list request) : Z := default t0 (fst <$> last reqs).

Lemma last_time_cons t0 t h a : last_time t0 ((t, h) :: a) = last_time t a.
Proof. unfold last_time. rewrite last_cons. by destruct (last a). Qed.

Lemma spaced_app t0 a b : spaced t0 (a ++ b) ↔ spaced t0 a ∧ spaced (last_time t0 a) b.
Proof.
  revert t0. induction a as [|[t h] a IH]; intros t0; [by split; [|intros [_ ?]]|].
  cbn [app spaced]. rewrite IH, last_time_cons. tauto.
Qed.

Lemma last_time_app t0 a b : last_time t0 (a ++ b) = last_time (last_time t0 a) b.
Proof. unfold last_time. rewrite last_app. by destruct (last b). Qed.

Definition hinted (r : request) : bool := r.2 <>s "".
Definition hints (reqs : list request) : Z := Z.of_nat (length (List.filter hinted reqs)).

(** Requests without a hint, in order, and the manager that remembers the last of them. *)
Definition unhinted (m m' : Manager) (reqs : list request) : Prop :=
  spaced (lastRequest m) reqs ∧ lastRequest m' = last_time (lastRequest m) reqs ∧ Forall (λ r, r.2 = "") reqs.

Lemma unhinted_hints m m' reqs : unhinted m m' reqs → hints reqs = 0%Z.
Proof.
  intros (_ & _ & Hr). unfold hints. induction Hr as [|[t h] l Hh _ IH]; [done|]. cbn in Hh. subst. exact IH.
Qed.

Lemma unhinted_request now sent m m' r : requestGrant now sent "" m = (m', r) → unhinted m m' r.
Proof.
  intros [[-> ->]|(-> & -> & Hd)]%requestGrant_spec; [by repeat split|]. repeat split; [done|by constructor].
Qed.

(** A pass: its requests keep their distance and are remembered, and it asks for another node
    only as the third failed session in a row, without pinned configurations. *)
Record pass_ok (io : pass_io) (l l' : loop_state) (reqs : list request) : Prop := {
  po_spaced : spaced (lastRequest (l_mgr l)) reqs;
  po_last : lastRequest (l_mgr l') = last_time (lastRequest (l_mgr l)) reqs;
  po_failures : (0 <= l_failures l' <= 2)%Z;
  po_budget : (3 * hints reqs + l_failures l' <= l_failures l + (if session_failed io l then 1 else 0))%Z;
  po_hint : ∀ t host, (t, host) ∈ reqs → host ≠ "" → session_failed io l = true ∧ l_failures l = 2%Z ∧
    keepAlive (l_mgr l') = false ∧ g_RelayHost <$> (snd <$> grant (l_mgr l)) = Some host
}.

(** Passes that ask for no other node. *)
Lemma quiet_pass io l m m' a f reqs : unhinted (l_mgr l) m reqs → lastRequest m' = lastRequest m → (0 <= f <= 2)%Z →
  (f <= l_failures l + (if session_failed io l then 1 else 0))%Z → pass_ok io l (MkLoop m' a f) reqs.
Proof.
  intros Hu Hm Hf Hb. pose proof (unhinted_hints _ _ _ Hu) as Hh. destruct Hu as (H1 & H2 & H3).
  split; cbn [l_mgr l_failures]; [done|congruence|done|lia|].
  intros t host Hin Hne. rewrite Forall_forall in H3. by destruct Hne; apply (H3 _ Hin).
Qed.

Lemma after_session_spec io l m info reqs l' r : (0 <= l_failures l <= 2)%Z → unhinted (l_mgr l) m reqs →
  session_failed io l = negb (p_established io) → g_RelayHost <$> (snd <$> grant (l_mgr l)) = Some (g_RelayHost info) →
  after_session io info m (l_attempt l) (l_failures l) = (l', r) → pass_ok io l l' (reqs ++ r).
Proof.
  intros Hf Hu Hs Hg. unfold after_session.
  assert (Hq : ∀ a f, (0 <= f <= 2)%Z → (f <= l_failures l + (if session_failed io l then 1 else 0))%Z →
    pass_ok io l (MkLoop (clear_wake m) a f) (reqs ++ [])) by (intros; rewrite app_nil_r; by apply (quiet_pass io l m)).
  destruct (p_established io); [intros [= <- <-]; apply Hq; lia|]. cbn [negb] in Hs. rewrite Hs in Hq.
  destruct (Z.leb_spec relayFailoverThreshold (l_failures l + 1)) as [Ht|Ht]; unfold relayFailoverThreshold in Ht;
    [|intros [= <- <-]; apply Hq; lia].
  destruct (keepAlive (clear_wake m)) eqn:Ek; [intros [= <- <-]; apply Hq; lia|].
  destruct (requestGrant (p_after io) _ _ _) as [m3 r3] eqn:E. intros [= <- <-].
  apply requestGrant_spec in E as [[-> ->]|(-> & -> & Hd)]; [apply Hq; lia|].
  pose proof (unhinted_hints _ _ _ Hu) as Hh. destruct Hu as (H1 & H2 & H3). rewrite Forall_forall in H3. cbn [lastRequest clear_wake] in Hd.
  split; cbn [l_mgr l_failures set_last clear_wake lastRequest].
  - rewrite spaced_app. split; [done|]. split; [|done]. by rewrite <- H2.
  - by rewrite last_time_app.
  - lia.
  - assert (hints (reqs ++ [(p_after io, g_RelayHost info)]) <= hints reqs + 1)%Z; [|rewrite Hs; lia].
    unfold hints. rewrite List.filter_app, length_app. simpl. destruct (hinted _); simpl; lia.
  - intros t host [Hin|Hin]%elem_of_app Hne; [by destruct Hne; apply (H3 _ Hin)|]. apply list_elem_of_singleton in Hin as [= -> ->].
    split_and!; [done|lia|done|done].
Qed.

Lemma loop_pass_spec io l l' reqs : (0 <= l_failures l <= 2)%Z → loop_pass io l = (l', reqs) → pass_ok io l l' reqs.
Proof.
  intros Hf. unfold loop_pass.
  assert (Hreq : ∀ l' reqs, (let '(m, r) := requestGrant (p_now io) (p_sent io) "" (l_mgr l) in
    (MkLoop (clear_wake (foldl apply_handler m (p_during io))) (l_attempt l) (l_failures l), r)) = (l', reqs) → pass_ok io l l' reqs).
  { intros ? ?. destruct (requestGrant _ _ _ _) as [m r] eqn:E. intros [= <- <-]. apply unhinted_request in E.
    eapply quiet_pass; [exact E| |lia|destruct (session_failed io l); lia]. cbn [lastRequest clear_wake]. apply handlers_frame. }
  assert (Hs : ∀ sg info, grant (l_mgr l) = Some (sg, info) → relayWanted (p_should io) (l_mgr l) = true →
    grantExpired (p_now io) info = false → session_failed io l = negb (p_established io)).
  { intros sg info Hg Hw He. unfold session_failed. rewrite Hw, Hg, He. done. }
  destruct (relayWanted _ _) eqn:Hw; cbn [negb].
  2:{ intros [= <- <-]. apply (quiet_pass io l (l_mgr l)); [by repeat split| |lia|destruct (session_failed io l); lia].
      cbn [lastRequest clear_wake]. apply handlers_frame. }
  destruct (grant (l_mgr l)) as [[sg info]|] eqn:Eg; [|by apply Hreq]. destruct (grantExpired _ info) eqn:Ee; [by apply Hreq|].
  assert (Hpre : ∃ m1 r1, (if grantExpiring (p_now io) info then requestGrant (p_now io) (p_sent io) "" (l_mgr l) else (l_mgr l, [])) = (m1, r1) ∧
    unhinted (l_mgr l) m1 r1).
  { destruct (grantExpiring _ _); [|exists (l_mgr l), []; by repeat split].
    destruct (requestGrant _ _ _ _) as [m r] eqn:E. exists m, r. split; [done|]. by eapply unhinted_request. }
  destruct Hpre as (m1 & r1 & -> & Hu). set (m2 := set_endpoint _ "").
  assert (Hm2 : lastRequest m2 = lastRequest m1).
  { subst m2. cbn [set_endpoint set_session lastRequest]. rewrite handlers_frame. unfold in_session. by destruct (p_established io). }
  clearbody m2. destruct (after_session _ _ _ _ _) as [l2 r2] eqn:E. intros [= <- <-].
  apply (after_session_spec io l m2 info); [done| |by eapply Hs|by rewrite Eg|done].
  destruct Hu as (H1 & H2 & H3). split_and!; [done|congruence|done].
Qed.

(** Passes in order: the requests that reached the tunnel, and how many sessions failed. *)
Fixpoint run_loop (ios : list pass_io) (l : loop_state) : loop_state * list request * Z :=
  match ios with
  | [] => (l, [], 0%Z)
  | io :: rest =>
      let '(l1, reqs) := loop_pass io l in
      let '(l2, reqs', n) := run_loop rest l1 in
      (l2, reqs ++ reqs', ((if session_failed io l then 1 else 0) + n)%Z)
  end.

(** Over any run of the relay loop, whatever the relay, the clock and the handlers do: two
    grant requests in a row are at least 30 seconds apart unless the second asks to move off a
    failed node, and every request to move has used up three failed sessions of its own. *)
Theorem relay_requests_limited ios l : (0 <= l_failures l <= 2)%Z →
  let '(l', reqs, failed) := run_loop ios l in
  spaced (lastRequest (l_mgr l)) reqs ∧ (3 * hints reqs + l_failures l' <= l_failures l + failed)%Z.
Proof.
  revert l. induction ios as [|io ios IH]; intros l Hf; [by split; [|unfold hints; simpl; lia]|]. cbn [run_loop].
  destruct (loop_pass io l) as [l1 reqs] eqn:E. destruct (loop_pass_spec _ _ _ _ Hf E) as [H1 H2 H3 H4 _].
  specialize (IH l1 H3). destruct (run_loop ios l1) as [[l2 reqs'] n]. destruct IH as [IH1 IH2].
  rewrite spaced_app, <- H2. split; [done|].
  assert (hints (reqs ++ reqs') = hints reqs + hints reqs')%Z as -> by (unfold hints; rewrite List.filter_app, length_app; lia). lia.
Qed.

(** *** What the challenge can make the agent sign *)

Lemma transcript_decoded d n h : Forall (λ s, Utf8.valid s = true) [d; n; h] →
  decoded (transcript_body d n h) ∧ null_free (transcript_body d n h).
Proof.
  rewrite !Forall_cons. intros (H1 & H2 & H3 & _). split.
  - apply flat_decoded.
    + simpl. repeat (constructor; [set_solver|]). constructor.
    + repeat (constructor; [done|]). constructor.
  - apply null_free_obj. repeat (constructor; [done|]). constructor.
Qed.

Lemma transcript_canon d n h : canon (transcript_body d n h) =
  JObj [("deviceId", JStr d); ("intent", JStr "relay:challenge"); ("nonce", JStr n); ("relayHost", JStr h)].
Proof. reflexivity. Qed.

(** The payload of SignWSConnectAuth, and of SignAgentAuth without a body. *)
Definition auth_body (d intent : string) (ts : Z) : json :=
  JObj [("deviceId", JStr d); ("intent", JStr intent); ("ts", JNum (itoa ts))].

Lemma auth_decoded d intent ts : Utf8.valid d = true → Utf8.valid intent = true →
  decoded (auth_body d intent ts) ∧ null_free (auth_body d intent ts).
Proof.
  intros H1 H2. split.
  - apply flat_decoded.
    + simpl. repeat (constructor; [set_solver|]). constructor.
    + repeat (constructor; [split_and!; (done || apply IntFacts.itoa_valid_num)|]). constructor.
  - apply null_free_obj. repeat (constructor; [done|]). constructor.
Qed.

(** Whatever nonce a relay chooses, the bytes the agent signs for its challenge determine
    the device, the nonce and the relay host, and are never the bytes of an admittance
    certificate, of an address lease or of an authenticated request of the agent, so that a relay
    can not use the challenge to obtain one of those signatures. *)
Theorem relay_challenge_separated d n h b : Forall (λ s, Utf8.valid s = true) [d; n; h] → Marshal (transcript_body d n h) = Ok b →
  (∀ d' n' h', Forall (λ s, Utf8.valid s = true) [d'; n'; h'] → Marshal (transcript_body d' n' h') = Ok b → d' = d ∧ n' = n ∧ h' = h) ∧
  (∀ c, cert_utf8 c → certSignedBytes c ≠ Ok b) ∧
  (∀ d' k ip, Forall (λ s, Utf8.valid s = true) [d'; k; ip] → leaseSignedBytes d' k ip ≠ Ok b) ∧
  (∀ d' intent ts, Utf8.valid d' = true → Utf8.valid intent = true → Marshal (auth_body d' intent ts) ≠ Ok b).
Proof.
  intros Hu Hb. destruct (transcript_decoded d n h Hu) as [D N].
  assert (Hsame : ∀ v, decoded v → null_free v → Marshal v = Ok b → canon v = canon (transcript_body d n h)) by (intros; by eapply Marshal_same).
  rewrite transcript_canon in Hsame. split_and!.
  - intros d' n' h' Hu' Hb'. destruct (transcript_decoded d' n' h' Hu') as [D' N']. apply Hsame in Hb'; [|done..].
    rewrite transcript_canon in Hb'. by injection Hb' as -> -> ->.
  - intros c Hc Hb'. destruct (cert_decoded c Hc) as [D' N']. apply Hsame in Hb'; [|done..]. rewrite cert_canon in Hb'. discriminate Hb'.
  - intros d' k ip Hl Hb'. rewrite !Forall_cons in Hl. destruct Hl as (U1 & U2 & U3 & _).
    destruct (lease_decoded d' k ip U1 U2 U3) as [D' N']. apply Hsame in Hb'; [|done..]. rewrite lease_canon in Hb'. discriminate Hb'.
  - intros d' intent ts U1 U2 Hb'. destruct (auth_decoded d' intent ts U1 U2) as [D' N']. apply Hsame in Hb'; [|done..]. discriminate Hb'.
Qed.

(** ** Runs *)

Module RelayDemo.
#[local] Existing Instance Toy.prims.

Lemma relay_challenge_separated_witness : ∃ b, Marshal (transcript_body "d" "n0" "r.example") = Ok b ∧
  (∀ c, cert_utf8 c → certSignedBytes c ≠ Ok b) ∧
  (∀ n', Utf8.valid n' = true → Marshal (transcript_body "d" n' "r.example") = Ok b → n' = "n0").
Proof.
  destruct (Marshal (transcript_body "d" "n0" "r.example")) as [b|] eqn:E; [|vm_compute in E; discriminate E].
  exists b. split; [done|]. destruct (relay_challenge_separated "d" "n0" "r.example" b) as (H1 & H2 & _); [repeat constructor|exact E|].
  split; [exact H2|]. intros n' Hn Hb. destruct (H1 "d" n' "r.example") as (_ & ? & _); [repeat constructor; done|done..].
Defined.

(** Two clients of the relay, one datagram each way. *)
Definition hello (id : Z) : string := encodeData id "hi".
Definition two : shim := (onDatagram 2 true (hello 9) (onDatagram 1 true (hello 7) newShim).1).1.
Definition reply : shim * list output := pumpRead 3 0 "answer" true two.

Lemma two_run : shim_run [ToWireGuard 0 "hi"; ToWireGuard 1 "hi"] two.
Proof.
  apply (run_step [ToWireGuard 0 "hi"] (onDatagram 1 true (hello 7) newShim).1 [ToWireGuard 1 "hi"]).
  - apply (run_step [] newShim [ToWireGuard 0 "hi"]); [apply run_start|]. apply (step_datagram _ 1 true (hello 7)). vm_compute. reflexivity.
  - apply (step_datagram _ 2 true (hello 9)). vm_compute. reflexivity.
Qed.


Definition offer : SignedGrant := MkSigned (Some (JObj [("deviceId", JStr "d"); ("relayHost", JStr "r.example"); ("relayPort", JNum "443");
  ("controlUrl", JStr "wss://r.example"); ("exp", JNum "100000")])) "sig".

Definition ready_loop : loop_state := MkLoop (SetGrant offer (SetRequester (NewManager true))).1 0 0.
Definition failing (t : Z) (during : list handler_op) : pass_io := MkPass t t (Some true) true false "" during.

(** Three failed sessions ask for another node; with pinned configurations they do not. *)
Example failover :
  (run_loop (map (λ t, failing (t * second) []) [1; 2; 4; 8; 12; 20]%Z) ready_loop).1.2 =
    [(4 * second, "r.example"); (20 * second, "r.example")]%Z ∧
  (run_loop (failing second [OpKeepAlive (Some true) true] :: map (λ t, failing (t * second) []) [2; 4; 8; 12; 20]%Z) ready_loop).1.2 = [].
Proof. split; vm_compute; reflexivity. Qed.

Lemma relay_requests_limited_witness :
  let '(l', reqs, failed) := run_loop (map (λ t, failing (t * second) []) [1; 2; 4]%Z) ready_loop in
  spaced zero_time reqs ∧ (3 * hints reqs + l_failures l' <= 0 + failed)%Z.
Proof. apply (relay_requests_limited (map (λ t, failing (t * second) []) [1; 2; 4]%Z) ready_loop). vm_compute. by split. Defined.

(** The endpoint is offered only while a session is up and the relay is wanted. *)
Example endpoint_offered :
  let up := set_endpoint (l_mgr ready_loop) "r.example:51821" in
  Endpoint (Some true) up = ("r.example:51821", true) ∧ (Endpoint (Some false) up).2 = false ∧
  (Endpoint (Some false) (SetKeepAlive (Some false) true up).1).2 = true ∧
  endpoint (l_mgr (loop_pass (MkPass second second (Some true) true true "r.example:51821" []) ready_loop).1) = "".
Proof. split_and!; vm_compute; reflexivity. Qed.
End RelayDemo.
