(* ===== verification/Pcp.v ===== *)
(** * internal/pcp/client.go: one PCP MAP transaction (RFC 6887)

    Packets are byte strings. The sockets are an argument: for each of the two attempts,
    whether the write succeeded and the packets read before the deadline. *)

From S2P Require Import Prelude Bytes NetAddr.

Definition ip_bytes (ip : IP) : string := String.string_of_list_ascii (map Nb ip).
Definition bytes_ip (s : string) : IP := map bN (String.list_ascii_of_string s).

Inductive pcp_error := ErrUnsupportedVersion | ErrRejected (code : N) | ErrCancelled | ErrWrite | ErrNoResponse.

Record Mapping := MkMapping { ExternalIP : IP; ExternalPort : Z; Lifetime : Z }.

(** [None] is a nil address. *)
Definition to16 (ip : option IP) : IP :=
  match ip with
  | None => replicate 16 0%N
  | Some b => if (length b =? 4)%nat then v4InV6Prefix ++ b else if (length b =? 16)%nat then b else replicate 16 0%N
  end.

Definition normalizeIP (ip : IP) : IP := default ip (To4 ip).

Definition msgLen : nat := 60.
Definition headerLen : nat := 24.

(** The 60 bytes in order: version, opcode, two reserved, lifetime, client address, nonce,
    protocol, three reserved, the two ports, suggested address. *)
Definition encodeMapRequest (clientAddr suggestedExternalIP : option IP) (proto : N) (internalPort suggestedExternalPort lifetime : Z)
    (nonce : string) : string :=
  String (Nb 2) (String (Nb 1) (zeros 2 +:+ put_be 4 lifetime +:+ ip_bytes (to16 clientAddr) +:+ nonce +:+
    String (Nb proto) (zeros 3 +:+ put_be 2 internalPort +:+ put_be 2 suggestedExternalPort +:+ ip_bytes (to16 suggestedExternalIP)))).

(** s[off : off+n]. *)
Definition field (off n : nat) (s : string) : string := stake n (sdrop off s).
Definition byte_at (off : nat) (s : string) : N := match sdrop off s with String c _ => bN c | "" => 0%N end.

(** [None] when the packet is not ours. *)
Definition parseMapResponse (pkt nonce : string) : option (result pcp_error Mapping) :=
  if (slen pkt <? headerLen)%nat || negb (byte_at 0 pkt =? 2)%N then None
  else if (N.land (byte_at 1 pkt) 0x80 =? 0)%N || negb (N.land (byte_at 1 pkt) 0x7f =? 1)%N then None
  else
    let code := byte_at 3 pkt in
    if negb (code =? 0)%N then Some (Err (if (code =? 1)%N then ErrUnsupportedVersion else ErrRejected code))
    else if (slen pkt <? msgLen)%nat then None
    else if field 24 12 pkt <>s nonce then None
    else Some (Ok (MkMapping (normalizeIP (bytes_ip (field 44 16 pkt))) (get_be (field 42 2 pkt)) (get_be (field 4 4 pkt)))).

(** One attempt: cancelled already, a failed write, or the packets before the deadline. *)
Inductive attempt := Cancelled | WriteFailed | Packets (l : list string).

Fixpoint first_match (nonce : string) (l : list string) : option (result pcp_error Mapping) :=
  match l with
  | [] => None
  | p :: rest => match parseMapResponse p nonce with Some r => Some r | None => first_match nonce rest end
  end.

Fixpoint attempts_loop (nonce : string) (l : list attempt) : result pcp_error Mapping :=
  match l with
  | [] => Err ErrNoResponse
  | Cancelled :: _ => Err ErrCancelled
  | WriteFailed :: _ => Err ErrWrite
  | Packets ps :: rest => match first_match nonce ps with Some r => r | None => attempts_loop nonce rest end
  end.

(** The socket side; the loop makes two attempts. *)
Definition RequestMapping (nonce : string) (a1 a2 : attempt) : result pcp_error Mapping := attempts_loop nonce [a1; a2].

(** ** The layout *)

Lemma sdrop_drop a b s : sdrop a (sdrop b s) = sdrop (b + a) s.
Proof. revert s. induction b as [|b IH]; intros s; [done|]. destruct s as [|c s]; simpl; [by destruct a|apply IH]. Qed.

Lemma field_cons c off n s : field (S off) n (String c s) = field off n s.
Proof. done. Qed.

Lemma field_skip a off n s : slen a ≤ off → field off n (a +:+ s) = field (off - slen a) n s.
Proof.
  intros Ho. unfold field. replace off with (slen a + (off - slen a)) at 1 by lia. rewrite <- sdrop_drop, sdrop_app. done.
Qed.

Lemma field_here a n s : slen a = n → field 0 n (a +:+ s) = a.
Proof. intros <-. unfold field. simpl. apply stake_app. Qed.

Lemma field_end a n : slen a = n → field 0 n a = a.
Proof. intros Hl. rewrite <- (sapp_nil_r a) at 1. by apply field_here. Qed.

Lemma slen_ip ip : slen (ip_bytes ip) = length ip.
Proof. unfold ip_bytes. induction ip as [|b ip IH]; [done|]. simpl. by rewrite IH. Qed.

Lemma length_to16 ip : length (to16 ip) = 16.
Proof. unfold to16. destruct ip as [b|]; [|done]. destruct (Nat.eqb_spec (length b) 4); [rewrite length_app; simpl; lia|]. by destruct (Nat.eqb_spec (length b) 16). Qed.

Lemma bytes_ip_bytes ip : Forall (λ b, (b < 256)%N) ip → bytes_ip (ip_bytes ip) = ip.
Proof.
  unfold bytes_ip, ip_bytes. intros Hb. rewrite String.list_ascii_of_string_of_list_ascii, map_map.
  induction Hb as [|b ip Hb _ IH]; [done|]. simpl. by rewrite IH, bN_Nb.
Qed.

Lemma slen_field off n s : off + n ≤ slen s → slen (field off n s) = n.
Proof.
  intros Hs. unfold field. apply slen_stake. revert off Hs. induction s as [|c s IH]; intros [|off] Hs; simpl in *; try lia. apply IH. lia.
Qed.

(** Walk to a field by the lengths of what stands before it. *)
Ltac seek := repeat first
  [ rewrite field_cons
  | rewrite field_skip by (rewrite ?slen_zeros, ?slen_put, ?slen_ip, ?length_to16; lia); rewrite ?slen_zeros, ?slen_put, ?slen_ip, ?length_to16; simpl Nat.sub
  | rewrite field_skip by (rewrite slen_field; lia); rewrite slen_field by lia; simpl Nat.sub
  ].

(** What a PCP server (RFC 6887, 7.2 and 11.1) answers to request [req]: the response bit, the
    result code and lifetime, the request's nonce, protocol and internal port, and the external
    port and address it assigned. *)
Definition server_response (req : string) (code : N) (lifetime epoch port : Z) (ip : IP) : string :=
  String (Nb 2) (String (Nb 0x81) (String (Nb 0) (String (Nb code) (put_be 4 lifetime +:+ put_be 4 epoch +:+ zeros 12 +:+
    field 24 12 req +:+ field 36 4 req +:+ field 40 2 req +:+ put_be 2 port +:+ ip_bytes (to16 (Some ip)))))).

Lemma request_nonce c s pr ip ep lt nonce : slen nonce = 12 → field 24 12 (encodeMapRequest c s pr ip ep lt nonce) = nonce.
Proof. intros Hn. unfold encodeMapRequest. seek. by apply field_here. Qed.

Lemma slen_request c s pr ip ep lt nonce : slen nonce = 12 → slen (encodeMapRequest c s pr ip ep lt nonce) = msgLen.
Proof.
  intros Hn. unfold encodeMapRequest. repeat (cbn [String.length]; rewrite ?slen_app, ?slen_zeros, ?slen_put, ?slen_ip, ?length_to16, ?Hn). done.
Qed.

Lemma byte_at_cons c off s : byte_at (S off) (String c s) = byte_at off s.
Proof. done. Qed.

(** What the parser makes of a server's answer, success or not. *)
Lemma parse_server_response req nonce code lifetime epoch port addr : slen req = msgLen → (code < 256)%N →
  (0 <= lifetime < 2 ^ 32)%Z → (0 <= port < 2 ^ 16)%Z → Forall (λ b, (b < 256)%N) addr →
  parseMapResponse (server_response req code lifetime epoch port addr) nonce =
    if (code =? 0)%N then (if field 24 12 req =s nonce
                           then Some (Ok (MkMapping (normalizeIP (to16 (Some addr))) port lifetime)) else None)
    else Some (Err (if (code =? 1)%N then ErrUnsupportedVersion else ErrRejected code)).
Proof.
  intros Hr Hc Hlt Hp Ha. unfold msgLen in Hr.
  assert (Hbytes : Forall (λ b, (b < 256)%N) (to16 (Some addr))).
  { unfold to16. repeat case_match; try done; [apply Forall_app; split; [repeat constructor|done]|apply Forall_replicate; lia]. }
  set (pkt := server_response req code lifetime epoch port addr). unfold parseMapResponse.
  assert (Hlen : slen pkt = 60).
  { unfold pkt, server_response. repeat (cbn [String.length]; rewrite ?slen_app, ?slen_zeros, ?slen_put, ?slen_ip, ?length_to16).
    rewrite !slen_field by lia. done. }
  rewrite Hlen. cbn [Nat.ltb Nat.leb headerLen msgLen orb].
  replace (byte_at 0 pkt) with 2%N by reflexivity. replace (byte_at 1 pkt) with 0x81%N by reflexivity.
  replace (byte_at 3 pkt) with code by (unfold pkt, server_response; rewrite !byte_at_cons; unfold byte_at; simpl; by rewrite bN_Nb).
  cbn -[field get_be]. destruct (code =? 0)%N; [|done]. cbn [negb].
  assert (field 24 12 pkt = field 24 12 req) as ->.
  { unfold pkt, server_response. seek. apply field_here, slen_field. lia. }
  destruct (field 24 12 req =s nonce); [|done]. cbn [negb]. repeat f_equal.
  - unfold pkt, server_response. seek.
    rewrite field_end by (by rewrite slen_ip, length_to16). by apply bytes_ip_bytes.
  - unfold pkt, server_response. seek.
    rewrite field_here by apply slen_put. apply get_put. exact Hp.
  - unfold pkt, server_response. seek. rewrite field_here by apply slen_put. apply get_put. exact Hlt.
Qed.

(** Packets that are not ours do not matter. *)
Lemma first_match_strays nonce a b : Forall (λ p, parseMapResponse p nonce = None) a → first_match nonce (a ++ b) = first_match nonce b.
Proof. induction 1 as [|p a Hp _ IH]; [done|]. simpl. by rewrite Hp. Qed.

(** A request this client encodes, answered as the standard says by a gateway, in the first
    attempt or in the second and after any packets that are not its own, gives back exactly the
    assigned address, port and lifetime when the code is success, and that error otherwise; a
    success for another mapping's nonce is ignored. *)
Theorem pcp_roundtrip c sug pr ip ep lt nonce nonce' code lifetime epoch port addr strays strays' late :
  slen nonce = 12 → (code < 256)%N → (0 <= lifetime < 2 ^ 32)%Z → (0 <= port < 2 ^ 16)%Z →
  (length addr = 4 ∨ length addr = 16 ∧ To4 addr = None) → Forall (λ b, (b < 256)%N) addr →
  Forall (λ p, parseMapResponse p nonce = None) (strays ++ strays') →
  let answer := server_response (encodeMapRequest c sug pr ip ep lt nonce) code lifetime epoch port addr in
  let expected := if (code =? 0)%N then Ok (MkMapping addr port lifetime)
                  else Err (if (code =? 1)%N then ErrUnsupportedVersion else ErrRejected code) in
  RequestMapping nonce (Packets (strays ++ answer :: late)) Cancelled = expected ∧
  RequestMapping nonce (Packets strays) (Packets (strays' ++ answer :: late)) = expected ∧
  (nonce' ≠ nonce → code = 0%N → parseMapResponse answer nonce' = None).
Proof.
  intros Hn Hc Hlt Hp Haddr Ha [Hs Hs']%Forall_app answer expected.
  pose proof (slen_request c sug pr ip ep lt nonce Hn) as Hlen. pose proof (request_nonce c sug pr ip ep lt nonce Hn) as Hnonce.
  assert (Hparse : ∀ x, parseMapResponse answer x = if (code =? 0)%N then (if nonce =s x then Some (Ok (MkMapping addr port lifetime)) else None) else Some expected).
  { intros x. subst answer expected. rewrite parse_server_response, Hnonce by done. destruct (code =? 0)%N; [|done].
    assert (normalizeIP (to16 (Some addr)) = addr) as ->; [|done]. unfold to16, normalizeIP.
    destruct Haddr as [H4|[H16 Hv6]]; [|rewrite H16; cbn [Nat.eqb]; by rewrite Hv6].
    do 5 (destruct addr as [|? addr]; [discriminate H4 || done|]). discriminate H4. }
  assert (Hfirst : first_match nonce (answer :: late) = Some expected).
  { cbn [first_match]. rewrite Hparse, seqb_refl. subst expected. by destruct (code =? 0)%N. }
  assert (Hnone : first_match nonce strays = None) by (rewrite <- (app_nil_r strays); by rewrite first_match_strays).
  unfold RequestMapping. cbn [attempts_loop]. rewrite !first_match_strays by done. split_and!; [by rewrite Hfirst| |].
  - by rewrite Hnone, Hfirst.
  - intros Hne ->. rewrite Hparse. cbn. destruct (nonce =s nonce') eqn:E; [|done]. by apply seqb_true in E.
Qed.

Example pcp_roundtrip_witness :
  let answer := server_response (encodeMapRequest (Some [192; 168; 1; 5]%N) None 17 51820 51820 7200 "nonce-nonce-") 0 3600 9 51820 [1; 2; 3; 4]%N in
  RequestMapping "nonce-nonce-" (Packets ([""; "junk"] ++ [answer])) Cancelled = Ok (MkMapping [1; 2; 3; 4]%N 51820 3600).
Proof.
  refine (proj1 (pcp_roundtrip (Some [192; 168; 1; 5]%N) None 17 51820 51820 7200 "nonce-nonce-" "" 0 3600 9 51820 [1; 2; 3; 4]%N
    [""; "junk"] [] [] _ _ _ _ _ _ _)); try (vm_compute; done); [by left|repeat constructor|repeat constructor].
Defined.
