(* ===== verification/Certs.v ===== *)
(** * internal/certs: the certificate registry and its renewal

    X.509 parsing and the ACME exchange are outside the model: a certificate is its names and
    expiry, the disk says for each suffix which leaf cert.pem starts with and whether it pairs
    with key.pem, and what an issue attempt does to the files is an argument. *)

From S2P Require Import Prelude NetAddr.

(** strings.EqualFold beyond ASCII. *)
Class Fold := { equal_fold_runes : string → string → bool }.

Definition EqualFold `{Fold} (a b : string) : bool :=
  if is_ascii_string a && is_ascii_string b then smap ascii_lower a =s smap ascii_lower b else equal_fold_runes a b.

(** strings.Contains. *)
Fixpoint contains_sub (p s : string) : bool :=
  has_prefix s p || match s with "" => false | String _ s' => contains_sub p s' end.

Record leaf := MkLeaf { DNSNames : list string; CommonName : string; NotAfter : Z }.

(** cert.pem's first certificate, and whether tls.LoadX509KeyPair accepts the two files. *)
Record files := MkFiles { f_leaf : leaf; f_pair : bool }.
Definition disk := gmap string files.

(** The certificate served for a suffix, absent while it is being issued. *)
Definition Registry := gmap string (option leaf).

Inductive cert_error := ErrEmptyHost | ErrLoadPair | ErrMismatch | ErrPaths | ErrIssue | ErrEmptyRegistry | ErrNoUsable.

Section Certs.
Context `{Unicode} `{Fold}.

Definition normaliseHost (h : string) : string :=
  trim_suffix (trim_prefix (to_lower (trim_space h)) "*.") ".".

(** assertCertMatchesSuffix. *)
Definition certMatchesSuffix (c : leaf) (suffix : string) : bool :=
  let want := to_lower suffix in
  existsb (λ dns, (to_lower dns =s "*." +:+ want) || (to_lower dns =s want)) (DNSNames c) || EqualFold (CommonName c) suffix.

Definition LoadSuffix (d : disk) (host : string) (r : Registry) : Registry * result cert_error unit :=
  let host := normaliseHost host in
  if host =s "" then (r, Err ErrEmptyHost)
  else match d !! host with
       | Some f => if negb (f_pair f) then (r, Err ErrLoadPair)
                   else if certMatchesSuffix (f_leaf f) host then (<[host := Some (f_leaf f)]> r, Ok tt)
                   else (r, Err ErrMismatch)
       | None => (r, Err ErrLoadPair)
       end.

(** [dirs] is what os.ReadDir lists, in its order. *)
Definition Load (d : disk) (dirs : list string) (r : Registry) : Registry := foldl (λ r h, (LoadSuffix d h r).1) r dirs.

Definition AddSuffix (host : string) (r : Registry) : Registry :=
  let host := normaliseHost host in
  if host =s "" then r else match r !! host with Some _ => r | None => <[host := None]> r end.

Definition RemoveSuffix (host : string) (r : Registry) : Registry :=
  let host := normaliseHost host in if host =s "" then r else delete host r.

(** Longest first, then in byte order. *)
Definition longer_first (a b : string) : Prop := slen b < slen a ∨ slen a = slen b ∧ String.le a b.
#[export] Instance longer_first_dec : RelDecision longer_first.
Proof. intros a b. unfold longer_first. apply _. Defined.

Definition Suffixes (r : Registry) : list string := merge_sort longer_first (map fst (map_to_list r)).

Definition usable (r : Registry) : list string := omap (λ kv, match kv.2 with Some _ => Some kv.1 | None => None end) (map_to_list r).

Definition lookup_cert (r : Registry) (host : string) : option leaf := mjoin (r !! normaliseHost host).
Definition Has (r : Registry) (host : string) : bool := bool_decide (is_Some (lookup_cert r host)).
Definition HasAny (r : Registry) : bool := negb (bool_decide (usable r = [])).

Definition fallbackCert (r : Registry) : result cert_error leaf :=
  if bool_decide (r = ∅) then Err ErrEmptyRegistry
  else match merge_sort longer_first (usable r) with
       | [] => Err ErrNoUsable
       | k :: _ => of_option ErrNoUsable (mjoin (r !! k))
       end.

Definition stripFirstLabel (host : string) : string := match cut_at "." host with Some (_, rest) => rest | None => "" end.

(** [None] for a nil ClientHelloInfo. *)
Definition GetCertificate (hello : option string) (r : Registry) : result cert_error leaf :=
  match hello with
  | None => fallbackCert r
  | Some serverName =>
      if serverName <>s "" then
        match lookup_cert r (stripFirstLabel serverName) with
        | Some c => Ok c
        | None => match lookup_cert r serverName with Some c => Ok c | None => fallbackCert r end
        end
      else fallbackCert r
  end.

(** ** Issue and renewal *)

Definition day : Z := 24 * 60 * minute.
Definition renewBefore : Z := 30 * day.

Definition certFileIsValidForSuffix (now : Z) (d : disk) (host suffix : string) : bool :=
  match d !! host with
  | None => false
  | Some f =>
      if (time_sub (NotAfter (f_leaf f)) now <=? renewBefore)%Z then false
      else if suffix =s "" then true
      else existsb (λ dns, (dns =s "*." +:+ suffix) || (dns =s suffix)) (DNSNames (f_leaf f)) || (CommonName (f_leaf f) =s suffix)
  end.

(** What IssueCert does: fail before or at the certificate, replace cert.pem and then fail on
    key.pem, or replace both with a pair. *)
Inductive issue := IssueFailed | CertOnly (c : leaf) | Issued (c : leaf).

Definition issue_disk (i : issue) (suffix : string) (d : disk) : disk :=
  match i with IssueFailed => d | CertOnly c => <[suffix := MkFiles c false]> d | Issued c => <[suffix := MkFiles c true]> d end.
Definition issue_ok (i : issue) : bool := match i with Issued _ => true | _ => false end.

(** [made] tells whether the suffix directory can be created. PathsFor and LoadSuffix normalise
    the suffix once more: [path] is the directory. *)
Definition EnsureCert (now : Z) (made : bool) (i : issue) (suffix : string) (d : disk) (r : Registry)
    : disk * Registry * result cert_error unit :=
  let suffix := normaliseHost suffix in
  let path := normaliseHost suffix in
  if suffix =s "" then (d, r, Err ErrEmptyHost)
  else if path =s "" then (d, r, Err ErrEmptyHost)
  else if negb made then (d, r, Err ErrPaths)
  else
    let try_load := LoadSuffix d suffix r in
    if certFileIsValidForSuffix now d path suffix && is_ok try_load.2 then (d, try_load.1, Ok tt)
    else
      let d' := issue_disk i path d in
      match LoadSuffix d' suffix r with
      | (r', Ok _) => (d', r', Ok tt)
      | (r', Err e) => (d', r', Err (if issue_ok i then e else ErrIssue))
      end.

Record RenewalState := MkRenewal { ConsecutiveFailures : Z; LastAttempt : Z; LastSuccess : Z; LastNotification : Z }.
Definition zero_renewal : RenewalState := MkRenewal 0 zero_time zero_time zero_time.

Definition renewalAlertThreshold : Z := 3.
Definition renewalAlertCooldown : Z := day.

(** The state, and the failure count reported to the owner, if any. *)
Definition recordRenewalFailure (now : Z) (notifier : bool) (suffix : string) (m : gmap string RenewalState)
    : gmap string RenewalState * option Z :=
  let st := default zero_renewal (m !! suffix) in
  let n := (ConsecutiveFailures st + 1)%Z in
  if (renewalAlertThreshold <=? n)%Z && (renewalAlertCooldown <? time_sub now (LastNotification st))%Z && notifier
  then (<[suffix := MkRenewal n now (LastSuccess st) now]> m, Some n)
  else (<[suffix := MkRenewal n now (LastSuccess st) (LastNotification st)]> m, None).

Definition recordRenewalSuccess (now : Z) (suffix : string) (m : gmap string RenewalState) : gmap string RenewalState :=
  let st := default zero_renewal (m !! suffix) in <[suffix := MkRenewal 0 now now (LastNotification st)]> m.

Record manager := MkCerts { c_disk : disk; c_reg : Registry; c_state : gmap string RenewalState }.

(** One suffix of renewAll. *)
Definition renew_suffix (now : Z) (notifier made : bool) (i : string → issue) (acc : manager * list (string * Z)) (suffix : string)
    : manager * list (string * Z) :=
  let '(m, alerts) := acc in
  let path := normaliseHost suffix in
  if (path =s "") || negb made then acc
  else if certFileIsValidForSuffix now (c_disk m) path suffix then acc
  else match EnsureCert now made (i suffix) suffix (c_disk m) (c_reg m) with
       | (d, r, Ok _) => (MkCerts d r (recordRenewalSuccess now suffix (c_state m)), alerts)
       | (d, r, Err _) =>
           let '(st, alert) := recordRenewalFailure now notifier suffix (c_state m) in
           (MkCerts d r st, alerts ++ match alert with Some n => [(suffix, n)] | None => [] end)
       end.

Definition renewAll (now : Z) (notifier made : bool) (i : string → issue) (m : manager) : manager * list (string * Z) :=
  foldl (renew_suffix now notifier made i) (m, []) (Suffixes (c_reg m)).

(** ** DNS-01 scope *)

Definition isAllowedFQDN (currentSuffix deviceID fqdn : string) : bool :=
  if fqdn =s "_acme-challenge." +:+ currentSuffix then true
  else if deviceID =s "" then false
  else contains_sub ("." +:+ deviceID +:+ ".") ("." +:+ fqdn +:+ ".").
End Certs.

(** ** The registry serves only certificates of its suffixes *)

Section Theorems.
Context `{Unicode} `{Fold}.

Inductive registry_op :=
| OpLoad (d : disk) (host : string)
| OpAdd (host : string)
| OpRemove (host : string)
| OpEnsure (now : Z) (made : bool) (i : issue) (suffix : string) (d : disk).

Definition apply_op (r : Registry) (o : registry_op) : Registry :=
  match o with
  | OpLoad d host => (LoadSuffix d host r).1
  | OpAdd host => AddSuffix host r
  | OpRemove host => RemoveSuffix host r
  | OpEnsure now made i suffix d => (EnsureCert now made i suffix d r).1.2
  end.

Definition certs_match (r : Registry) : Prop := ∀ h c, r !! h = Some (Some c) → certMatchesSuffix c h = true.

(** How LoadSuffix can go. *)
Lemma LoadSuffix_cases d host r r' res : LoadSuffix d host r = (r', res) →
  (∃ e, res = Err e ∧ r' = r) ∨
  (∃ f, res = Ok tt ∧ normaliseHost host ≠ "" ∧ d !! normaliseHost host = Some f ∧ f_pair f = true ∧
        certMatchesSuffix (f_leaf f) (normaliseHost host) = true ∧ r' = <[normaliseHost host := Some (f_leaf f)]> r).
Proof.
  unfold LoadSuffix. destruct (normaliseHost host =s "") eqn:E; [intros [= <- <-]; left; eauto|]. apply seqb_false in E.
  destruct (d !! normaliseHost host) as [f|]; [|intros [= <- <-]; left; eauto].
  destruct (f_pair f) eqn:Ef; cbn [negb]; [|intros [= <- <-]; left; eauto].
  destruct (certMatchesSuffix _ _) eqn:Em; intros [= <- <-]; [|left; eauto]. right. by exists f.
Qed.

Lemma LoadSuffix_match d host r : certs_match r → certs_match (LoadSuffix d host r).1.
Proof.
  intros Hr. destruct (LoadSuffix d host r) as [r' res] eqn:E. apply LoadSuffix_cases in E as [(e & _ & ->)|(f & _ & _ & _ & _ & Hm & ->)]; [done|].
  cbn [fst]. intros h c [[<- [= <-]]|[_ ?]]%lookup_insert_Some; eauto.
Qed.

Lemma EnsureCert_registry now made i suffix d r : (EnsureCert now made i suffix d r).1.2 = r ∨
  ∃ d', (EnsureCert now made i suffix d r).1.2 = (LoadSuffix d' (normaliseHost suffix) r).1.
Proof.
  unfold EnsureCert. destruct (_ =s _); [by left|]. destruct (_ =s _); [by left|]. destruct made; [|by left]. cbn [negb].
  destruct (_ && _); [right; by eexists|]. right. exists (issue_disk i (normaliseHost (normaliseHost suffix)) d).
  by destruct (LoadSuffix (issue_disk _ _ _) _ _) as [r' [|]].
Qed.

Lemma match_apply r o : certs_match r → certs_match (apply_op r o).
Proof.
  intros Hr. destruct o as [d host|host|host|now made i suffix d]; cbn [apply_op].
  - by apply LoadSuffix_match.
  - unfold AddSuffix. destruct (_ =s _); [done|]. destruct (r !! normaliseHost host); [done|].
    intros h c [[_ ?]|[_ ?]]%lookup_insert_Some; [done|eauto].
  - unfold RemoveSuffix. destruct (_ =s _); [done|]. intros h c [_ ?]%lookup_delete_Some; eauto.
  - destruct (EnsureCert_registry now made i suffix d r) as [->|[d' ->]]; [done|by apply LoadSuffix_match].
Qed.

Lemma reachable_match ops : certs_match (foldl apply_op ∅ ops).
Proof.
  assert (Hgen : ∀ l r, certs_match r → certs_match (foldl apply_op r l)); [|by apply Hgen; intros h c Hc; discriminate Hc].
  induction l as [|o l IH]; intros r Hr; [done|]. by apply IH, match_apply.
Qed.

#[export] Instance longer_first_total : Total longer_first.
Proof.
  intros a b. unfold longer_first. destruct (Nat.lt_trichotomy (slen a) (slen b)) as [?|[E|?]]; [by right; left| |by left; left].
  destruct (total String.le a b); [left|right]; right; auto.
Qed.
#[export] Instance longer_first_trans : Transitive longer_first.
Proof.
  intros a b c. unfold longer_first. intros [?|[E1 L1]] [?|[E2 L2]]; [left; lia..|right]. split; [lia|]. by transitivity b.
Qed.

Lemma usable_spec r h : h ∈ usable r ↔ ∃ c, r !! h = Some (Some c).
Proof.
  unfold usable. rewrite list_elem_of_omap. split.
  - intros ([k [c|]] & Hin & E); cbn in E; [|done]. injection E as ->. exists c. by apply elem_of_map_to_list.
  - intros [c Hc]. exists (h, Some c). split; [by apply elem_of_map_to_list|done].
Qed.

Lemma fallback_spec r : match fallbackCert r with
  | Ok c => ∃ h, r !! h = Some (Some c) ∧ ∀ h', h' ∈ usable r → longer_first h h'
  | Err _ => usable r = []
  end.
Proof.
  unfold fallbackCert. case_bool_decide as E; [subst; done|].
  pose proof (StronglySorted_merge_sort longer_first (usable r)) as Hs. pose proof (merge_sort_Permutation longer_first (usable r)) as Hp.
  destruct (merge_sort longer_first (usable r)) as [|k l]; [by apply Permutation_nil_l in Hp|].
  assert (k ∈ usable r) as [c Hc]%usable_spec by (rewrite <- Hp; by left). rewrite Hc. cbn. exists k. split; [done|].
  intros h'. rewrite <- Hp. intros [->|Hin]%elem_of_cons; [|inversion_clear Hs; by eapply Forall_forall].
  right. split; [done|reflexivity].
Qed.

(** A registry built by any sequence of its operations serves only certificates issued for
    one of its suffixes; for a server name whose parent has a certificate it serves that one;
    with no match it serves the certificate of the longest suffix, the first in byte order among
    those; and it refuses a handshake only when no suffix has a certificate. *)
Theorem served_cert_matches ops hello : let r := foldl apply_op ∅ ops in
  match GetCertificate hello r with
  | Ok c => (∃ h, r !! h = Some (Some c) ∧ certMatchesSuffix c h = true) ∧
      (∀ name c', hello = Some name → name ≠ "" → lookup_cert r (stripFirstLabel name) = Some c' → c = c') ∧
      ((∀ name, hello = Some name → lookup_cert r (stripFirstLabel name) = None ∧ lookup_cert r name = None) →
       ∃ h, r !! h = Some (Some c) ∧ ∀ h', h' ∈ usable r → longer_first h h')
  | Err _ => usable r = []
  end.
Proof.
  intros r. pose proof (reachable_match ops : certs_match r) as Hm. pose proof (fallback_spec r) as Hf.
  assert (Hl : ∀ h c, lookup_cert r h = Some c → ∃ h, r !! h = Some (Some c) ∧ certMatchesSuffix c h = true).
  { intros h c Hc. unfold lookup_cert in Hc. destruct (r !! normaliseHost h) as [o|] eqn:E; [|done]. cbn in Hc. subst o. eauto. }
  assert (Hfall : match fallbackCert r with Ok c => ∃ h, r !! h = Some (Some c) ∧ certMatchesSuffix c h = true | Err _ => usable r = [] end).
  { destruct (fallbackCert r); [|done]. destruct Hf as (h & Hh & _). eauto. }
  unfold GetCertificate. destruct hello as [name|].
  - destruct (name =s "") eqn:En; cbn [negb].
    { apply seqb_true in En as ->. destruct (fallbackCert r); [|done]. split_and!; [done|by intros ? ? [= <-] ?|done]. }
    destruct (lookup_cert r (stripFirstLabel name)) as [c|] eqn:E1.
    { split_and!; [by eapply Hl|intros ? c' [= <-] _ E; congruence|]. intros Hn. destruct (Hn name eq_refl). congruence. }
    destruct (lookup_cert r name) as [c|] eqn:E2.
    { split_and!; [by eapply Hl|intros ? c' [= <-] _ E; congruence|]. intros Hn. destruct (Hn name eq_refl). congruence. }
    destruct (fallbackCert r); [|done]. split_and!; [done|intros ? c' [= <-] _ E; congruence|done].
  - destruct (fallbackCert r); [|done]. by split_and!.
Qed.

(** When EnsureCert succeeds, the registry holds for that suffix a certificate that pairs
    with its key on disk and names the suffix, and nothing else in it has changed; when it fails
    the registry is as before, so that a certificate served until now still is. *)
Theorem EnsureCert_outcome now made i suffix d r d' r' res : EnsureCert now made i suffix d r = (d', r', res) →
  let path := normaliseHost (normaliseHost suffix) in
  (res = Ok tt → path ≠ "" ∧ ∃ f, d' !! path = Some f ∧ f_pair f = true ∧ certMatchesSuffix (f_leaf f) path = true ∧
     r' = <[path := Some (f_leaf f)]> r) ∧
  (∀ e, res = Err e → r' = r) ∧
  (∀ h, h ≠ path → d' !! h = d !! h).
Proof.
  unfold EnsureCert. set (path := normaliseHost (normaliseHost suffix)). cbv zeta.
  destruct (_ =s ""); [intros [= <- <- <-]; by split_and!|]. destruct (path =s ""); [intros [= <- <- <-]; by split_and!|].
  destruct made; cbn [negb]; [|intros [= <- <- <-]; by split_and!].
  destruct (LoadSuffix d (normaliseHost suffix) r) as [r1 res1] eqn:E1. cbn [fst snd].
  destruct (_ && _) eqn:Ev.
  { intros [= <- <- <-]. apply andb_true_iff in Ev as [_ Ev]. apply LoadSuffix_cases in E1 as [(e & -> & _)|(f & -> & Hne & Hd & Hf & Hm & ->)]; [done|].
    split_and!; [intros _; eauto 8|done|done]. }
  assert (Hdisk : ∀ h, h ≠ path → issue_disk i path d !! h = d !! h) by (intros h Hh; destruct i as [|c|c]; [done|apply lookup_insert_ne; congruence..]).
  destruct (LoadSuffix (issue_disk i path d) (normaliseHost suffix) r) as [r2 res2] eqn:E2.
  apply LoadSuffix_cases in E2 as [(e & -> & ->)|(f & -> & Hne & Hd & Hf & Hm & ->)]; intros [= <- <- <-].
  - split_and!; [done|done|done].
  - split_and!; [intros _; eauto 8|done|done].
Qed.

(** C35: a failed renewal is not recorded as one while the old files still load: whatever the
    expiry of the old certificate, an ACME failure leaves the failure count at zero and raises
    no alert, because EnsureCert falls back to the old pair and reports success. *)
Theorem renewal_failure_masked now notifier suffix m alerts f :
  normaliseHost suffix = suffix → suffix ≠ "" → c_disk m !! suffix = Some f → f_pair f = true →
  certMatchesSuffix (f_leaf f) suffix = true → certFileIsValidForSuffix now (c_disk m) suffix suffix = false →
  renew_suffix now notifier true (λ _, IssueFailed) (m, alerts) suffix =
    (MkCerts (c_disk m) (<[suffix := Some (f_leaf f)]> (c_reg m)) (recordRenewalSuccess now suffix (c_state m)), alerts) ∧
  ConsecutiveFailures <$> (recordRenewalSuccess now suffix (c_state m) !! suffix) = Some 0%Z.
Proof.
  intros Hn Hne Hd Hf Hm Hv. split; [|unfold recordRenewalSuccess; by rewrite lookup_insert_eq].
  unfold renew_suffix, EnsureCert, LoadSuffix. rewrite !Hn. apply seqb_false in Hne. rewrite Hne. cbn [orb negb issue_disk].
  rewrite Hv. cbn [andb]. by rewrite Hd, Hf, Hm.
Qed.

(** *** The scope of DNS records *)

Definition dotted (id : string) : string := "." +:+ id +:+ ".".

Section Labels.
Variable id : string.
Hypothesis no_dot : contains_byte "." id = false.

Lemma skip_label w t : contains_byte "." w = false → contains_sub (dotted id) (w +:+ t) = contains_sub (dotted id) t.
Proof.
  induction w as [|c w IH]; [done|]. cbn [contains_byte String.append contains_sub]. intros [Hc Hw]%orb_false_iff. rewrite IH by done.
  assert (has_prefix (String c (w +:+ t)) (dotted id) = false) as ->; [|done].
  apply seqb_false. unfold dotted. cbn [String.append String.length stake]. intros [= -> _]. by apply ceqb_false in Hc.
Qed.

Lemma prefix_label w s : contains_byte "." w = false → has_prefix ("." +:+ w +:+ "." +:+ s) (dotted id) = (w =s id).
Proof.
  intros Hw. destruct (w =s id) eqn:E.
  - apply seqb_true in E as ->. apply has_prefix_spec. exists s. unfold dotted. by rewrite !sapp_assoc.
  - apply seqb_false in E. destruct (has_prefix _ _) eqn:Hp; [|done]. apply has_prefix_spec in Hp as [x Hx]. unfold dotted in Hx. rewrite !sapp_assoc in Hx.
    injection Hx as Hx. pose proof (cut_at_app "." w s Hw) as C1. pose proof (cut_at_app "." id x no_dot) as C2.
    cbn [String.append] in Hx. rewrite Hx, C2 in C1. by injection C1 as ->.
Qed.

Lemma label_step w s : contains_byte "." w = false →
  contains_sub (dotted id) ("." +:+ w +:+ "." +:+ s) = (w =s id) || contains_sub (dotted id) ("." +:+ s).
Proof.
  intros Hw. rewrite <- (prefix_label w s Hw). rewrite <- (skip_label w ("." +:+ s) Hw). done.
Qed.

Lemma labels_of f w : contains_byte "." w = false →
  contains_sub (dotted id) ("." +:+ (w +:+ f) +:+ ".") = existsb (λ l, l =s id) (split_on "." (w +:+ f)).
Proof.
  revert w. induction f as [|c f IH]; intros w Hw.
  - rewrite sapp_nil_r, (split_on_last "." w Hw). cbn [existsb]. rewrite orb_false_r.
    pose proof (label_step w "" Hw) as Hs. rewrite sapp_nil_r in Hs. rewrite Hs.
    assert (contains_sub (dotted id) "." = false) as ->; [unfold dotted; by destruct id|by rewrite orb_false_r].
  - destruct (ceqb "." c) eqn:Ec.
    + apply ceqb_true in Ec as <-. pose proof (split_on_app "." w f Hw) as Hsp. change ("." +:+ f) with (String "." f) in Hsp. cbn [String.append] in Hsp.
      rewrite Hsp. cbn [existsb]. pose proof (IH "" eq_refl) as Hrest. cbn [String.append] in Hrest. rewrite <- Hrest.
      pose proof (label_step w (f +:+ ".") Hw) as Hs. cbn [String.append] in Hs. rewrite <- Hs. cbn [String.append]. by rewrite sapp_assoc.
    + replace (w +:+ String c f) with ((w +:+ String c "") +:+ f) by (by rewrite sapp_assoc). apply IH.
      rewrite contains_app, Hw. cbn [contains_byte]. by rewrite Ec.
Qed.
End Labels.

(** The records the agent asks the coordination service to write for a certificate are
    exactly the challenge name of the suffix being issued and the names that have the agent's
    own device id as one of their dot-separated labels. *)
Theorem isAllowedFQDN_labels suffix id fqdn : id ≠ "" → contains_byte "." id = false →
  isAllowedFQDN suffix id fqdn = true ↔ fqdn = "_acme-challenge." +:+ suffix ∨ id ∈ split_on "." fqdn.
Proof.
  intros Hid Hd. unfold isAllowedFQDN. apply seqb_false in Hid. rewrite Hid.
  fold (dotted id). pose proof (labels_of id Hd fqdn "" eq_refl) as Hl. cbn [String.append] in Hl. cbn [String.append]. rewrite Hl.
  destruct (fqdn =s _) eqn:E; [apply seqb_true in E; split; [by left|done]|]. apply seqb_false in E. rewrite existsb_exists. split.
  - intros (x & Hin & ->%seqb_true). right. by apply list_elem_of_In.
  - intros [?|Hin]; [done|]. exists id. split; [by apply list_elem_of_In|apply seqb_refl].
Qed.
End Theorems.

(** ** Runs *)

Module CertDemo.
#[local] Instance ascii_only : Unicode := {| lower_runes s := s |}.
#[local] Instance ascii_fold : Fold := {| equal_fold_runes a b := false |}.

Definition home : leaf := MkLeaf ["*.Home.Example"] "" (5 * day).
Definition link : leaf := MkLeaf ["*.a.link.example"; "a.link.example"] "" (200 * day).
Definition disk0 : disk := <["home.example" := MkFiles home true]> (<["a.link.example" := MkFiles link true]> ∅).
Definition ops : list registry_op := [OpLoad disk0 "*.home.example."; OpLoad disk0 "A.link.example"; OpAdd "pending.example"; OpLoad disk0 "x"].
Definition reg : Registry := foldl apply_op ∅ ops.

Example sni :
  map (λ h, GetCertificate h reg) [Some "photos.home.example"; Some "home.example"; Some "other.org"; None] = [Ok home; Ok home; Ok link; Ok link] ∧
  Suffixes reg = ["pending.example"; "a.link.example"; "home.example"].
Proof. split; vm_compute; reflexivity. Qed.

Lemma EnsureCert_outcome_witness : let '(d', r', res) := EnsureCert 0 true (Issued link) "*.a.link.example" ∅ reg in
  res = Ok tt ∧ ∃ f, d' !! "a.link.example" = Some f ∧ certMatchesSuffix (f_leaf f) "a.link.example" = true.
Proof.
  assert (Hr : (EnsureCert 0 true (Issued link) "*.a.link.example" ∅ reg).2 = Ok tt) by (vm_compute; reflexivity).
  destruct (EnsureCert 0 true (Issued link) "*.a.link.example" ∅ reg) as [[d' r'] res] eqn:E. cbn [snd] in Hr. split; [exact Hr|].
  destruct (EnsureCert_outcome 0 true (Issued link) "*.a.link.example" ∅ reg d' r' res E) as (Hok & _).
  destruct (Hok Hr) as (_ & f & H1 & _ & H2 & _). exists f. split; [exact H1|exact H2].
Defined.

(** Long expired, not renewed for a year, no alert. *)
Definition stale : manager := MkCerts disk0 reg ∅.
Lemma renewal_failure_masked_witness :
  renew_suffix (400 * day) true true (λ _, IssueFailed) (stale, []) "home.example" =
    (MkCerts disk0 (<["home.example" := Some home]> reg) (recordRenewalSuccess (400 * day) "home.example" ∅), []) ∧
  ConsecutiveFailures <$> (recordRenewalSuccess (400 * day) "home.example" ∅ !! "home.example") = Some 0%Z.
Proof. apply (renewal_failure_masked (400 * day) true "home.example" stale [] (MkFiles home true)); vm_compute; done. Defined.

(** When the old files do not load either, the third failure alerts, once a day. *)
Definition keyless : manager := MkCerts (<["home.example" := MkFiles home false]> ∅) (<["home.example" := Some home]> ∅) ∅.
Definition renewals (times : list Z) : list (list (string * Z)) :=
  (foldl (λ acc t, let '(m, out) := renewAll t true true (λ _, IssueFailed) acc.1 in (m, acc.2 ++ [out])) (keyless, []) times).2.
Example alerts : renewals [10 * day; 11 * day; 12 * day; 12 * day + minute; 13 * day + 2 * minute]%Z =
  [[]; []; [("home.example", 3%Z)]; []; [("home.example", 5%Z)]].
Proof. vm_compute. reflexivity. Qed.

Lemma isAllowedFQDN_labels_witness : isAllowedFQDN "home.example" "dev1" "_acme-challenge.dev1.link.example" = true ∧
  isAllowedFQDN "home.example" "dev1" "_acme-challenge.dev12.link.example" = false.
Proof.
  split.
  - apply (isAllowedFQDN_labels "home.example" "dev1" "_acme-challenge.dev1.link.example"); [done|done|]. right. vm_compute.
    apply elem_of_cons; right; apply elem_of_cons; by left.
  - vm_compute. reflexivity.
Defined.
End CertDemo.
