(* ===== verification/Endpoints.v ===== *)
(** * internal/endpoints: the signed list of addresses clients may dial

    What the host's interfaces report is an argument ([Interface]); which addresses are kept, in
    which order, what is signed and when a new message is published is the code's. *)

From S2P Require Import Prelude TimeText Encoding Json CanonJson NetAddr Crypto Atreolink AclStore Envelope.

(** ** Predicates of net.IP

    An address has 4 or 16 bytes; the predicates look at the 4-byte form of a mapped address. *)

Module NetIP.
Definition byte (i : nat) (ip : IP) : N := nth i ip 0%N.
Definition v4 (a b c d : N) : IP := v4InV6Prefix ++ [a; b; c; d].

Definition Equal (a b : IP) : bool :=
  if bool_decide (length a = length b) then bool_decide (a = b)
  else if bool_decide (length a = 4 ∧ length b = 16) then bool_decide (b = v4InV6Prefix ++ a)
  else if bool_decide (length a = 16 ∧ length b = 4) then bool_decide (a = v4InV6Prefix ++ b)
  else false.

Definition To16 (ip : IP) : option IP :=
  if bool_decide (length ip = 4) then Some (v4InV6Prefix ++ ip)
  else if bool_decide (length ip = 16) then Some ip else None.

Definition IsUnspecified (ip : IP) : bool := Equal ip (v4 0 0 0 0) || Equal ip (replicate 16 0%N).

Definition IsLoopback (ip : IP) : bool :=
  match To4 ip with Some b => (byte 0 b =? 127)%N | None => Equal ip (replicate 15 0%N ++ [1%N]) end.

Definition IsMulticast (ip : IP) : bool :=
  match To4 ip with
  | Some b => (N.land (byte 0 b) 0xf0 =? 0xe0)%N
  | None => bool_decide (length ip = 16) && (byte 0 ip =? 0xff)%N
  end.

Definition IsLinkLocalMulticast (ip : IP) : bool :=
  match To4 ip with
  | Some b => ((byte 0 b =? 224) && (byte 1 b =? 0) && (byte 2 b =? 0))%N
  | None => bool_decide (length ip = 16) && ((byte 0 ip =? 0xff) && (N.land (byte 1 ip) 0x0f =? 0x02))%N
  end.

Definition IsLinkLocalUnicast (ip : IP) : bool :=
  match To4 ip with
  | Some b => ((byte 0 b =? 169) && (byte 1 b =? 254))%N
  | None => bool_decide (length ip = 16) && ((byte 0 ip =? 0xfe) && (N.land (byte 1 ip) 0xc0 =? 0x80))%N
  end.

Definition IsGlobalUnicast (ip : IP) : bool :=
  bool_decide (length ip = 4 ∨ length ip = 16) && negb (Equal ip (v4 255 255 255 255)) &&
  negb (IsUnspecified ip) && negb (IsLoopback ip) && negb (IsMulticast ip) && negb (IsLinkLocalUnicast ip).
End NetIP.

(** ** Candidates (candidate.go) *)

Definition KindLAN : string := "lan".
Definition KindPublic4 : string := "public4".
Definition KindPublic6 : string := "public6".

Record Candidate := MkCandidate { cd_Kind : string; cd_Host : string; cd_Port : Z }.

#[export] Instance Candidate_eq : EqDecision Candidate.
Proof. solve_decision. Defined.

Definition rank (k : string) : nat :=
  if k =s KindLAN then 0 else if k =s KindPublic4 then 1 else if k =s KindPublic6 then 2 else 3.

(** sort.SliceStable: the stable order is unique, here by insertion: an element goes before the
    first one of a strictly larger rank. *)
Fixpoint insert_candidate (c : Candidate) (l : list Candidate) : list Candidate :=
  match l with
  | [] => [c]
  | d :: l' => if rank (cd_Kind c) <=? rank (cd_Kind d) then c :: l else d :: insert_candidate c l'
  end.

Definition sortCandidates (cs : list Candidate) : list Candidate := foldr insert_candidate [] cs.

Fixpoint sameCandidates (a b : list Candidate) : bool :=
  match a, b with
  | [], [] => true
  | x :: a', y :: b' => bool_decide (x = y) && sameCandidates a' b'
  | _, _ => false
  end.

(** ** The signed envelope (envelope.go) *)

(** RFC3339Nano: the fraction without trailing zeros, nothing when it is zero. *)
Fixpoint pad_digits (n : nat) (z : Z) : string :=
  match n with O => "" | S n' => pad_digits n' (z / 10)%Z +:+ String (Rfc3339.digit z) "" end.

Fixpoint trim_zeros (n : nat) (z : Z) : string :=
  match n with
  | O => ""
  | S n' => if (z mod 10 =? 0)%Z then trim_zeros n' (z / 10) else pad_digits n z
  end.

Definition format_nano (t : Z) : string :=
  let frac := (t mod second)%Z in
  trim_suffix (format_rfc3339 t) "Z" +:+ (if (frac =? 0)%Z then "" else "." +:+ trim_zeros 9 frac) +:+ "Z".

Inductive endpoint_error := ErrDeviceID | ErrKeyLength | ErrKind (i : nat) | ErrHost (i : nat) | ErrPort (i : nat) | ErrCanonicalize.

Record EnvelopeBytes := MkEnvelope { PayloadCanon : string; e_Signature : string }.

Definition check_candidate (i : nat) (c : Candidate) : result endpoint_error unit :=
  check! guard_err ((cd_Kind c =s KindLAN) || (cd_Kind c =s KindPublic4) || (cd_Kind c =s KindPublic6)) (ErrKind i) in
  check! guard_err (cd_Host c <>s "") (ErrHost i) in
  guard_err (negb ((cd_Port c <=? 0) || (65535 <? cd_Port c))%Z) (ErrPort i).

Fixpoint check_candidates (i : nat) (cs : list Candidate) : result endpoint_error unit :=
  match cs with [] => Ok tt | c :: cs' => check! check_candidate i c in check_candidates (S i) cs' end.

Definition candidate_json (c : Candidate) : json :=
  JObj [("kind", JStr (cd_Kind c)); ("host", JStr (cd_Host c)); ("port", JNum (itoa (cd_Port c)))].

Definition endpoints_payload (deviceID : string) (now : Z) (cs : list Candidate) : json :=
  JObj [("deviceId", JStr deviceID); ("timestamp", JStr (format_nano now)); ("candidates", JArr (map candidate_json cs))].

Section Sign.
Context `{Primitives}.

Definition Build (deviceID : string) (now : Z) (cs : list Candidate) (priv : string) : result endpoint_error EnvelopeBytes :=
  check! guard_err (deviceID <>s "") ErrDeviceID in
  check! guard_err (bool_decide (slen priv = privateKeySize)) ErrKeyLength in
  check! check_candidates 0 cs in
  let! canon := map_err (λ _, ErrCanonicalize) (Marshal (endpoints_payload deviceID now cs)) in
  Ok (MkEnvelope canon (ed25519_sign priv canon)).

Definition SignatureBase64 (e : EnvelopeBytes) : string := Base64.encode (e_Signature e).
End Sign.

(** ** Enumeration (enumerator.go) *)

Definition FlagUp : N := 1.
Definition FlagLoopback : N := 4.

Record Interface := MkInterface {
  if_Name : string;
  if_Index : Z;
  if_Flags : N;
  if_Addrs : list (option IP);
  if_V6Flags : gmap string N
}.

(** ifaFlagTemporary, ifaFlagDeprecated, ifaFlagPermanent: set on Linux, zero elsewhere. *)
Record ifa_flags := MkIfa { ifaFlagTemporary : N; ifaFlagDeprecated : N; ifaFlagPermanent : N }.
Definition linux_ifa : ifa_flags := MkIfa 0x01 0x20 0x80.

Definition skippedInterfacePrefixes : list string :=
  ["docker"; "br-"; "virbr"; "wg"; "tun"; "tap"; "utun"; "cni"; "flannel"; "cali"; "zt"; "tailscale"; "ts"].

Definition rfc1918Nets : list IPNet :=
  [MkIPNet [10; 0; 0; 0]%N 8 32; MkIPNet [172; 16; 0; 0]%N 12 32; MkIPNet [192; 168; 0; 0]%N 16 32].
Definition cgNATNet : IPNet := MkIPNet [100; 64; 0; 0]%N 10 32.

Example rfc1918_parsed : map (λ s, snd <$> ParseCIDR s) ["10.0.0.0/8"; "172.16.0.0/12"; "192.168.0.0/16"; "100.64.0.0/10"] =
  map Some (rfc1918Nets ++ [cgNATNet]).
Proof. vm_compute. reflexivity. Qed.

Definition isPrivateV4 (ip : IP) : bool :=
  match To4 ip with
  | None => false
  | Some v4 => if Contains cgNATNet v4 then false else existsb (λ n, Contains n v4) rfc1918Nets
  end.

Definition isGlobalV6 (ip : IP) : bool :=
  if bool_decide (is_Some (To4 ip)) then false
  else if bool_decide (NetIP.To16 ip = None) then false
  else if NetIP.IsLoopback ip || NetIP.IsLinkLocalUnicast ip || NetIP.IsLinkLocalMulticast ip then false
  else if NetIP.IsUnspecified ip || NetIP.IsMulticast ip then false
  else if bool_decide (length ip = 16) && (N.land (NetIP.byte 0 ip) 0xfe =? 0xfc)%N then false
  else NetIP.IsGlobalUnicast ip.

Record EnumerateResult := MkEnum {
  en_LAN : list IP;
  en_PublicV6 : list IP;
  en_PublicV6Permanent : list IP;
  en_DefaultIfIndex : Z;
  en_DefaultIfName : string
}.

(** The four lists Enumerate appends to. *)
Record enum_acc := MkAcc { lanOnDefault : list IP; lanOnOther : list IP; acc_v6 : list IP; acc_permanent : list IP }.

Section Enumerate.
Context `{Unicode} (ifa : ifa_flags).

Definition isSkippedInterface (name : string) : bool :=
  existsb (has_prefix (to_lower name)) skippedInterfacePrefixes.

Definition onDefault (idx : Z) (name : string) (iface : Interface) : bool :=
  negb (idx =? 0)%Z && (if_Index iface =? idx)%Z || (name <>s "") && (if_Name iface =s name).

Definition enum_addr (onDef : bool) (iface : Interface) (acc : enum_acc) (addr : option IP) : enum_acc :=
  match addr with
  | None => acc
  | Some ip =>
      match To4 ip with
      | Some v4 =>
          if negb (isPrivateV4 v4) then acc
          else if onDef then MkAcc (lanOnDefault acc ++ [v4]) (lanOnOther acc) (acc_v6 acc) (acc_permanent acc)
          else MkAcc (lanOnDefault acc) (lanOnOther acc ++ [v4]) (acc_v6 acc) (acc_permanent acc)
      | None =>
          if negb onDef then acc
          else if negb (isGlobalV6 ip) then acc
          else
            let flags := if_V6Flags iface !! IP_String ip in
            let has (f : N) := match flags with Some b => negb (N.land b f =? 0)%N | None => false end in
            if has (ifaFlagTemporary ifa) || has (ifaFlagDeprecated ifa) then acc
            else
              let dup := default [] (NetIP.To16 ip) in
              MkAcc (lanOnDefault acc) (lanOnOther acc) (acc_v6 acc ++ [dup])
                    (if has (ifaFlagPermanent ifa) then acc_permanent acc ++ [dup] else acc_permanent acc)
      end
  end.

Definition considered (iface : Interface) : bool :=
  negb (N.land (if_Flags iface) FlagUp =? 0)%N && (N.land (if_Flags iface) FlagLoopback =? 0)%N &&
  negb (isSkippedInterface (if_Name iface)).

Definition enum_iface (idx : Z) (name : string) (acc : enum_acc) (iface : Interface) : enum_acc :=
  if negb (considered iface) then acc
  else foldl (enum_addr (onDefault idx name iface) iface) acc (if_Addrs iface).

(** [None]: Interfaces failed. *)
Definition Enumerate (ifs : option (list Interface)) (idx : Z) (name : string) : option EnumerateResult :=
  l ← ifs;
  let acc := foldl (enum_iface idx name) (MkAcc [] [] [] []) l in
  Some (MkEnum (lanOnDefault acc ++ lanOnOther acc) (acc_v6 acc) (acc_permanent acc) idx name).

(** ** Choosing and collecting (service.go) *)

(** bytes.Compare of two addresses of one length, as "strictly less". *)
Fixpoint bytes_less (a b : list N) : bool :=
  match a, b with
  | [], [] => false
  | [], _ :: _ => true
  | _ :: _, [] => false
  | x :: a', y :: b' => (x <? y)%N || (x =? y)%N && bytes_less a' b'
  end.

Definition lower (best ip : IP) : IP :=
  if bytes_less (default [] (NetIP.To16 ip)) (default [] (NetIP.To16 best)) then ip else best.

Definition pickPreferredV6 (permanent stable : list IP) : option IP :=
  match permanent, stable with
  | p :: pool, _ => Some (foldl lower p pool)
  | [], p :: pool => Some (foldl lower p pool)
  | [], [] => None
  end.

(** PublicV6 and PreferredV6Source, on what DefaultRoute and the interface source returned. *)
Definition PublicV6 (ifs : option (list Interface)) (idx : Z) (name : string) : option (list IP) :=
  en_PublicV6 <$> Enumerate ifs idx name.
Definition PreferredV6Source (ifs : option (list Interface)) (idx : Z) (name : string) : option (option IP) :=
  (λ r, pickPreferredV6 (en_PublicV6Permanent r) (en_PublicV6 r)) <$> Enumerate ifs idx name.

(** [pub]: what PublicEndpoint returned, [None] when there is no provider. *)
Definition collectCandidates (ifs : option (list Interface)) (idx : Z) (name : string) (wgPort : Z) (pub : option (string * Z))
  : option (list Candidate) :=
  res ← Enumerate ifs idx name;
  Some (sortCandidates
    (map (λ ip, MkCandidate KindLAN (IP_String ip) wgPort) (en_LAN res) ++
     match pub with
     | Some (extIP, extPort) => if (extIP <>s "") && (0 <? extPort)%Z then [MkCandidate KindPublic4 extIP extPort] else []
     | None => []
     end ++
     map (λ ip, MkCandidate KindPublic6 (IP_String ip) wgPort) (en_PublicV6 res))).
End Enumerate.

(** ** The service (service.go) *)

(** A TunnelMessage as it is published: the payload bytes are kept verbatim (json.RawMessage). *)
Record Message := MkOut { o_Type : string; o_Payload : string; o_Signature : string; o_SignerID : string }.

Record Service := MkService {
  s_deviceID : string;
  s_wgPort : Z;
  s_priv : string;
  lastCandidates : list Candidate;
  lastEnvelope : option Message;   (* [Some] when lastEnvelopeOK *)
  lastCanonBytes : string
}.

Definition NewService (deviceID : string) (wgPort : Z) (priv : string) : Service := MkService deviceID wgPort priv [] None "".

Definition CurrentMessage (s : Service) : option Message := lastEnvelope s.

(** What one refresh sees: the interfaces, the default route, the port mapping, the clock. *)
Record refresh_io := MkRefresh {
  r_ifs : option (list Interface);
  r_index : Z;
  r_name : string;
  r_public : option (string * Z);
  r_clock : Z
}.

Section Service.
Context `{Unicode} `{Primitives} (ifa : ifa_flags).

(** The message handed to Send and the candidates handed to OnChange, when the refresh gets
    that far; the outcome of Send changes nothing. *)
Definition doRefresh (io : refresh_io) (s : Service) : Service * option (Message * list Candidate) :=
  match collectCandidates ifa (r_ifs io) (r_index io) (r_name io) (s_wgPort s) (r_public io) with
  | None => (s, None)
  | Some cands =>
      if sameCandidates cands (lastCandidates s) && bool_decide (is_Some (lastEnvelope s)) then (s, None)
      else
        match Build (s_deviceID s) (r_clock io) cands (s_priv s) with
        | Err _ => (s, None)
        | Ok env =>
            if PayloadCanon env =s lastCanonBytes s then (s, None)
            else
              let msg := MkOut "device:endpoints" (PayloadCanon env) (SignatureBase64 env) "agent" in
              (MkService (s_deviceID s) (s_wgPort s) (s_priv s) cands (Some msg) (PayloadCanon env),
               Some (msg, List.filter (λ c, cd_Kind c =s KindLAN) cands))
        end
  end.

Fixpoint run_refreshes (ios : list refresh_io) (s : Service) : Service * list (Message * list Candidate) :=
  match ios with
  | [] => (s, [])
  | io :: ios' =>
      let '(s1, o) := doRefresh io s in
      let '(s2, sent) := run_refreshes ios' s1 in (s2, option_list o ++ sent)
  end.
End Service.

(** ** Texts of addresses and times are ASCII *)

Lemma ascii_valid s : is_ascii_string s = true → Utf8.valid s = true.
Proof.
  induction s as [|c s IH]; [done|]. unfold is_ascii_string. simpl. intros [Hc Hs]%andb_prop.
  change (String c s) with (String c "" +:+ s). rewrite (Utf8.valid_chunk (bN c)); [by apply IH|].
  apply Utf8.chunk_ascii. by apply N.ltb_lt.
Qed.

Lemma ascii_app a b : is_ascii_string (a +:+ b) = is_ascii_string a && is_ascii_string b.
Proof.
  unfold is_ascii_string. induction a as [|c a IH]; simpl; [done|]. by rewrite IH, andb_assoc.
Qed.

Lemma ascii_stake n s : is_ascii_string s = true → is_ascii_string (stake n s) = true.
Proof.
  revert n. induction s as [|c s IH]; intros [|n]; try done. unfold is_ascii_string in *. simpl.
  intros [-> Hs]%andb_prop. by rewrite IH.
Qed.

Lemma ascii_digits s : IntFacts.all_digits s = true → is_ascii_string s = true.
Proof.
  unfold is_ascii_string. induction s as [|c s IH]; simpl; [done|]. intros [Hc Hs]%andb_prop. rewrite IH by done.
  rewrite andb_true_r. unfold Num.is_digit in Hc. apply andb_prop in Hc as [_ Hc%N.leb_le]. apply N.ltb_lt. lia.
Qed.

Lemma ascii_itoa z : is_ascii_string (itoa z) = true.
Proof.
  assert (Hn : ∀ n : N, is_ascii_string (pretty n) = true).
  { intros n. destruct (IntFacts.nat_text n) as (c & d & -> & H1 & H3 & _). apply ascii_digits. simpl. by rewrite H1. }
  destruct (IntFacts.itoa_cases z) as [(n & -> & _)|(n & -> & _)]; [apply Hn|]. apply (Hn n).
Qed.

Lemma ascii_digit z s : is_ascii_string (String (Rfc3339.digit z) s) = is_ascii_string s.
Proof.
  unfold is_ascii_string, Rfc3339.digit. simpl. pose proof (Z.mod_pos_bound z 10 eq_refl). rewrite bN_Nb by lia.
  replace (Z.to_N (z mod 10) + 48 <? 128)%N with true by (symmetry; apply N.ltb_lt; lia). done.
Qed.

Lemma ascii_join sep l : is_ascii_string sep = true → Forall (λ s, is_ascii_string s = true) l → is_ascii_string (join sep l) = true.
Proof.
  intros Hsep. induction 1 as [|s [|t l] Hs Hl IH]; [done|done|]. change (join sep (s :: t :: l)) with (s +:+ sep +:+ join sep (t :: l)).
  by rewrite !ascii_app, Hs, Hsep, IH.
Qed.

Lemma ascii_hex16 v : is_ascii_string (hex16 v) = true.
Proof.
  assert (Hc : ∀ n, (n < 16)%N → is_ascii_string (String (hex_char n) "") = true).
  { intros n Hn. unfold is_ascii_string, hex_char. simpl. rewrite andb_true_r. apply N.ltb_lt.
    destruct (N.ltb_spec n 10); rewrite bN_Nb; lia. }
  unfold hex16. repeat case_match; rewrite ?ascii_app, ?Hc by (apply N.mod_lt; done); done.
Qed.

Lemma ascii_IP ip : is_ascii_string (IP_String ip) = true.
Proof.
  assert (H6 : ∀ gs, is_ascii_string (join ":" (map hex16 gs)) = true).
  { intros gs. apply ascii_join; [done|]. apply Forall_fmap, Forall_true. intros g. apply ascii_hex16. }
  unfold IP_String. destruct (To4 ip) as [b|].
  - unfold string4. apply ascii_join; [done|]. apply Forall_fmap, Forall_true. intros g. apply ascii_itoa.
  - unfold string6. destruct (best_run 0 (groups ip) (0, 0)) as [zs ze]. case_bool_decide; rewrite ?ascii_app, ?H6; done.
Qed.

Lemma ascii_pad2 z : is_ascii_string (Rfc3339.pad2 z) = true.
Proof. unfold Rfc3339.pad2. by rewrite !ascii_digit. Qed.

Lemma ascii_format t : is_ascii_string (format_rfc3339 t) = true.
Proof.
  unfold format_rfc3339, Rfc3339.format. destruct (Civil.civil_from_days _) as [[y m] d].
  assert (Hy : is_ascii_string (Rfc3339.year_text y) = true).
  { unfold Rfc3339.year_text, Rfc3339.pad4. repeat case_match; rewrite ?ascii_app, ?ascii_pad2, ?ascii_itoa; done. }
  by rewrite !ascii_app, !ascii_pad2, Hy.
Qed.

Lemma ascii_fraction n z : is_ascii_string (pad_digits n z) = true ∧ is_ascii_string (trim_zeros n z) = true.
Proof.
  assert (Hp : ∀ n z, is_ascii_string (pad_digits n z) = true).
  { clear. induction n as [|n IH]; intros z; [done|]. cbn [pad_digits]. by rewrite ascii_app, IH, ascii_digit. }
  split; [done|]. revert z. induction n as [|n IH]; intros z; [done|]. cbn [trim_zeros]. destruct (_ =? _)%Z; auto.
Qed.

Lemma ascii_nano t : is_ascii_string (format_nano t) = true.
Proof.
  unfold format_nano. rewrite !ascii_app. unfold trim_suffix.
  assert (is_ascii_string (if has_suffix (format_rfc3339 t) "Z" then stake (slen (format_rfc3339 t) - slen "Z") (format_rfc3339 t)
    else format_rfc3339 t) = true) as -> by (destruct (has_suffix _ _); [apply ascii_stake|]; apply ascii_format).
  destruct (_ =? 0)%Z; [done|]. rewrite ascii_app. by rewrite (proj2 (ascii_fraction 9 _)).
Qed.

(** ** The signed payload determines the candidates *)

Lemma candidate_ok c : Utf8.valid (cd_Kind c) = true → Utf8.valid (cd_Host c) = true →
  distinct (candidate_json c) ∧ wf (candidate_json c) ∧ (depth (candidate_json c) <= 1)%N ∧ null_free (candidate_json c).
Proof.
  intros Hk Hh. pose proof (IntFacts.itoa_valid_num (cd_Port c)). split_and!.
  - apply distinct_obj. split; [|repeat constructor]. simpl. repeat (constructor; [set_solver|]). constructor.
  - apply wf_obj. repeat constructor; done.
  - apply depth_obj. split; [done|]. repeat constructor; done.
  - apply null_free_obj. repeat constructor.
Qed.

Definition utf8_candidates (cs : list Candidate) : Prop := Forall (λ c, Utf8.valid (cd_Kind c) = true ∧ Utf8.valid (cd_Host c) = true) cs.

Lemma payload_decoded dev t cs : Utf8.valid dev = true → utf8_candidates cs →
  decoded (endpoints_payload dev t cs) ∧ null_free (endpoints_payload dev t cs).
Proof.
  intros Hd Hc. pose proof (ascii_valid _ (ascii_nano t)) as Ht.
  assert (Hall : Forall (λ c, distinct (candidate_json c) ∧ wf (candidate_json c) ∧ (depth (candidate_json c) <= 1)%N ∧
    null_free (candidate_json c)) cs) by (eapply Forall_impl; [exact Hc|]; intros c [? ?]; by apply candidate_ok).
  split; [split; [|split]|].
  - apply distinct_obj. split; [simpl; repeat (constructor; [set_solver|]); constructor|].
    repeat (constructor; [done|]). constructor; [|constructor]. apply distinct_arr, Forall_fmap.
    eapply Forall_impl; [exact Hall|]. naive_solver.
  - apply wf_obj. repeat (constructor; [done|]). constructor; [|constructor]. split; [done|]. apply wf_arr, Forall_fmap.
    eapply Forall_impl; [exact Hall|]. naive_solver.
  - apply depth_obj. split; [by vm_compute|]. repeat (constructor; [by vm_compute|]). constructor; [|constructor].
    apply depth_arr. split; [by vm_compute|]. apply Forall_fmap. eapply Forall_impl; [exact Hall|].
    intros c (_ & _ & Hdp & _). cbn beta delta [compose]. eapply N.le_trans; [exact Hdp|]. by vm_compute.
  - apply null_free_obj. repeat (constructor; [done|]). constructor; [|constructor]. apply null_free_arr, Forall_fmap.
    eapply Forall_impl; [exact Hall|]. naive_solver.
Qed.

Lemma candidate_canon c : canon (candidate_json c) =
  JObj [("host", JStr (cd_Host c)); ("kind", JStr (cd_Kind c)); ("port", JNum (itoa (cd_Port c)))].
Proof. reflexivity. Qed.

Lemma payload_canon dev t cs : canon (endpoints_payload dev t cs) =
  JObj [("candidates", JArr (map (λ c, canon (candidate_json c)) cs)); ("deviceId", JStr dev); ("timestamp", JStr (format_nano t))].
Proof. cbn. by rewrite map_map. Qed.

Lemma candidates_inj cs cs' : map (λ c, canon (candidate_json c)) cs = map (λ c, canon (candidate_json c)) cs' → cs = cs'.
Proof.
  revert cs'. induction cs as [|[k h p] cs IH]; intros [|[k' h' p'] cs']; try done. cbn [map]. rewrite !candidate_canon.
  intros E. injection E as Hh Hk Hp%itoa_inj Hr. simpl in *. subst. f_equal. by apply IH.
Qed.

Lemma payload_inj dev dev' t t' cs cs' b : Utf8.valid dev = true → Utf8.valid dev' = true → utf8_candidates cs → utf8_candidates cs' →
  Marshal (endpoints_payload dev t cs) = Ok b → Marshal (endpoints_payload dev' t' cs') = Ok b → dev = dev' ∧ cs = cs'.
Proof.
  intros Hd Hd' Hc Hc'. destruct (payload_decoded dev t cs Hd Hc) as [D N], (payload_decoded dev' t' cs' Hd' Hc') as [D' N'].
  intros E1 E2. pose proof (Marshal_same _ _ _ D N D' N' E1 E2) as E. rewrite !payload_canon in E.
  injection E as Hcs Hdev _. split; [done|]. by apply candidates_inj.
Qed.

(** ** What is advertised *)

(** The three private blocks of RFC 1918, on the bytes of an address. *)
Definition rfc1918 (ip : IP) : Prop :=
  ∃ a b c d, ip = [a; b; c; d] ∧ (a = 10 ∨ a = 172 ∧ 16 <= b <= 31 ∨ a = 192 ∧ b = 168)%N.

(** Outside ::, ::1, fc00::/7, fe80::/10, ff00::/8 and ::ffff:0:0/96. *)
Definition global6 (ip : IP) : Prop :=
  length ip = 16 ∧ take 12 ip ≠ v4InV6Prefix ∧ ip ≠ replicate 16 0%N ∧ ip ≠ replicate 15 0%N ++ [1%N] ∧
  (NetIP.byte 0 ip < 0xfc ∨ NetIP.byte 0 ip = 0xfe ∧ (NetIP.byte 1 ip < 0x80 ∨ 0xc0 <= NetIP.byte 1 ip))%N.

Definition bytes_ok (ip : IP) : Prop := Forall (λ b, (b < 256)%N) ip.

Lemma To4_bytes ip b : bytes_ok ip → To4 ip = Some b → bytes_ok b ∧ length b = 4.
Proof.
  unfold To4. intros Hb. case_bool_decide as H4; [by intros [= <-]|]. case_bool_decide as H16; [|done].
  intros [= <-]. split; [by apply Forall_drop|]. rewrite length_drop. destruct H16. lia.
Qed.

Lemma land_byte (m lo hi : N) (v : N) : forallb (λ n, Bool.eqb (N.land n m =? v) ((lo <=? n) && (n <=? hi)))%N (map N.of_nat (seq 0 256)) = true →
  ∀ n, (n < 256)%N → (N.land n m =? v)%N = ((lo <=? n) && (n <=? hi))%N.
Proof. intros Hc n Hn. apply Bool.eqb_prop. by apply (all_bytes_check (λ n, Bool.eqb (N.land n m =? v) ((lo <=? n) && (n <=? hi)))%N). Qed.

Lemma Contains_v4 n0 n1 n2 n3 ones a b c d : Contains (MkIPNet [n0; n1; n2; n3] ones 32) [a; b; c; d] =
  bool_decide (mask_bytes ones [n0; n1; n2; n3] = mask_bytes ones [a; b; c; d]).
Proof. unfold Contains. simpl. apply bool_decide_ext. by split; [intros [_ ?]|]. Qed.

Lemma land_255 n : (n < 256)%N → N.land n 255 = n.
Proof. intros Hn. change 255%N with (N.ones 8). rewrite N.land_ones. by apply N.mod_small. Qed.

Lemma isPrivateV4_exact ip b : bytes_ok ip → To4 ip = Some b → isPrivateV4 b = true ↔ rfc1918 b.
Proof.
  intros Hip E. destruct (To4_bytes ip b Hip E) as [Hb Hl]. destruct b as [|x [|y [|z [|w []]]]]; try done.
  unfold bytes_ok in Hb. rewrite !Forall_cons in Hb. destruct Hb as (Hx & Hy & _).
  unfold isPrivateV4, rfc1918Nets, cgNATNet. change (To4 [x; y; z; w]) with (Some [x; y; z; w]). cbn [existsb].
  rewrite !Contains_v4.
  change (mask_bytes 10 [100; 64; 0; 0]%N) with [100; 64; 0; 0]%N. change (mask_bytes 10 [x; y; z; w]) with [N.land x 255; N.land y 192; N.land z 0; N.land w 0].
  change (mask_bytes 8 [10; 0; 0; 0]%N) with [10; 0; 0; 0]%N. change (mask_bytes 8 [x; y; z; w]) with [N.land x 255; N.land y 0; N.land z 0; N.land w 0].
  change (mask_bytes 12 [172; 16; 0; 0]%N) with [172; 16; 0; 0]%N. change (mask_bytes 12 [x; y; z; w]) with [N.land x 255; N.land y 240; N.land z 0; N.land w 0].
  change (mask_bytes 16 [192; 168; 0; 0]%N) with [192; 168; 0; 0]%N. change (mask_bytes 16 [x; y; z; w]) with [N.land x 255; N.land y 255; N.land z 0; N.land w 0].
  rewrite !N.land_0_r, !land_255 by done.
  pose proof (land_byte 192 64 127 64 ltac:(by vm_compute) y Hy) as E1.
  pose proof (land_byte 240 16 31 16 ltac:(by vm_compute) y Hy) as E2.
  rewrite orb_false_r. split.
  - case_bool_decide; [done|]. rewrite !orb_true_iff, !bool_decide_eq_true. intros Hd. exists x, y, z, w. split; [done|].
    destruct Hd as [Hd|[Hd|Hd]].
    + left. by injection Hd.
    + right; left. injection Hd as Hx' Hy'. split; [done|]. rewrite (proj2 (N.eqb_eq _ _) (eq_sym Hy')) in E2.
      symmetry in E2. apply andb_prop in E2. lia.
    + right; right. by injection Hd.
  - intros (a & b & c & d & [= <- <- <- <-] & Hr). case_bool_decide as Hc.
    + injection Hc as Hx' _. lia.
    + destruct Hr as [->|[(-> & Hr)|(-> & ->)]]; rewrite !orb_true_iff, !bool_decide_eq_true.
      * by left.
      * right; left. repeat f_equal. symmetry. apply N.eqb_eq. rewrite E2. apply andb_true_iff. lia.
      * by right; right.
Qed.

Lemma byte_ok i ip : bytes_ok ip → (NetIP.byte i ip < 256)%N.
Proof.
  intros Hb. unfold NetIP.byte. destruct (nth_in_or_default i ip 0%N) as [Hin| ->]; [|done].
  unfold bytes_ok in Hb. rewrite List.Forall_forall in Hb. by apply Hb.
Qed.

Lemma Equal_16 ip x : length ip = 16 → length x = 16 → NetIP.Equal ip x = bool_decide (ip = x).
Proof. intros H1 H2. unfold NetIP.Equal. rewrite H1, H2. done. Qed.

(** What the predicates say of a 16-byte address that is not a mapped one. *)
Lemma native6 ip : length ip = 16 → To4 ip = None → ∀ a b c d, ip ≠ NetIP.v4 a b c d.
Proof.
  intros Hl H4 a b c d ->. unfold To4 in H4. cbn in H4. done.
Qed.

Lemma isGlobalV6_exact ip : bytes_ok ip → isGlobalV6 ip = true ↔ global6 ip.
Proof.
  intros Hb. unfold isGlobalV6, global6.
  destruct (decide (length ip = 16)) as [Hl|Hl]; cycle 1.
  { split; [|naive_solver]. case_bool_decide as H4; [done|]. case_bool_decide as H6; [done|]. exfalso. apply H6.
    unfold NetIP.To16. rewrite bool_decide_eq_false_2; [by rewrite bool_decide_eq_false_2|]. intros He. apply H4.
    exists ip. unfold To4. by rewrite He. }
  destruct (decide (take 12 ip = v4InV6Prefix)) as [Hm|Hm].
  { split; [|naive_solver]. rewrite bool_decide_eq_true_2; [done|]. unfold To4.
    rewrite bool_decide_eq_false_2 by lia. rewrite bool_decide_eq_true_2 by done. by eexists. }
  assert (H4 : To4 ip = None).
  { unfold To4. rewrite bool_decide_eq_false_2 by lia. rewrite bool_decide_eq_false_2; [done|]. by intros [_ ?]. }
  pose proof (native6 ip Hl H4) as Hn.
  pose proof (land_byte 0xfe 0xfc 0xfd 0xfc ltac:(by vm_compute) _ (byte_ok 0 ip Hb)) as E0.
  pose proof (land_byte 0xc0 0x80 0xbf 0x80 ltac:(by vm_compute) _ (byte_ok 1 ip Hb)) as E1.
  pose proof (byte_ok 0 ip Hb). pose proof (byte_ok 1 ip Hb).
  unfold NetIP.IsGlobalUnicast, NetIP.IsLoopback, NetIP.IsLinkLocalUnicast, NetIP.IsLinkLocalMulticast, NetIP.IsUnspecified,
    NetIP.IsMulticast, NetIP.To16. rewrite H4, Hl, E0, E1. rewrite !Equal_16 by done.
  rewrite !(bool_decide_eq_false_2 (ip = NetIP.v4 _ _ _ _)) by apply Hn. cbn.
  destruct (bool_decide_reflect (ip = replicate 15 0%N ++ [1%N])) as [->|Hlo]; [split; [done|naive_solver]|].
  destruct (bool_decide_reflect (ip = replicate 16 0%N)) as [->|Hun]; [split; [done|naive_solver]|]. cbn.
  rewrite (bool_decide_eq_false_2 (ip = [0;0;0;0;0;0;0;0;0;0;0;0;0;0;0;1]%N)) by exact Hlo.
  rewrite (bool_decide_eq_false_2 (ip = [0;0;0;0;0;0;0;0;0;0;0;0;0;0;0;0]%N)) by exact Hun. cbn.
  rewrite (bool_decide_eq_true_2 (16 = 16)) by done. rewrite (bool_decide_eq_true_2 (16 = 4 ∨ 16 = 16)) by by right.
  generalize (N.land (NetIP.byte 1 ip) 15 =? 2)%N. intros mc. cbn. clear E0 E1 Hb. revert H H0.
  generalize (NetIP.byte 0 ip), (NetIP.byte 1 ip). intros x y Hx Hy.
  destruct (N.eqb_spec x 254), (N.eqb_spec x 255), (N.leb_spec 128 y), (N.leb_spec y 191), (N.leb_spec 252 x), (N.leb_spec x 253), mc;
    cbn; (split; [intros ?; try done; split_and!; try done; lia|intros (_ & _ & _ & _ & ?); try done; exfalso; lia]).
Qed.

(** *** The collected list, by comprehension *)

Section Reference.
Context `{Unicode} (ifa : ifa_flags).

Definition lan_address (a : option IP) : option IP := ip ← a; v4 ← To4 ip; if isPrivateV4 v4 then Some v4 else None.
Definition lan_addresses (iface : Interface) : list IP := omap lan_address (if_Addrs iface).

(** The address' flags do not say temporary or deprecated. *)
Definition stable6 (iface : Interface) (ip : IP) : bool :=
  match if_V6Flags iface !! IP_String ip with
  | Some f => (N.land f (ifaFlagTemporary ifa) =? 0)%N && (N.land f (ifaFlagDeprecated ifa) =? 0)%N
  | None => true
  end.

Definition v6_address (iface : Interface) (a : option IP) : option IP :=
  ip ← a; if isGlobalV6 ip && stable6 iface ip then Some ip else None.
Definition v6_addresses (iface : Interface) : list IP := omap (v6_address iface) (if_Addrs iface).

Definition lan (port : Z) (ip : IP) : Candidate := MkCandidate KindLAN (IP_String ip) port.
Definition public6 (port : Z) (ip : IP) : Candidate := MkCandidate KindPublic6 (IP_String ip) port.
Definition public4 (pub : option (string * Z)) : list Candidate :=
  match pub with
  | Some (ip, p) => if (ip <>s "") && (0 <? p)%Z then [MkCandidate KindPublic4 ip p] else []
  | None => []
  end.

Definition advertised (ifs : list Interface) (idx : Z) (name : string) (port : Z) (pub : option (string * Z)) : list Candidate :=
  let used := List.filter considered ifs in
  let on := List.filter (onDefault idx name) used in
  let off := List.filter (λ i, negb (onDefault idx name i)) used in
  map (lan port) ((on ≫= lan_addresses) ++ (off ≫= lan_addresses)) ++ public4 pub ++ map (public6 port) (on ≫= v6_addresses).

Lemma global_native ip : isGlobalV6 ip = true → To4 ip = None ∧ NetIP.To16 ip = Some ip.
Proof.
  unfold isGlobalV6. case_bool_decide as H4; [done|]. case_bool_decide as H6; [done|]. intros _.
  assert (To4 ip = None) as H4' by (destruct (To4 ip); [by destruct H4|done]). split; [done|].
  unfold NetIP.To16 in *. case_bool_decide as E4; [|by case_bool_decide].
  unfold To4 in H4'. by rewrite bool_decide_eq_true_2 in H4'.
Qed.

(** One address goes to one of the lists. *)
Lemma enum_addr_spec on iface acc a : ∃ perm, enum_addr ifa on iface acc a =
  let l4 := omap lan_address [a] in
  let l6 := omap (v6_address iface) [a] in
  MkAcc (lanOnDefault acc ++ if on then l4 else []) (lanOnOther acc ++ if on then [] else l4)
        (acc_v6 acc ++ if on then l6 else []) perm.
Proof.
  destruct acc as [ld lo p6 pp], a as [ip|]; unfold lan_address, v6_address; cbn [enum_addr omap list_omap mbind option_bind]; [|exists pp; destruct on; by rewrite !app_nil_r].
  destruct (To4 ip) as [v4|] eqn:E4; cbn [mbind option_bind].
  - assert (isGlobalV6 ip = false) as ->. { apply not_true_is_false. intros [Hg _]%global_native. congruence. }
    cbn. destruct (isPrivateV4 v4), on; cbn; rewrite ?app_nil_r; by eexists.
  - destruct on; cbn; [|rewrite !app_nil_r; by eexists]. destruct (isGlobalV6 ip) eqn:Eg; cbn; [|rewrite !app_nil_r; by eexists].
    apply global_native in Eg as [_ Eg]. rewrite Eg. unfold stable6.
    destruct (if_V6Flags iface !! IP_String ip) as [f|]; cbn.
    + destruct (N.land f (ifaFlagTemporary ifa) =? 0)%N, (N.land f (ifaFlagDeprecated ifa) =? 0)%N; cbn; rewrite ?app_nil_r; by eexists.
    + rewrite ?app_nil_r; by eexists.
Qed.

Lemma enum_addrs_spec on iface addrs acc : ∃ perm, foldl (enum_addr ifa on iface) acc addrs =
  let l4 := omap lan_address addrs in
  let l6 := omap (v6_address iface) addrs in
  MkAcc (lanOnDefault acc ++ if on then l4 else []) (lanOnOther acc ++ if on then [] else l4)
        (acc_v6 acc ++ if on then l6 else []) perm.
Proof.
  revert acc. induction addrs as [|a addrs IH]; intros acc.
  - exists (acc_permanent acc). destruct acc, on; cbn; by rewrite !app_nil_r.
  - cbn [foldl]. destruct (enum_addr_spec on iface acc a) as [p1 ->].
    match goal with |- context [foldl _ ?acc1 _] => destruct (IH acc1) as [p ->] end.
    exists p. cbn [lanOnDefault lanOnOther acc_v6]. change (a :: addrs) with ([a] ++ addrs). rewrite !omap_app.
    destruct on; cbn zeta; by rewrite ?app_nil_r, <- ?app_assoc.
Qed.

Lemma enum_ifaces_spec idx name ifs acc : ∃ perm, foldl (enum_iface ifa idx name) acc ifs =
  let used := List.filter considered ifs in
  let on := List.filter (onDefault idx name) used in
  let off := List.filter (λ i, negb (onDefault idx name i)) used in
  MkAcc (lanOnDefault acc ++ (on ≫= lan_addresses)) (lanOnOther acc ++ (off ≫= lan_addresses)) (acc_v6 acc ++ (on ≫= v6_addresses)) perm.
Proof.
  revert acc. induction ifs as [|i ifs IH]; intros acc.
  - exists (acc_permanent acc). destruct acc; cbn; by rewrite !app_nil_r.
  - cbn [foldl List.filter]. unfold enum_iface at 2. destruct (considered i) eqn:Ec; cbn [negb]; [|apply IH].
    destruct (enum_addrs_spec (onDefault idx name i) i (if_Addrs i) acc) as [p1 ->].
    match goal with |- context [foldl _ ?a _] => destruct (IH a) as [p ->] end. exists p.
    cbn [lanOnDefault lanOnOther acc_v6 List.filter]. destruct (onDefault idx name i); cbn zeta; cbn [negb List.filter];
      rewrite ?bind_cons, ?app_nil_r, <- ?app_assoc; done.
Qed.

(** A list already in rank order stays as it is. *)
Lemma sort_sorted cs : Sorted (λ c d, rank (cd_Kind c) ≤ rank (cd_Kind d)) cs → sortCandidates cs = cs.
Proof.
  induction 1 as [|c cs _ IH Hh]; [done|]. unfold sortCandidates in *. cbn [foldr]. rewrite IH. destruct cs as [|d cs]; [done|]. inversion Hh as [|? ? Hle]; subst.
  cbn. by rewrite (proj2 (Nat.leb_le _ _) Hle).
Qed.

Lemma sorted_blocks (a b c : list Candidate) : Forall (λ x, cd_Kind x = KindLAN) a → Forall (λ x, cd_Kind x = KindPublic4) b →
  Forall (λ x, cd_Kind x = KindPublic6) c → StronglySorted (λ x y, rank (cd_Kind x) ≤ rank (cd_Kind y)) (a ++ b ++ c).
Proof.
  assert (Hle : ∀ k k' x (l : list Candidate), rank k ≤ rank k' → cd_Kind x = k → Forall (λ y, cd_Kind y = k') l →
    Forall (λ y, rank (cd_Kind x) ≤ rank (cd_Kind y)) l).
  { intros k k' x l Hk -> Hl. eapply Forall_impl; [exact Hl|]. by intros y ->. }
  assert (H6 : rank KindLAN ≤ rank KindPublic6) by (vm_compute; lia).
  assert (H4 : rank KindLAN ≤ rank KindPublic4) by (vm_compute; lia).
  assert (H46 : rank KindPublic4 ≤ rank KindPublic6) by (vm_compute; lia).
  intros Ha Hb Hc. induction Ha as [|x a Hx Ha IHa]; cbn [app].
  - induction Hb as [|x b Hx Hb IHb]; cbn [app].
    + induction Hc as [|x c Hx Hc IHc]; constructor; eauto.
    + constructor; [done|]. apply Forall_app; eauto.
  - constructor; [done|]. rewrite !Forall_app; eauto 6.
Qed.

Lemma collect_reference ifs idx name port pub :
  collectCandidates ifa (Some ifs) idx name port pub = Some (advertised ifs idx name port pub).
Proof.
  unfold collectCandidates, Enumerate. cbn [mbind option_bind].
  destruct (enum_ifaces_spec idx name ifs (MkAcc [] [] [] [])) as [p ->]. cbn. f_equal.
  fold (public4 pub). apply sort_sorted, StronglySorted_Sorted, sorted_blocks.
  - by apply Forall_fmap, Forall_true.
  - unfold public4. destruct pub as [[ip q]|]; [|done]. destruct (_ && _); by repeat constructor.
  - by apply Forall_fmap, Forall_true.
Qed.

(** Which addresses the comprehension keeps. *)
Lemma advertised_spec ifs : Forall (λ i, Forall (λ a, ∀ ip, a = Some ip → bytes_ok ip) (if_Addrs i)) ifs →
  (∀ i v4, i ∈ ifs → v4 ∈ lan_addresses i ↔ rfc1918 v4 ∧ ∃ ip, Some ip ∈ if_Addrs i ∧ To4 ip = Some v4) ∧
  (∀ i ip, i ∈ ifs → ip ∈ v6_addresses i ↔ global6 ip ∧ stable6 i ip = true ∧ Some ip ∈ if_Addrs i).
Proof.
  intros Hb. rewrite Forall_forall in Hb.
  split; intros i ip Hi; specialize (Hb i Hi); rewrite Forall_forall in Hb; unfold lan_addresses, v6_addresses, lan_address, v6_address; rewrite list_elem_of_omap.
  - split.
    + intros ([a|] & Ha & Hs); [|done]. cbn in Hs. destruct (To4 a) as [v|] eqn:E; [|done]. cbn in Hs.
      destruct (isPrivateV4 v) eqn:Ep; [|done]. injection Hs as <-. split; [|eauto].
      by apply (isPrivateV4_exact a v (Hb _ Ha a eq_refl) E).
    + intros (Hr & a & Ha & E). exists (Some a). split; [done|]. cbn. rewrite E. cbn.
      by rewrite (proj2 (isPrivateV4_exact a ip (Hb _ Ha a eq_refl) E) Hr).
  - split.
    + intros ([a|] & Ha & Hs); [|done]. cbn in Hs. destruct (isGlobalV6 a) eqn:Eg; [|done]. destruct (stable6 i a) eqn:Es; [|done].
      injection Hs as <-. by rewrite (isGlobalV6_exact a (Hb _ Ha a eq_refl)) in Eg.
    + intros (Hg & Hs & Ha). exists (Some ip). split; [done|]. cbn.
      rewrite (proj2 (isGlobalV6_exact ip (Hb _ Ha ip eq_refl)) Hg), Hs. done.
Qed.
End Reference.

(** ** What is published *)

Lemma sameCandidates_spec a b : sameCandidates a b = bool_decide (a = b).
Proof.
  revert b. induction a as [|x a IH]; intros [|y b]; cbn; [done..|]. rewrite IH.
  repeat case_bool_decide; naive_solver.
Qed.

Section Published.
Context `{Unicode} `{Primitives} `{!SignLaw _} (ifa : ifa_flags) (dev priv : string) (port : Z).
Hypothesis Hdev : Utf8.valid dev = true.

(** The mapped address is text. *)
Definition public_utf8 (io : refresh_io) : Prop := ∀ ip p, r_public io = Some (ip, p) → Utf8.valid ip = true.

Definition collected (io : refresh_io) : option (list Candidate) :=
  collectCandidates ifa (r_ifs io) (r_index io) (r_name io) port (r_public io).

(** [m] carries the canonical bytes of the candidates [cs] at time [t], signed by the device. *)
Definition authentic (t : Z) (cs : list Candidate) (m : Message) : Prop :=
  o_Type m = "device:endpoints" ∧ o_SignerID m = "agent" ∧ utf8_candidates cs ∧ check_candidates 0 cs = Ok tt ∧
  Marshal (endpoints_payload dev t cs) = Ok (o_Payload m) ∧
  Verify (Base64.encode (ed25519_public priv)) (o_Payload m) (o_Signature m) = Ok true.

Lemma collected_utf8 io cs : public_utf8 io → collected io = Some cs → utf8_candidates cs.
Proof.
  unfold collected. destruct (r_ifs io) as [ifs|]; [|done]. rewrite collect_reference. intros Hp [= <-]. unfold advertised, utf8_candidates.
  rewrite !Forall_app. split_and!.
  - apply Forall_fmap, Forall_true. intros ip. split; [done|]. apply ascii_valid, ascii_IP.
  - unfold public4. destruct (r_public io) as [[ip p]|] eqn:E; [|done]. destruct (_ && _); [|done]. repeat constructor. by eapply Hp.
  - apply Forall_fmap, Forall_true. intros ip. split; [done|]. apply ascii_valid, ascii_IP.
Qed.

Lemma Build_spec t cs env : utf8_candidates cs → Build dev t cs priv = Ok env →
  authentic t cs (MkOut "device:endpoints" (PayloadCanon env) (SignatureBase64 env) "agent").
Proof.
  unfold Build. intros Hu HB. res_inv. destruct a1. unfold authentic, SignatureBase64, Verify. cbn [PayloadCanon e_Signature o_Type o_SignerID o_Payload o_Signature].
  split_and!; [done..|]. rewrite !Base64.decode_encode. cbn. by rewrite verify_sign.
Qed.

(** Nothing but the inputs can make Build fail. *)
Lemma Build_total t cs : utf8_candidates cs → dev ≠ "" → slen priv = privateKeySize → check_candidates 0 cs = Ok tt →
  ∃ env, Build dev t cs priv = Ok env.
Proof.
  intros Hu Hd Hp Hc. unfold Build. rewrite (proj2 (seqb_false dev "") Hd), (bool_decide_eq_true_2 _ Hp), Hc. cbn [guard_err negb res_bind].
  destruct (payload_decoded dev t cs Hdev Hu) as [D N]. rewrite signed_text by done. by eexists.
Qed.

Lemma payload_nonempty t cs : utf8_candidates cs → Marshal (endpoints_payload dev t cs) ≠ Ok "".
Proof.
  intros Hu. destruct (payload_decoded dev t cs Hdev Hu) as [D N]. rewrite signed_text by done. intros E%Ok_inj.
  rewrite payload_canon in E. discriminate E.
Qed.

Definition identity (s : Service) : Prop := s_deviceID s = dev ∧ s_wgPort s = port ∧ s_priv s = priv.

(** The cached message is one that was signed over the cached candidates. *)
Definition SvcInv (s : Service) : Prop :=
  identity s ∧ match lastEnvelope s with
               | None => lastCanonBytes s = ""
               | Some m => lastCanonBytes s = o_Payload m ∧ ∃ t, authentic t (lastCandidates s) m
               end.

Lemma authentic_inj t t' cs cs' m m' : authentic t cs m → authentic t' cs' m' → o_Payload m = o_Payload m' → cs = cs'.
Proof.
  intros (_ & _ & U & _ & E & _) (_ & _ & U' & _ & E' & _) Hp. rewrite Hp in E. by eapply (payload_inj dev dev).
Qed.

Definition lan_of (cs : list Candidate) : list Candidate := List.filter (λ c, cd_Kind c =s KindLAN) cs.

(** One refresh: silent, and then the candidates are the cached ones unless they could not be
    collected or signed; or it publishes what it collected. *)
Lemma refresh_spec io s s' o : SvcInv s → public_utf8 io → doRefresh ifa io s = (s', o) →
  match o with
  | None => s' = s ∧ ∀ cs, collected io = Some cs → dev ≠ "" → slen priv = privateKeySize → check_candidates 0 cs = Ok tt →
      cs = lastCandidates s ∧ is_Some (lastEnvelope s)
  | Some (m, l) => ∃ cs, collected io = Some cs ∧ authentic (r_clock io) cs m ∧ l = lan_of cs ∧
      (is_Some (lastEnvelope s) → cs ≠ lastCandidates s) ∧
      identity s' ∧ lastCandidates s' = cs ∧ lastEnvelope s' = Some m ∧ lastCanonBytes s' = o_Payload m
  end.
Proof.
  intros [(Hd & Hport & Hk) Hm] Hu. unfold doRefresh. rewrite Hport. fold (collected io).
  destruct (collected io) as [cs|] eqn:Ec; [|by intros [= <- <-]]. pose proof (collected_utf8 io cs Hu Ec) as Hcs.
  rewrite sameCandidates_spec. destruct (bool_decide _ && _) eqn:Es.
  { intros [= <- <-]. split; [done|]. intros cs' [= <-] _ _ _. apply andb_prop in Es as [?%bool_decide_eq_true ?%bool_decide_eq_true]. done. }
  rewrite Hd, Hk. destruct (Build dev (r_clock io) cs priv) as [env|e] eqn:Eb.
  - pose proof (Build_spec _ _ _ Hcs Eb) as Ha.
    assert (Hne : is_Some (lastEnvelope s) → cs ≠ lastCandidates s).
    { intros Hs ->. rewrite !bool_decide_eq_true_2 in Es by done. done. }
    destruct (PayloadCanon env =s lastCanonBytes s) eqn:Ep; str_inv.
    + exfalso. destruct (lastEnvelope s) as [m|]; cycle 1.
      { rewrite Hm in Ep. destruct Ha as (_ & _ & _ & _ & E & _). cbn in E. rewrite Ep in E. by apply payload_nonempty in E. }
      destruct Hm as [Hm (t & Hm')]. apply Hne; [done|]. eapply authentic_inj; [exact Ha|exact Hm'|]. cbn. congruence.
    + intros [= <- <-]. exists cs. split_and!; try done.
  - intros [= <- <-]. split; [done|]. intros cs' [= <-] Hd' Hk' Hc'. destruct (Build_total (r_clock io) cs Hcs Hd' Hk' Hc') as [env He]. congruence.
Qed.

Lemma refresh_inv io s : SvcInv s → public_utf8 io → SvcInv (doRefresh ifa io s).1.
Proof.
  intros Hs Hu. destruct (doRefresh ifa io s) as [s' o] eqn:E. pose proof (refresh_spec io s s' o Hs Hu E) as Hr.
  destruct o as [[m l]|]; [|by destruct Hr as [-> _]]. destruct Hr as (cs & _ & Ha & _ & _ & Hi & Hc & Hm & Hb).
  split; [done|]. cbn. rewrite Hm, Hc. eauto.
Qed.

(** No list equals the one before it. *)
Fixpoint changing (prev : option (list Candidate)) (l : list (list Candidate)) : Prop :=
  match l with [] => True | cs :: l' => prev ≠ Some cs ∧ changing (Some cs) l' end.

Definition cached (s : Service) : option (list Candidate) :=
  if bool_decide (is_Some (lastEnvelope s)) then Some (lastCandidates s) else None.

(** What a sent message is of one of the refreshes. *)
Definition sent_for (ios : list refresh_io) (p : Message * list Candidate) (cs : list Candidate) : Prop :=
  p.2 = lan_of cs ∧ ∃ io, io ∈ ios ∧ collected io = Some cs ∧ authentic (r_clock io) cs p.1.

Lemma last_default {A B} (f : A → B) d x l :
  from_option (λ p, Some (f p)) (Some (f x)) (last l) = from_option (λ p, Some (f p)) d (last (x :: l)).
Proof.
  rewrite last_cons. by destruct (last l).
Qed.

Lemma run_spec ios s : SvcInv s → Forall public_utf8 ios →
  let '(s', sent) := run_refreshes ifa ios s in
  SvcInv s' ∧ lastEnvelope s' = from_option (λ p, Some p.1) (lastEnvelope s) (last sent) ∧
  ∃ css, Forall2 (sent_for ios) sent css ∧ changing (cached s) css.
Proof.
  revert s. induction ios as [|io ios IH]; intros s Hs Hu; cbn [run_refreshes].
  { split_and!; [done..|]. exists []. by split; [constructor|]. }
  apply Forall_cons in Hu as [Hu Hus]. pose proof (refresh_inv io s Hs Hu) as Hi. destruct (doRefresh ifa io s) as [s1 o] eqn:E.
  pose proof (refresh_spec io s s1 o Hs Hu E) as Hr. specialize (IH s1 Hi Hus). destruct (run_refreshes ifa ios s1) as [s2 sent].
  destruct IH as (Hi2 & Hl & css & Hf & Hc).
  assert (Hmono : Forall2 (sent_for (io :: ios)) sent css).
  { eapply Forall2_impl; [exact Hf|]. intros p cs (Hp & io' & Hin & ?). split; [done|]. exists io'. split; [by right|done]. }
  split; [done|]. destruct o as [[m l]|]; unfold option_list; cbn [from_option app].
  - destruct Hr as (cs & Hcol & Ha & -> & Hne & _ & Hc1 & Hm1 & _). split.
    { rewrite Hl, Hm1. apply (last_default fst _ (m, lan_of cs)). }
    exists (cs :: css). split; [constructor; [|done]|].
    + split; [done|]. exists io. split_and!; [by left|done..].
    + cbn. split.
      * unfold cached. case_bool_decide as Hsome; [|done]. intros [= Heq]. by apply Hne.
      * revert Hc. unfold cached at 1. by rewrite Hm1, Hc1, bool_decide_eq_true_2 by by eexists.
  - destruct Hr as [-> _]. split; [done|]. by exists css.
Qed.

(** C29: over any run of refreshes, every message the service sends carries, under a signature
    that verifies with the device's key, the canonical bytes of the list one of the refreshes
    collected, with valid kinds and ports, together with that list's LAN part for the probe
    server; no message repeats the list of the one before it; the message replayed on a
    reconnect is the last one sent. And none is missed: after any further refresh whose list can
    be signed at all, the message that is current carries exactly that list. *)
Theorem endpoints_published ios : Forall public_utf8 ios →
  let '(s, sent) := run_refreshes ifa ios (NewService dev port priv) in
  (∃ css, Forall2 (sent_for ios) sent css ∧ changing None css) ∧
  CurrentMessage s = fst <$> last sent ∧
  (∀ io cs, public_utf8 io → collected io = Some cs → dev ≠ "" → slen priv = privateKeySize → check_candidates 0 cs = Ok tt →
     ∃ t m, CurrentMessage (doRefresh ifa io s).1 = Some m ∧ authentic t cs m).
Proof.
  intros Hu. assert (Hs : SvcInv (NewService dev port priv)) by by split.
  pose proof (run_spec ios _ Hs Hu) as Hr. destruct (run_refreshes ifa ios (NewService dev port priv)) as [s sent].
  destruct Hr as (Hi & Hl & Hcss). split_and!; [done| |].
  - unfold CurrentMessage. rewrite Hl. by destruct (last sent).
  - intros io cs Hio Hcol Hd Hk Hc. pose proof (refresh_inv io s Hi Hio) as Hi'. destruct (doRefresh ifa io s) as [s' o] eqn:E.
    pose proof (refresh_spec io s s' o Hi Hio E) as Hsp. unfold CurrentMessage. cbn [fst]. destruct o as [[m l]|].
    + destruct Hsp as (cs' & Hcol' & Ha & _ & _ & _ & _ & Hm & _). rewrite Hcol in Hcol'. injection Hcol' as <-. eauto.
    + destruct Hsp as [-> Hsame]. destruct (Hsame cs Hcol Hd Hk Hc) as [-> [m Hm]]. destruct Hi as [_ Hi]. rewrite Hm in Hi.
      destruct Hi as [_ (t & Ht)]. eauto.
Qed.
End Published.

(** ** The chosen source address does not depend on the order of the interfaces *)

Lemma bytes_less_trans a b c : bytes_less a b = true → bytes_less b c = true → bytes_less a c = true.
Proof.
  revert b c. induction a as [|x a IH]; intros [|y b] [|z c]; cbn; try done. rewrite !orb_true_iff, !andb_true_iff, !N.ltb_lt, !N.eqb_eq.
  intros [H1|[-> H1]] [H2|[-> H2]]; [left; lia|by left|by left|]. right. split; [done|]. by eapply IH.
Qed.

Lemma bytes_less_irrefl a : bytes_less a a = false.
Proof. induction a as [|x a IH]; cbn; [done|]. by rewrite N.ltb_irrefl, N.eqb_refl. Qed.

Lemma bytes_less_total a b : bytes_less a b = false → bytes_less b a = false → a = b.
Proof.
  revert b. induction a as [|x a IH]; intros [|y b]; cbn; try done. rewrite !orb_false_iff, !andb_false_iff, !N.ltb_ge, !N.eqb_neq.
  intros [H1 H1'] [H2 H2']. assert (x = y) as -> by lia. f_equal. apply IH; naive_solver.
Qed.

Lemma lower_native a b : length a = 16 → length b = 16 → lower a b = if bytes_less b a then b else a.
Proof. intros Ha Hb. unfold lower, NetIP.To16. by rewrite Ha, Hb. Qed.

(** The fold keeps the least address. *)
Lemma lower_least pool best : length best = 16 → Forall (λ ip, length ip = 16) pool →
  let r := foldl lower best pool in length r = 16 ∧ r ∈ best :: pool ∧ Forall (λ ip, bytes_less ip r = false) (best :: pool).
Proof.
  intros Hb Hp. revert best Hb. induction Hp as [|x pool Hx Hp IH]; intros best Hb; cbn.
  - split_and!; [done|by left|]. constructor; [apply bytes_less_irrefl|done].
  - rewrite lower_native by done. destruct (bytes_less x best) eqn:E.
    + destruct (IH x Hx) as (H1 & H2 & H3). split_and!; [done|by right|]. apply Forall_cons. split; [|done].
      apply Forall_cons in H3 as [H3 _]. apply not_true_is_false. intros Hc. rewrite (bytes_less_trans _ _ _ E Hc) in H3. done.
    + destruct (IH best Hb) as (H1 & H2 & H3). split_and!; [done|set_solver|]. apply Forall_cons in H3 as [H3 H4].
      apply Forall_cons; split; [done|]. apply Forall_cons; split; [|done]. apply not_true_is_false. intros Hc.
      destruct (bytes_less best (foldl lower best pool)) eqn:E2; [done|].
      assert (best = foldl lower best pool) as Heq.
      { apply bytes_less_total; [done|]. apply not_true_is_false. intros Hd. rewrite (bytes_less_trans _ _ _ Hc Hd) in E. done. }
      rewrite <- Heq in Hc. congruence.
Qed.

(** The pick is the least permanent address, or else the least stable one, so it does not move
    when the host lists the same addresses in another order. *)
Theorem pick_order_free perm perm' stable stable' : perm ≡ₚ perm' → stable ≡ₚ stable' →
  Forall (λ ip, length ip = 16) (perm ++ stable) → pickPreferredV6 perm stable = pickPreferredV6 perm' stable'.
Proof.
  assert (Hone : ∀ (l l' : list IP) x x', x :: l ≡ₚ x' :: l' → Forall (λ ip, length ip = 16) (x :: l) → foldl lower x l = foldl lower x' l').
  { intros l l' x x' HP Hl. pose proof Hl as Hl'. rewrite HP in Hl'. apply Forall_cons in Hl as [Hx Hl], Hl' as [Hx' Hl'].
    destruct (lower_least l x Hx Hl) as (_ & I1 & A1), (lower_least l' x' Hx' Hl') as (_ & I2 & A2).
    rewrite Forall_forall in A1, A2. apply bytes_less_total; [apply A2; by rewrite <- HP|apply A1; by rewrite HP]. }
  intros H1 H2 [Hp Hs]%Forall_app. destruct perm as [|p perm].
  - apply Permutation_nil_l in H1 as <-. destruct stable as [|q stable]; [by apply Permutation_nil_l in H2 as <-|].
    destruct stable' as [|q' stable']; [by symmetry in H2; apply Permutation_nil_cons in H2|]. cbn. f_equal. by apply Hone.
  - destruct perm' as [|p' perm']; [by symmetry in H1; apply Permutation_nil_cons in H1|]. cbn. f_equal. by apply Hone.
Qed.

(** ** Runs *)

Module EndDemo.
#[local] Existing Instance AclStore.Demo.ascii_only.
#[local] Existing Instance Toy.prims.

Definition v6 (b : list N) : IP := [0x20; 0x01; 0x0d; 0xb8]%N ++ replicate 8 0%N ++ b.
Definition eth0 : Interface := MkInterface "eth0" 2 0x13 [Some (v6 [0; 0; 0; 9]%N); Some [192; 168; 1; 5]%N; Some (v6 [0; 0; 0; 1]%N); Some [8; 8; 8; 8]%N]
  (<[IP_String (v6 [0; 0; 0; 9]%N) := 0x01%N]> (<[IP_String (v6 [0; 0; 0; 1]%N) := 0x80%N]> ∅)).
Definition wlan0 : Interface := MkInterface "wlan0" 3 0x13 [Some (v6 [0; 0; 0; 7]%N); Some (NetIP.v4 10 0 0 3); Some [100; 64; 0; 1]%N] ∅.
Definition docker0 : Interface := MkInterface "Docker0" 4 0x13 [Some [172; 17; 0; 1]%N] ∅.
Definition host : list Interface := [wlan0; docker0; eth0].

Example collected_list : collectCandidates linux_ifa (Some host) 2 "eth0" 51820 (Some ("203.0.113.9", 40000%Z)) =
  Some [MkCandidate "lan" "192.168.1.5" 51820; MkCandidate "lan" "10.0.0.3" 51820; MkCandidate "public4" "203.0.113.9" 40000;
        MkCandidate "public6" "2001:db8::1" 51820].
Proof. vm_compute. reflexivity. Qed.

Example nano : map format_nano [0; 1500000000; 1700000000000000001]%Z =
  ["1970-01-01T00:00:00Z"; "1970-01-01T00:00:01.5Z"; "2023-11-14T22:13:20.000000001Z"].
Proof. vm_compute. reflexivity. Qed.


Definition io (t : Z) (pub : option (string * Z)) : refresh_io := MkRefresh (Some host) 2 "eth0" pub t.
Local Notation run := (run_refreshes linux_ifa [io 1 None; io 2 None; io 3 (Some ("203.0.113.9", 40000%Z)); io 3 None] (NewService "d" 51820 Toy.pad)).

Example three_sent : length (snd run) = 3.
Proof. vm_compute. reflexivity. Qed.

Lemma endpoints_published_witness : let '(s, sent) := run in
  length sent = 3 ∧ (∃ css, Forall2 (sent_for linux_ifa "d" Toy.pad 51820 [io 1 None; io 2 None; io 3 (Some ("203.0.113.9", 40000%Z)); io 3 None]) sent css ∧
    changing None css) ∧ CurrentMessage s = fst <$> last sent.
Proof.
  pose proof (endpoints_published linux_ifa "d" Toy.pad 51820 eq_refl [io 1 None; io 2 None; io 3 (Some ("203.0.113.9", 40000%Z)); io 3 None]) as H.
  pose proof three_sent as H3. destruct run as [s sent]. destruct H as (H1 & H2 & _).
  { repeat constructor; intros ? ? [= <- <-]; done. }
  by split_and!.
Defined.

Example pick_order_free_witness : pickPreferredV6 [] [v6 [0; 0; 0; 9]%N; v6 [0; 0; 0; 1]%N] = Some (v6 [0; 0; 0; 1]%N).
Proof.
  rewrite (pick_order_free [] [] _ [v6 [0; 0; 0; 1]%N; v6 [0; 0; 0; 9]%N]); [reflexivity|done|apply Permutation_swap|repeat constructor].
Defined.
End EndDemo.
