(* ===== verification/Netlink.v ===== *)
(** * internal/endpoints/enumerator_linux.go: the host's addresses

    The datagrams of the netlink socket, the text of /proc/net/route and the interface list of
    package net are arguments. Integers of netlink headers are in host order; the host is
    little-endian. *)

From S2P Require Import Prelude Bytes NetAddr Pcp Endpoints.

(** ** Integers in host order *)

Definition get_le (s : string) : Z := get_be (String.string_of_list_ascii (rev (String.list_ascii_of_string s))).
Definition put_le (n : nat) (z : Z) : string := String.string_of_list_ascii (rev (String.list_ascii_of_string (put_be n z))).

(** ** Netlink messages *)

Definition NLMSG_HDRLEN : nat := 16.
Definition SizeofIfAddrmsg : nat := 8.
Definition SizeofRtAttr : nat := 4.
Definition NLMSG_ERROR : Z := 2.
Definition NLMSG_DONE : Z := 3.
Definition RTM_NEWADDR : Z := 20.
Definition IFA_ADDRESS : Z := 1.
Definition IFA_FLAGS : Z := 8.

(** (len + 3) &^ 3. *)
Definition align4 (n : nat) : nat := Z.to_nat (Z.ldiff (Z.of_nat n + 3) 3).

(** The type of a message and its data. *)
Record nlmsg := MkNl { nl_Type : Z; nl_Data : string }.

(** [None]: a malformed header. Every round consumes at least a header, so the length of the
    buffer is enough fuel; [fuel = 0] is never reached from [parseNetlinkMessages]. *)
Fixpoint netlink_loop (fuel : nat) (buf : string) (out : list nlmsg) : option (list nlmsg) :=
  match fuel with
  | O => None
  | S fuel' =>
      if slen buf <? NLMSG_HDRLEN then Some out
      else
        let len := Z.to_nat (get_le (field 0 4 buf)) in
        let ty := get_le (field 4 2 buf) in
        if (len <? NLMSG_HDRLEN) || (slen buf <? len) then None
        else
          let out' := out ++ [MkNl ty (field NLMSG_HDRLEN (len - NLMSG_HDRLEN) buf)] in
          if slen buf <? align4 len then Some out' else netlink_loop fuel' (sdrop (align4 len) buf) out'
  end.

Definition parseNetlinkMessages (buf : string) : option (list nlmsg) := netlink_loop (S (slen buf)) buf [].

(** The attributes of an RTM_NEWADDR message, for the address and the flags. *)
Fixpoint attr_loop (fuel : nat) (attrs : string) (ip : option IP) (flags : N) : option IP * N :=
  match fuel with
  | O => (ip, flags)
  | S fuel' =>
      if slen attrs <? SizeofRtAttr then (ip, flags)
      else
        let len := Z.to_nat (get_le (field 0 2 attrs)) in
        let ty := get_le (field 2 2 attrs) in
        if (len <? SizeofRtAttr) || (slen attrs <? len) then (ip, flags)
        else
          let val := field SizeofRtAttr (len - SizeofRtAttr) attrs in
          let ip' := if (ty =? IFA_ADDRESS)%Z && ((slen val =? 4) || (slen val =? 16)) then Some (bytes_ip val) else ip in
          let flags' := if (ty =? IFA_FLAGS)%Z && (4 <=? slen val) then Z.to_N (get_le (stake 4 val)) else flags in
          if slen attrs <? align4 len then (ip', flags') else attr_loop fuel' (sdrop (align4 len) attrs) ip' flags'
  end.

(** ifIndex, address, flags. *)
Definition parseIfaddr (data : string) : option (Z * IP * N) :=
  if slen data <? SizeofIfAddrmsg then None
  else
    let '(ip, flags) := attr_loop (S (slen data)) (sdrop SizeofIfAddrmsg data) None (byte_at 2 data) in
    a ← ip; Some (get_le (field 4 4 data), a, flags).

Definition flag_table := gmap Z (gmap string N).

Definition record_flags (t : flag_table) (e : Z * IP * N) : flag_table :=
  let '(idx, ip, flags) := e in <[idx := <[IP_String ip := flags]> (default ∅ (t !! idx))]> t.

(** The messages of one datagram, and whether the dump is over. *)
Fixpoint dump_messages (ms : list nlmsg) (t : flag_table) : flag_table * bool :=
  match ms with
  | [] => (t, false)
  | m :: ms' =>
      if (nl_Type m =? NLMSG_DONE)%Z || (nl_Type m =? NLMSG_ERROR)%Z then (t, true)
      else if (nl_Type m =? RTM_NEWADDR)%Z then dump_messages ms' (from_option (record_flags t) t (parseIfaddr (nl_Data m)))
      else dump_messages ms' t
  end.

(** A datagram, or a failed receive. [None]: the loop is still waiting for the end of the dump. *)
Fixpoint dump_loop (datagrams : list (option string)) (t : flag_table) : option flag_table :=
  match datagrams with
  | [] => None
  | None :: _ => Some t
  | Some buf :: rest =>
      match parseNetlinkMessages buf with
      | None => Some t
      | Some ms => let '(t', over) := dump_messages ms t in if over then Some t' else dump_loop rest t'
      end
  end.

(** [opened]: the socket could be opened, bound and written to. *)
Definition readIfaddrFlags (opened : bool) (datagrams : list (option string)) : option flag_table :=
  if opened then dump_loop datagrams ∅ else Some ∅.

(** ** Interfaces *)

(** An interface of package net: its addresses, [None] when Addrs failed, each a *net.IPNet or not. *)
Record sys_iface := MkSys { sy_Name : string; sy_Index : Z; sy_Flags : N; sy_Addrs : option (list (option IP)) }.

Definition present (a : option IP) : option (option IP) := match a with Some ip => Some (Some ip) | None => None end.

Definition sys_interface (flags : flag_table) (si : sys_iface) : option Interface :=
  match sy_Addrs si with
  | None => None
  | Some addrs => Some (MkInterface (sy_Name si) (sy_Index si) (sy_Flags si) (omap present addrs) (default ∅ (flags !! sy_Index si)))
  end.

Definition Interfaces (sysIfs : option (list sys_iface)) (flags : flag_table) : option (list Interface) :=
  match sysIfs with None => None | Some l => Some (omap (sys_interface flags) l) end.

(** ** The default route *)

(** bufio.Scanner with ScanLines: lines without their newline and a trailing carriage return, up
    to the first one that does not fit the 64 KiB buffer. *)
Definition maxScanTokenSize : nat := Z.to_nat 65536.

Fixpoint raw_lines (fuel : nat) (s : string) : list string :=
  match fuel with
  | O => []
  | S fuel' =>
      match s with
      | "" => []
      | _ => match cut_at "010" s with
             | Some (a, rest) => a :: raw_lines fuel' rest
             | None => [s]
             end
      end
  end.

Fixpoint fitting (l : list string) : list string :=
  match l with
  | [] => []
  | x :: l' => if bool_decide (Z.of_nat maxScanTokenSize <= Z.of_nat (slen x))%Z then [] else x :: fitting l'
  end.

Definition scan_lines (s : string) : list string := map (λ l, trim_suffix l (String "013" "")) (fitting (raw_lines (S (slen s)) s)).

(** strings.Fields. *)
Fixpoint fields_go (fuel : nat) (cur : string) (s : string) : list string :=
  match fuel with
  | O => []
  | S fuel' =>
      match s with
      | "" => if cur =s "" then [] else [cur]
      | String c r =>
          match space_width s with
          | O => fields_go fuel' (cur +:+ String c "") r
          | w => (if cur =s "" then [] else [cur]) ++ fields_go fuel' "" (sdrop w s)
          end
      end
  end.

Definition Fields (s : string) : list string := fields_go (S (slen s)) "" s.

Definition is_default_line (fs : list string) : bool :=
  (8 <=? length fs) && (nth 1 fs "" =s "00000000") && (nth 7 fs "" =s "00000000").

(** The interface index by name is package net's. The errors of DefaultRoute are ignored by
    every caller. *)
Definition DefaultRoute (byName : string → option Z) (proc : option string) : Z * string :=
  match proc with
  | None => (0%Z, "")
  | Some text =>
      match List.find is_default_line (map Fields (tail (scan_lines text))) with
      | None => (0%Z, "")
      | Some fs => let name := nth 0 fs "" in (default 0%Z (byName name), name)
      end
  end.

(** ** Reading back what the kernel writes *)

Lemma align4_bounds n : n ≤ align4 n < n + 4.
Proof.
  unfold align4. replace (Z.ldiff (Z.of_nat n + 3) 3) with ((Z.of_nat n + 3) / 4 * 4)%Z; [div_lia|].
  change 3%Z with (Z.ones 2) at 3. by rewrite Z.ldiff_ones_r, Z.shiftl_mul_pow2, Z.shiftr_div_pow2 by lia.
Qed.

Lemma list_ascii_length s : length (String.list_ascii_of_string s) = slen s.
Proof. induction s; simpl; auto. Qed.

Lemma string_of_list_length l : slen (String.string_of_list_ascii l) = length l.
Proof. induction l; simpl; auto. Qed.

Lemma slen_put_le n z : slen (put_le n z) = n.
Proof. unfold put_le. by rewrite string_of_list_length, length_rev, list_ascii_length, slen_put. Qed.

Lemma get_put_le n z : (0 <= z < 256 ^ Z.of_nat n)%Z → get_le (put_le n z) = z.
Proof.
  intros Hz. unfold get_le, put_le. rewrite String.list_ascii_of_string_of_list_ascii, rev_involutive, String.string_of_list_ascii_of_string.
  by apply get_put.
Qed.

#[local] Hint Rewrite slen_put_le slen_zeros : bytes.

(** A message as the kernel lays it out: length, type, flags, sequence number, port id, data,
    padding to four bytes. *)
Definition encode_message (m : nlmsg) (flags seq pid : Z) : string :=
  let len := NLMSG_HDRLEN + slen (nl_Data m) in
  put_le 4 (Z.of_nat len) +:+ put_le 2 (nl_Type m) +:+ put_le 2 flags +:+ put_le 4 seq +:+ put_le 4 pid +:+ nl_Data m +:+
  zeros (align4 len - len).

Definition message_ok (m : nlmsg) : Prop :=
  (0 <= nl_Type m < 65536)%Z ∧ (Z.of_nat (NLMSG_HDRLEN + slen (nl_Data m)) < 2 ^ 32)%Z.

Lemma slen_message m flags seq pid : slen (encode_message m flags seq pid) = align4 (NLMSG_HDRLEN + slen (nl_Data m)).
Proof.
  unfold encode_message. autorewrite with bytes. pose proof (align4_bounds (NLMSG_HDRLEN + slen (nl_Data m))).
  unfold NLMSG_HDRLEN in *. lia.
Qed.

Lemma netlink_step fuel m flags seq pid rest out : message_ok m →
  netlink_loop (S fuel) (encode_message m flags seq pid +:+ rest) out = netlink_loop fuel rest (out ++ [m]).
Proof.
  intros [Ht Hl]. set (len := NLMSG_HDRLEN + slen (nl_Data m)) in *. pose proof (align4_bounds len) as Ha.
  set (buf := encode_message m flags seq pid +:+ rest).
  assert (Hb : slen buf = align4 len + slen rest) by (unfold buf; by rewrite slen_app, slen_message).
  assert (Hr : sdrop (align4 len) buf = rest) by (unfold buf, len; rewrite <- (slen_message m flags seq pid); apply sdrop_app).
  assert (H0 : field 0 4 buf = put_le 4 (Z.of_nat len)).
  { unfold buf, encode_message. rewrite !sapp_assoc. apply field_here, slen_put_le. }
  assert (H1 : field 4 2 buf = put_le 2 (nl_Type m)).
  { unfold buf, encode_message. rewrite !sapp_assoc, field_skip by (rewrite slen_put_le; lia). rewrite slen_put_le. apply field_here, slen_put_le. }
  assert (H2 : field 16 (len - 16) buf = nl_Data m).
  { unfold buf, encode_message. rewrite !sapp_assoc. do 5 (rewrite field_skip by (rewrite ?slen_put_le; simpl; lia); rewrite slen_put_le; simpl Nat.sub).
    apply field_here. unfold len, NLMSG_HDRLEN. lia. }
  assert (E0 : get_le (put_le 4 (Z.of_nat len)) = Z.of_nat len) by (apply get_put_le; split; [lia|exact Hl]).
  assert (E1 : get_le (put_le 2 (nl_Type m)) = nl_Type m) by (by apply get_put_le).
  cbn [netlink_loop]. change NLMSG_HDRLEN with 16 in *. rewrite H0, H1, E0, E1.
  rewrite Nat2Z.id, H2. unfold len in *. rewrite (proj2 (Nat.ltb_ge _ _)) by lia.
  rewrite !(proj2 (Nat.ltb_ge _ _)) by lia. cbn [orb]. rewrite Hr. by destruct m.
Qed.

Lemma netlink_stop fuel out : netlink_loop (S fuel) "" out = Some out.
Proof. done. Qed.

Definition message_layout := (nlmsg * Z * Z * Z)%type.
Definition encode_datagram (ms : list message_layout) : string :=
  foldr (λ '(m, flags, seq, pid) acc, encode_message m flags seq pid +:+ acc) "" ms.

Lemma netlink_datagram ms fuel out : Forall (λ x : message_layout, message_ok x.1.1.1) ms → length ms < fuel →
  netlink_loop fuel (encode_datagram ms) out = Some (out ++ map (λ x : message_layout, x.1.1.1) ms).
Proof.
  intros Hok. revert fuel out. induction Hok as [|[[[m fl] sq] pid] ms Hm Hms IH]; intros [|fuel] out Hf; cbn [length] in Hf; try lia.
  - cbn. by rewrite app_nil_r.
  - cbn [encode_datagram foldr map]. rewrite netlink_step by done. fold (encode_datagram ms). rewrite IH by lia. by rewrite <- app_assoc.
Qed.

Lemma datagram_length ms : length ms ≤ slen (encode_datagram ms).
Proof.
  induction ms as [|[[[m fl] sq] pid] ms IH]; cbn [encode_datagram foldr length]; [done|]. fold (encode_datagram ms).
  rewrite slen_app, slen_message. pose proof (align4_bounds (NLMSG_HDRLEN + slen (nl_Data m))). unfold NLMSG_HDRLEN in *. lia.
Qed.

Lemma parse_datagram ms : Forall (λ x : message_layout, message_ok x.1.1.1) ms →
  parseNetlinkMessages (encode_datagram ms) = Some (map (λ x : message_layout, x.1.1.1) ms).
Proof. intros Hok. unfold parseNetlinkMessages. rewrite netlink_datagram; [done|done|]. pose proof (datagram_length ms). lia. Qed.

(** *** Addresses *)

Definition encode_attr (a : Z * string) : string :=
  let len := SizeofRtAttr + slen a.2 in put_le 2 (Z.of_nat len) +:+ put_le 2 a.1 +:+ a.2 +:+ zeros (align4 len - len).

Definition attr_ok (a : Z * string) : Prop := (0 <= a.1 < 65536)%Z ∧ (Z.of_nat (SizeofRtAttr + slen a.2) < 65536)%Z.

(** What one attribute changes. *)
Definition attr_ip (a : Z * string) (ip : option IP) : option IP :=
  if (a.1 =? IFA_ADDRESS)%Z && ((slen a.2 =? 4) || (slen a.2 =? 16)) then Some (bytes_ip a.2) else ip.
Definition attr_flags (a : Z * string) (flags : N) : N :=
  if (a.1 =? IFA_FLAGS)%Z && (4 <=? slen a.2) then Z.to_N (get_le (stake 4 a.2)) else flags.

Lemma slen_attr a : slen (encode_attr a) = align4 (SizeofRtAttr + slen a.2).
Proof.
  unfold encode_attr. autorewrite with bytes. pose proof (align4_bounds (SizeofRtAttr + slen a.2)). unfold SizeofRtAttr in *. lia.
Qed.

Lemma attr_step fuel a rest ip flags : attr_ok a →
  attr_loop (S fuel) (encode_attr a +:+ rest) ip flags = attr_loop fuel rest (attr_ip a ip) (attr_flags a flags).
Proof.
  intros [Ht Hl]. set (len := SizeofRtAttr + slen a.2) in *. pose proof (align4_bounds len) as Ha. set (buf := encode_attr a +:+ rest).
  assert (Hb : slen buf = align4 len + slen rest) by (unfold buf; by rewrite slen_app, slen_attr).
  assert (Hr : sdrop (align4 len) buf = rest) by (unfold buf, len; rewrite <- slen_attr; apply sdrop_app).
  assert (H0 : field 0 2 buf = put_le 2 (Z.of_nat len)).
  { unfold buf, encode_attr. rewrite !sapp_assoc. apply field_here, slen_put_le. }
  assert (H1 : field 2 2 buf = put_le 2 a.1).
  { unfold buf, encode_attr. rewrite !sapp_assoc, field_skip by (rewrite slen_put_le; lia). rewrite slen_put_le. apply field_here, slen_put_le. }
  assert (H2 : field 4 (len - 4) buf = a.2).
  { unfold buf, encode_attr. rewrite !sapp_assoc. do 2 (rewrite field_skip by (rewrite ?slen_put_le; simpl; lia); rewrite slen_put_le; simpl Nat.sub).
    apply field_here. unfold len, SizeofRtAttr. lia. }
  assert (E0 : get_le (put_le 2 (Z.of_nat len)) = Z.of_nat len) by (apply get_put_le; split; [lia|exact Hl]).
  assert (E1 : get_le (put_le 2 a.1) = a.1) by (by apply get_put_le).
  cbn [attr_loop]. change SizeofRtAttr with 4 in *. rewrite H0, H1, E0, E1.
  rewrite Nat2Z.id, H2. rewrite !(proj2 (Nat.ltb_ge _ _)) by lia. cbn [orb]. by rewrite Hr.
Qed.

(** struct ifaddrmsg: family, prefix length, the low eight flag bits, scope, index; then the
    attributes. *)
Record entry := MkEntry { e_family : Z; e_prefixlen : Z; e_flags8 : N; e_scope : Z; e_index : Z; e_attrs : list (Z * string) }.

Definition encode_entry (e : entry) : string :=
  put_le 1 (e_family e) +:+ put_le 1 (e_prefixlen e) +:+ String (Nb (e_flags8 e)) (put_le 1 (e_scope e)) +:+ put_le 4 (e_index e) +:+
  foldr (λ a acc, encode_attr a +:+ acc) "" (e_attrs e).

Definition entry_ok (e : entry) : Prop :=
  (e_flags8 e < 256)%N ∧ (0 <= e_index e < 2 ^ 32)%Z ∧ Forall attr_ok (e_attrs e) ∧ (Z.of_nat (slen (encode_entry e)) < 2 ^ 31)%Z.

(** The address an entry is about, and its 32 flag bits: the last attribute of each kind wins. *)
Definition entry_meaning (e : entry) : option (Z * IP * N) :=
  ip ← foldl (λ ip a, attr_ip a ip) None (e_attrs e);
  Some (e_index e, ip, foldl (λ f a, attr_flags a f) (e_flags8 e) (e_attrs e)).

Lemma attrs_loop l fuel ip flags : Forall attr_ok l → length l < fuel →
  attr_loop fuel (foldr (λ a acc, encode_attr a +:+ acc) "" l) ip flags =
  (foldl (λ ip a, attr_ip a ip) ip l, foldl (λ f a, attr_flags a f) flags l).
Proof.
  intros Hok. revert fuel ip flags. induction Hok as [|a l Ha Hl IH]; intros [|fuel] ip flags Hf; cbn [length] in Hf; try lia; [done|].
  cbn [foldr foldl]. rewrite attr_step by done. apply IH. lia.
Qed.

Lemma attrs_length l : length l ≤ slen (foldr (λ a acc, encode_attr a +:+ acc) "" l).
Proof.
  induction l as [|a l IH]; cbn [foldr length]; [done|]. rewrite slen_app, slen_attr.
  pose proof (align4_bounds (SizeofRtAttr + slen a.2)). unfold SizeofRtAttr in *. lia.
Qed.

Lemma one_byte z : ∃ c, put_le 1 z = String c "".
Proof. unfold put_le. cbn. by eexists. Qed.

Lemma parse_entry e : entry_ok e → parseIfaddr (encode_entry e) = entry_meaning e.
Proof.
  intros (Hf & Hi & Ha & _). unfold parseIfaddr, entry_meaning. set (attrs := foldr (λ a acc, encode_attr a +:+ acc) "" (e_attrs e)).
  unfold encode_entry. fold attrs. destruct (one_byte (e_family e)) as [c1 ->], (one_byte (e_prefixlen e)) as [c2 ->], (one_byte (e_scope e)) as [c3 ->].
  set (data := String c1 "" +:+ String c2 "" +:+ String (Nb (e_flags8 e)) (String c3 "") +:+ put_le 4 (e_index e) +:+ attrs).
  assert (Hlen : slen data = 8 + slen attrs) by (unfold data; rewrite !slen_app, slen_put_le; cbn [String.length]; lia).
  assert (Hd : sdrop 8 data = attrs).
  { change (sdrop 4 (put_le 4 (e_index e) +:+ attrs) = attrs). rewrite <- (slen_put_le 4 (e_index e)) at 1. apply sdrop_app. }
  change SizeofIfAddrmsg with 8. rewrite (proj2 (Nat.ltb_ge _ _)) by lia. rewrite Hd.
  assert (byte_at 2 data = e_flags8 e) as -> by (unfold byte_at, data; cbn; by apply bN_Nb).
  pose proof (attrs_length (e_attrs e) : length (e_attrs e) ≤ slen attrs) as Hal.
  unfold attrs at 1. rewrite attrs_loop by (done || lia).
  assert (field 4 4 data = put_le 4 (e_index e)) as ->
    by (change (field 0 4 (put_le 4 (e_index e) +:+ attrs) = put_le 4 (e_index e)); apply field_here, slen_put_le).
  by rewrite get_put_le.
Qed.

(** *** Whole dumps *)

(** A datagram of a dump, each message with its header fields. *)
Definition address_message (x : entry * Z * Z * Z) : message_layout :=
  let '(e, flags, seq, pid) := x in (MkNl RTM_NEWADDR (encode_entry e), flags, seq, pid).

Definition done_message : message_layout := (MkNl NLMSG_DONE (zeros 4), 2%Z, 1%Z, 0%Z).

Lemma message_entry_ok x : entry_ok x.1.1.1 → message_ok (address_message x).1.1.1.
Proof.
  destruct x as [[[e fl] sq] pid]. intros (_ & _ & _ & Hl). split; [done|]. cbn [address_message fst nl_Data] in *.
  unfold NLMSG_HDRLEN. revert Hl. generalize (slen (encode_entry e)). intros n Hn. lia.
Qed.

Lemma dump_entries (xs : list (entry * Z * Z * Z)) t : Forall (λ x, entry_ok x.1.1.1) xs →
  dump_messages (map (λ x, (address_message x).1.1.1) xs) t =
  (foldl record_flags t (omap (λ x : entry * Z * Z * Z, entry_meaning x.1.1.1) xs), false).
Proof.
  intros Hok. revert t. induction Hok as [|[[[e fl] sq] pid] xs He Hxs IH]; intros t; [done|].
  cbn [map address_message fst dump_messages nl_Type nl_Data]. change (dump_messages (map (λ x, (address_message x).1.1.1) xs)
    (from_option (record_flags t) t (parseIfaddr (encode_entry e))) = (foldl record_flags t (omap (λ x : entry * Z * Z * Z, entry_meaning x.1.1.1)
    ((e, fl, sq, pid) :: xs)), false)). rewrite parse_entry by done. rewrite IH. cbn [omap list_omap fst]. by destruct (entry_meaning e).
Qed.


(** The fuel of the loop does not matter once it exceeds the buffer's length. *)
Lemma slen_sdrop n s : slen (sdrop n s) = slen s - n.
Proof. revert s. induction n as [|n IH]; intros [|c s]; cbn; [done..|]. apply IH. Qed.

Lemma netlink_fuel f f' buf out : slen buf < f → slen buf < f' → netlink_loop f buf out = netlink_loop f' buf out.
Proof.
  revert f' buf out. induction f as [|f IH]; intros [|f'] buf out Hf Hf'; try lia. cbn [netlink_loop].
  destruct (Nat.ltb_spec (slen buf) NLMSG_HDRLEN); [done|].
  destruct (Nat.ltb_spec (Z.to_nat (get_le (field 0 4 buf))) NLMSG_HDRLEN) as [|Hl]; [done|]. cbn [orb].
  destruct (slen buf <? Z.to_nat (get_le (field 0 4 buf))); [done|]. destruct (_ <? _); [done|].
  pose proof (align4_bounds (Z.to_nat (get_le (field 0 4 buf)))). unfold NLMSG_HDRLEN in *. apply IH; rewrite slen_sdrop; lia.
Qed.

Module NetlinkDemo.
Definition lo6 : string := ip_bytes (replicate 15 0%N ++ [1%N]).
Definition temp : entry := MkEntry 10 64 0x81 0 2 [(1%Z, ip_bytes (EndDemo.v6 [0; 0; 0; 9]%N)); (6%Z, "cacheinfo"); (8%Z, put_le 4 0x301)].
Definition plain : entry := MkEntry 2 24 0x80 0 3 [(1%Z, ip_bytes [192; 168; 1; 5]%N)].
Definition dumps : list (list (entry * Z * Z * Z)) := [[(temp, 2, 1, 77)%Z]; [(plain, 2, 1, 77)%Z]].


Definition nl : string := String "010" "".
Definition tab : string := String "009" "".
Definition route_line (fs : list string) : string := join tab fs +:+ nl.
Example default_route : DefaultRoute (λ n, if n =s "eth0" then Some 2%Z else None)
  (Some (route_line ["Iface"; "Destination"; "Gateway"; "Flags"; "RefCnt"; "Use"; "Metric"; "Mask"; "MTU"] +:+
         route_line ["docker0"; "000011AC"; "00000000"; "0001"; "0"; "0"; "0"; "0000FFFF"; "0"] +:+
         route_line ["eth0"; "00000000"; "0101A8C0"; "0003"; "0"; "0"; "100"; "00000000"; "0"])) = (2%Z, "eth0").
Proof. vm_compute. reflexivity. Qed.
End NetlinkDemo.
