(* ===== verification/Float64.v ===== *)
(** * float64, as the rate limiters and the back-off use it

    The finite values are rationals; an operation is the exact one followed by rounding to the
    nearest 53-bit significand, ties to even. The exponent is unbounded: the code's values stay
    far inside the normal range (no overflow, no subnormals, no NaN). The limiters' theorems need
    only the relative error of one rounding and the exactness of integers. *)

From S2P Require Import Prelude.
From Stdlib Require Export QArith.
From Stdlib Require Import Lqa.
#[local] Open Scope Z_scope.

(** The integer nearest to n/d, ties to even. *)
Definition rne (n d : Z) : Z :=
  let q := n / d in
  let r := n mod d in
  if 2 * r <? d then q else if d <? 2 * r then q + 1 else if Z.even q then q else q + 1.

(** floor(log2(n/d)) for positive n and d. *)
Definition binade (n d : Z) : Z :=
  let k := Z.log2 n - Z.log2 d in
  if d * 2 ^ Z.max k 0 <=? n * 2 ^ Z.max (- k) 0 then k else k - 1.

Definition round_pos (n d : Z) : Q :=
  let e := binade n d - 52 in
  if 0 <=? e then inject_Z (rne n (d * 2 ^ e) * 2 ^ e) else Qmake (rne (n * 2 ^ (- e)) d) (Z.to_pos (2 ^ (- e))).

Definition round64 (x : Q) : Q :=
  match Qnum x with
  | Z0 => 0%Q
  | Zpos p => round_pos (Zpos p) (Zpos (Qden x))
  | Zneg p => Qopp (round_pos (Zpos p) (Zpos (Qden x)))
  end.

Definition fadd (x y : Q) : Q := round64 (x + y)%Q.
Definition fsub (x y : Q) : Q := round64 (x - y)%Q.
Definition fmul (x y : Q) : Q := round64 (x * y)%Q.
Definition fdiv (x y : Q) : Q := round64 (x / y)%Q.
Definition of_int (z : Z) : Q := round64 (inject_Z z).
Definition flt (x y : Q) : bool := negb (Qle_bool y x).

(** int64(x) for x >= 0 *)
Definition trunc (x : Q) : Z := Qnum x / Zpos (Qden x).

(** time.Duration.Seconds *)
Definition Seconds (d : Z) : Q := fadd (of_int (Z.quot d second)) (fdiv (of_int (Z.rem d second)) (of_int second)).

(** ** One rounding *)

Lemma rne_err n d : 0 < d → Z.abs (2 * (rne n d * d - n)) <= d.
Proof.
  intros Hd. unfold rne. pose proof (Z.div_mod n d). pose proof (Z.mod_pos_bound n d Hd). cbv zeta.
  destruct (Z.ltb_spec (2 * (n mod d)) d); [nia|]. destruct (Z.ltb_spec d (2 * (n mod d))); [nia|]. destruct (Z.even (n / d)); nia.
Qed.

Lemma log2_pow z : 0 < z → 2 ^ Z.log2 z <= z < 2 * 2 ^ Z.log2 z.
Proof. intros Hz. pose proof (Z.log2_spec z Hz). rewrite Z.pow_succ_r in H by apply Z.log2_nonneg. done. Qed.

Lemma binade_lower n d : 0 < n → 0 < d → let k := binade n d in d * 2 ^ Z.max k 0 <= n * 2 ^ Z.max (- k) 0.
Proof.
  intros Hn Hd. unfold binade. set (k := Z.log2 n - Z.log2 d). cbv zeta.
  destruct (Z.leb_spec (d * 2 ^ Z.max k 0) (n * 2 ^ Z.max (- k) 0)) as [Hle|_]; [done|].
  pose proof (log2_pow n Hn) as [Ln _]. pose proof (log2_pow d Hd) as [_ Ld]. pose proof (Z.log2_nonneg n). pose proof (Z.log2_nonneg d).
  destruct (Z.le_gt_cases 1 k) as [Hk|Hk].
  - rewrite Z.max_l by lia. rewrite (Z.max_r (- (k - 1)) 0) by lia.
    assert (2 ^ Z.log2 n = 2 ^ Z.log2 d * (2 * 2 ^ (k - 1))) as E.
    { rewrite <- Z.pow_succ_r, <- Z.pow_add_r by lia. f_equal. lia. }
    pose proof (Z.pow_pos_nonneg 2 (k - 1) ltac:(lia) ltac:(lia)). nia.
  - rewrite Z.max_r by lia. rewrite Z.max_l by lia.
    assert (2 * 2 ^ Z.log2 d = 2 ^ Z.log2 n * 2 ^ (- (k - 1))) as E.
    { rewrite <- Z.pow_succ_r, <- Z.pow_add_r by lia. f_equal. lia. }
    pose proof (Z.pow_pos_nonneg 2 (- (k - 1)) ltac:(lia) ltac:(lia)). nia.
Qed.

(** m/s is within 2^-53 of n/d, relatively. *)
Definition near (m s n d : Z) : Prop := (2 ^ 53 - 1) * n * s <= 2 ^ 53 * d * m <= (2 ^ 53 + 1) * n * s.

Lemma near_of_err m s n d u : 0 < s → Z.abs (2 * (m * d - n * s)) <= u → u * 2 ^ 52 <= n * s → near m s n d.
Proof. unfold near. lia. Qed.

Lemma round_pos_near n d : 0 < n → 0 < d → near (Qnum (round_pos n d)) (Zpos (Qden (round_pos n d))) n d.
Proof.
  intros Hn Hd. pose proof (binade_lower n d Hn Hd) as Hb. unfold round_pos. set (k := binade n d) in *. cbv zeta in *.
  destruct (Z.leb_spec 0 (k - 52)) as [He|He]; cbn [Qnum Qden inject_Z].
  - rewrite Z.max_l, Z.max_r in Hb by lia. assert (2 ^ k = 2 ^ (k - 52) * 2 ^ 52) as E by (rewrite <- Z.pow_add_r by lia; f_equal; lia).
    pose proof (Z.pow_pos_nonneg 2 (k - 52) ltac:(lia) ltac:(lia)) as Hp. pose proof (rne_err n (d * 2 ^ (k - 52)) ltac:(nia)) as Hr.
    apply (near_of_err _ _ _ _ (d * 2 ^ (k - 52))); [lia| |nia]. replace (rne n (d * 2 ^ (k - 52)) * 2 ^ (k - 52) * d) with (rne n (d * 2 ^ (k - 52)) * (d * 2 ^ (k - 52))) by ring. lia.
  - pose proof (Z.pow_pos_nonneg 2 (- (k - 52)) ltac:(lia) ltac:(lia)) as Hp. rewrite Z2Pos.id by lia.
    apply (near_of_err _ _ _ _ d); [lia|by apply rne_err|].
    destruct (Z.le_gt_cases 0 k) as [Hk|Hk].
    + rewrite Z.max_l, Z.max_r in Hb by lia. assert (2 ^ 52 = 2 ^ k * 2 ^ (- (k - 52))) as E by (rewrite <- Z.pow_add_r by lia; f_equal; lia). nia.
    + rewrite Z.max_r, Z.max_l in Hb by lia. assert (2 ^ (- (k - 52)) = 2 ^ (- k) * 2 ^ 52) as E by (rewrite <- Z.pow_add_r by lia; f_equal; lia). nia.
Qed.

#[local] Open Scope Q_scope.

(** Half a unit in the last place. *)
Definition eps : Q := Qmake 1 (2 ^ 53).

Lemma round64_near x : 0 <= x → x * (1 - eps) <= round64 x /\ round64 x <= x * (1 + eps).
Proof.
  destruct x as [n d]. unfold round64. cbn [Qnum Qden]. intros Hx. destruct n as [|p|p]; [split; unfold Qle; simpl; lia| |unfold Qle in Hx; simpl in Hx; lia].
  pose proof (round_pos_near (Zpos p) (Zpos d) eq_refl eq_refl) as [Hl Hu]. destruct (round_pos (Zpos p) (Zpos d)) as [m s]. cbn [Qnum Qden] in *.
  unfold eps, Qle. cbn [Qnum Qden Qmult Qminus Qplus Qopp]. rewrite ?Pos2Z.inj_mul. change (Zpos (2 ^ 53)) with (2 ^ 53)%Z. split; lia.
Qed.

Lemma round64_nonneg x : 0 <= x → 0 <= round64 x.
Proof.
  intros Hx. destruct (round64_near x Hx) as [Hl _]. eapply Qle_trans; [|exact Hl]. apply Qmult_le_0_compat; [done|]. unfold eps, Qle. simpl. lia.
Qed.

Lemma round64_int z : (0 <= z <= 2 ^ 53)%Z → of_int z == inject_Z z.
Proof.
  intros Hz. unfold of_int, round64. cbn [Qnum Qden inject_Z]. destruct z as [|p|p]; [done| |lia]. unfold round_pos.
  assert (Hb : binade (Zpos p) 1 = Z.log2 (Zpos p)).
  { unfold binade. change (Z.log2 1) with 0%Z. rewrite Z.sub_0_r. pose proof (Z.log2_nonneg (Zpos p)). rewrite Z.max_l, Z.max_r by lia.
    pose proof (log2_pow (Zpos p) eq_refl). destruct (Z.leb_spec (1 * 2 ^ Z.log2 (Zpos p)) (Zpos p * 2 ^ 0)); [done|lia]. }
  rewrite Hb. cbv zeta. assert (Hl : (Z.log2 (Zpos p) <= 53)%Z).
  { rewrite <- (Z.log2_pow2 53) by lia. apply Z.log2_le_mono. lia. }
  assert (Hex : ∀ n, rne n 1 = n) by (intros n; unfold rne; by rewrite Z.div_1_r, Z.mod_1_r).
  destruct (Z.leb_spec 0 (Z.log2 (Zpos p) - 52)) as [He|He].
  - assert (Z.log2 (Zpos p) = 52 ∨ Z.log2 (Zpos p) = 53)%Z as [E|E] by lia; rewrite E.
    + change (1 * 2 ^ (52 - 52))%Z with 1%Z. rewrite Hex. change (2 ^ (52 - 52))%Z with 1%Z. by rewrite Z.mul_1_r.
    + pose proof (log2_pow (Zpos p) eq_refl) as Hp. rewrite E in Hp. assert (Zpos p = 2 ^ 53)%Z as -> by lia. vm_compute. reflexivity.
  - set (s := (2 ^ (- (Z.log2 (Zpos p) - 52)))%Z). assert (0 < s)%Z by (apply Z.pow_pos_nonneg; lia). rewrite Hex. unfold Qeq. cbn [Qnum Qden inject_Z].
    rewrite Z2Pos.id by done. lia.
Qed.

(** ** Operations on non-negative values *)

Lemma Qmult_le_both a b x y : 0 <= a → a <= x → 0 <= b → b <= y → a * b <= x * y.
Proof. intros Ha Hx Hb Hy. apply Qle_trans with (x * b); [by apply Qmult_le_compat_r|]. rewrite (Qmult_comm x b), (Qmult_comm x y). apply Qmult_le_compat_r; [done|lra]. Qed.

Lemma eps_pos : 0 < eps.
Proof. reflexivity. Qed.
Lemma eps_small : eps <= 1 # 1000000000000000.
Proof. unfold eps, Qle. simpl. lia. Qed.

Lemma eps_int z : (z <= 2 ^ 53)%Z → inject_Z z * eps <= 1.
Proof. intros Hz. unfold eps, Qle. simpl. lia. Qed.

(** One rounding down and up. *)
Definition lo : Q := 1 - eps.
Definition hi : Q := 1 + eps.
Lemma lo_bounds : 0 < lo /\ lo < 1.
Proof. unfold lo. pose proof eps_pos. pose proof eps_small. lra. Qed.
Lemma hi_bounds : 1 < hi.
Proof. unfold hi. pose proof eps_pos. lra. Qed.

Lemma fadd_near x y : 0 <= x → 0 <= y → (x + y) * lo <= fadd x y /\ fadd x y <= (x + y) * hi.
Proof. intros Hx Hy. apply round64_near. lra. Qed.
Lemma fmul_near x y : 0 <= x → 0 <= y → x * y * lo <= fmul x y /\ fmul x y <= x * y * hi.
Proof. intros Hx Hy. apply round64_near. by apply Qmult_le_0_compat. Qed.
Lemma fdiv_near x y : 0 <= x → 0 < y → x / y * lo <= fdiv x y /\ fdiv x y <= x / y * hi.
Proof. intros Hx Hy. apply round64_near. apply Qle_shift_div_l; [done|]. lra. Qed.
Lemma fsub_near x y : y <= x → (x - y) * lo <= fsub x y /\ fsub x y <= (x - y) * hi.
Proof. intros Hx. apply round64_near. lra. Qed.

Lemma flt_spec x y : flt x y = true ↔ x < y.
Proof.
  unfold flt. rewrite negb_true_iff, <- not_true_iff_false, Qle_bool_iff. split; [apply Qnot_le_lt|apply Qlt_not_le].
Qed.
Lemma flt_false x y : flt x y = false ↔ y <= x.
Proof. unfold flt. rewrite negb_false_iff. apply Qle_bool_iff. Qed.

Lemma mul_lo_le x : 0 <= x → x * lo <= x.
Proof. intros Hx. pose proof lo_bounds. nra. Qed.
Lemma mul_hi_ge x : 0 <= x → x <= x * hi.
Proof. intros Hx. pose proof hi_bounds. nra. Qed.
Lemma mul_lo_nonneg x : 0 <= x → 0 <= x * lo.
Proof. intros Hx. apply Qmult_le_0_compat; [done|]. pose proof lo_bounds. lra. Qed.
Lemma mul_mono_lo x y : x <= y → x * lo <= y * lo.
Proof. intros Hx. apply Qmult_le_compat_r; [done|]. pose proof lo_bounds. lra. Qed.
Lemma mul_mono_hi x y : x <= y → x * hi <= y * hi.
Proof. intros Hx. apply Qmult_le_compat_r; [done|]. pose proof hi_bounds. lra. Qed.

(** A duration in seconds, exactly. *)
Definition seconds_of (d : Z) : Q := inject_Z d / inject_Z second.

Lemma seconds_nonneg d : (0 <= d)%Z → 0 <= seconds_of d.
Proof. intros Hd. apply Qle_shift_div_l; [reflexivity|]. rewrite Qmult_0_l. change 0 with (inject_Z 0). rewrite <- Zle_Qle; lia. Qed.

Lemma Seconds_near d : (0 <= d <= max_duration)%Z → seconds_of d * lo * lo <= Seconds d /\ Seconds d <= seconds_of d * hi * hi.
Proof.
  intros Hd. unfold Seconds. set (q := Z.quot d second). set (r := Z.rem d second).
  assert (0 < second)%Z as Hs by reflexivity. assert (d = second * q + r)%Z as Ed by (apply Z.quot_rem'; done).
  assert (0 <= r < second)%Z as Hr by (apply Z.rem_bound_pos; lia). assert (0 <= q)%Z as Hq by (apply Z.quot_pos; lia).
  assert (q <= 2 ^ 53)%Z as Hq2 by (unfold max_duration, second in *; lia).
  assert (E1 : of_int q == inject_Z q) by (apply round64_int; lia). assert (E2 : of_int r == inject_Z r) by (apply round64_int; unfold second in *; lia).
  assert (E3 : of_int second == inject_Z second) by (apply round64_int; unfold second; lia).
  assert (P1 : 0 <= of_int q) by (rewrite E1; change 0 with (inject_Z 0); rewrite <- Zle_Qle; lia).
  assert (P2 : 0 <= of_int r) by (rewrite E2; change 0 with (inject_Z 0); rewrite <- Zle_Qle; lia).
  assert (P3 : 0 < of_int second) by (rewrite E3; reflexivity).
  destruct (fdiv_near _ _ P2 P3) as [F1 F2]. set (f := fdiv (of_int r) (of_int second)) in *.
  assert (Ef : of_int r / of_int second == inject_Z r / inject_Z second) by (by rewrite E2, E3).
  assert (P4 : 0 <= inject_Z r / inject_Z second) by (apply (seconds_nonneg r); lia).
  assert (P5 : 0 <= f) by (eapply Qle_trans; [|exact F1]; rewrite Ef; by apply mul_lo_nonneg).
  destruct (fadd_near _ _ P1 P5) as [A1 A2]. rewrite Ef in F1, F2.
  assert (Es : seconds_of d == of_int q + inject_Z r / inject_Z second).
  { rewrite E1. unfold seconds_of. rewrite Ed, inject_Z_plus, inject_Z_mult. field. discriminate. }
  pose proof lo_bounds. pose proof hi_bounds. split.
  - eapply Qle_trans; [|exact A1]. apply mul_mono_lo. rewrite Es. pose proof (mul_lo_le _ P1). lra.
  - eapply Qle_trans; [exact A2|]. apply mul_mono_hi. rewrite Es. pose proof (mul_hi_ge _ P1). lra.
Qed.
Lemma hi_5 : hi * hi * hi * hi * hi <= 1 + 6 * eps.
Proof. unfold Qle. vm_compute. discriminate. Qed.
#[global] Opaque eps.
