(* ===== verification/RateLimit.v ===== *)
(** * internal/ratelimit: per-key token buckets

    The limiter of the SMTP gateway. A bucket holds a float64 number of tokens and the time of
    its last refill. The clock is an argument; under the mutex its readings do not go back. *)

From S2P Require Import Prelude TimeText Crypto Float64.
From Stdlib Require Import Lqa.

Record bucket := MkBucket { tokens : Q; lastFill : Z }.
Record Limiter := MkLimiter { perMinute : Z; buckets : gmap string bucket }.

Definition New (perMinute : Z) : Limiter := MkLimiter (if (perMinute <=? 0)%Z then 5%Z else perMinute) ∅.

Definition refill (pm now : Z) (b : bucket) : Q :=
  let t := fadd (tokens b) (fmul (Seconds (time_sub now (lastFill b))) (fdiv (of_int pm) 60)) in
  if flt (of_int pm) t then of_int pm else t.

Definition Allow (now : Z) (key : string) (l : Limiter) : Limiter * bool :=
  let t := match buckets l !! key with
           | None => of_int (perMinute l)
           | Some b => refill (perMinute l) now b
           end in
  let put t := MkLimiter (perMinute l) (<[key := MkBucket t now]> (buckets l)) in
  if flt t 1 then (put t, false) else (put (fsub t 1), true).

(** ** Dropping idle buckets *)

Inductive lim_op := Call (now : Z) (key : string) | ReapAt (now maxIdle : Z).
Definition op_time (o : lim_op) : Z := match o with Call now _ => now | ReapAt now _ => now end.
Definition calls_of (ops : list lim_op) : list (Z * string) := omap (λ o, match o with Call now k => Some (now, k) | ReapAt _ _ => None end) ops.

(** The clock's readings do not go back, from [t] on, and the idle limits are at least [limit]. *)
Fixpoint ordered (limit t : Z) (ops : list lim_op) : Prop :=
  match ops with
  | [] => True
  | o :: rest => (t <= op_time o)%Z ∧ (match o with Call _ _ => True | ReapAt _ idle => (limit <= idle)%Z end) ∧ ordered limit (op_time o) rest
  end.

Definition idle_bucket (now maxIdle : Z) (kb : string * bucket) : Prop := (maxIdle < time_sub now (lastFill kb.2))%Z.
#[export] Instance idle_bucket_dec now maxIdle kb : Decision (idle_bucket now maxIdle kb) := Z_lt_dec _ _.

(** The clock has not gone back behind a bucket's last use. *)
Definition past (now : Z) (m : gmap string bucket) : Prop := map_Forall (λ _ b, (lastFill b <= now)%Z) m.

(** A table of buckets that [touch] updates, one key per call; what is proved here holds of every
    limiter whose idle buckets behave like new ones. *)
Section Idle.
Context (touch : Z → option bucket → bucket * bool) (ok : bucket → Prop) (limit : Z).
Hypothesis limit_range : (0 <= limit < max_duration)%Z.
Hypothesis touch_ok : ∀ now o, (∀ b, o = Some b → ok b ∧ (lastFill b <= now)%Z) → ok (touch now o).1 ∧ lastFill (touch now o).1 = now.
Hypothesis touch_idle : ∀ now b, ok b → (limit <= now - lastFill b)%Z → touch now (Some b) = touch now None.

Definition call (now : Z) (k : string) (m : gmap string bucket) : gmap string bucket * bool :=
  let '(b, r) := touch now (m !! k) in (<[k := b]> m, r).
Definition drop_idle (now maxIdle : Z) (m : gmap string bucket) : gmap string bucket := filter (λ kb, ¬ idle_bucket now maxIdle kb) m.

Fixpoint run_table (ops : list lim_op) (m : gmap string bucket) : gmap string bucket * list bool :=
  match ops with
  | [] => (m, [])
  | Call now k :: rest => let '(m1, r) := call now k m in let '(m2, rs) := run_table rest m1 in (m2, r :: rs)
  | ReapAt now idle :: rest => run_table rest (drop_idle now idle m)
  end.

(** The tables answer alike from [t] on: a bucket the second one has dropped is idle by then. *)
Definition same_at (t : Z) (m m' : gmap string bucket) : Prop :=
  ∀ k, m' !! k = m !! k ∨ m' !! k = None ∧ ∃ b, m !! k = Some b ∧ (limit <= t - lastFill b)%Z.
Definition table_ok (t : Z) (m : gmap string bucket) : Prop := map_Forall (λ _, ok) m ∧ past t m.

Lemma past_mono t t' m : (t <= t')%Z → past t m → past t' m.
Proof. intros Ht Hp k b Hb. pose proof (Hp k b Hb). simpl in *. lia. Qed.

Lemma same_mono t t' m m' : (t <= t')%Z → same_at t m m' → same_at t' m m'.
Proof. intros Ht Hs k. destruct (Hs k) as [?|(? & b & ? & ?)]; [by left|right]. split; [done|]. exists b. split; [done|lia]. Qed.

Lemma call_ok now k m : table_ok now m → table_ok now (call now k m).1.
Proof.
  intros [Ho Hp]. unfold call. destruct (touch_ok now (m !! k)) as [T1 T2]; [intros b Hb; split; [by eapply Ho|by eapply (Hp k)]|].
  destruct (touch now (m !! k)) as [b r]. split; apply map_Forall_insert_2; done || (simpl in *; lia).
Qed.

Lemma call_same t now k m m' : table_ok now m → same_at t m m' → (t <= now)%Z →
  (call now k m').2 = (call now k m).2 ∧ same_at now (call now k m).1 (call now k m').1.
Proof.
  intros [Ho Hp] Hs Ht. unfold call. assert (E : touch now (m' !! k) = touch now (m !! k)).
  { destruct (Hs k) as [->|(-> & b & Eb & Hold)]; [done|]. rewrite Eb. symmetry. apply touch_idle; [by eapply Ho|lia]. }
  rewrite E. destruct (touch now (m !! k)) as [b r]. split; [done|]. intros j. cbn [fst]. destruct (decide (j = k)) as [->|Hj]; [left; by rewrite !lookup_insert_eq|].
  rewrite !lookup_insert_ne by done. by apply (same_mono t now).
Qed.

Lemma drop_same t now idle m m' : (limit <= idle)%Z → (t <= now)%Z → same_at t m m' → same_at now m (drop_idle now idle m').
Proof.
  intros Hi Ht Hs. apply (same_mono t now) in Hs; [|done]. intros k. unfold drop_idle. destruct (filter _ m' !! k) as [b|] eqn:Ef.
  - apply map_lookup_filter_Some in Ef as [Eb _]. destruct (Hs k) as [Ek|(Ek & _)]; [left; congruence|congruence].
  - apply map_lookup_filter_None in Ef as [Ek|Hold].
    + destruct (Hs k) as [Ek'|Hr]; [left; congruence|right; split; [done|apply Hr]].
    + destruct (Hs k) as [Ek|(Ek & Hr)]; [|right; done]. destruct (m !! k) as [b|] eqn:Eb; [|by left].
      right. split; [done|]. exists b. split; [done|]. specialize (Hold b Ek). apply dec_stable in Hold. unfold idle_bucket in Hold. cbn in Hold.
      unfold time_sub, min_duration, max_duration in *. lia.
Qed.

Lemma idle_invisible ops t m m' : table_ok t m → ordered limit t ops → same_at t m m' →
  (run_table ops m').2 = (run_table (map (λ c, Call c.1 c.2) (calls_of ops)) m).2.
Proof.
  revert t m m'. induction ops as [|o ops IH]; intros t m m' [Ho Hp] Hord Hs; [done|]. destruct Hord as (Ht & Hidle & Hord).
  assert (Hok : table_ok (op_time o) m) by (split; [done|by eapply past_mono]). destruct o as [now k|now idle]; cbn [op_time] in *.
  - change (calls_of (Call now k :: ops)) with ((now, k) :: calls_of ops). cbn [map run_table fst snd].
    destruct (call_same t now k m m' Hok Hs Ht) as [E1 E2]. pose proof (call_ok now k m Hok) as Hok1.
    destruct (call now k m) as [m1 r] eqn:Ea, (call now k m') as [m1' r'] eqn:Ea'. cbn [fst snd] in *. subst r'.
    specialize (IH now m1 m1' Hok1 Hord E2). destruct (run_table ops m1'), (run_table (map _ (calls_of ops)) m1). cbn in *. congruence.
  - change (calls_of (ReapAt now idle :: ops)) with (calls_of ops). cbn [run_table]. apply (IH now); [done|done|by eapply drop_same].
Qed.
End Idle.

Definition Reap (now maxIdle : Z) (l : Limiter) : Limiter :=
  MkLimiter (perMinute l) (drop_idle now maxIdle (buckets l)).

(** ** The invariant *)

Definition pm_ok (pm : Z) : Prop := (0 < pm <= 2 ^ 53)%Z.
Definition bucket_ok (pm : Z) (b : bucket) : Prop := (0 <= tokens b)%Q ∧ (tokens b <= inject_Z pm)%Q.
Definition lim_ok (l : Limiter) : Prop := pm_ok (perMinute l) ∧ map_Forall (λ _, bucket_ok (perMinute l)) (buckets l).

#[local] Open Scope Q_scope.

Lemma pm_exact pm : pm_ok pm → of_int pm == inject_Z pm.
Proof. intros [? ?]. apply round64_int. lia. Qed.
Lemma pm_ge_1 pm : pm_ok pm → 1 <= inject_Z pm.
Proof. intros [? ?]. change 1 with (inject_Z 1). rewrite <- Zle_Qle. lia. Qed.

(** The tokens that flow in over a duration, exactly. *)
Definition inflow (pm d : Z) : Q := seconds_of d * (inject_Z pm / 60).

Lemma inflow_nonneg pm d : pm_ok pm → (0 <= d)%Z → 0 <= inflow pm d.
Proof.
  intros Hp Hd. apply Qmult_le_0_compat; [by apply seconds_nonneg|]. pose proof (pm_ge_1 pm Hp). apply Qle_shift_div_l; [reflexivity|]. lra.
Qed.

Lemma rate_near pm : pm_ok pm → 0 <= fdiv (of_int pm) 60 /\ inject_Z pm / 60 * lo <= fdiv (of_int pm) 60 /\ fdiv (of_int pm) 60 <= inject_Z pm / 60 * hi.
Proof.
  intros Hp. pose proof (pm_ge_1 pm Hp). pose proof (pm_exact pm Hp) as E. assert (0 <= of_int pm) by (rewrite E; lra).
  destruct (fdiv_near (of_int pm) 60) as [F1 F2]; [done|reflexivity|]. assert (E2 : of_int pm / 60 == inject_Z pm / 60) by (by rewrite E).
  rewrite E2 in F1, F2. split; [|done]. eapply Qle_trans; [|exact F1]. apply mul_lo_nonneg. apply Qle_shift_div_l; [reflexivity|]. lra.
Qed.

(** The product the code computes for the inflow. *)
Lemma product_near pm d : pm_ok pm → (0 <= d <= max_duration)%Z →
  let p := fmul (Seconds d) (fdiv (of_int pm) 60) in
  0 <= p /\ inflow pm d * lo * lo * lo * lo <= p /\ p <= inflow pm d * hi * hi * hi * hi.
Proof.
  intros Hp Hd. cbv zeta. destruct (rate_near pm Hp) as (R0 & R1 & R2). destruct (Seconds_near d Hd) as [S1 S2].
  assert (S0 : 0 <= seconds_of d) by (apply seconds_nonneg; lia). assert (0 <= Seconds d) as S3 by (eapply Qle_trans; [|exact S1]; by do 2 apply mul_lo_nonneg).
  assert (0 <= inject_Z pm / 60) as Q0 by (pose proof (pm_ge_1 pm Hp); apply Qle_shift_div_l; [reflexivity|lra]).
  destruct (fmul_near _ _ S3 R0) as [M1 M2]. unfold inflow. split; [|split].
  - eapply Qle_trans; [|exact M1]. apply mul_lo_nonneg. by apply Qmult_le_0_compat.
  - eapply Qle_trans; [|exact M1]. apply mul_mono_lo.
    assert (E : seconds_of d * (inject_Z pm / 60) * lo * lo * lo == seconds_of d * lo * lo * (inject_Z pm / 60 * lo)) by ring. rewrite E.
    apply Qmult_le_both; [by do 2 apply mul_lo_nonneg|done|by apply mul_lo_nonneg|done].
  - eapply Qle_trans; [exact M2|]. apply mul_mono_hi.
    assert (E : seconds_of d * (inject_Z pm / 60) * hi * hi * hi == seconds_of d * hi * hi * (inject_Z pm / 60 * hi)) by ring. rewrite E.
    by apply Qmult_le_both.
Qed.

(** After more than a minute and a second the bucket is full, exactly. *)
Lemma refill_full pm now b : pm_ok pm → bucket_ok pm b → (61 * second <= now - lastFill b)%Z → refill pm now b = of_int pm.
Proof.
  intros Hp [B1 _] Hd. unfold refill. set (d := time_sub now (lastFill b)).
  assert (Hd' : (61 * second <= d <= max_duration)%Z) by (unfold d, time_sub, min_duration, max_duration, second in *; lia).
  destruct (product_near pm d Hp) as (P0 & P1 & _); [unfold second in *; lia|]. destruct (fadd_near _ _ B1 P0) as [A1 _].
  set (t := fadd _ _) in *. assert (Hlt : of_int pm < t); [|by rewrite (proj2 (flt_spec _ _) Hlt)].
  rewrite (pm_exact pm Hp). eapply Qlt_le_trans; [|exact A1]. pose proof (pm_ge_1 pm Hp) as H1.
  assert (Hs : 61 <= seconds_of d).
  { unfold seconds_of. apply Qle_shift_div_l; [reflexivity|]. change (61 * inject_Z second) with (inject_Z (61 * second)). rewrite <- Zle_Qle. lia. }
  assert (Hin : inject_Z pm * (61 # 60) <= inflow pm d).
  { unfold inflow. assert (E : inject_Z pm * (61 # 60) == 61 * (inject_Z pm / 60)) by (field; discriminate). rewrite E.
    apply Qmult_le_compat_r; [done|]. apply Qle_shift_div_l; [reflexivity|]. lra. }
  apply Qlt_le_trans with (inject_Z pm * (61 # 60) * lo * lo * lo * lo * lo).
  - assert (Hc : 1 < (61 # 60) * lo * lo * lo * lo * lo) by reflexivity.
    assert (E : inject_Z pm * (61 # 60) * lo * lo * lo * lo * lo == inject_Z pm * ((61 # 60) * lo * lo * lo * lo * lo)) by ring. rewrite E. clear E.
    rewrite <- (Qmult_1_r (inject_Z pm)) at 1. apply Qmult_lt_l; [lra|done].
  - apply mul_mono_lo. eapply Qle_trans; [do 4 apply mul_mono_lo; exact Hin|]. eapply Qle_trans; [exact P1|]. lra.
Qed.

(** ** The tokens stay between none and a minute's worth *)

Lemma refill_ok pm now b : pm_ok pm → bucket_ok pm b → (lastFill b <= now)%Z → 0 <= refill pm now b /\ refill pm now b <= inject_Z pm.
Proof.
  intros Hp [B1 _] Hd. unfold refill. set (d := time_sub now (lastFill b)). assert (Hd' : (0 <= d <= max_duration)%Z) by (unfold d, time_sub, min_duration, max_duration; lia).
  destruct (product_near pm d Hp Hd') as (P0 & _ & _). pose proof (pm_ge_1 pm Hp). pose proof (pm_exact pm Hp) as E.
  destruct (flt _ _) eqn:Ef; [lra|]. apply flt_false in Ef. split; [apply round64_nonneg; lra|lra].
Qed.

Definition level (now : Z) (k : string) (l : Limiter) : Q :=
  match buckets l !! k with None => of_int (perMinute l) | Some b => refill (perMinute l) now b end.

Lemma level_ok now k l : lim_ok l → past now (buckets l) → 0 <= level now k l /\ level now k l <= inject_Z (perMinute l).
Proof.
  intros [Hp Hb] Hpast. unfold level. pose proof (pm_ge_1 _ Hp). destruct (buckets l !! k) as [b|] eqn:E; [|rewrite (pm_exact _ Hp); lra].
  apply refill_ok; [done|by eapply Hb|by eapply Hpast].
Qed.

Lemma spend_near t pm : 1 <= t → t <= inject_Z pm → 0 <= fsub t 1 /\ fsub t 1 <= t - 1 + inject_Z pm * eps.
Proof.
  intros H1 H2. destruct (fsub_near t 1 H1) as [F1 F2]. split.
  - eapply Qle_trans; [|exact F1]. apply mul_lo_nonneg. lra.
  - eapply Qle_trans; [exact F2|]. unfold hi. pose proof eps_pos. nra.
Qed.

Lemma pm_eps pm : pm_ok pm → inject_Z pm * eps <= 1.
Proof. intros [_ Hp]. by apply eps_int. Qed.

Lemma fsub_le_pm t pm : pm_ok pm → 1 <= t → t <= inject_Z pm → fsub t 1 <= inject_Z pm.
Proof. intros Hp H1 H2. destruct (spend_near t pm H1 H2) as [_ F]. pose proof (pm_eps pm Hp). lra. Qed.

Lemma allow_cases now k l l' r : Allow now k l = (l', r) → lim_ok l → past now (buckets l) →
  perMinute l' = perMinute l ∧ ∃ t, buckets l' = <[k := MkBucket t now]> (buckets l) ∧ bucket_ok (perMinute l) (MkBucket t now) ∧
    if r then 1 <= level now k l ∧ t <= level now k l - 1 + inject_Z (perMinute l) * eps else t = level now k l.
Proof.
  intros E Hl Hpast. destruct (level_ok now k l Hl Hpast) as [L0 L1]. revert E. unfold Allow. fold (level now k l). destruct (flt (level now k l) 1) eqn:Ef; intros [= <- <-].
  - split; [done|]. exists (level now k l). done.
  - apply flt_false in Ef. destruct (spend_near _ _ Ef L1) as [S0 S1]. split; [done|]. exists (fsub (level now k l) 1).
    split; [done|]. split; [|done]. split; [done|]. apply fsub_le_pm; [apply Hl|done..].
Qed.

Lemma allow_ok now k l l' r : Allow now k l = (l', r) → lim_ok l → past now (buckets l) → lim_ok l' ∧ past now (buckets l').
Proof.
  intros E Hl Hpast. destruct (allow_cases _ _ _ _ _ E Hl Hpast) as (Hpm & t & Hb & Ht & _). unfold lim_ok, past. rewrite Hpm, Hb. destruct Hl as [Hp Hall].
  split; [split; [done|]|]; apply map_Forall_insert_2; done || (simpl; lia).
Qed.

(** ** Reaping is invisible *)

(** The limiter's buckets as a table. *)
Definition touch_bucket (pm now : Z) (o : option bucket) : bucket * bool :=
  let t := match o with None => of_int pm | Some b => refill pm now b end in
  if flt t 1 then (MkBucket t now, false) else (MkBucket (fsub t 1) now, true).

Lemma Allow_call now k l : Allow now k l = let '(m, r) := call (touch_bucket (perMinute l)) now k (buckets l) in (MkLimiter (perMinute l) m, r).
Proof. unfold Allow, call, touch_bucket. by destruct (flt _ _). Qed.

Fixpoint run_ops (ops : list lim_op) (l : Limiter) : Limiter * list bool :=
  match ops with
  | [] => (l, [])
  | Call now k :: rest => let '(l1, r) := Allow now k l in let '(l2, rs) := run_ops rest l1 in (l2, r :: rs)
  | ReapAt now idle :: rest => run_ops rest (Reap now idle l)
  end.
Definition run_allow (calls : list (Z * string)) (l : Limiter) : Limiter * list bool := run_ops (map (λ c, Call c.1 c.2) calls) l.

Lemma run_ops_table ops l : (run_ops ops l).2 = (run_table (touch_bucket (perMinute l)) ops (buckets l)).2.
Proof.
  revert l. induction ops as [|[now k|now idle] ops IH]; intros l; cbn [run_ops run_table]; [done| |apply (IH (Reap now idle l))].
  rewrite Allow_call. destruct (call _ now k (buckets l)) as [m r]. specialize (IH (MkLimiter (perMinute l) m)). cbn [perMinute buckets] in IH.
  destruct (run_ops ops _), (run_table _ ops m). cbn in *. congruence.
Qed.

Lemma touch_bucket_ok pm now o : pm_ok pm → (∀ b, o = Some b → bucket_ok pm b ∧ (lastFill b <= now)%Z) →
  bucket_ok pm (touch_bucket pm now o).1 ∧ lastFill (touch_bucket pm now o).1 = now.
Proof.
  intros Hp Ho. pose proof (pm_ge_1 pm Hp). pose proof (pm_exact pm Hp) as Epm. unfold touch_bucket. set (t := match o with None => _ | Some b => _ end).
  assert (Ht : 0 <= t /\ t <= inject_Z pm) by (unfold t; destruct o as [b|]; [destruct (Ho b eq_refl); by apply refill_ok|rewrite Epm; lra]).
  destruct (flt t 1) eqn:Ef; [done|]. apply flt_false in Ef. split; [|done]. split; cbn; [apply (spend_near t pm); [done|lra]|apply fsub_le_pm; [done..|lra]].
Qed.

Definition minute_and_second : Z := (61 * second)%Z.

Lemma run_same ops t l : lim_ok l → past t (buckets l) → ordered minute_and_second t ops → (run_ops ops l).2 = (run_allow (calls_of ops) l).2.
Proof.
  intros [Hp Hb] Hpast Ho. unfold run_allow. rewrite !run_ops_table.
  apply (idle_invisible (touch_bucket (perMinute l)) (bucket_ok (perMinute l)) minute_and_second) with t; [done| | |done|done|by left].
  - intros now o. by apply touch_bucket_ok.
  - intros now b Hok Hold. unfold touch_bucket. by rewrite refill_full.
Qed.

(** Dropping idle buckets cannot be observed: whatever reaps with an idle limit above a
    minute are interleaved with the calls, the limiter answers every call exactly as if no bucket
    had ever been dropped, because a bucket idle that long refills to the very float64 a new
    bucket starts with. *)
Theorem reap_unobservable ops t l : lim_ok l → past t (buckets l) → ordered minute_and_second t ops →
  (run_ops ops l).2 = (run_allow (calls_of ops) l).2.
Proof. apply run_same. Qed.

(** ** How much gets through *)

(** What is left for [k] at [t], the rounding of the inflow included. *)
Definition allowance (t : Z) (k : string) (l : Limiter) : Q :=
  match buckets l !! k with
  | None => inject_Z (perMinute l)
  | Some b => tokens b + (1 + 7 * eps) * inflow (perMinute l) (t - lastFill b)
  end.

Lemma inflow_add pm d d' : inflow pm (d + d') == inflow pm d + inflow pm d'.
Proof. unfold inflow, seconds_of. rewrite inject_Z_plus. field; repeat split; discriminate. Qed.

Lemma allowance_later t t' k l : pm_ok (perMinute l) → (t <= t')%Z →
  allowance t' k l <= allowance t k l + (1 + 7 * eps) * inflow (perMinute l) (t' - t).
Proof.
  intros Hp Ht. unfold allowance. pose proof (inflow_nonneg (perMinute l) (t' - t) Hp ltac:(lia)) as Hi. pose proof eps_pos.
  destruct (buckets l !! k) as [b|]; [|nra]. replace (t' - lastFill b)%Z with ((t - lastFill b) + (t' - t))%Z by lia. rewrite inflow_add. nra.
Qed.

Lemma level_allowance now k l : lim_ok l → past now (buckets l) → (∀ b, buckets l !! k = Some b → (now - lastFill b <= max_duration)%Z) →
  level now k l <= allowance now k l + inject_Z (perMinute l) * eps.
Proof.
  intros [Hp Hb] Hpast Hrange. unfold level, allowance. pose proof (pm_ge_1 _ Hp) as H1. pose proof eps_pos as He. pose proof (pm_exact _ Hp) as Epm.
  destruct (buckets l !! k) as [b|] eqn:Eb; [|nra]. destruct (Hb k b Eb) as [B0 B1]. pose proof (Hpast k b Eb) as Hle. simpl in Hle. specialize (Hrange b eq_refl).
  unfold refill. assert (time_sub now (lastFill b) = now - lastFill b)%Z as -> by (unfold time_sub, min_duration in *; lia).
  set (d := (now - lastFill b)%Z) in *. set (pm := perMinute l) in *. assert (Hd : (0 <= d <= max_duration)%Z) by (unfold d; lia).
  destruct (product_near pm d Hp Hd) as (P0 & _ & P2). destruct (fadd_near _ _ B0 P0) as [_ A2]. pose proof (inflow_nonneg pm d Hp ltac:(lia)) as Hi.
  set (p := fmul _ _) in *. set (t := fadd (tokens b) p) in *. set (i := inflow pm d) in *. pose proof hi_5 as H5. pose proof hi_bounds.
  assert (Ht : t <= tokens b + (1 + 7 * eps) * i + inject_Z pm * eps).
  { eapply Qle_trans; [exact A2|]. assert (p * hi <= i * (hi * hi * hi * hi * hi)) as Hph.
    { eapply Qle_trans; [apply mul_mono_hi; exact P2|]. apply Qle_lteq. right. ring. }
    assert (i * (hi * hi * hi * hi * hi) <= i * (1 + 7 * eps)) as Hih by (rewrite !(Qmult_comm i); apply Qmult_le_compat_r; [lra|done]).
    assert (tokens b * hi <= tokens b + inject_Z pm * eps) as Htk by (unfold hi; nra). rewrite Qmult_plus_distr_l. lra. }
  destruct (flt (of_int pm) t) eqn:Ef; [|lra]. apply flt_spec in Ef. lra.
Qed.

Definition ok_count (k : string) (calls : list (Z * string)) (rs : list bool) : Z :=
  Z.of_nat (length (filter (λ x : Z * string * bool, x.1.2 = k ∧ x.2 = true) (zip calls rs))).

Fixpoint calls_ordered (t : Z) (calls : list (Z * string)) : Prop :=
  match calls with [] => True | (now, _) :: rest => (t <= now)%Z ∧ calls_ordered now rest end.
Definition final (t : Z) (calls : list (Z * string)) : Z := foldl (λ _ c, c.1) t calls.

Lemma final_ge t calls : calls_ordered t calls → (t <= final t calls)%Z.
Proof. revert t. induction calls as [|[now k] calls IH]; intros t; cbn; [lia|]. intros [Ht Ho]. specialize (IH now Ho). unfold final in *. lia. Qed.

(** One call: what it grants comes out of the allowance. *)
Lemma allow_accounts t now k key l l' r : Allow now key l = (l', r) → lim_ok l → past t (buckets l) → (t <= now)%Z →
  (∀ b, buckets l !! k = Some b → (now - lastFill b <= max_duration)%Z) →
  inject_Z (if bool_decide (key = k ∧ r = true) then 1 else 0) + allowance now k l' <=
  allowance t k l + (1 + 7 * eps) * inflow (perMinute l) (now - t) + 2 * inject_Z (perMinute l) * eps.
Proof.
  intros E Hl Hp Ht Hr. assert (Hpast : past now (buckets l)) by (intros j b Hj; pose proof (Hp j b Hj); simpl in *; lia).
  destruct (allow_cases _ _ _ _ _ E Hl Hpast) as (Epm & x & Eb & [X0 X1] & Hx). pose proof (allowance_later t now k l (proj1 Hl) Ht) as Hlater.
  pose proof (pm_ge_1 _ (proj1 Hl)) as H1. pose proof eps_pos as He. assert (0 <= inject_Z (perMinute l) * eps) as Hpe by (apply Qmult_le_0_compat; lra).
  destruct (decide (key = k)) as [->|Hne].
  - pose proof (level_allowance now k l Hl Hpast Hr) as Hlev. assert (Ea : allowance now k l' == x).
    { unfold allowance. rewrite Eb, lookup_insert_eq. cbn [tokens lastFill]. rewrite Z.sub_diag. unfold inflow, seconds_of. field; repeat split; discriminate. }
    rewrite Ea. destruct r; case_bool_decide as Hb; try tauto.
    + change (inject_Z 1) with 1. lra.
    + destruct Hb. discriminate.
    + subst x. change (inject_Z 0) with 0. lra.
  - rewrite bool_decide_eq_false_2 by tauto. change (inject_Z 0) with 0. unfold allowance in *. rewrite Eb, lookup_insert_ne, Epm by done. lra.
Qed.

Lemma run_accounts k calls t l : lim_ok l → past t (buckets l) → calls_ordered t calls →
  (∀ b, buckets l !! k = Some b → (final t calls - lastFill b <= max_duration)%Z) → (final t calls - t <= max_duration)%Z →
  inject_Z (ok_count k calls (run_allow calls l).2) <=
  allowance t k l + (1 + 7 * eps) * inflow (perMinute l) (final t calls - t) + 2 * inject_Z (Z.of_nat (length calls)) * inject_Z (perMinute l) * eps.
Proof.
  revert t l. induction calls as [|[now key] calls IH]; intros t l Hl Hp Ho Hr Hspan.
  - pose proof (pm_ge_1 _ (proj1 Hl)). pose proof eps_pos. assert (0 <= allowance t k l).
    { unfold allowance. destruct (buckets l !! k) as [b|] eqn:Eb; [|lra]. destruct (proj2 Hl k b Eb) as [B0 _]. pose proof (Hp k b Eb) as Hle. simpl in Hle.
      pose proof (inflow_nonneg (perMinute l) (t - lastFill b) (proj1 Hl) ltac:(lia)). nra. }
    change (final t []) with t. change (ok_count k [] (run_allow [] l).2) with 0%Z. change (inject_Z (Z.of_nat (@length (Z * string) []))) with 0. change (inject_Z 0) with 0.
    assert (0 <= (1 + 7 * eps) * inflow (perMinute l) (t - t)) by (apply Qmult_le_0_compat; [lra|apply inflow_nonneg; [apply Hl|lia]]). lra.
  - destruct Ho as [Ht Ho]. change (final t ((now, key) :: calls)) with (final now calls) in *. pose proof (final_ge now calls Ho) as Hf.
    change (run_allow ((now, key) :: calls) l) with (let '(l1, r) := Allow now key l in let '(l2, rs) := run_allow calls l1 in (l2, r :: rs)).
    destruct (Allow now key l) as [l1 r] eqn:Ea. assert (Hpast : past now (buckets l)) by (intros j b Hj; pose proof (Hp j b Hj); simpl in *; lia).
    pose proof (allow_accounts t now k key l l1 r Ea Hl Hp Ht) as Hacc. destruct (allow_ok _ _ _ _ _ Ea Hl Hpast) as [Hl1 Hp1].
    destruct (allow_cases _ _ _ _ _ Ea Hl Hpast) as (Epm & x & Eb & _). specialize (IH now l1 Hl1 Hp1 Ho). rewrite Epm in IH.
    destruct (run_allow calls l1) as [l2 rs] eqn:Er. cbn [snd] in *.
    assert (Hcnt : ok_count k ((now, key) :: calls) (r :: rs) = ((if bool_decide (key = k ∧ r = true) then 1 else 0) + ok_count k calls rs)%Z).
    { unfold ok_count. cbn [zip zip_with]. rewrite filter_cons. cbn [fst snd]. destruct (decide (key = k ∧ r = true)) as [Hd|Hd].
      - rewrite bool_decide_eq_true_2 by done. cbn [length]. lia.
      - by rewrite bool_decide_eq_false_2. }
    rewrite Hcnt, inject_Z_plus. replace (Z.of_nat (length ((now, key) :: calls))) with (1 + Z.of_nat (length calls))%Z by (cbn [length]; lia). rewrite inject_Z_plus.
    replace (final now calls - t)%Z with ((now - t) + (final now calls - now))%Z by lia. rewrite inflow_add.
    specialize (Hacc ltac:(intros b Hb; specialize (Hr b Hb); lia)).
    specialize (IH ltac:(intros b Hb; rewrite Eb in Hb; apply lookup_insert_Some in Hb as [[_ <-]|[_ Hb]]; [cbn; lia|by apply Hr]) ltac:(lia)).
    change (inject_Z 1) with 1. lra.
Qed.

Lemma New_ok pm : (pm <= 2 ^ 53)%Z → lim_ok (New pm).
Proof. intros Hp. split; [|apply map_Forall_empty]. unfold pm_ok, New. cbn [perMinute]. destruct (Z.leb_spec pm 0); lia. Qed.

Lemma calls_ordered_of t ops : ordered minute_and_second t ops → calls_ordered t (calls_of ops).
Proof.
  revert t. induction ops as [|o ops IH]; intros t; [done|]. intros (Ht & _ & Ho). specialize (IH _ Ho). destruct o as [now k|now idle]; cbn [op_time] in *.
  - done.
  - change (calls_of (ReapAt now idle :: ops)) with (calls_of ops). destruct (calls_of ops) as [|[n k] c]; [done|]. destruct IH. split; [lia|done].
Qed.

(** C25: the limiter keeps its promise in float64 arithmetic: over any history of calls and reaps
    of a new limiter, spanning T seconds, a key gets at most its burst of a minute's worth plus
    what flows in during T plus one, as long as the history is so short that the roundings, each
    of relative size 2^-53, cannot add up to one request. *)
Theorem limiter_bounded pm ops t k : (pm <= 2 ^ 53)%Z → ordered minute_and_second t ops →
  let l := New pm in let calls := calls_of ops in let T := (final t calls - t)%Z in
  (T <= max_duration)%Z →
  7 * inflow (perMinute l) T + 2 * inject_Z (Z.of_nat (length calls)) * inject_Z (perMinute l) <= inject_Z (2 ^ 53) →
  inject_Z (ok_count k calls (run_ops ops l).2) <= inject_Z (perMinute l) + inflow (perMinute l) T + 1.
Proof.
  intros Hp Ho. cbv zeta. intros Hspan Hsmall. pose proof (New_ok pm Hp) as Hl. rewrite (run_same ops t) by (done || apply map_Forall_empty).
  pose proof (run_accounts k (calls_of ops) t (New pm) Hl (map_Forall_empty _) (calls_ordered_of t ops Ho) ltac:(intros b Hb; change (buckets (New pm)) with (∅ : gmap string bucket) in Hb; by rewrite lookup_empty in Hb) Hspan) as Hrun.
  set (pmin := perMinute (New pm)) in *. set (n := inject_Z (Z.of_nat (length (calls_of ops)))) in *. set (i := inflow pmin (final t (calls_of ops) - t)) in *.
  eapply Qle_trans; [exact Hrun|]. change (allowance t k (New pm)) with (inject_Z pmin). assert (Hsum : (7 * i + 2 * n * inject_Z pmin) * eps <= 1).
  { eapply Qle_trans; [apply Qmult_le_compat_r; [exact Hsmall|]|]; [pose proof eps_pos; lra|]. apply eps_int. lia. }
  lra.
Qed.

(** ** Runs *)

Module LimitDemo.
Definition burst : list lim_op := map (λ i, Call (Z.of_nat i * second)%Z "10.0.0.7") (seq 0 7).
Definition ops : list lim_op := burst ++ [Call (7 * second)%Z "10.0.0.8"; ReapAt (400 * second)%Z (300 * second)%Z; Call (401 * second)%Z "10.0.0.7"].

Example answers : (run_ops ops (New 5)).2 = [true; true; true; true; true; false; false; true; true].
Proof. vm_compute. reflexivity. Qed.

Lemma ops_ordered : ordered minute_and_second 0 ops.
Proof. vm_compute. repeat split; discriminate. Qed.

Lemma reap_unobservable_witness : (run_ops ops (New 5)).2 = (run_allow (calls_of ops) (New 5)).2.
Proof. apply (reap_unobservable ops 0 (New 5)); [by apply New_ok|apply map_Forall_empty|exact ops_ordered]. Defined.

Lemma limiter_bounded_witness : inject_Z (ok_count "10.0.0.7" (calls_of ops) (run_ops ops (New 5)).2) <= inject_Z 5 + inflow 5 (401 * second) + 1.
Proof. apply (limiter_bounded 5 ops 0 "10.0.0.7"); [lia|exact ops_ordered|vm_compute; discriminate|vm_compute; discriminate]. Defined.
End LimitDemo.
