(* ===== verification/Probe.v ===== *)
(** * internal/probe: the signed answer to /atreo/ping, and where it listens

    Includes the callback of agent.go that turns an endpoint list into listener addresses.
    Whether a bind succeeds is an argument. *)

From S2P Require Import Prelude TimeText Encoding Json CanonJson NetAddr Crypto AclStore Envelope Relay Pairing Endpoints Float64 RateLimit.
#[local] Close Scope Q_scope.

(** ** Decoding the nonce *)

Definition url_sym (c : ascii) : option ascii :=
  if ceqb c "-" then Some "+"%char else if ceqb c "_" then Some "/"%char
  else if ceqb c "+" || ceqb c "/" || ceqb c "=" then None else Some c.

Fixpoint url_syms (s : string) : option string :=
  match s with
  | "" => Some ""
  | String c r => c' ← url_sym c; r' ← url_syms r; Some (String c' r')
  end.

(** base64.RawURLEncoding.DecodeString: the URL alphabet, no padding, line breaks skipped. *)
Definition raw_url_decode (s : string) : option string :=
  t ← url_syms (Base64.strip_newlines s);
  match slen t mod 4 with
  | 0 => Base64.decode t
  | 2 => Base64.decode (t +:+ "==")
  | 3 => Base64.decode (t +:+ "=")
  | _ => None
  end.

(** ** handlePing *)

Inductive ping_answer :=
| PingStatus (code : Z)
| PingSigned (deviceId timestamp signature : string).

Definition ping_body (deviceID nonce timestamp : string) : json :=
  JObj [("deviceId", JStr deviceID); ("nonce", JStr nonce); ("timestamp", JStr timestamp)].

Section Ping.
Context `{Primitives}.

Definition decode_nonce (nonceB64 : string) : option string :=
  match raw_url_decode nonceB64 with Some n => Some n | None => Base64.decode nonceB64 end.

Definition handlePing (cfgDevice priv : string) (now : Z) (method deviceID nonceB64 : string) : ping_answer :=
  if method <>s "GET" then PingStatus 405
  else if deviceID <>s cfgDevice then PingStatus 404
  else
    match decode_nonce nonceB64 with
    | None => PingStatus 400
    | Some nonce =>
        if negb (slen nonce =? 32) then PingStatus 400
        else
          let timestamp := format_nano now in
          match Marshal (ping_body cfgDevice (Base64.encode nonce) timestamp) with
          | Err _ => PingStatus 500
          | Ok canon => PingSigned cfgDevice timestamp (Base64.encode (ed25519_sign priv canon))
          end
    end.
End Ping.

(** ** Listeners *)

(** The addresses with a listener, and the rate buckets ([lastFill] is updatedAt). *)
Record Server := MkProbe { listeners : gset string; buckets : gmap string bucket }.

Definition NewServer : Server := MkProbe ∅ ∅.

Definition reapBuckets (now : Z) (s : Server) : Server := MkProbe (listeners s) (drop_idle now (5 * minute) (buckets s)).

(** The leaky bucket: capacity 10, one token a second. *)
Definition leak (now : Z) (b : bucket) : Q :=
  let e := Seconds (time_sub now (lastFill b)) in
  let e := if flt e 0 then 0%Q else e in
  let t := fsub (tokens b) (fmul e 1) in
  if flt t 0 then 0%Q else t.

Definition allow (now : Z) (host : string) (s : Server) : Server * bool :=
  let b := default (MkBucket 0%Q now) (buckets s !! host) in
  let t := leak now b in
  let put t := MkProbe (listeners s) (<[host := MkBucket t now]> (buckets s)) in
  if flt 10 (fadd t 1) then (put t, false) else (put (fadd t 1), true).

(** [bound]: the addresses net.Listen accepts. *)
Definition SetBindAddresses (bound : gset string) (addrs : list string) (s : Server) : Server :=
  let want : gset string := list_to_set addrs in
  let kept := listeners s ∩ want in
  MkProbe (kept ∪ ((want ∖ kept) ∩ bound)) (buckets s).

Definition Stop (s : Server) : Server := MkProbe ∅ (buckets s).

Definition BindAddressesFor (ips : list IP) (port : Z) : list string :=
  map (λ ip, JoinHostPort (IP_String ip) (itoa port)) ips.

(** agent.go, the OnChange callback. *)
Definition onChange (bound : gset string) (port : Z) (lan : list Candidate) (s : Server) : Server :=
  SetBindAddresses bound (BindAddressesFor (omap (λ c, ParseIP (cd_Host c)) lan) port) s.

(** One request: the limiter in front of everything, then the mux with its one route. [remote] is
    r.RemoteAddr's host, or all of it when it does not split. *)
Definition serve `{Primitives} (cfgDevice priv : string) (now : Z) (remote path method deviceID nonceB64 : string) (s : Server) : Server * ping_answer :=
  match allow now remote s with
  | (s', false) => (s', PingStatus 429)
  | (s', true) => (s', if path =s "/atreo/ping" then handlePing cfgDevice priv now method deviceID nonceB64 else PingStatus 404)
  end.

(** ** The limiter *)

Definition touch_leaky (now : Z) (o : option bucket) : bucket * bool :=
  let t := leak now (default (MkBucket 0%Q now) o) in
  if flt 10 (fadd t 1) then (MkBucket t now, false) else (MkBucket (fadd t 1) now, true).

Lemma allow_call now k s : allow now k s = let '(m, r) := call touch_leaky now k (buckets s) in (MkProbe (listeners s) m, r).
Proof. unfold allow, call, touch_leaky. by destruct (flt 10 _). Qed.

(** ** Listeners are LAN addresses *)

Lemma SetBindAddresses_members bound addrs s a : a ∈ listeners (SetBindAddresses bound addrs s) ↔ a ∈ addrs ∧ (a ∈ listeners s ∨ a ∈ bound).
Proof.
  unfold SetBindAddresses. cbn [listeners]. rewrite elem_of_union, !elem_of_intersection, elem_of_difference, elem_of_intersection, elem_of_list_to_set.
  destruct (decide (a ∈ listeners s)); naive_solver.
Qed.

Lemma string4_no_colon ip : bytes_ok ip → length ip = 4 → contains_byte ":" (string4 ip) = false.
Proof.
  intros Hb Hl. destruct ip as [|a [|b [|c [|d []]]]]; try done. unfold bytes_ok in Hb. rewrite !Forall_cons in Hb.
  destruct Hb as (Ha & Hb & Hc & Hd & _). unfold string4. cbn [map join].
  assert (Ht : ∀ n, (n < 256)%N → contains_byte ":" (itoa (Z.of_N n)) = false).
  { intros n Hn. pose proof (all_bytes_check (λ n, negb (contains_byte ":" (itoa (Z.of_N n)))) ltac:(vm_compute; reflexivity) n Hn) as E.
    by apply negb_true_iff in E. }
  by rewrite !contains_app, !Ht.
Qed.

Section Bound.
Context `{Unicode} `{Primitives} (ifa : ifa_flags).

(** The text of a LAN candidate is read back as its address, so its listener is that address. *)
Lemma bind_text a b c d port : bytes_ok [a; b; c; d] →
  (λ ip, JoinHostPort (IP_String ip) (itoa port)) <$> ParseIP (string4 [a; b; c; d]) = Some (string4 [a; b; c; d] +:+ ":" +:+ itoa port).
Proof.
  intros Hb. pose proof (string4_no_colon _ Hb eq_refl) as Hn. unfold bytes_ok in Hb. rewrite !Forall_cons in Hb. destruct Hb as (Ha & Hb & Hc & Hd & _).
  rewrite ParseIP_string4 by done. cbn [fmap option_fmap option_map]. rewrite IP_String_v4. unfold JoinHostPort. by rewrite Hn.
Qed.

Lemma filter_in {A} (f : A → bool) l x : x ∈ List.filter f l ↔ x ∈ l ∧ f x = true.
Proof. rewrite !list_elem_of_In. apply filter_In. Qed.

(** The LAN part of an advertised list. *)
Lemma lan_members ifs idx name port pub c : c ∈ List.filter (λ c, cd_Kind c =s KindLAN) (advertised ifa ifs idx name port pub) ↔
  ∃ i v4, i ∈ ifs ∧ considered i = true ∧ v4 ∈ lan_addresses i ∧ c = lan port v4.
Proof.
  rewrite filter_in. unfold advertised. rewrite !elem_of_app, !list_elem_of_fmap. split.
  - intros [[(v4 & -> & Hv)|[Hp|(v & -> & _)]] Hk]; [|exfalso|done].
    + rewrite elem_of_app, !list_elem_of_bind in Hv. destruct Hv as [(i & Hv & Hi)|(i & Hv & Hi)]; rewrite !filter_in in Hi; naive_solver.
    + unfold public4 in Hp. destruct pub as [[ip q]|]; [|by apply elem_of_nil in Hp]. destruct (_ && _); [|by apply elem_of_nil in Hp].
      apply list_elem_of_singleton in Hp as ->. done.
  - intros (i & v4 & Hi & Hc & Hv & ->). split; [|done]. left. exists v4. split; [done|]. rewrite elem_of_app, !list_elem_of_bind.
    destruct (onDefault idx name i) eqn:Eo; [left|right]; exists i; rewrite !filter_in; rewrite ?Eo; done.
Qed.

Lemma lan_address_bytes ifs i v4 : Forall (λ i, Forall (λ a, ∀ ip, a = Some ip → bytes_ok ip) (if_Addrs i)) ifs → i ∈ ifs →
  v4 ∈ lan_addresses i → ∃ a b c d, v4 = [a; b; c; d] ∧ bytes_ok v4 ∧ rfc1918 v4.
Proof.
  intros Hb Hi Hv. destruct (advertised_spec ifa ifs Hb) as [Hl _]. apply (Hl i v4 Hi) in Hv as [Hr (ip & Hip & E)].
  rewrite !Forall_forall in Hb. specialize (Hb i Hi). rewrite Forall_forall in Hb.
  destruct (To4_bytes ip v4 (Hb _ Hip ip eq_refl) E) as [Hby Hl4]. destruct v4 as [|a [|b [|c [|d []]]]]; try done. by exists a, b, c, d.
Qed.

(** A refresh of the endpoint list that reaches the probe server leaves it listening only on
    the RFC 1918 addresses of interfaces that are up and not skipped, with the WireGuard port,
    whatever it listened on before and whichever binds fail: never on every address, and never
    on an address that is no longer advertised; and it does listen on each advertised LAN
    address whose bind succeeds. *)
Theorem probe_lan_only io s s' m l bound srv ifs : r_ifs io = Some ifs →
  Forall (λ i, Forall (λ a, ∀ ip, a = Some ip → bytes_ok ip) (if_Addrs i)) ifs →
  doRefresh ifa io s = (s', Some (m, l)) → let srv' := onChange bound (s_wgPort s) l srv in
  (∀ a, a ∈ listeners srv' → ∃ i v4, i ∈ ifs ∧ considered i = true ∧ v4 ∈ lan_addresses i ∧ rfc1918 v4 ∧
     a = string4 v4 +:+ ":" +:+ itoa (s_wgPort s)) ∧
  (∀ i v4, i ∈ ifs → considered i = true → v4 ∈ lan_addresses i → string4 v4 +:+ ":" +:+ itoa (s_wgPort s) ∈ bound →
     string4 v4 +:+ ":" +:+ itoa (s_wgPort s) ∈ listeners srv').
Proof.
  intros Hifs Hb. unfold doRefresh. rewrite Hifs, collect_reference. destruct (_ && _); [done|].
  destruct (Build _ _ _ _) as [env|]; [|done]. destruct (_ =s _); [done|]. intros [= _ _ <-]. cbn zeta.
  set (port := s_wgPort s). unfold onChange, BindAddressesFor.
  assert (Hwant : ∀ a, a ∈ map (λ ip, JoinHostPort (IP_String ip) (itoa port)) (omap (λ c, ParseIP (cd_Host c))
      (List.filter (λ c, cd_Kind c =s KindLAN) (advertised ifa ifs (r_index io) (r_name io) port (r_public io)))) ↔
    ∃ i v4, i ∈ ifs ∧ considered i = true ∧ v4 ∈ lan_addresses i ∧ a = string4 v4 +:+ ":" +:+ itoa port).
  { intros x. rewrite list_elem_of_fmap. split.
    - intros (ip & -> & (c & Hc & Hp)%list_elem_of_omap). apply lan_members in Hc as (i & v4 & Hi & Hco & Hv & ->).
      exists i, v4. split_and!; [done..|]. destruct (lan_address_bytes ifs i v4 Hb Hi Hv) as (a & b & c & d & -> & Hby & _).
      pose proof (bind_text a b c d port Hby) as Ht. change (cd_Host (lan port [a; b; c; d])) with (string4 [a; b; c; d]) in Hp. rewrite Hp in Ht.
      by injection Ht.
    - intros (i & v4 & Hi & Hco & Hv & ->). destruct (lan_address_bytes ifs i v4 Hb Hi Hv) as (a & b & c & d & -> & Hby & _).
      pose proof (bind_text a b c d port Hby) as Ht. destruct (ParseIP (string4 [a; b; c; d])) as [ip|] eqn:Ep; [|done]. injection Ht as Ht.
      exists ip. split; [done|]. apply list_elem_of_omap. exists (lan port [a; b; c; d]). split; [|done]. apply lan_members. by exists i, [a; b; c; d]. }
  split.
  - intros a [Hw _]%SetBindAddresses_members.
    apply Hwant in Hw as (i & v4 & Hi & Hc & Hv & ->). destruct (lan_address_bytes ifs i v4 Hb Hi Hv) as (? & ? & ? & ? & _ & _ & Hr).
    by exists i, v4.
  - intros i v4 Hi Hc Hv Hbd. pose proof (proj2 (Hwant (string4 v4 +:+ ":" +:+ itoa port))) as Hw.
    specialize (Hw (ex_intro _ i (ex_intro _ v4 (conj Hi (conj Hc (conj Hv eq_refl)))))). apply SetBindAddresses_members. by split; [|right].
Qed.
End Bound.

(** ** What a ping proves *)

Lemma ping_inv `{Primitives} dev priv now method d n d' t sig : handlePing dev priv now method d n = PingSigned d' t sig →
  method = "GET" ∧ d = dev ∧ d' = dev ∧ t = format_nano now ∧ ∃ nonce canon, decode_nonce n = Some nonce ∧ slen nonce = 32 ∧
  Marshal (ping_body dev (Base64.encode nonce) t) = Ok canon ∧ sig = Base64.encode (ed25519_sign priv canon).
Proof.
  unfold handlePing. destruct (method <>s "GET") eqn:E1; [done|]. destruct (d <>s dev) eqn:E2; [done|].
  apply negb_false_iff, seqb_true in E1, E2. destruct (decode_nonce n) as [nonce|]; [|done].
  destruct (Nat.eqb_spec (slen nonce) 32) as [E3|]; [|done]. cbn [negb]. destruct (Marshal _) as [canon|] eqn:E4; [|done].
  intros [= <- <- <-]. split_and!; [done..|]. by exists nonce, canon.
Qed.

Module ProbeDemo.
#[local] Existing Instance AclStore.Demo.ascii_only.
#[local] Existing Instance Toy.prims.

Definition nonce : string := "0123456789abcdef0123456789abcde?".
Example pings : map (λ q, match handlePing "d" Toy.pad 0 q.1.1 q.1.2 q.2 with PingStatus c => c | PingSigned _ _ _ => 200%Z end)
  [("GET", "d", raw_url_encode nonce); ("GET", "d", Base64.encode nonce); ("POST", "d", raw_url_encode nonce); ("GET", "e", raw_url_encode nonce);
   ("GET", "d", raw_url_encode "short"); ("GET", "d", "not base64")] = [200; 200; 405; 404; 400; 400]%Z.
Proof. vm_compute. reflexivity. Qed.

Definition svc : Service := NewService "d" 51820 Toy.pad.
Definition sent : Service * option (Message * list Candidate) := doRefresh linux_ifa (EndDemo.io 1 None) svc.
Definition lan_list : list Candidate := match sent.2 with Some (_, l) => l | None => [] end.
Definition sent_message : Message := match sent.2 with Some (m, _) => m | None => MkOut "" "" "" "" end.
Lemma sent_eq : sent = (sent.1, Some (sent_message, lan_list)).
Proof. vm_compute. reflexivity. Qed.
Definition before : Server := MkProbe {["192.168.1.5:51820"; "192.168.7.7:51820"]} ∅.

Example now_bound : listeners (onChange {["10.0.0.3:51820"]} 51820 lan_list before) = {["192.168.1.5:51820"; "10.0.0.3:51820"]}.
Proof. vm_compute. reflexivity. Qed.

Lemma probe_lan_only_witness : lan_list ≠ [] ∧ ∀ a, a ∈ listeners (onChange {["10.0.0.3:51820"]} 51820 lan_list before) →
  ∃ i v4, i ∈ EndDemo.host ∧ considered i = true ∧ v4 ∈ lan_addresses i ∧ rfc1918 v4 ∧ a = string4 v4 +:+ ":" +:+ itoa 51820.
Proof.
  split; [vm_compute; discriminate|].
  refine (proj1 (probe_lan_only linux_ifa (EndDemo.io 1 None) svc sent.1 sent_message lan_list {["10.0.0.3:51820"]} before EndDemo.host eq_refl _ sent_eq)).
  repeat constructor; intros ip [= <-]; repeat constructor.
Defined.
End ProbeDemo.
