(* ===== verification/Signing.v ===== *)
(** * Everything the device key signs

    One Ed25519 key signs certificates, leases, authenticated requests, admittance messages,
    relay challenges, ping answers, endpoint lists and provisioning transcripts. Most of these
    carry no domain tag: they are told apart by the shape of the signed text, which this file
    shows to be enough. Two of them let a stranger choose part of the text (the relay's and the
    ping's nonce). *)

From S2P Require Import Prelude TimeText Encoding Json CanonJson NetAddr Crypto Atreolink AclStore Envelope Relay Endpoints Probe.

(** A text the agent may sign, by the operation that signs it. *)
Inductive statement :=
| SCert (c : AdmittanceCertificate)                          (* MintAdmittanceCertificate *)
| SLease (deviceID wgPublicKey tunnelIP : string)            (* MintTunnelIPLease *)
| SAuth (deviceID intentPrefix : string) (ts : Z) (kvs : list (string * json)) (* SignAgentAuth, SignWSConnectAuth *)
| SAdmit (deviceID : string) (c : AdmittanceCertificate) (ts : Z) (* BuildAdmittanceMessage *)
| SRelay (deviceID nonce relayHost : string)                 (* relay authenticate *)
| SPing (deviceID nonce timestamp : string)                  (* handlePing *)
| SEndpoints (deviceID : string) (now : Z) (cs : list Candidate) (* endpoints.Build *)
| STranscript (i : ProvisionTranscriptInput).                (* SignProvisionResponse *)

Definition statement_json (s : statement) : option json :=
  match s with
  | SCert c => Some (cert_body c)
  | SLease d k ip => Some (lease_body d k ip)
  | SAuth d p ts kvs => Some (auth_payload d p ts kvs)
  | SAdmit d c ts => Some (admit_body d c ts)
  | SRelay d n h => Some (transcript_body d n h)
  | SPing d n t => Some (ping_body d n t)
  | SEndpoints d now cs => Some (endpoints_payload d now cs)
  | STranscript _ => None
  end.

(** Which operation. *)
Inductive context := CCert | CLease | CAuth | CAdmit | CRelay | CPing | CEndpoints | CTranscript.

#[export] Instance context_eq : EqDecision context.
Proof. solve_decision. Defined.

Definition context_of (s : statement) : context :=
  match s with
  | SCert _ => CCert | SLease _ _ _ => CLease | SAuth _ _ _ _ => CAuth | SAdmit _ _ _ => CAdmit
  | SRelay _ _ _ => CRelay | SPing _ _ _ => CPing | SEndpoints _ _ _ => CEndpoints | STranscript _ => CTranscript
  end.

Section Bytes.
Context `{Primitives}.

(** The bytes handed to Ed25519. *)
Definition signed_bytes (s : statement) : option string :=
  match statement_json s, s with
  | Some v, _ => match Marshal v with Ok b => Some b | Err _ => None end
  | None, STranscript i => match serverTranscriptV2 i with Ok b => Some b | Err _ => None end
  | None, _ => None
  end.

(** The values are what Go's encoder writes: valid UTF-8, each key once, nested within the
    decoder's limit; an authenticated request's own members use no reserved key. *)
Definition statement_ok (s : statement) : Prop :=
  (∀ v, statement_json s = Some v → decoded v) ∧
  match s with SAuth _ _ _ kvs => forallb (λ p, negb (is_reserved p.1)) kvs = true | _ => True end.
End Bytes.

(** ** The operations sign these texts *)

Section Operations.
Context `{Primitives}.

(** A signature an operation of the agent hands out, in base64, with the statement it is for. *)
Inductive issued (sk : string) : statement → string → Prop :=
| issued_cert m k nas att apps now c : MintAdmittanceCertificate m k nas att apps sk now = Ok c → issued sk (SCert c) (ad_Signature c)
| issued_lease d k ip l : MintTunnelIPLease d k ip sk = Ok l → issued sk (SLease d k ip) (l_NASSignature l)
| issued_auth pk d p body now env kvs : SignAgentAuth (MkKeys sk pk) d p body now = Ok env → body_members body = Ok kvs →
    issued sk (SAuth d p (unix now) kvs) (a_Signature env)
| issued_connect pk d now intent ts sig : SignWSConnectAuth (MkKeys sk pk) d now = Ok (intent, ts, sig) → issued sk (SAuth d "tunnel:connect" ts []) sig
| issued_admit d c now m b : BuildAdmittanceMessage d (Some c) sk now = Ok (m, b) → issued sk (SAdmit d c (unix now)) (t_Signature m)
| issued_relay pk info nonce p sig : challenge_response (MkKeys sk pk) info (Some (MkCtrl "relay:challenge" (Some p))) = Ok sig → dec_nonce "" p = Some nonce →
    issued sk (SRelay (g_DeviceID info) nonce (g_RelayHost info)) sig
| issued_ping dev now method d n t sig nonce : handlePing dev sk now method d n = PingSigned dev t sig → decode_nonce n = Some nonce →
    issued sk (SPing dev (Base64.encode nonce) t) sig
| issued_endpoints d now cs env : Build d now cs sk = Ok env → issued sk (SEndpoints d now cs) (SignatureBase64 env)
| issued_transcript pk i sig : SignProvisionResponse (MkKeys sk pk) i = Ok sig → issued sk (STranscript i) sig.

(** Compare texts by their trees: conversion unfolds the encoder last. *)
#[local] Strategy 1000 [Marshal admit_body cert_body].

(** The text whose encoding succeeded is the one signed. *)
Ltac signed := match goal with E : Marshal ?v = Ok ?b |- _ =>
  exists b; rewrite E; split; reflexivity end.

Lemma cert_body_bytes c : Marshal (cert_body c) = certSignedBytes c.
Proof. done. Qed.
Lemma lease_body_bytes d k ip : Marshal (lease_body d k ip) = leaseSignedBytes d k ip.
Proof. done. Qed.
Lemma cert_unsigned m k n a h apps s : certSignedBytes (MkAdmittance m k n a h apps s) = certSignedBytes (MkAdmittance m k n a h apps "").
Proof. unfold certSignedBytes. f_equal. Qed.

Lemma issued_bytes sk s sig : issued sk s sig → ∃ b, signed_bytes s = Some b ∧ sig = Base64.encode (ed25519_sign sk b).
Proof.
  unfold signed_bytes. destruct 1 as [m k nas att apps now c Hi|d k ip l Hi|pk d p body now env kvs Hi Hb|pk d now intent ts sig Hi|d c now m b Hi|
    pk info nonce p sig Hi Hn|dev now method d n t sig nonce Hi Hn|d now cs env Hi|pk i sig Hi]; cbn [statement_json].
  - unfold MintAdmittanceCertificate in Hi. res_inv. rewrite cert_body_bytes, cert_unsigned.
    match goal with E : certSignedBytes _ = Ok ?b |- _ => exists b; by rewrite E end.
  - unfold MintTunnelIPLease in Hi. res_inv. rewrite lease_body_bytes.
    match goal with E : leaseSignedBytes _ _ _ = Ok ?b |- _ => exists b; by rewrite E end.
  - unfold SignAgentAuth in Hi. rewrite Hb in Hi. res_inv. signed.
  - unfold SignWSConnectAuth in Hi. res_inv. simplify_eq. unfold auth_payload. cbn [foldl]. signed.
  - unfold BuildAdmittanceMessage in Hi. cbn [of_option res_bind] in Hi. apply res_bind_ok in Hi as (x & Hx & Hi). apply map_err_ok in Hx.
    apply Ok_inj in Hi. injection Hi as <- <-. signed.
  - unfold challenge_response in Hi. change (expect "relay:challenge" (Some (MkCtrl "relay:challenge" (Some p)))) with
      (@Ok relay_error _ (MkCtrl "relay:challenge" (Some p))) in Hi. cbn [res_bind ct_Payload mbind option_bind] in Hi. rewrite Hn in Hi.
    cbn [of_option res_bind] in Hi. res_inv. signed.
  - apply ping_inv in Hi as (_ & _ & _ & _ & nonce' & b & Hn' & _ & E & ->). assert (nonce' = nonce) as -> by congruence. rewrite E. by eexists.
  - unfold Build in Hi. res_inv. signed.
  - unfold SignProvisionResponse in Hi. res_inv. match goal with E : serverTranscriptV2 _ = Ok ?b |- _ => exists b; by rewrite E end.
Qed.
End Operations.

(** ** Texts have a least length *)

(** A lower bound of the length of the canonical text. *)
Fixpoint min_len (v : json) : nat :=
  match v with
  | JNull | JBool _ => 4
  | JNum _ => 1
  | JStr _ => 2
  | JArr _ => 2
  | JObj kvs => 1 + foldr (λ n acc, n + acc) 0 (map (λ p, match p with (k, x) => slen (Lit.quote k) + 2 + min_len x end) kvs)
  end.

Lemma quote_len s : 2 ≤ slen (Lit.quote s).
Proof. unfold Lit.quote. rewrite !slen_app. change (slen (Lit.chr 0x22)) with 1. lia. Qed.

Definition total (l : list nat) : nat := foldr (λ n acc, n + acc) 0 l.

Lemma total_perm l l' : l ≡ₚ l' → total l = total l'.
Proof. unfold total. induction 1; cbn [foldr] in *; lia. Qed.

Lemma join_len l : total (map (λ s, 1 + slen s) l) ≤ 1 + slen (join "," l).
Proof.
  induction l as [|s [|t l] IH]; [cbn; lia|cbn; lia|]. change (join "," (s :: t :: l)) with (s +:+ "," +:+ join "," (t :: l)).
  rewrite !slen_app. cbn [map total foldr] in *. unfold total in IH. cbn [slen] in *. lia.
Qed.

Lemma obj_len kvs : 1 + total (map (λ p : string * json, slen (Lit.quote p.1) + 2 + slen (text Lit.quote p.2)) kvs) ≤ slen (text Lit.quote (JObj kvs)).
Proof.
  cbn [text]. rewrite !slen_app. pose proof (join_len (map (λ p : string * json, let '(k, v) := p in Lit.quote k +:+ ":" +:+ text Lit.quote v) kvs)) as Hj.
  rewrite map_map in Hj. erewrite (map_ext _ (λ p : string * json, slen (Lit.quote p.1) + 2 + slen (text Lit.quote p.2))) in Hj; cycle 1.
  { intros [k v]. cbn [fst snd]. rewrite !slen_app. cbn [String.length]. lia. }
  cbn [String.length]. lia.
Qed.

Lemma text_min v : distinct v → wf v → min_len v ≤ slen (text Lit.quote (canon v)).
Proof.
  induction v as [|[]|n|s|l IH|kvs IH] using json_ind'; intros Hd Hw; try (cbn; lia).
  - destruct (NumFacts.valid_num_head n Hw) as (c & r & -> & _). cbn. lia.
  - apply quote_len.
  - cbn [canon text min_len]. rewrite !slen_app. cbn [String.length]. lia.
  - apply distinct_obj in Hd as [Hk Hd]. apply wf_obj in Hw. rewrite canon_obj by done. etrans; [|apply obj_len]. cbn [min_len]. apply le_n_S.
    fold (total (map (λ p : string * json, let '(k, x) := p in slen (Lit.quote k) + 2 + min_len x) kvs)).
    rewrite map_map. cbn [fst snd].
    rewrite (total_perm (map (λ p : string * json, slen (Lit.quote p.1) + 2 + slen (text Lit.quote (canon p.2))) (merge_sort key_le kvs))
      (map (λ p : string * json, slen (Lit.quote p.1) + 2 + slen (text Lit.quote (canon p.2))) kvs)) by (apply Permutation_map, merge_sort_Permutation).
    assert (Hall : Forall (λ p : string * json, min_len p.2 ≤ slen (text Lit.quote (canon p.2))) kvs).
    { rewrite Forall_forall in *. intros p Hp. apply IH; [done|by apply Hd|]. by destruct (Hw p Hp). }
    clear -Hall. induction Hall as [|[k x] kvs Hx Hall IH]; [done|]. cbn [map total foldr fst snd] in *. unfold total in IH. lia.
Qed.

(** ** Texts have their keys *)

Definition top_keys (v : json) : gset string := match v with JObj kvs => list_to_set (map fst kvs) | _ => ∅ end.

Lemma canon_keys v : distinct v → top_keys (canon v) = top_keys v.
Proof.
  destruct v as [|b|n|s|l|kvs]; try done. intros [Hk _]%distinct_obj. rewrite canon_obj by done. cbn [top_keys]. rewrite map_map. cbn [fst].
  apply list_to_set_perm_L. change (fst <$> merge_sort key_le kvs ≡ₚ fst <$> kvs). by rewrite merge_sort_Permutation.
Qed.

Lemma map_set_other {A} k (v : A) m p : p ∈ m → p.1 ≠ k → p ∈ map_set k v m.
Proof.
  induction m as [|[k0 v0] m IH]; cbn; [by intros ?%elem_of_nil|]. intros Hp Hne. destruct (k =s k0) eqn:E; str_inv; subst.
  - apply elem_of_cons in Hp as [->|Hp]; [done|by right].
  - apply elem_of_cons in Hp as [->|Hp]; [by left|right; by apply IH].
Qed.

(** An authenticated request keeps its three own members. *)
Lemma auth_members d p ts kvs : forallb (λ p, negb (is_reserved p.1)) kvs = true →
  [("deviceId", JStr d); ("intent", JStr (auth_intent p d ts)); ("ts", JNum (itoa ts))] ⊆
  foldl (λ m p, map_set p.1 p.2 m) [("deviceId", JStr d); ("intent", JStr (auth_intent p d ts)); ("ts", JNum (itoa ts))] kvs.
Proof.
  intros Hr x Hx. assert (Hk : is_reserved x.1 = true).
  { rewrite !elem_of_cons in Hx. destruct Hx as [->|[->|[->|?%elem_of_nil]]]; done. }
  generalize dependent ([("deviceId", JStr d); ("intent", JStr (auth_intent p d ts)); ("ts", JNum (itoa ts))]).
  induction kvs as [|[k v] kvs IH]; intros m Hm; cbn [foldl]; [done|]. cbn [forallb fst] in Hr. apply andb_prop in Hr as [Hr1 Hr].
  apply IH; [done|]. apply map_set_other; [done|]. intros E. cbn in E. by rewrite <- E, Hk in Hr1.
Qed.

Lemma total_sub {A} (f : A → nat) l l' : l ⊆+ l' → total (map f l) ≤ total (map f l').
Proof. unfold total. induction 1; cbn [map foldr]; lia. Qed.

Lemma auth_min d p ts kvs : forallb (λ p, negb (is_reserved p.1)) kvs = true → 33 ≤ min_len (auth_payload d p ts kvs).
Proof.
  intros Hr. unfold auth_payload. cbn [min_len].
  pose proof (auth_members d p ts kvs Hr) as Hs. apply NoDup_submseteq in Hs.
  - apply (total_sub (λ q : string * json, let '(k, x) := q in slen (Lit.quote k) + 2 + min_len x)) in Hs. unfold total in Hs. eapply Nat.le_trans; [|apply le_n_S, Hs].
    vm_compute. lia.
  - repeat (constructor; [set_solver|]). constructor.
Qed.

Section Separated.
Context `{Primitives}.
(** crypto/sha256: a digest has 32 bytes. *)
Hypothesis sha256_size : ∀ m, slen (sha256 m) = 32.

(** A JSON text that is signed, by its tree. *)
Lemma json_bytes s b v : statement_json s = Some v → statement_ok s → signed_bytes s = Some b →
  decoded v ∧ null_free v ∧ Marshal v = Ok b ∧ b = text Lit.quote (canon v).
Proof.
  intros Ev [Hd _] Hb. specialize (Hd v Ev).
  unfold signed_bytes in Hb. rewrite Ev in Hb. destruct (Marshal v) as [b0|] eqn:E; [|done]. injection Hb as ->.
  pose proof E as E'. rewrite Marshal_is_writer in E' by done. pose proof (write_ok_null_free v b (proj1 Hd) E') as Hn.
  rewrite signed_text in E by done. apply Ok_inj in E. done.
Qed.

Lemma json_longer s v : statement_json s = Some v → statement_ok s → 33 ≤ min_len v.
Proof.
  destruct s; cbn [statement_json]; intros [= <-] [_ Hr]; [lazy; lia|lazy; lia|by apply auth_min|lazy; lia..].
Qed.

Definition context_keys (c : context) : gset string :=
  match c with
  | CCert => {["memberId"; "identityKey"; "nasPubkey"; "admittedAt"; "attestationHash"; "initialAllowedAppIds"]}
  | CLease => {["deviceId"; "wgPublicKey"; "tunnelIp"]}
  | CAuth => {["deviceId"; "intent"; "ts"]}
  | CAdmit => {["cert"; "intent"; "ts"]}
  | CRelay => {["deviceId"; "intent"; "nonce"; "relayHost"]}
  | CPing => {["deviceId"; "nonce"; "timestamp"]}
  | CEndpoints => {["candidates"; "deviceId"; "timestamp"]}
  | CTranscript => ∅
  end.

Lemma statement_keys s v : statement_json s = Some v → statement_ok s →
  context_keys (context_of s) ⊆ top_keys v ∧ (context_of s ≠ CAuth → top_keys v = context_keys (context_of s)).
Proof.
  assert (Hrefl : ∀ X Y : gset string, X = Y → Y ⊆ X ∧ (context_of s ≠ CAuth → X = Y)) by (by intros ? ? ->).
  destruct s; cbn [statement_json context_of]; intros [= <-] [_ Hr];
    cycle 2; [|(apply Hrefl; unfold cert_body, lease_body, admit_body, transcript_body, ping_body, endpoints_payload; cbn [top_keys map fst]; apply (bool_decide_eq_true_1 (_ = _)); vm_compute; reflexivity)..].
  split; [|done]. cbn [context_keys]. unfold auth_payload, top_keys. intros x Hx. apply elem_of_list_to_set.
  pose proof (auth_members deviceID intentPrefix ts kvs Hr) as Hs.
  assert (∃ y, (x, y) ∈ [("deviceId", JStr deviceID); ("intent", JStr (auth_intent intentPrefix deviceID ts)); ("ts", JNum (itoa ts))]) as [y Hy].
  { rewrite !elem_of_union, !elem_of_singleton in Hx. destruct Hx as [[->| ->]| ->]; eexists; [left|right; left|right; right; left]. }
  apply Hs in Hy. change x with ((x, y).1). by apply list_elem_of_fmap_2.
Qed.

Lemma auth_apart c : c ≠ CAuth → ¬ context_keys CAuth ⊆ context_keys c.
Proof.
  intros Hc. apply (bool_decide_eq_false_1 (context_keys CAuth ⊆ context_keys c)). destruct c; try done; vm_compute; reflexivity.
Qed.

Lemma keys_apart c c' : context_keys c = context_keys c' → c = c'.
Proof.
  intros E. apply (bool_decide_eq_true_1 (c = c')). transitivity (bool_decide (context_keys c = context_keys c')); [|by apply bool_decide_eq_true].
  destruct c, c'; vm_compute; reflexivity.
Qed.

(** Equal key sets leave one context. *)
Lemma same_context c c' (K : gset string) : context_keys c ⊆ K → (c ≠ CAuth → K = context_keys c) →
  context_keys c' ⊆ K → (c' ≠ CAuth → K = context_keys c') → c = c'.
Proof.
  intros S1 T1 S2 T2. destruct (decide (c = CAuth)) as [->|Ha], (decide (c' = CAuth)) as [->|Ha']; [done| | |].
  - rewrite (T2 Ha') in S1. by apply auth_apart in S1.
  - rewrite (T1 Ha) in S2. by apply auth_apart in S2.
  - apply keys_apart. by rewrite <- (T1 Ha), (T2 Ha').
Qed.

(** A digest is shorter than any signed JSON text. *)
Lemma digest_no_json s s' v b : statement_json s = None → statement_json s' = Some v → statement_ok s' → signed_bytes s = Some b → signed_bytes s' ≠ Some b.
Proof.
  intros E1 E2 Hok B1 B2. destruct (json_bytes s' b v E2 Hok B2) as ([D [W _]] & _ & _ & Hb).
  pose proof (json_longer s' v E2 Hok) as Hl. pose proof (text_min v D W) as Ht. rewrite <- Hb in Ht.
  destruct s; try discriminate E1. unfold signed_bytes in B1. cbn [statement_json] in B1. unfold serverTranscriptV2 in B1. destruct (transcript_bytes i) as [x|]; [|done]. cbn in B1.
  injection B1 as <-. rewrite sha256_size in Ht. lia.
Qed.

Lemma contexts_apart a a' b : statement_ok a → statement_ok a' → signed_bytes a = Some b → signed_bytes a' = Some b →
  context_of a = context_of a' ∧ (∀ d n h, a = SRelay d n h → a' = a) ∧ (∀ d n t, a = SPing d n t → a' = a).
Proof.
  intros Ok1 Ok2 B1 B2. destruct (statement_json a) as [v|] eqn:E1, (statement_json a') as [v'|] eqn:E2.
  - destruct (json_bytes a b v E1 Ok1 B1) as (D & N & M & _), (json_bytes a' b v' E2 Ok2 B2) as (D' & N' & M' & _).
    pose proof (Marshal_same _ _ _ D N D' N' M M') as Hc. pose proof (f_equal top_keys Hc) as Hk.
    rewrite !canon_keys in Hk by apply D || apply D'.
    destruct (statement_keys a v E1 Ok1) as [S1 T1], (statement_keys a' v' E2 Ok2) as [S2 T2].
    assert (Hctx : context_of a = context_of a') by (rewrite Hk in S1, T1; by eapply same_context).
    split; [done|]. split.
    + intros d n h ->. destruct a'; try discriminate Hctx. cbn in E1, E2. injection E1 as <-. injection E2 as <-. rewrite !transcript_canon in Hc.
      by injection Hc as -> -> ->.
    + intros d n t ->. destruct a'; try discriminate Hctx. cbn in E1, E2. injection E1 as <-. injection E2 as <-.
      change (JObj [("deviceId", JStr d); ("nonce", JStr n); ("timestamp", JStr t)] =
              JObj [("deviceId", JStr deviceID); ("nonce", JStr nonce); ("timestamp", JStr timestamp)]) in Hc. by injection Hc as -> -> ->.
  - exfalso. eapply digest_no_json; eauto.
  - exfalso. eapply digest_no_json; eauto.
  - destruct a, a'; try discriminate. done.
Qed.

(** C22: no signature of the device key can be presented as one of another kind: whichever
    operation of the agent issues a signature, it covers bytes that are the signed text of no
    other operation, whatever a coordination service, a relay or a host on the LAN put into
    either text; and where a stranger chooses a nonce (relay challenge, ping), the signature is
    good for that nonce, device and host or time only. *)
Theorem signatures_separated sk a sig : issued sk a sig → statement_ok a →
  ∃ b, signed_bytes a = Some b ∧ sig = Base64.encode (ed25519_sign sk b) ∧
  ∀ a', statement_ok a' → signed_bytes a' = Some b →
    context_of a' = context_of a ∧ (∀ d n h, a = SRelay d n h → a' = a) ∧ (∀ d n t, a = SPing d n t → a' = a).
Proof.
  intros Hi Hok. destruct (issued_bytes sk a sig Hi) as (b & Hb & ->). exists b. split_and!; [done..|]. intros a' Hok' Hb'.
  destruct (contexts_apart a a' b Hok Hok' Hb Hb') as (Hc & ?). done.
Qed.
End Separated.

(** ** A run *)

Module SignDemo.
(** The stand-in primitives, with a 32-byte digest. *)
Definition prims : Primitives := {|
  ed25519_sign := @ed25519_sign Toy.prims;
  ed25519_public := @ed25519_public Toy.prims;
  ed25519_verify := @ed25519_verify Toy.prims;
  sha256 m := stake 32 (m +:+ Toy.pad);
  hkdf32 := @hkdf32 Toy.prims;
  aes_gcm_open := @aes_gcm_open Toy.prims
|}.
#[local] Existing Instance prims.

Lemma digest_size m : slen (sha256 m) = 32.
Proof. cbn [sha256 prims]. rewrite slen_stake; [done|]. rewrite slen_app. change (slen Toy.pad) with 64. lia. Qed.

Definition answer : ping_answer := handlePing "d" Toy.pad 0 "GET" "d" (Base64.encode ProbeDemo.nonce).
Definition ping : statement := SPing "d" (Base64.encode ProbeDemo.nonce) "1970-01-01T00:00:00Z".
Definition answer_sig : string := match answer with PingSigned _ _ s => s | _ => "" end.

Lemma ping_ok : statement_ok ping.
Proof.
  split; [|done]. intros v [= <-]. apply flat_decoded.
  - simpl. repeat (constructor; [set_solver|]). constructor.
  - repeat (constructor; [done|]). constructor.
Qed.

Lemma signatures_separated_witness : ∃ b, signed_bytes ping = Some b ∧ answer_sig = Base64.encode (ed25519_sign Toy.pad b) ∧
  ∀ a', statement_ok a' → signed_bytes a' = Some b → a' = ping.
Proof.
  destruct (signatures_separated digest_size Toy.pad ping answer_sig) as (b & H1 & H2 & H3).
  - apply (issued_ping Toy.pad "d" 0 "GET" "d" (Base64.encode ProbeDemo.nonce)); vm_compute; reflexivity.
  - exact ping_ok.
  - exists b. split_and!; [done..|]. intros a' Hok Hb. by apply (H3 a' Hok Hb) with "d" (Base64.encode ProbeDemo.nonce) "1970-01-01T00:00:00Z".
Defined.
End SignDemo.
