(* ===== verification/Upnp.v ===== *)
(** * internal/upnp: port mappings and IPv6 firewall pinholes

    What gateways answer is an argument, per request; the requests sent, the state kept, the
    order of the protocols, the nonces and their file are the code's. The SOAP and SSDP
    exchanges (tryHighLevel, tryRawSSDPAllInterfaces) are reduced to what the services
    they found answered; Discovery.v has them in full and proves the reduction. *)

From S2P Require Import Prelude Encoding NetAddr Bytes Pcp Endpoints Netlink Reachability.

Definition mappingLeaseSeconds : Z := 1800.
Definition pinholeLeaseSeconds : Z := 3600.

Definition uint16 (z : Z) : Z := (z mod 65536)%Z.

(** How an active mapping or pinhole is torn down. *)
Inductive removal :=
| RmPCP (server : string) (ip : string) (nonce : string)  (* lifetime 0 with this nonce *)
| RmLazy (ip : string) (nonce : string)                   (* the same, gateway looked up then *)
| RmNATPMP
| RmUPnP (uid : Z).

Record pinhole := MkPinhole { ph_nonce : string; ph_remove : removal }.

Record Client := MkUpnp {
  internalPort : Z;
  externalPort : Z;
  pcpEnabled : bool;
  v4cleanup : option removal;
  lastExternalIP : string;
  v6pinholes : gmap string pinhole;
  v4nonce : option (string * string);   (* the nonce and v4localIP, when v4nonceSet *)
  statePath : bool;                     (* a state file is configured *)
  disk : gmap string string             (* the entries of that file *)
}.

Definition zero_nonce : string := zeros 12.

Definition NewClient (port : Z) : Client := MkUpnp port port true None "" ∅ None false ∅.

Definition set_external (c : Client) (port : Z) : Client :=
  MkUpnp (internalPort c) port (pcpEnabled c) (v4cleanup c) (lastExternalIP c) (v6pinholes c) (v4nonce c) (statePath c) (disk c).
Definition set_lastIP (c : Client) (ip : string) : Client :=
  MkUpnp (internalPort c) (externalPort c) (pcpEnabled c) (v4cleanup c) ip (v6pinholes c) (v4nonce c) (statePath c) (disk c).
Definition set_cleanup (c : Client) (r : option removal) : Client :=
  MkUpnp (internalPort c) (externalPort c) (pcpEnabled c) r (lastExternalIP c) (v6pinholes c) (v4nonce c) (statePath c) (disk c).
Definition set_pinholes (c : Client) (m : gmap string pinhole) : Client :=
  MkUpnp (internalPort c) (externalPort c) (pcpEnabled c) (v4cleanup c) (lastExternalIP c) m (v4nonce c) (statePath c) (disk c).
Definition set_v4nonce (c : Client) (n : option (string * string)) : Client :=
  MkUpnp (internalPort c) (externalPort c) (pcpEnabled c) (v4cleanup c) (lastExternalIP c) (v6pinholes c) n (statePath c) (disk c).
Definition set_disk (c : Client) (d : gmap string string) : Client :=
  MkUpnp (internalPort c) (externalPort c) (pcpEnabled c) (v4cleanup c) (lastExternalIP c) (v6pinholes c) (v4nonce c) (statePath c) d.

(** ** The nonce file (pinhole_store.go) *)

(** What persistNonces writes: the v4 nonce under its internal address, every v6 nonce that is
    not the zero nonce of a UPnP pinhole. *)
Definition stored_nonces (c : Client) : gmap string string :=
  let v4 : gmap string string :=
    match v4nonce c with
    | Some (n, ip) => if (ip <>s "") && (n <>s zero_nonce) then {[ip := Hex.encode n]} else ∅
    | None => ∅
    end in
  ((λ p, Hex.encode (ph_nonce p)) <$> filter (λ kv : string * pinhole, ph_nonce kv.2 ≠ zero_nonce) (v6pinholes c)) ∪ v4.

(** [written]: the atomic write succeeded. *)
Definition persistNonces (written : bool) (c : Client) : Client :=
  if statePath c && written then set_disk c (stored_nonces c) else c.

Definition load_nonce (c : Client) (e : string * string) : Client :=
  let '(ipStr, hexNonce) := e in
  match Hex.decode hexNonce with
  | None => c
  | Some n =>
      if negb (slen n =? 12) then c
      else
        match ParseIP ipStr with
        | None => c
        | Some ip =>
            if bool_decide (is_Some (To4 ip)) then set_v4nonce c (Some (n, ipStr))
            else set_pinholes c (<[ipStr := MkPinhole n (RmLazy ipStr n)]> (v6pinholes c))
        end
  end.

(** [file]: the entries read (from the state file or, when it does not exist, the file of the
    older name), [None] when there is nothing readable. *)
Definition loadNonces (file : option (gmap string string)) (c : Client) : Client :=
  match file with
  | Some entries => if statePath c then foldl load_nonce c (map_to_list entries) else c
  | None => c
  end.

Definition SetStatePath (configured : bool) (file : option (gmap string string)) (c : Client) : Client :=
  loadNonces file (MkUpnp (internalPort c) (externalPort c) (pcpEnabled c) (v4cleanup c) (lastExternalIP c) (v6pinholes c) (v4nonce c)
                     configured (default ∅ file)).

(** ** The IPv4 mapping *)

(** A request to the gateway: internal port, suggested external port and, for PCP, the lifetime
    and the nonce. *)
Inductive map_request :=
| ReqPCP (internal suggested lifetime : Z) (nonce : string)
| ReqNATPMP (internal suggested : Z)
| ReqUPnP (internal external : Z).

(** What a service answers: it is not there (or does not tell its external address), so that no
    mapping is requested; it refuses; it grants. *)
Inductive answer (A : Type) := NoService | Refused | Granted (a : A).
Arguments NoService {A}. Arguments Refused {A}. Arguments Granted {A} a.

(** What one attempt meets: the local address, the gateway, a fresh nonce, and the answers. *)
Record map_io := MkMap {
  mi_localIP : option string;
  mi_gateway : option IP;
  mi_nonce : option string;
  mi_pcp : option (IP * Z);       (* external address and port of a granted request *)
  mi_natpmp : answer (string * Z);
  mi_high : answer string;        (* the first service of the standard discovery *)
  mi_raw : list (answer string);  (* the devices of the raw search, in order *)
  mi_written : bool
}.

Definition v4MappingNonce (fresh : option string) (localIP : string) (c : Client) : Client * option string :=
  match v4nonce c with
  | Some (n, ip) => if ip =s localIP then (c, Some n) else
      match fresh with Some n => (set_v4nonce c (Some (n, localIP)), Some n) | None => (c, None) end
  | None => match fresh with Some n => (set_v4nonce c (Some (n, localIP)), Some n) | None => (c, None) end
  end.

Definition tryPCPv4 (io : map_io) (localIP : string) (c : Client) : Client * list map_request * option (string * Z) :=
  match mi_gateway io with
  | None => (c, [], None)
  | Some gw =>
      let '(c1, n) := v4MappingNonce (mi_nonce io) localIP c in
      match n with
      | None => (c1, [], None)
      | Some nonce =>
          let req := ReqPCP (uint16 (internalPort c)) (uint16 (externalPort c)) mappingLeaseSeconds nonce in
          match mi_pcp io with
          | None => (c1, [req], None)
          | Some (ip, port) =>
              let c2 := persistNonces (mi_written io) c1 in
              (set_cleanup c2 (Some (RmPCP (IP_String gw) localIP nonce)), [req], Some (IP_String ip, port))
          end
      end
  end.

Definition tryNATPMP (io : map_io) (c : Client) : Client * list map_request * option (string * Z) :=
  match mi_gateway io with
  | None => (c, [], None)
  | Some _ =>
      let req := ReqNATPMP (internalPort c) (externalPort c) in
      match mi_natpmp io with
      | NoService => (c, [], None)
      | Refused => (c, [req], None)
      | Granted (ip, port) => (set_cleanup c (Some RmNATPMP), [req], Some (ip, port))
      end
  end.

(** mapWithIPConn2, mapWithIPConn1, mapWithPPP: the port is the requested one. *)
Definition tryService (a : answer string) (c : Client) : Client * list map_request * option (string * Z) :=
  let req := ReqUPnP (uint16 (internalPort c)) (uint16 (externalPort c)) in
  match a with
  | NoService => (c, [], None)
  | Refused => (c, [req], None)
  | Granted ip => (set_cleanup c (Some (RmUPnP (uint16 (externalPort c)))), [req], Some (ip, externalPort c))
  end.

(** Protocols in order until one maps. *)
Fixpoint first_mapping (l : list (Client → Client * list map_request * option (string * Z))) (c : Client)
  : Client * list map_request * option (string * Z) :=
  match l with
  | [] => (c, [], None)
  | f :: l' =>
      let '(c1, r1, o) := f c in
      match o with
      | Some res => (c1, r1, Some res)
      | None => let '(c2, r2, o2) := first_mapping l' c1 in (c2, r1 ++ r2, o2)
      end
  end.

Definition addMapping (io : map_io) (c : Client) : Client * list map_request * option (string * Z) :=
  match mi_localIP io with
  | None => (c, [], None)
  | Some localIP =>
      first_mapping ((if pcpEnabled c then [tryPCPv4 io localIP] else []) ++
        [tryNATPMP io; tryService (mi_high io)] ++ map tryService (mi_raw io)) c
  end.

Definition TryMapping (io : map_io) (c : Client) : Client * list map_request * option (string * Z) :=
  let '(c1, reqs, o) := addMapping io c in
  match o with
  | None => (c1, reqs, None)
  | Some (ip, port) => (set_lastIP (set_external c1 port) ip, reqs, Some (ip, port))
  end.

Definition RenewMapping (io : map_io) (c : Client) : Client * list map_request * option (string * Z) :=
  let '(c1, reqs, o) := addMapping io c in
  match o with
  | None => (c1, reqs, None)
  | Some (ip, port) => (set_lastIP c1 ip, reqs, Some (ip, port))
  end.

Definition PublicEndpoint (c : Client) : string * Z :=
  match v4cleanup c with None => ("", 0%Z) | Some _ => (lastExternalIP c, externalPort c) end.

(** What the renewal tick of the agent sees of a renewal. *)
Definition renewal_of (c : Client) (o : option (string * Z)) : renewal :=
  match o with Some (ip, port) => Renewed ip port | None => RenewFailed (PublicEndpoint c).2 end.

Definition Stop (c : Client) : Client * list removal :=
  (set_pinholes (set_cleanup c None) ∅, option_list (v4cleanup c) ++ map (λ kv, ph_remove kv.2) (map_to_list (v6pinholes c))).

(** ** IPv6 pinholes *)

Inductive pinhole_action :=
| ActRemove (r : removal)
| ActPCP (ip : string) (lifetime : Z) (nonce : string)   (* a MAP request for this address *)
| ActAddPinhole (ip : string) (lease : Z).               (* IGDv2 AddPinhole *)

Inductive pinhole_error := ErrNonce | ErrPinhole (ip : string) (renew : bool).

(** The gateway of the IPv6 default route, fresh nonces, which MAP requests are granted, the id
    AddPinhole returns, and whether the nonce file can be written. *)
Record pinhole_io := MkPinIO {
  pi_gateway : option string;
  pi_nonce : string → option string;
  pi_pcp : string → bool;
  pi_upnp : string → answer Z;
  pi_written : bool
}.

Definition storePinhole (io : pinhole_io) (key : string) (p : pinhole) (c : Client) : Client :=
  persistNonces (pi_written io) (set_pinholes c (<[key := p]> (v6pinholes c))).

Definition tryUPnPPinhole (io : pinhole_io) (key : string) (renew : bool) (c : Client) : Client * list pinhole_action * option pinhole_error :=
  match pi_upnp io key with
  | NoService => (c, [], Some (ErrPinhole key renew))
  | Refused => (c, [ActAddPinhole key pinholeLeaseSeconds], Some (ErrPinhole key renew))
  | Granted uid => (storePinhole io key (MkPinhole zero_nonce (RmUPnP uid)) c, [ActAddPinhole key pinholeLeaseSeconds], None)
  end.

Definition ensureV6Pinhole (io : pinhole_io) (key : string) (c : Client) : Client * list pinhole_action * option pinhole_error :=
  let existing := v6pinholes c !! key in
  let renew := bool_decide (is_Some existing) in
  match pcpEnabled c, pi_gateway io with
  | true, Some gw =>
      match (match existing with Some p => Some (ph_nonce p) | None => pi_nonce io key end) with
      | None => (c, [], Some ErrNonce)
      | Some nonce =>
          let req := ActPCP key pinholeLeaseSeconds nonce in
          if pi_pcp io key then (storePinhole io key (MkPinhole nonce (RmPCP gw key nonce)) c, [req], None)
          else if renew then (c, [req], None)
          else let '(c1, acts, e) := tryUPnPPinhole io key renew c in (c1, req :: acts, e)
      end
  | _, _ => tryUPnPPinhole io key renew c
  end.

Definition desired (addrs : list IP) : gset string :=
  list_to_set (map IP_String (List.filter (λ ip, bool_decide (To4 ip = None) && bool_decide (is_Some (NetIP.To16 ip))) addrs)).

Fixpoint ensure_all (io : pinhole_io) (keys : list string) (c : Client) : Client * list pinhole_action * option pinhole_error :=
  match keys with
  | [] => (c, [], None)
  | k :: keys' =>
      let '(c1, a1, e1) := ensureV6Pinhole io k c in
      let '(c2, a2, e2) := ensure_all io keys' c1 in
      (c2, a1 ++ a2, match e1 with Some e => Some e | None => e2 end)
  end.

(** The stale pinholes are removed first; the desired ones are visited in some order. *)
Definition RefreshV6Pinholes (io : pinhole_io) (addrs : list IP) (c : Client) : Client * list pinhole_action * option pinhole_error :=
  let want := desired addrs in
  let stale := filter (λ kv : string * pinhole, kv.1 ∉ want) (v6pinholes c) in
  let kept := filter (λ kv : string * pinhole, kv.1 ∈ want) (v6pinholes c) in
  let c1 := if bool_decide (stale = ∅) then c else persistNonces (pi_written io) (set_pinholes c kept) in
  let removals := map (λ kv, ActRemove (ph_remove kv.2)) (map_to_list stale) in
  if bool_decide (want = ∅) then (c1, removals, None)
  else let '(c2, acts, e) := ensure_all io (elements want) c1 in (c2, removals ++ acts, e).

(** agent.go: refreshV6Pinholes. [None]: the interfaces could not be listed. *)
Definition refreshV6Pinholes (io : pinhole_io) (addrs : option (list IP)) (c : Client) : Client * list pinhole_action * option pinhole_error :=
  match addrs with
  | None | Some [] => (c, [], None)
  | Some l => RefreshV6Pinholes io l c
  end.

(** ** Renewals ask for one mapping *)

Definition suggested (r : map_request) : Z :=
  match r with ReqPCP _ p _ _ => p | ReqNATPMP _ p => p | ReqUPnP _ p => p end.

Definition request_nonce (r : map_request) : option string := match r with ReqPCP _ _ _ n => Some n | _ => None end.

(** What an attempt with local address [ip] keeps and what its requests say. *)
Record attempt_ok (ip : string) (c c' : Client) (reqs : list map_request) (o : option (string * Z)) : Prop := {
  ao_ports : internalPort c' = internalPort c ∧ externalPort c' = externalPort c;
  ao_enabled : pcpEnabled c' = pcpEnabled c;
  ao_last : lastExternalIP c' = lastExternalIP c;
  ao_requests : Forall (λ r, suggested r = externalPort c) reqs;
  ao_active : match o with Some _ => is_Some (v4cleanup c') | None => v4cleanup c' = v4cleanup c end;
  ao_nonce : Forall (λ r, ∀ n, request_nonce r = Some n → v4nonce c' = Some (n, ip)) reqs;
  ao_kept : ∀ n, v4nonce c = Some (n, ip) → v4nonce c' = Some (n, ip)
}.

Lemma persist_fields w c : let c' := persistNonces w c in
  internalPort c' = internalPort c ∧ externalPort c' = externalPort c ∧ pcpEnabled c' = pcpEnabled c ∧ lastExternalIP c' = lastExternalIP c ∧
  v4cleanup c' = v4cleanup c ∧ v4nonce c' = v4nonce c ∧ v6pinholes c' = v6pinholes c ∧ statePath c' = statePath c.
Proof. unfold persistNonces. by destruct (_ && _). Qed.

Lemma nonce_spec fresh ip c c' n : v4MappingNonce fresh ip c = (c', n) →
  internalPort c' = internalPort c ∧ externalPort c' = externalPort c ∧ pcpEnabled c' = pcpEnabled c ∧ lastExternalIP c' = lastExternalIP c ∧
  v4cleanup c' = v4cleanup c ∧ (∀ x, n = Some x → v4nonce c' = Some (x, ip)) ∧ (∀ x, v4nonce c = Some (x, ip) → v4nonce c' = Some (x, ip)).
Proof.
  unfold v4MappingNonce. destruct (v4nonce c) as [[m ip']|] eqn:En.
  - destruct (ip' =s ip) eqn:Ei; str_inv; subst.
    + intros [= <- <-]. split_and!; try done; intros x; rewrite ?En; congruence.
    + destruct fresh as [f|]; intros [= <- <-]; cbn; split_and!; try done; intros x; congruence.
  - destruct fresh as [f|]; intros [= <- <-]; cbn; split_and!; try done; intros x; congruence.
Qed.

Section Ports.
Context (ip : string) (io : map_io).

Lemma attempt_refl c : attempt_ok ip c c [] None.
Proof. by constructor. Qed.

Lemma attempt_trans c c1 c2 r1 r2 o : attempt_ok ip c c1 r1 None → attempt_ok ip c1 c2 r2 o → attempt_ok ip c c2 (r1 ++ r2) o.
Proof.
  intros [[P1 P1'] E1 L1 R1 A1 N1 K1] [[P2 P2'] E2 L2 R2 A2 N2 K2]. constructor; [split; congruence|congruence|congruence|..].
  - apply Forall_app. split; [done|]. by rewrite <- P1'.
  - destruct o; [done|congruence].
  - apply Forall_app. split; [|done]. eapply Forall_impl; [exact N1|]. intros r Hr n Hn. by apply K2, Hr.
  - intros n Hn. by apply K2, K1.
Qed.

Lemma pcp_attempt c : (0 <= externalPort c < 65536)%Z → let '(c', reqs, o) := tryPCPv4 io ip c in attempt_ok ip c c' reqs o.
Proof.
  intros Hp. unfold tryPCPv4. destruct (mi_gateway io) as [gw|]; [|apply attempt_refl].
  destruct (v4MappingNonce (mi_nonce io) ip c) as [c1 n] eqn:En. apply nonce_spec in En as (H1 & H2 & H3 & H4 & H5 & H6 & H7).
  assert (Hu : uint16 (externalPort c) = externalPort c) by (apply Z.mod_small; lia).
  destruct n as [nonce|]; [|by constructor].
  assert (Hr : Forall (λ r, suggested r = externalPort c) [ReqPCP (uint16 (internalPort c)) (uint16 (externalPort c)) mappingLeaseSeconds nonce]) by by repeat constructor.
  assert (Hn : ∀ c', v4nonce c' = v4nonce c1 → Forall (λ r, ∀ n, request_nonce r = Some n → v4nonce c' = Some (n, ip))
    [ReqPCP (uint16 (internalPort c)) (uint16 (externalPort c)) mappingLeaseSeconds nonce]).
  { intros c' ->. repeat constructor. cbn. intros n [= <-]. by apply H6. }
  destruct (mi_pcp io) as [[eip port]|]; [|by constructor; eauto].
  destruct (persist_fields (mi_written io) c1) as (Q1 & Q2 & Q3 & Q4 & Q5 & Q6 & _).
  constructor; cbn [set_cleanup internalPort externalPort pcpEnabled lastExternalIP v4cleanup v4nonce]; eauto; try congruence.
  - split; congruence.
  - intros n Hk. rewrite Q6. by apply H7.
Qed.

Lemma natpmp_attempt c : let '(c', reqs, o) := tryNATPMP io c in attempt_ok ip c c' reqs o.
Proof.
  unfold tryNATPMP. destruct (mi_gateway io); [|apply attempt_refl]. destruct (mi_natpmp io) as [| |[e p]]; [apply attempt_refl|by repeat constructor|].
  constructor; cbn; eauto; repeat constructor; done.
Qed.

Lemma service_attempt a c : (0 <= externalPort c < 65536)%Z → let '(c', reqs, o) := tryService a c in attempt_ok ip c c' reqs o.
Proof.
  intros Hp. assert (Hu : uint16 (externalPort c) = externalPort c) by (apply Z.mod_small; lia).
  unfold tryService. destruct a as [| |e]; [apply attempt_refl|by repeat constructor|]. constructor; cbn; eauto; repeat constructor; done.
Qed.

Lemma first_attempt l c : (0 <= externalPort c < 65536)%Z →
  Forall (λ f, ∀ c, (0 <= externalPort c < 65536)%Z → let '(c', reqs, o) := f c in attempt_ok ip c c' reqs o) l →
  let '(c', reqs, o) := first_mapping l c in attempt_ok ip c c' reqs o.
Proof.
  intros Hp Hl. revert c Hp. induction Hl as [|f l Hf Hl IH]; intros c Hp; cbn [first_mapping]; [apply attempt_refl|].
  specialize (Hf c Hp). destruct (f c) as [[c1 r1] o1]. destruct o1 as [res|]; [done|].
  destruct Hf as [[P1 P1'] E1 L1 R1 A1 N1 K1]. specialize (IH c1 ltac:(by rewrite P1')).
  destruct (first_mapping l c1) as [[c2 r2] o2]. eapply attempt_trans; [|exact IH]. by constructor.
Qed.
End Ports.

Lemma add_attempt io ip c : mi_localIP io = Some ip → (0 <= externalPort c < 65536)%Z →
  let '(c', reqs, o) := addMapping io c in attempt_ok ip c c' reqs o.
Proof.
  intros Hip Hp. unfold addMapping. rewrite Hip. apply first_attempt; [done|]. rewrite !Forall_app. split_and!.
  - destruct (pcpEnabled c); [|done]. repeat constructor. intros. by apply pcp_attempt.
  - repeat constructor; intros; [apply natpmp_attempt|by apply service_attempt].
  - apply Forall_fmap, Forall_true. intros a c0 Hc0. by apply service_attempt.
Qed.

(** The requests of a run of renewals and what each returned. *)
Fixpoint run_renewals (ios : list map_io) (c : Client) : Client * list map_request * list (option (string * Z)) :=
  match ios with
  | [] => (c, [], [])
  | io :: ios' =>
      let '(c1, r1, o) := RenewMapping io c in
      let '(c2, r2, os) := run_renewals ios' c1 in (c2, r1 ++ r2, o :: os)
  end.

Definition last_success (os : list (option (string * Z))) : option string := last (omap (fmap fst) os).

Lemma renewals_spec ip ios c : (0 <= externalPort c < 65536)%Z → Forall (λ io, mi_localIP io = Some ip) ios →
  let '(c', reqs, os) := run_renewals ios c in
  externalPort c' = externalPort c ∧ Forall (λ r, suggested r = externalPort c) reqs ∧
  Forall (λ r, ∀ n, request_nonce r = Some n → v4nonce c' = Some (n, ip)) reqs ∧ (∀ n, v4nonce c = Some (n, ip) → v4nonce c' = Some (n, ip)) ∧
  PublicEndpoint c' = match last_success os with Some e => (e, externalPort c) | None => PublicEndpoint c end.
Proof.
  intros Hp Hl. revert c Hp. induction Hl as [|io ios Hio Hl IH]; intros c Hp; cbn [run_renewals]; [done|].
  pose proof (add_attempt io ip c Hio Hp) as Ha. unfold RenewMapping. destruct (addMapping io c) as [[c1 r1] o] eqn:Ea.
  set (c1' := match o with Some (e, _) => set_lastIP c1 e | None => c1 end).
  assert (Hstep : match o with None => (c1, r1, None) | Some (e, port) => (set_lastIP c1 e, r1, Some (e, port)) end = (c1', r1, o))
    by (unfold c1'; by destruct o as [[e q]|]). rewrite Hstep. clear Hstep Ea.
  destruct Ha as [[P1 P1'] E1 L1 R1 A1 N1 K1].
  assert (Hf : externalPort c1' = externalPort c ∧ v4nonce c1' = v4nonce c1 ∧
    PublicEndpoint c1' = match o with Some (e, _) => (e, externalPort c) | None => PublicEndpoint c end).
  { unfold c1', PublicEndpoint. destruct o as [[e q]|]; cbn.
    - destruct A1 as [x ->]. by rewrite P1'.
    - by rewrite A1, L1, P1'. }
  destruct Hf as (F1 & F2 & F3). specialize (IH c1' ltac:(by rewrite F1)). destruct (run_renewals ios c1') as [[c2 r2] os].
  destruct IH as (I1 & I2 & I3 & I4 & I5). split_and!.
  - congruence.
  - apply Forall_app. split; [done|]. by rewrite <- F1.
  - apply Forall_app. split; [|done]. eapply Forall_impl; [exact N1|]. intros r Hr n Hn. apply I4. rewrite F2. by apply Hr.
  - intros n Hn. apply I4. rewrite F2. by apply K1.
  - rewrite I5, F1, F3. unfold last_success. cbn [omap list_omap]. destruct o as [[e q]|]; cbn [fmap option_fmap option_map fst].
    + rewrite last_cons. by destruct (last _).
    + done.
Qed.

(** While the internal address stays the same, every request of every renewal, in whichever
    protocol, suggests the one external port and every PCP request carries the one nonce, so
    that each renewal refreshes the same mapping; the published endpoint is the address of the
    last renewal that succeeded with that port, and until one has succeeded there is none. *)
Theorem renewals_stable ip ios port : (0 <= port < 65536)%Z → Forall (λ io, mi_localIP io = Some ip) ios →
  let '(c, reqs, os) := run_renewals ios (NewClient port) in
  Forall (λ r, suggested r = port) reqs ∧
  (∀ r r' n n', r ∈ reqs → r' ∈ reqs → request_nonce r = Some n → request_nonce r' = Some n' → n = n') ∧
  PublicEndpoint c = match last_success os with Some e => (e, port) | None => ("", 0%Z) end.
Proof.
  intros Hp Hl. pose proof (renewals_spec ip ios (NewClient port) Hp Hl) as Hr. destruct (run_renewals ios (NewClient port)) as [[c reqs] os].
  destruct Hr as (H1 & H2 & H3 & _ & H5). split_and!; [done| |by rewrite H5].
  intros r r' n n' Hr Hr' Hn Hn'. rewrite Forall_forall in H3. pose proof (H3 _ Hr n Hn). pose proof (H3 _ Hr' n' Hn'). congruence.
Qed.

(** ** Pinholes follow the advertised addresses *)

(** The address an action is about, when it opens or renews. *)
Definition act_key (a : pinhole_action) : option string :=
  match a with ActRemove _ => None | ActPCP k _ _ => Some k | ActAddPinhole k _ => Some k end.

(** The file agrees with the table. *)
Definition synced (c : Client) : Prop := statePath c = true → disk c = stored_nonces c.

Lemma persist_synced w c : w = true → synced (persistNonces w c).
Proof. intros ->. unfold persistNonces, synced. destruct (statePath c) eqn:E; cbn; [done|congruence]. Qed.

Record ensured (io : pinhole_io) (k : string) (c c' : Client) (acts : list pinhole_action) (e : option pinhole_error) : Prop := {
  en_other : ∀ k', k' ≠ k → v6pinholes c' !! k' = v6pinholes c !! k';
  en_some : e = None → is_Some (v6pinholes c' !! k);
  en_keep : is_Some (v6pinholes c !! k) → is_Some (v6pinholes c' !! k);
  en_flags : pcpEnabled c' = pcpEnabled c ∧ statePath c' = statePath c;
  en_acts : Forall (λ a, act_key a = Some k) acts;
  en_pcp : pcpEnabled c = true → is_Some (pi_gateway io) → ∀ p, v6pinholes c !! k = Some p →
    (∃ p', v6pinholes c' !! k = Some p' ∧ ph_nonce p' = ph_nonce p) ∧ (∀ l n, ActPCP k l n ∈ acts → n = ph_nonce p);
  en_disk : pi_written io = true → synced c → synced c'
}.

Lemma store_spec io k p c : let c' := storePinhole io k p c in
  v6pinholes c' = <[k := p]> (v6pinholes c) ∧ pcpEnabled c' = pcpEnabled c ∧ statePath c' = statePath c ∧ (pi_written io = true → synced c').
Proof.
  unfold storePinhole. destruct (persist_fields (pi_written io) (set_pinholes c (<[k := p]> (v6pinholes c)))) as (_ & _ & E1 & _ & _ & _ & E2 & E3).
  cbn zeta. rewrite E1, E2, E3. split_and!; try done. intros Hw. by apply persist_synced.
Qed.

Lemma ensured_store io k c p acts : Forall (λ a, act_key a = Some k) acts →
  (pcpEnabled c = true → is_Some (pi_gateway io) → ∀ q, v6pinholes c !! k = Some q → ph_nonce p = ph_nonce q ∧ ∀ l n, ActPCP k l n ∈ acts → n = ph_nonce q) →
  ensured io k c (storePinhole io k p c) acts None.
Proof.
  intros Ha Hp. destruct (store_spec io k p c) as (E & F1 & F2 & F3). constructor; try exact Ha; try rewrite E.
  - intros k' Hk. by rewrite lookup_insert_ne.
  - rewrite lookup_insert_eq. by eexists.
  - rewrite lookup_insert_eq. by eexists.
  - done.
  - intros H1 H2 q Hq. destruct (Hp H1 H2 q Hq) as [? ?]. split; [|done]. exists p. by rewrite lookup_insert_eq.
  - intros Hw _. by apply F3.
Qed.

Lemma ensured_same io k c acts e : Forall (λ a, act_key a = Some k) acts → (e = None → is_Some (v6pinholes c !! k)) →
  (pcpEnabled c = true → is_Some (pi_gateway io) → ∀ q, v6pinholes c !! k = Some q → ∀ l n, ActPCP k l n ∈ acts → n = ph_nonce q) →
  ensured io k c c acts e.
Proof. intros Ha He Hp. constructor; try done. intros H1 H2 p Hp'. split; [by exists p|by eapply Hp]. Qed.

Lemma upnp_ensured io k renew c pre : Forall (λ a, act_key a = Some k) pre → (pcpEnabled c = true → is_Some (pi_gateway io) → v6pinholes c !! k = None) →
  let '(c', acts, e) := tryUPnPPinhole io k renew c in ensured io k c c' (pre ++ acts) e.
Proof.
  intros Hpre Hnone. unfold tryUPnPPinhole. destruct (pi_upnp io k) as [| |uid].
  - apply ensured_same; [by rewrite app_nil_r|done|]. intros H1 H2 q Hq. by rewrite (Hnone H1 H2) in Hq.
  - apply ensured_same; [apply Forall_app; by repeat constructor|done|]. intros H1 H2 q Hq. by rewrite (Hnone H1 H2) in Hq.
  - apply ensured_store; [apply Forall_app; by repeat constructor|]. intros H1 H2 q Hq. by rewrite (Hnone H1 H2) in Hq.
Qed.

Lemma ensure_ok io k c : let '(c', acts, e) := ensureV6Pinhole io k c in ensured io k c c' acts e.
Proof.
  unfold ensureV6Pinhole. destruct (pcpEnabled c) eqn:Ep; [destruct (pi_gateway io) as [gw|] eqn:Eg|].
  - destruct (v6pinholes c !! k) as [p|] eqn:Ek.
    + destruct (pi_pcp io k).
      * apply ensured_store; [by repeat constructor|]. intros _ _ q [= <-]%(eq_trans (eq_sym Ek)). split; [done|].
        intros l n [= -> ->]%list_elem_of_singleton. done.
      * cbn. apply ensured_same; [by repeat constructor|by rewrite Ek|]. intros _ _ q [= <-]%(eq_trans (eq_sym Ek)) l n [= -> ->]%list_elem_of_singleton. done.
    + destruct (pi_nonce io k) as [nonce|]; [|apply ensured_same; [by apply Forall_nil|done|by intros _ _ q _ l n ?%elem_of_nil]].
      destruct (pi_pcp io k); [apply ensured_store; [by repeat constructor|congruence]|]. cbn [bool_decide].
      pose proof (upnp_ensured io k false c [ActPCP k pinholeLeaseSeconds nonce] ltac:(by repeat constructor) (λ _ _, Ek)) as H.
      rewrite bool_decide_eq_false_2 by by intros [? ?]. by destruct (tryUPnPPinhole io k false c) as [[c1 a1] e1].
  - apply (upnp_ensured io k _ c []); [constructor|]. rewrite Eg. by intros _ [? ?].
  - apply (upnp_ensured io k _ c []); [constructor|]. by rewrite Ep.
Qed.

(** All the keys of a refresh. *)
Lemma ensure_all_ok io keys c : NoDup keys → let '(c', acts, e) := ensure_all io keys c in
  (∀ k, k ∉ keys → v6pinholes c' !! k = v6pinholes c !! k) ∧ (e = None → ∀ k, k ∈ keys → is_Some (v6pinholes c' !! k)) ∧
  (∀ k, is_Some (v6pinholes c !! k) → is_Some (v6pinholes c' !! k)) ∧ (pcpEnabled c' = pcpEnabled c ∧ statePath c' = statePath c) ∧
  Forall (λ a, ∃ k, k ∈ keys ∧ act_key a = Some k) acts ∧
  (pcpEnabled c = true → is_Some (pi_gateway io) → ∀ k p, k ∈ keys → v6pinholes c !! k = Some p →
    (∃ p', v6pinholes c' !! k = Some p' ∧ ph_nonce p' = ph_nonce p) ∧ (∀ l n, ActPCP k l n ∈ acts → n = ph_nonce p)) ∧
  (pi_written io = true → synced c → synced c').
Proof.
  intros Hnd. revert c. induction Hnd as [|k keys Hk Hnd IH]; intros c; cbn [ensure_all].
  { split_and!; try done; [by intros _ k ?%elem_of_nil|by intros _ _ k p ?%elem_of_nil]. }
  pose proof (ensure_ok io k c) as He. destruct (ensureV6Pinhole io k c) as [[c1 a1] e1]. specialize (IH c1).
  destruct (ensure_all io keys c1) as [[c2 a2] e2]. destruct IH as (I1 & I2 & I3 & [I4 I4'] & I5 & I6 & I7).
  destruct He as [E1 E2 E3 [E4 E4'] E5 E6 E7]. split_and!.
  - intros k' Hk'. rewrite I1 by set_solver. apply E1. set_solver.
  - intros Hn k' Hk'. destruct e1; [done|]. apply elem_of_cons in Hk' as [->|Hk']; [apply I3; by apply E2|by apply I2].
  - intros k' Hs. apply I3. destruct (decide (k' = k)) as [->|Hne]; [by apply E3|]. by rewrite E1.
  - congruence.
  - congruence.
  - apply Forall_app. split.
    + eapply Forall_impl; [exact E5|]. intros a Ha. exists k. by split; [left|].
    + eapply Forall_impl; [exact I5|]. intros a (k' & ? & ?). exists k'. by split; [right|].
  - intros Hp Hg k' p Hk' Hl. rewrite Forall_forall in E5, I5. apply elem_of_cons in Hk' as [->|Hk'].
    + destruct (E6 Hp Hg p Hl) as [(p' & Hp' & Hnn) Ha]. split; [exists p'; by rewrite I1|]. intros l n [Hin|Hin]%elem_of_app; [by eapply Ha|].
      destruct (I5 _ Hin) as (k2 & Hk2 & [= ->]). done.
    + assert (k' ≠ k) as Hne by set_solver. rewrite <- (E1 k' Hne) in Hl. destruct (I6 ltac:(congruence) Hg k' p Hk' Hl) as [Hp' Ha].
      split; [done|]. intros l n [Hin|Hin]%elem_of_app; [|by eapply Ha]. pose proof (E5 _ Hin) as [= ->]. done.
  - intros Hw Hs. by apply I7, E7.
Qed.

(** After a refresh the pinhole table holds only advertised addresses, and when the refresh
    reports no error it holds every one of them; each pinhole of an address that is gone is torn
    down with the action that was kept for it; a renewal by PCP uses the nonce the pinhole was
    opened with (RFC 6887 rejects any other), and the pinhole keeps it; the nonce file agrees
    with the table whenever it did before and can be written. *)
Theorem pinholes_follow_addresses io addrs c c' acts e : RefreshV6Pinholes io addrs c = (c', acts, e) →
  (∀ k, is_Some (v6pinholes c' !! k) → k ∈ desired addrs) ∧
  (e = None → ∀ k, k ∈ desired addrs → is_Some (v6pinholes c' !! k)) ∧
  (∀ k p, v6pinholes c !! k = Some p → k ∉ desired addrs → ActRemove (ph_remove p) ∈ acts) ∧
  (pcpEnabled c = true → is_Some (pi_gateway io) → ∀ k p, k ∈ desired addrs → v6pinholes c !! k = Some p →
     (∃ p', v6pinholes c' !! k = Some p' ∧ ph_nonce p' = ph_nonce p) ∧ (∀ l n, ActPCP k l n ∈ acts → n = ph_nonce p)) ∧
  (pi_written io = true → synced c → synced c').
Proof.
  unfold RefreshV6Pinholes. set (want := desired addrs).
  set (stale := filter (λ kv : string * pinhole, kv.1 ∉ want) (v6pinholes c)). set (kept := filter (λ kv : string * pinhole, kv.1 ∈ want) (v6pinholes c)).
  set (c1 := if bool_decide (stale = ∅) then c else persistNonces (pi_written io) (set_pinholes c kept)).
  assert (Hc1 : v6pinholes c1 = kept ∧ pcpEnabled c1 = pcpEnabled c ∧ statePath c1 = statePath c ∧ (pi_written io = true → synced c → synced c1)).
  { unfold c1. case_bool_decide as Hs.
    - split_and!; try done. unfold kept. symmetry. apply map_filter_id. intros k p Hl. cbn. apply dec_stable. intros Hn.
      assert (Hst : stale !! k = Some p) by (apply map_lookup_filter_Some; done). rewrite Hs in Hst. by rewrite lookup_empty in Hst.
    - destruct (persist_fields (pi_written io) (set_pinholes c kept)) as (_ & _ & F1 & _ & _ & _ & F2 & F3). rewrite F1, F2, F3.
      split_and!; try done. intros Hw _. by apply persist_synced. }
  clearbody c1. destruct Hc1 as (K1 & K2 & K3 & K4).
  assert (Hrm : ∀ k p, v6pinholes c !! k = Some p → k ∉ want → ActRemove (ph_remove p) ∈ map (λ kv : string * pinhole, ActRemove (ph_remove kv.2)) (map_to_list stale)).
  { intros k p Hl Hn. change (ActRemove (ph_remove p)) with ((λ kv : string * pinhole, ActRemove (ph_remove kv.2)) (k, p)).
    apply list_elem_of_fmap_2, elem_of_map_to_list. by apply map_lookup_filter_Some. }
  case_bool_decide as Hw.
  - intros [= <- <- <-]. rewrite K1. split_and!; try done.
    + intros k [p (_ & Hk)%map_lookup_filter_Some]. done.
    + intros _ k Hk. rewrite Hw in Hk. by apply elem_of_empty in Hk.
    + intros _ _ k p Hk. rewrite Hw in Hk. by apply elem_of_empty in Hk.
  - pose proof (ensure_all_ok io (elements want) c1 (NoDup_elements want)) as Ha. destruct (ensure_all io (elements want) c1) as [[c2 acts2] e2].
    intros [= <- <- <-]. destruct Ha as (I1 & I2 & I3 & [I4 I4'] & I5 & I6 & I7). rewrite K1 in I1, I6. split_and!.
    + intros k Hs. apply dec_stable. intros Hn. rewrite I1 in Hs by by rewrite elem_of_elements. destruct Hs as [p (_ & Hk)%map_lookup_filter_Some]. done.
    + intros He k Hk. apply I2; [done|]. by apply elem_of_elements.
    + intros k p Hl Hn. apply elem_of_app. left. by eapply Hrm.
    + intros Hp Hg k p Hk Hl. destruct (I6 ltac:(congruence) Hg k p) as [H1 H2]; [by apply elem_of_elements|by apply map_lookup_filter_Some|].
      split; [done|]. intros l n [Hin|Hin]%elem_of_app; [|by eapply H2]. apply list_elem_of_fmap in Hin as (kv & [=] & _).
    + intros Hwr Hs. apply I7; [done|]. by apply K4.
Qed.

(** ** A pinhole opened by UPnP is not renewed *)

Definition run_pinholes (ios : list (pinhole_io * list IP)) (c : Client) : Client * list pinhole_action :=
  foldl (λ acc io, let '(c', acts, _) := RefreshV6Pinholes io.1 io.2 acc.1 in (c', acc.2 ++ acts)) (c, []) ios.

Definition not_granted (k : string) (io : pinhole_io) : Prop := is_Some (pi_gateway io) ∧ pi_pcp io k = false.

Lemma ensure_all_keeps io keys k p c : not_granted k io → pcpEnabled c = true → v6pinholes c !! k = Some p →
  let '(c', acts, _) := ensure_all io keys c in
  v6pinholes c' !! k = Some p ∧ pcpEnabled c' = true ∧ ∀ l, ActAddPinhole k l ∉ acts.
Proof.
  intros [[gw Hg] Hp] Hen. revert c Hen. induction keys as [|j keys IH]; intros c Hen Hk; cbn [ensure_all].
  { split_and!; [done..|]. by intros l ?%elem_of_nil. }
  assert (Hj : let '(c1, a1, _) := ensureV6Pinhole io j c in v6pinholes c1 !! k = Some p ∧ pcpEnabled c1 = true ∧ ∀ l, ActAddPinhole k l ∉ a1).
  { destruct (decide (j = k)) as [->|Hne].
    - unfold ensureV6Pinhole. rewrite Hen, Hg, Hk, Hp. cbn. split_and!; [done..|]. by intros l ?%list_elem_of_singleton.
    - pose proof (ensure_ok io j c) as He. destruct (ensureV6Pinhole io j c) as [[c1 a1] e1]. destruct He as [E1 _ _ [E4 _] E5 _ _].
      split_and!; [by rewrite E1|congruence|]. intros l Hin. rewrite Forall_forall in E5. apply E5 in Hin. cbn in Hin. congruence. }
  destruct (ensureV6Pinhole io j c) as [[c1 a1] e1]. destruct Hj as (J1 & J2 & J3). specialize (IH c1 J2 J1).
  destruct (ensure_all io keys c1) as [[c2 a2] e2]. destruct IH as (I1 & I2 & I3). split_and!; [done..|].
  intros l [Hin|Hin]%elem_of_app; [by eapply J3|by eapply I3].
Qed.

Lemma refresh_keeps io addrs k p c : not_granted k io → k ∈ desired addrs → pcpEnabled c = true → v6pinholes c !! k = Some p →
  let '(c', acts, _) := RefreshV6Pinholes io addrs c in
  v6pinholes c' !! k = Some p ∧ pcpEnabled c' = true ∧ ∀ l, ActAddPinhole k l ∉ acts.
Proof.
  intros Hn Hd Hen Hk. unfold RefreshV6Pinholes.
  set (stale := filter (λ kv : string * pinhole, kv.1 ∉ desired addrs) (v6pinholes c)).
  set (c1 := if bool_decide (stale = ∅) then c else _).
  assert (Hc1 : v6pinholes c1 !! k = Some p ∧ pcpEnabled c1 = true).
  { unfold c1. case_bool_decide; [done|]. destruct (persist_fields (pi_written io)
      (set_pinholes c (filter (λ kv : string * pinhole, kv.1 ∈ desired addrs) (v6pinholes c)))) as (_ & _ & F1 & _ & _ & _ & F2 & _).
    rewrite F1, F2. split; [|done]. by apply map_lookup_filter_Some. }
  clearbody c1. destruct Hc1 as [Hk1 Hen1]. rewrite bool_decide_eq_false_2 by (intros E; rewrite E in Hd; by apply elem_of_empty in Hd).
  pose proof (ensure_all_keeps io (elements (desired addrs)) k p c1 Hn Hen1 Hk1) as Ha.
  destruct (ensure_all io (elements (desired addrs)) c1) as [[c2 a2] e2]. destruct Ha as (A1 & A2 & A3). split_and!; [done..|].
  intros l [Hin|Hin]%elem_of_app; [|by eapply A3]. apply list_elem_of_fmap in Hin as (kv & [=] & _).
Qed.

(** C38: once an address has a pinhole, a refresh that reaches an IPv6 gateway which does not
    grant PCP requests leaves it as it is and never falls back to AddPinhole: over any number of
    refreshes no UPnP request for that address is sent. A pinhole that UPnP opened, with a lease
    of 3600 seconds, is therefore never renewed there and lapses after an hour. *)
Theorem upnp_pinhole_not_renewed k p ios c : pcpEnabled c = true → v6pinholes c !! k = Some p →
  Forall (λ io : pinhole_io * list IP, not_granted k io.1 ∧ k ∈ desired io.2) ios →
  v6pinholes (run_pinholes ios c).1 !! k = Some p ∧ ∀ l, ActAddPinhole k l ∉ (run_pinholes ios c).2.
Proof.
  intros Hen Hk Hios.
  assert (H : ∀ acts0, (∀ l, ActAddPinhole k l ∉ acts0) → let r := foldl (λ acc io, let '(c', acts, _) := RefreshV6Pinholes io.1 io.2 acc.1 in (c', acc.2 ++ acts))
    (c, acts0) ios in v6pinholes r.1 !! k = Some p ∧ ∀ l, ActAddPinhole k l ∉ r.2).
  { revert c Hen Hk. induction Hios as [|[io addrs] ios [Hn Hd] Hios IH]; intros c Hen Hk acts0 H0; cbn [foldl fst snd]; [done|].
    pose proof (refresh_keeps io addrs k p c Hn Hd Hen Hk) as Hr. destruct (RefreshV6Pinholes io addrs c) as [[c1 a1] e1].
    destruct Hr as (R1 & R2 & R3). apply IH; [done..|]. intros l [Hin|Hin]%elem_of_app; [by eapply H0|by eapply R3]. }
  apply H. by intros l ?%elem_of_nil.
Qed.

(** ** The nonce file brings the nonces back *)

(** Every key is the text of an address of its family and every nonce has its twelve bytes. *)
Record nonces_ok (c : Client) : Prop := {
  no_v6 : ∀ k p, v6pinholes c !! k = Some p → slen (ph_nonce p) = 12 ∧ ∃ ip, ParseIP k = Some ip ∧ To4 ip = None;
  no_v4 : ∀ n ip, v4nonce c = Some (n, ip) → slen n = 12 ∧ ∃ a b, ParseIP ip = Some a ∧ To4 a = Some b
}.

Lemma load_one k n c ip : slen n = 12 → ParseIP k = Some ip → load_nonce c (k, Hex.encode n) =
  if bool_decide (is_Some (To4 ip)) then set_v4nonce c (Some (n, k)) else set_pinholes c (<[k := MkPinhole n (RmLazy k n)]> (v6pinholes c)).
Proof. intros Hn Hp. unfold load_nonce. by rewrite Hex.unhex_hex, Hn, Hp. Qed.

Lemma hex_encode_inj a b : Hex.encode a = Hex.encode b → a = b.
Proof. intros E. apply (f_equal Hex.decode) in E. rewrite !Hex.unhex_hex in E. congruence. Qed.

Lemma not_in_tail (k x : string) (l : list (string * string)) : k ∉ map fst l → (k, x) ∉ l.
Proof. intros Hn Hin. apply Hn. change k with ((k, x).1). by apply list_elem_of_fmap_2. Qed.

Lemma load_all l c : NoDup (map fst l) →
  Forall (λ e : string * string, ∃ n ip, e.2 = Hex.encode n ∧ slen n = 12 ∧ ParseIP e.1 = Some ip) l →
  (∀ k n ip, (k, Hex.encode n) ∈ l → slen n = 12 → ParseIP k = Some ip → To4 ip = None →
     v6pinholes (foldl load_nonce c l) !! k = Some (MkPinhole n (RmLazy k n))) ∧
  (∀ k, (∀ x, (k, x) ∉ l) → v6pinholes (foldl load_nonce c l) !! k = v6pinholes c !! k) ∧
  (∀ k n ip, (k, Hex.encode n) ∈ l → slen n = 12 → ParseIP k = Some ip → is_Some (To4 ip) →
     (∀ k' x ip', (k', x) ∈ l → ParseIP k' = Some ip' → is_Some (To4 ip') → k' = k) → v4nonce (foldl load_nonce c l) = Some (n, k)) ∧
  ((∀ k x ip, (k, x) ∈ l → ParseIP k = Some ip → To4 ip = None) → v4nonce (foldl load_nonce c l) = v4nonce c).
Proof.
  revert c. induction l as [|[k0 x0] l IH]; intros c Hnd Hok; cbn [foldl].
  { split_and!; try done; [by intros k n ip ?%elem_of_nil|by intros k n ip ?%elem_of_nil]. }
  apply NoDup_cons in Hnd as [Hk0 Hnd]. apply Forall_cons in Hok as [(n0 & ip0 & Hx & Hn0 & Hp0) Hok]. cbn [fst snd] in *. subst x0.
  rewrite (load_one k0 n0 c ip0 Hn0 Hp0).
  set (c1 := if bool_decide (is_Some (To4 ip0)) then _ else _). destruct (IH c1 Hnd Hok) as (I1 & I2 & I3 & I4).
  assert (H6 : ∀ k, k ≠ k0 → v6pinholes c1 !! k = v6pinholes c !! k).
  { intros k Hne. unfold c1. case_bool_decide; cbn; [done|]. by rewrite lookup_insert_ne. }
  split_and!.
  - intros k n ip [E|Hin]%elem_of_cons Hn Hp H4; [|by eapply I1]. injection E as -> ->%hex_encode_inj. rewrite I2 by (intros x; by apply not_in_tail).
    assert (ip0 = ip) as -> by congruence. unfold c1. rewrite bool_decide_eq_false_2 by (rewrite H4; by intros [? ?]). cbn. by rewrite lookup_insert_eq.
  - intros k Hk. rewrite I2 by (intros x Hin; by eapply Hk; right). apply H6. intros ->. by eapply Hk; left.
  - intros k n ip [E|Hin]%elem_of_cons Hn Hp H4 Hone.
    + injection E as -> ->%hex_encode_inj. rewrite I4.
      * assert (ip0 = ip) as -> by congruence. unfold c1. by rewrite bool_decide_eq_true_2.
      * intros k' x ip' Hin Hp'. destruct (To4 ip') as [b|] eqn:E4; [|done]. exfalso.
        assert (k' = k0) as -> by (eapply (Hone k' x ip'); [by right|done|by eexists]). by eapply not_in_tail.
    + eapply I3; try done. intros k' x ip' Hin' Hp' H4'. eapply Hone; [by right|done..].
  - intros Hall. rewrite I4 by (intros k x ip Hin; eapply Hall; by right). unfold c1.
    rewrite bool_decide_eq_false_2; [done|]. rewrite (Hall k0 (Hex.encode n0) ip0) by (done || by left). by intros [? ?].
Qed.

(** An entry of an IPv4 address adds no pinhole. *)
Lemma load_v4_only l c k a b : ParseIP k = Some a → To4 a = Some b → v6pinholes (foldl load_nonce c l) !! k = v6pinholes c !! k.
Proof.
  intros Hp Hb. revert c. induction l as [|[k0 x0] l IH]; intros c; cbn [foldl]; [done|]. rewrite IH. unfold load_nonce.
  destruct (Hex.decode x0) as [n|]; [|done]. destruct (negb _); [done|]. destruct (ParseIP k0) as [ip|] eqn:E; [|done].
  case_bool_decide as H4; [done|]. cbn. rewrite lookup_insert_ne; [done|]. intros ->. apply H4. assert (ip = a) as -> by congruence. by eexists.
Qed.

(** What the file holds. *)
Lemma stored_spec c k x : nonces_ok c → stored_nonces c !! k = Some x ↔
  (∃ p, v6pinholes c !! k = Some p ∧ ph_nonce p ≠ zero_nonce ∧ x = Hex.encode (ph_nonce p)) ∨
  (∃ n, v4nonce c = Some (n, k) ∧ n ≠ zero_nonce ∧ x = Hex.encode n).
Proof.
  intros [H6 H4]. unfold stored_nonces. rewrite lookup_union_Some_raw, lookup_fmap_Some.
  assert (Hv4 : (match v4nonce c with Some (n, ip) => if (ip <>s "") && (n <>s zero_nonce) then {[ip := Hex.encode n]} else ∅ | None => ∅ end
    : gmap string string) !! k = Some x ↔ ∃ n, v4nonce c = Some (n, k) ∧ n ≠ zero_nonce ∧ x = Hex.encode n).
  { destruct (v4nonce c) as [[n ip]|] eqn:E; [|split; [by rewrite lookup_empty|naive_solver]].
    destruct (H4 n ip eq_refl) as (_ & a & b & Hp & _). destruct (ip =s "") eqn:Ei; str_inv; [subst; done|]. cbn [negb andb].
    destruct (n =s zero_nonce) eqn:En; str_inv; cbn [negb]; [split; [by rewrite lookup_empty|intros (n' & [= <- <-] & ? & _); done]|].
    rewrite lookup_singleton_Some. split; [intros [-> <-]; eauto|]. by intros (n' & [= <- ->] & _ & ->). }
  rewrite Hv4. split.
  - intros [(p & <- & (Hl & Hn)%map_lookup_filter_Some)|[_ Hr]]; [left; by exists p|by right].
  - intros [(p & Hl & Hn & ->)|Hr].
    + left. exists p. split; [done|]. by apply map_lookup_filter_Some.
    + right. split; [|done]. rewrite lookup_fmap. destruct Hr as (n & En & _). destruct (H4 n k En) as (_ & a & b & Hp & Hb).
      destruct (filter _ (v6pinholes c) !! k) as [p|] eqn:Ef; [|done]. apply map_lookup_filter_Some in Ef as [Hl _].
      destruct (H6 k p Hl) as (_ & ip & Hp' & Hn4). congruence.
Qed.

(** A restart keeps the nonces: a client that loads what another persisted has, for every
    IPv6 pinhole with a PCP nonce, the pinhole with that nonce and a working removal, nothing
    for the pinholes opened by UPnP, and the IPv4 nonce with the internal address it belongs
    to; so that the renewals after the restart are accepted as renewals. *)
Theorem nonces_survive_restart c port : nonces_ok c → statePath c = true → (∀ n ip, v4nonce c = Some (n, ip) → n ≠ zero_nonce) →
  let c' := SetStatePath true (Some (disk (persistNonces true c))) (NewClient port) in
  v4nonce c' = v4nonce c ∧
  ∀ k, v6pinholes c' !! k = match v6pinholes c !! k with
                            | Some p => if bool_decide (ph_nonce p = zero_nonce) then None else Some (MkPinhole (ph_nonce p) (RmLazy k (ph_nonce p)))
                            | None => None
                            end.
Proof.
  intros Hok Hst Hz. pose proof Hok as [H6 H4]. assert (Hd : disk (persistNonces true c) = stored_nonces c) by (unfold persistNonces; by rewrite Hst).
  rewrite Hd. unfold SetStatePath, loadNonces. cbn [statePath default]. cbn zeta.
  match goal with |- context [foldl load_nonce ?c0 _] => set (fresh := c0) end.
  destruct (load_all (map_to_list (stored_nonces c)) fresh) as (L1 & L2 & L3 & L4).
  { apply NoDup_fst_map_to_list. }
  { apply Forall_forall. intros [k x] [(p & Hl & _ & ->)|(n & Hl & _ & ->)]%elem_of_map_to_list%(stored_spec c k x Hok); cbn.
    - destruct (H6 k p Hl) as (Hn & ip & Hp & _). by exists (ph_nonce p), ip.
    - destruct (H4 n k Hl) as (Hn & a & b & Hp & _). by exists n, a. }
  split.
  - destruct (v4nonce c) as [[n ip]|] eqn:E4; cycle 1.
    + rewrite L4; [done|]. intros k x ip [(p & Hl & _ & _)|(n & Hl & _)]%elem_of_map_to_list%(stored_spec c k x Hok) Hp; [|congruence].
      destruct (H6 k p Hl) as (_ & ip' & Hp' & ?). congruence.
    + destruct (H4 n ip eq_refl) as (Hn & a & b & Hp & Hb). apply (L3 ip n a); [|done|done|by exists b|].
      * apply elem_of_map_to_list, (stored_spec c ip _ Hok). right. exists n. split_and!; [done| |done]. by eapply Hz.
      * intros k' x ip' [(p & Hl & _ & _)|(n' & Hl & _)]%elem_of_map_to_list%(stored_spec c k' x Hok) Hp' [b' Hb']; [|congruence].
        destruct (H6 k' p Hl) as (_ & ip2 & Hp2 & ?). congruence.
  - intros k. destruct (v6pinholes c !! k) as [p|] eqn:Ek.
    + destruct (H6 k p Ek) as (Hn & ip & Hp & Hb). case_bool_decide as Hzero.
      * rewrite L2; [done|]. intros x [(p' & Hl & Hne & _)|(n & Hl & _)]%elem_of_map_to_list%(stored_spec c k x Hok); [congruence|].
        destruct (H4 n k Hl) as (_ & a & b & Hp' & ?). congruence.
      * apply (L1 k (ph_nonce p) ip); try done. apply elem_of_map_to_list, (stored_spec c k _ Hok). left. by exists p.
    + destruct (stored_nonces c !! k) as [x|] eqn:Es; cycle 1.
      { rewrite L2; [done|]. intros x Hin%elem_of_map_to_list. congruence. }
      apply (stored_spec c k x Hok) in Es as [(p & Hl & _)|(n & Hl & _ & ->)]; [congruence|]. destruct (H4 n k Hl) as (Hn & a & b & Hp & Hb).
      (* the only entry under [k] is the IPv4 one, which adds no pinhole *)
      rewrite (load_v4_only (map_to_list (stored_nonces c)) fresh k a b Hp Hb). done.
Qed.

(** ** The gateways of the default routes *)

(** strconv.ParseUint(s, 16, bits). *)
Fixpoint hex_value (acc : Z) (s : string) : option Z :=
  match s with
  | "" => Some acc
  | String c r => d ← hex_digit c; hex_value (acc * 16 + Z.of_N d) r
  end.

Definition ParseUint16 (bits : Z) (s : string) : option Z :=
  if s =s "" then None else v ← hex_value 0 s; if (v <? 2 ^ bits)%Z then Some v else None.

Definition low_byte (z : Z) : N := Z.to_N (z mod 256).

(** One line of /proc/net/route: the gateway, stored in host order. *)
Definition route_gateway (fs : list string) : option IP :=
  if length fs <? 4 then None
  else if nth 1 fs "" <>s "00000000" then None
  else
    flags ← ParseUint16 32 (nth 3 fs "");
    if (Z.land flags 0x2 =? 0)%Z then None
    else gw ← ParseUint16 32 (nth 2 fs "");
         Some (NetIP.v4 (low_byte gw) (low_byte (Z.shiftr gw 8)) (low_byte (Z.shiftr gw 16)) (low_byte (Z.shiftr gw 24))).

(** [None]: the file can not be read. *)
Definition getDefaultGateway (proc : option string) : option IP :=
  text ← proc; head (omap route_gateway (map Fields (tail (scan_lines text)))).

Fixpoint hex_bytes (s : string) : option (list N) :=
  match s with
  | String a (String b r) => v ← ParseUint16 8 (String a (String b "")); rest ← hex_bytes r; Some (Z.to_N v :: rest)
  | _ => Some []
  end.

Definition parseHexV6 (s : string) : option (list N) := if negb (slen s =? 32) then None else hex_bytes s.

(** One line of /proc/net/ipv6_route: the next hop and, when it is link-local, its zone. *)
Definition route6_gateway (fs : list string) : option (list N * string) :=
  if length fs <? 10 then None
  else if (nth 0 fs "" <>s "00000000000000000000000000000000") || (nth 1 fs "" <>s "00") then None
  else
    flags ← ParseUint16 32 (nth 8 fs "");
    if (Z.land flags 0x1 =? 0)%Z then None
    else gw ← parseHexV6 (nth 4 fs "");
         if bool_decide (gw = replicate 16 0%N) then None
         else Some (gw, if Reachability.IsLinkLocalUnicast (Unmap (Addr6 gw, "")).1 then nth 9 fs "" else "").

Definition parseDefaultV6Gateway (text : string) : option (list N * string) := head (omap route6_gateway (map Fields (scan_lines text))).

(** ** Runs *)

Module UpnpDemo.
Definition k : string := "2001:db8::1".
Definition addr : IP := EndDemo.v6 [0; 0; 0; 1]%N.
Definition n1 : string := "nonce-nonce1".
Definition grants : pinhole_io := MkPinIO (Some "fe80::1%eth0") (λ _, Some n1) (λ _, true) (λ _, NoService) true.
Definition upnp_only : pinhole_io := MkPinIO (Some "fe80::1%eth0") (λ _, Some n1) (λ _, false) (λ _, Granted 7%Z) true.
Definition fresh : Client := SetStatePath true None (NewClient 51820).

Definition opened : Client * list pinhole_action * option pinhole_error := RefreshV6Pinholes grants [addr] fresh.
Definition moved : Client * list pinhole_action * option pinhole_error := RefreshV6Pinholes grants [EndDemo.v6 [0; 0; 0; 2]%N] opened.1.1.

Example opened_actions : opened.1.2 = [ActPCP k 3600 n1] ∧ map_to_list (disk opened.1.1) = [(k, Hex.encode n1)].
Proof. split; vm_compute; reflexivity. Qed.
Example moved_actions : moved.1.2 = [ActRemove (RmPCP "fe80::1%eth0" k n1); ActPCP "2001:db8::2" 3600 n1].
Proof. vm_compute. reflexivity. Qed.

Lemma pinholes_follow_addresses_witness :
  (∀ j, is_Some (v6pinholes moved.1.1 !! j) → j ∈ desired [EndDemo.v6 [0; 0; 0; 2]%N]) ∧
  (∀ p, v6pinholes opened.1.1 !! k = Some p → ActRemove (ph_remove p) ∈ moved.1.2).
Proof.
  destruct (pinholes_follow_addresses grants [EndDemo.v6 [0; 0; 0; 2]%N] opened.1.1 moved.1.1 moved.1.2 moved.2) as (H1 & _ & H3 & _).
  - unfold moved. by destruct (RefreshV6Pinholes grants [EndDemo.v6 [0; 0; 0; 2]%N] opened.1.1) as [[? ?] ?].
  - split; [exact H1|]. intros p Hp. apply (H3 k p Hp). apply (bool_decide_eq_false_1 (k ∈ desired [EndDemo.v6 [0; 0; 0; 2]%N])). vm_compute. reflexivity.
Defined.

(** The first refresh falls back to UPnP; the second asks PCP with the zero nonce, is refused,
    and reports success. *)
Definition via_upnp : Client * list pinhole_action * option pinhole_error := RefreshV6Pinholes upnp_only [addr] fresh.
Example upnp_first : via_upnp.1.2 = [ActPCP k 3600 n1; ActAddPinhole k 3600] ∧
  RefreshV6Pinholes upnp_only [addr] via_upnp.1.1 = (via_upnp.1.1, [ActPCP k 3600 zero_nonce], None).
Proof. split; vm_compute; reflexivity. Qed.

Lemma upnp_pinhole_not_renewed_witness : v6pinholes (run_pinholes [(upnp_only, [addr]); (upnp_only, [addr])] via_upnp.1.1).1 !! k = Some (MkPinhole zero_nonce (RmUPnP 7)) ∧
  ∀ l, ActAddPinhole k l ∉ (run_pinholes [(upnp_only, [addr]); (upnp_only, [addr])] via_upnp.1.1).2.
Proof.
  apply (upnp_pinhole_not_renewed k (MkPinhole zero_nonce (RmUPnP 7)) [(upnp_only, [addr]); (upnp_only, [addr])] via_upnp.1.1);
    [vm_compute; reflexivity|vm_compute; reflexivity|].
  assert (Hd : k ∈ desired [addr]) by (apply (bool_decide_eq_true_1 (k ∈ desired [addr])); vm_compute; reflexivity).
  repeat constructor; try (by eexists); exact Hd.
Defined.

(** The agent skips the refresh when no global address is left: the pinhole stays open. *)
Example last_address_gone : refreshV6Pinholes grants (Some []) opened.1.1 = (opened.1.1, [], None) ∧
  (RefreshV6Pinholes grants [] opened.1.1).1.2 = [ActRemove (RmPCP "fe80::1%eth0" k n1)].
Proof. split; vm_compute; reflexivity. Qed.

Definition io (pcp : option (IP * Z)) (np : answer (string * Z)) : map_io := MkMap (Some "192.168.1.5") (Some (NetIP.v4 192 168 1 1)) (Some n1) pcp np NoService [] true.
Definition wan : IP := NetIP.v4 203 0 113 9.

Lemma renewals_stable_witness : let '(c, reqs, os) := run_renewals [io None Refused; io (Some (wan, 51820%Z)) NoService; io None (Granted ("203.0.113.7", 40000%Z))] (NewClient 51820) in
  length reqs = 5 ∧ Forall (λ r, suggested r = 51820%Z) reqs ∧ PublicEndpoint c = match last_success os with Some e => (e, 51820%Z) | None => ("", 0%Z) end.
Proof.
  assert (H5 : length (run_renewals [io None Refused; io (Some (wan, 51820%Z)) NoService; io None (Granted ("203.0.113.7", 40000%Z))] (NewClient 51820)).1.2 = 5)
    by (vm_compute; reflexivity).
  pose proof (renewals_stable "192.168.1.5" [io None Refused; io (Some (wan, 51820%Z)) NoService; io None (Granted ("203.0.113.7", 40000%Z))] 51820) as H.
  destruct (run_renewals _ _) as [[c reqs] os]. destruct H as (H1 & _ & H3); [lia|by repeat constructor|]. done.
Defined.

(** A first mapping to another port changes the port every later renewal asks for. *)
Example reassigned_port_kept :
  let c := (TryMapping (io None (Granted ("203.0.113.7", 40000%Z))) (NewClient 51820)).1.1 in
  map suggested (RenewMapping (io None Refused) c).1.2 = [40000; 40000]%Z.
Proof. vm_compute. reflexivity. Qed.

(** A client with one PCP pinhole, one UPnP pinhole and an IPv4 nonce. *)
Definition k2 : string := "2001:db8::2".
Definition holding : Client :=
  set_v4nonce (set_pinholes fresh {[k := MkPinhole n1 (RmPCP "fe80::1%eth0" k n1); k2 := MkPinhole zero_nonce (RmUPnP 7)]}) (Some (n1, "192.168.1.5")).
Lemma k_parses : ParseIP k = Some addr ∧ To4 addr = None.
Proof. split; vm_compute; reflexivity. Qed.
Lemma k2_parses : ParseIP k2 = Some (EndDemo.v6 [0; 0; 0; 2]%N) ∧ To4 (EndDemo.v6 [0; 0; 0; 2]%N) = None.
Proof. split; vm_compute; reflexivity. Qed.
Lemma lan_parses : ∃ a b, ParseIP "192.168.1.5" = Some a ∧ To4 a = Some b.
Proof. do 2 eexists. split; [vm_compute; reflexivity|reflexivity]. Qed.
Lemma holding_ok : nonces_ok holding.
Proof.
  split.
  - intros j p Hj. unfold holding in Hj. cbn [v6pinholes set_v4nonce set_pinholes] in Hj.
    apply lookup_insert_Some in Hj as [[<- <-]|[_ Hj]]; [split; [reflexivity|]; exists addr; exact k_parses|].
    apply lookup_singleton_Some in Hj as [<- <-]. split; [reflexivity|]. eexists. exact k2_parses.
  - intros n ip E. injection E as <- <-. split; [reflexivity|exact lan_parses].
Qed.

Lemma nonces_survive_restart_witness :
  let c' := SetStatePath true (Some (disk (persistNonces true holding))) (NewClient 51820) in
  v4nonce c' = Some (n1, "192.168.1.5") ∧ v6pinholes c' !! k = Some (MkPinhole n1 (RmLazy k n1)) ∧ v6pinholes c' !! k2 = None.
Proof.
  destruct (nonces_survive_restart holding 51820) as [H1 H2].
  - exact holding_ok.
  - reflexivity.
  - intros n ip E. injection E as <- _. discriminate.
  - split; [exact H1|]. rewrite !H2. unfold holding. cbn [v6pinholes set_v4nonce set_pinholes].
    split; [by rewrite lookup_insert_eq|]. rewrite lookup_insert_ne by discriminate. by rewrite lookup_singleton_eq.
Defined.

Definition line (fs : list string) : string := join " " fs +:+ String "010" "".
Example v6_gateway : parseDefaultV6Gateway
  (line ["20010db8000000000000000000000000"; "40"; "00000000000000000000000000000000"; "00"; "00000000000000000000000000000000"; "00000100"; "1"; "0"; "00000001"; "eth0"] +:+
   line ["00000000000000000000000000000000"; "00"; "00000000000000000000000000000000"; "00"; "fe800000000000000000000000000001"; "00000400"; "1"; "0"; "00000003"; "eth0"]) =
  Some ([0xfe; 0x80]%N ++ replicate 13 0%N ++ [1%N], "eth0").
Proof. vm_compute. reflexivity. Qed.
Example v4_gateway : getDefaultGateway (Some (line ["Iface"; "Destination"] +:+ line ["eth0"; "00000000"; "0101A8C0"; "0003"])) = Some (NetIP.v4 192 168 1 1).
Proof. vm_compute. reflexivity. Qed.
End UpnpDemo.
