(* ===== verification/Tunnel.v ===== *)
(** * internal/tunnel/client.go and the wiring of agent.Run: the agent as a state machine

    The client of the coordination service's WebSocket (connection loop, dispatch by message
    type) with the handlers agent.Run registers on it: the live commands, the device state, the
    relay's two messages. Everything the outside decides (clock, random draws, files, what is
    read from the socket, whether a write succeeds) is in [inputs], [item] and [script].
    Goroutines (the read loop, the nonce reaper, the liveness watch, the firewall's watchdog)
    are interleaved step by step: each body runs to its end. *)

From S2P Require Import Prelude TimeText Encoding Json CanonJson Relay Endpoints Overlay NetAddr Crypto WgServer Firewall IpAllocator Atreolink AclStore Envelope Handlers DeviceState Boot Float64.
From Stdlib Require Import Lqa.
#[local] Close Scope Q_scope.

(** ** Dispatch *)

Record Agent := MkAgent { a_h : Handlers; a_relay : Relay.Manager }.
Definition set_h (a : Agent) (h : Handlers) : Agent := MkAgent h (a_relay a).
Definition set_relay (a : Agent) (m : Relay.Manager) : Agent := MkAgent (a_h a) m.

(** What the handling of one message meets. *)
Record inputs := MkInputs {
  in_now : Z;
  in_nonce : option string;     (* GenerateNonce *)
  in_should : option bool;      (* shouldRelay *)
  in_domain : domain_io;
  in_removed : bool;            (* the pin file could be removed *)
  in_newKey : option string     (* RotateAPIKey *)
}.

Inductive send_error := ErrNotAttached | ErrWrite.
Inductive dispatch_error := DHandler (e : handler_error) | DKeepAlive | DGrant.

Definition handler := inputs → TunnelMessage → Agent → Agent * result dispatch_error (option TunnelMessage).

Record Client := MkTunnel {
  handlers : gmap string handler;
  atreolinkURL : string;
  reconnectAttempt : nat;
  activeConn : bool;
  stopped : bool
}.

Definition NewClient (url : string) : Client := MkTunnel ∅ url 0 false false.
Definition RegisterHandler (msgType : string) (f : handler) (c : Client) : Client :=
  MkTunnel (<[msgType := f]> (handlers c)) (atreolinkURL c) (reconnectAttempt c) (activeConn c) (stopped c).
Definition set_attempt (c : Client) (n : nat) : Client :=
  MkTunnel (handlers c) (atreolinkURL c) n (activeConn c) (stopped c).
Definition set_active (c : Client) (b : bool) : Client :=
  MkTunnel (handlers c) (atreolinkURL c) (reconnectAttempt c) b (stopped c).
Definition Stop (c : Client) : Client := MkTunnel (handlers c) (atreolinkURL c) (reconnectAttempt c) (activeConn c) true.

(** An error is logged and answered by silence. *)
Definition dispatch (c : Client) (i : inputs) (msg : TunnelMessage) (a : Agent) : Agent * option TunnelMessage :=
  match handlers c !! t_Type msg with
  | None => (a, None)
  | Some f => match f i msg a with
              | (a', Ok resp) => (a', resp)
              | (a', Err _) => (a', None)
              end
  end.

(** ** Back-off *)

Definition backoffDurations : list Z := [1 * second; 2 * second; 4 * second; 8 * second]%Z.

(** [r] is rand.Float64(). *)
Definition backoffDuration (attempt : nat) (r : Q) : Z :=
  let base := default (8 * second)%Z (backoffDurations !! attempt) in
  trunc (fmul (of_int base) (fadd (3 # 4) (fmul (1 # 2) r))).

(** The wait before the next attempt. *)
Definition waitForReconnect (r : Q) (c : Client) : Client * Z :=
  (set_attempt c (S (reconnectAttempt c)), backoffDuration (reconnectAttempt c) r).

(** ** The handlers agent.Run registers *)

Section Wiring.
Context `{Unicode} `{Primitives} `{Commands} `{Path} `{UrlParser} `{Gzip}.

Definition ipLease_json (l : TunnelIPLease) : json :=
  JObj [("deviceId", JStr (l_DeviceID l)); ("wgPublicKey", JStr (l_WGPublicKey l)); ("tunnelIp", JStr (l_TunnelIP l));
        ("nasSignature", JStr (l_NASSignature l))].
Definition provision_json (r : ProvisionResponse) : json :=
  JObj [("serverPublicKey", JStr (r_ServerPublicKey r)); ("tunnelIP", JStr (r_TunnelIP r)); ("tunnelIPv6", JStr (r_TunnelIPv6 r));
        ("listenPort", JNum (itoa (r_ListenPort r))); ("endpoint", JStr (r_Endpoint r)); ("allowedIPs", JStr (r_AllowedIPs r));
        ("persistentKeepalive", JNum (itoa (r_Keepalive r))); ("nasSignature", JStr (r_NASSignature r)); ("ipLease", ipLease_json (r_IPLease r))].

(** Lift a handler of [Handlers]; [k] makes the reply. *)
Definition lift {R} (k : R → option TunnelMessage) (a : Agent) (x : Handlers * result handler_error R)
    : Agent * result dispatch_error (option TunnelMessage) :=
  (set_h a x.1, match x.2 with Ok r => Ok (k r) | Err e => Err (DHandler e) end).

(** handlers.SetRelayEndpoint(relayMgr.Endpoint) *)
Definition relay_endpoint (i : inputs) (a : Agent) : option string :=
  let '(ep, ok) := Relay.Endpoint (in_should i) (a_relay a) in if ok then Some ep else None.

Definition on_challenge : handler := λ i msg a, lift Some a (HandleChallenge (in_now i) (in_nonce i) msg (a_h a)).
Definition on_provision : handler := λ i msg a,
  lift (λ r, Some (reply "wg:provision:response" (t_CorrelationID msg) (provision_json r))) a
    (HandleProvision (in_now i) (relay_endpoint i a) msg (a_h a)).
Definition on_state : handler := λ i msg a, lift (λ _, None) a (HandleDeviceState (in_domain i) true (in_now i) msg (a_h a)).
Definition on_heartbeat : handler := λ i msg a, lift (λ _, None) a (HandleHeartbeatAck (in_now i) msg (a_h a)).
Definition on_unpaired : handler := λ i msg a, lift (λ _, None) a (HandleUnpaired (in_now i) (in_removed i) msg (a_h a)).
Definition on_apikey : handler := λ i msg a, lift Some a (a_h a, HandleNotifyAPIKey (in_now i) msg (a_h a)).
Definition on_rotate : handler := λ i msg a, lift Some a (HandleNotifyAPIKeyRotate (in_now i) (in_newKey i) msg (a_h a)).

Definition RegisterAll (c : Client) : Client :=
  let c := RegisterHandler "wg:challenge" on_challenge c in
  let c := RegisterHandler "wg:provision" on_provision c in
  let c := RegisterHandler "device:state" on_state c in
  let c := RegisterHandler "device:state:gz" on_state c in
  let c := RegisterHandler "acl:heartbeat:ack" on_heartbeat c in
  let c := RegisterHandler "device:unpaired" on_unpaired c in
  let c := RegisterHandler "notify:apikey" on_apikey c in
  RegisterHandler "notify:apikey:rotate" on_rotate c.

(** The two handlers of the relay client, closures in agent.Run. *)
Definition on_keepalive : handler := λ i msg a,
  match t_Payload msg with
  | None => (set_relay a (Relay.SetKeepAlive (in_should i) false (a_relay a)).1, Ok None)
  | Some j => match dec_struct (λ o kvs, assign dec_bool o "keep" kvs) false j with
              | None => (a, Err DKeepAlive)
              | Some keep => (set_relay a (Relay.SetKeepAlive (in_should i) keep (a_relay a)).1, Ok None)
              end
  end.
Definition dec_signed_grant : Relay.SignedGrant → json → option Relay.SignedGrant := dec_struct (λ o kvs,
  p ← assign dec_raw (Relay.sg_Payload o) "payload" kvs; s ← assign dec_string (Relay.sg_Signature o) "signature" kvs;
  Some (Relay.MkSigned p s)).
Definition on_grant : handler := λ i msg a,
  match t_Payload msg ≫= dec_signed_grant (Relay.MkSigned None "") with
  | None => (a, Err DGrant)
  | Some sg => (set_relay a (Relay.SetGrant sg (a_relay a)).1, Ok None)
  end.

Definition wired (url : string) : Client :=
  RegisterAll (RegisterHandler "relay:grant" on_grant (RegisterHandler "relay:keepalive" on_keepalive (NewClient url))).

(** ** Background work *)

Inductive tick := TReap (now : Z) | TLiveness (now : Z) | TWatchdog | TWake.

Definition apply_tick (t : tick) (a : Agent) : Agent :=
  match t with
  | TReap now => set_h a (reap_nonces now (a_h a))
  | TLiveness now => set_h a (checkLiveness now (a_h a))
  | TWatchdog => set_h a (set_fw (a_h a) (watchdog_tick <$> fw (a_h a)))
  | TWake => set_relay a (Relay.Wake (a_relay a))
  end.

(** ** A connection *)

(** What happens while the socket is read: a message, with whether its reply could be written,
    or a turn of another goroutine. The end of the list is the end of the connection. *)
Inductive item := Inbound (i : inputs) (msg : TunnelMessage) (wrote : bool) | Background (t : tick).

(** HandleUnpaired ends the process: nothing happens after it. *)
Fixpoint readLoop (c : Client) (items : list item) (a : Agent) : Agent * list TunnelMessage :=
  match items with
  | [] => (a, [])
  | it :: rest =>
      if exited (a_h a) then (a, [])
      else match it with
      | Background t => readLoop c rest (apply_tick t a)
      | Inbound i msg wrote =>
          match dispatch c i msg a with
          | (a', None) => readLoop c rest a'
          | (a', Some resp) => if wrote then let '(a2, out) := readLoop c rest a' in (a2, resp :: out) else (a', [])
          end
      end
  end.

(** strings.TrimRight(u, "/") *)
Fixpoint trim_slashes (fuel : nat) (s : string) : string :=
  match fuel with
  | O => s
  | S f => if has_suffix s "/" then trim_slashes f (trim_suffix s "/") else s
  end.

(** url.QueryEscape *)
Definition unreserved (c : ascii) : bool :=
  let n := bN c in
  ((48 <=? n) && (n <=? 57))%N || ((65 <=? n) && (n <=? 90))%N || ((97 <=? n) && (n <=? 122))%N ||
  (n =? 45)%N || (n =? 46)%N || (n =? 95)%N || (n =? 126)%N.
Definition upper_hex (n : N) : ascii := if (n <? 10)%N then Nb (48 + n) else Nb (55 + n).
Fixpoint QueryEscape (s : string) : string :=
  match s with
  | EmptyString => EmptyString
  | String c s' => if unreserved c then String c (QueryEscape s')
                   else if (bN c =? 32)%N then String "+" (QueryEscape s')
                   else String "%" (String (upper_hex (bN c / 16)) (String (upper_hex (bN c mod 16)) (QueryEscape s')))
  end.

Definition ws_base (u : string) : string :=
  let u := if has_prefix u "https://" then "wss://" +:+ trim_prefix u "https://"
           else if has_prefix u "http://" then "ws://" +:+ trim_prefix u "http://"
           else "wss://" +:+ u in
  trim_slashes (slen u) u.

Definition wsURL (now : Z) (c : Client) (h : Handlers) : option string :=
  if deviceID h =s "" then None
  else match SignWSConnectAuth (keys h) (deviceID h) now with
       | Err _ => None
       | Ok (intent, ts, sig) =>
           Some (ws_base (atreolinkURL c) +:+ "/v1/tunnel?" +:+
                 "intent=" +:+ QueryEscape intent +:+ "&sig=" +:+ QueryEscape sig +:+ "&ts=" +:+ QueryEscape (itoa ts))
       end.

Definition metadataPayload (httpsPort : Z) (ov : Overlay) : json :=
  JObj [("overlayGatewayIpv4", JStr (GatewayV4 ov)); ("overlayGatewayIpv6", JStr (GatewayV6 ov)); ("overlaySubnetIpv4", JStr (SubnetV4 ov));
        ("overlaySubnetIpv6", JStr (SubnetV6 ov)); ("proxyHttpsPort", JNum (itoa httpsPort))].

(** The callback of SetOnConnect: the metadata, then the current endpoint list if there is one. *)
Definition onConnect (httpsPort : Z) (ov : Overlay) (current : option TunnelMessage) : list TunnelMessage :=
  MkMessage "device:metadata" "" (Some (metadataPayload httpsPort ov)) "" "" :: option_list current.

(** The publishing stops at the first write that fails. *)
Fixpoint publish (msgs : list TunnelMessage) (writes : list bool) : list TunnelMessage :=
  match msgs, writes with
  | m :: ms, true :: ws => m :: publish ms ws
  | _, _ => []
  end.

Record script := MkScript {
  sc_now : Z;
  sc_dialed : bool;
  sc_current : option TunnelMessage;
  sc_writes : list bool;
  sc_items : list item;
  sc_jitter : Q
}.

(** One connection attempt: the client after it, and what was written. *)
Definition runWebSocket (httpsPort : Z) (ov : Overlay) (sc : script) (c : Client) (a : Agent) : Client * Agent * list TunnelMessage :=
  match wsURL (sc_now sc) c (a_h a) with
  | None => (c, a, [])
  | Some _ =>
      if negb (sc_dialed sc) then (c, a, [])
      else
        let c := set_attempt (set_active c true) 0 in
        let a := apply_tick TWake a in
        let hello := publish (onConnect httpsPort ov (sc_current sc)) (sc_writes sc) in
        let '(a, replies) := readLoop c (sc_items sc) a in
        (set_active c false, a, hello ++ replies)
  end.

(** Start, over the connections made until the client is stopped; [waitForReconnect] counts the
    attempt. *)
Fixpoint Start (httpsPort : Z) (ov : Overlay) (scripts : list script) (c : Client) (a : Agent) : Client * Agent * list TunnelMessage :=
  match scripts with
  | [] => (c, a, [])
  | sc :: rest =>
      if stopped c || exited (a_h a) then (c, a, [])
      else
        let '(c, a, out) := runWebSocket httpsPort ov sc c a in
        let '(c, a, out') := Start httpsPort ov rest (waitForReconnect (sc_jitter sc) c).1 a in
        (c, a, out ++ out')
  end.

(** Send, whose write goes to the connection that is up. *)
Definition Send (wrote : bool) (c : Client) : result send_error unit :=
  if negb (activeConn c) then Err ErrNotAttached else guard_err wrote ErrWrite.
End Wiring.

(** ** The wait between connections *)

Section Backoff.
#[local] Open Scope Q_scope.

Lemma trunc_bounds x a b : inject_Z a - 1 < x → x < inject_Z b + 1 → (a - 1 <= trunc x <= b)%Z.
Proof.
  destruct x as [n d]. unfold trunc, Qlt. cbn [Qnum Qden inject_Z Qminus Qplus Qopp]. intros Ha Hb.
  pose proof (Z.div_mod n (Zpos d) ltac:(lia)). pose proof (Z.mod_pos_bound n (Zpos d) ltac:(lia)). nia.
Qed.

(** Four roundings cannot move a wait by a nanosecond. *)
Lemma jitter_near base r : (0 <= base <= 8 * second)%Z → 0 <= r → r < 1 →
  inject_Z base * (3 # 4) - 1 < fmul (of_int base) (fadd (3 # 4) (fmul (1 # 2) r)) /\
  fmul (of_int base) (fadd (3 # 4) (fmul (1 # 2) r)) < inject_Z base * (5 # 4) + 1.
Proof.
  intros Hb Hr Hr1. assert (E : of_int base == inject_Z base) by (apply round64_int; unfold second in Hb; lia).
  assert (B0 : 0 <= inject_Z base) by (change 0 with (inject_Z 0); rewrite <- Zle_Qle; lia).
  assert (B1 : inject_Z base <= 8000000000) by (change 8000000000 with (inject_Z 8000000000); rewrite <- Zle_Qle; unfold second in Hb; lia).
  pose proof eps_pos as P0. pose proof eps_small as P1.
  destruct (fmul_near (1 # 2) r ltac:(lra) Hr) as [M1 M2]. set (h := fmul (1 # 2) r) in *.
  assert (Hh0 : 0 <= h) by (eapply Qle_trans; [|exact M1]; apply mul_lo_nonneg; lra).
  assert (Hh1 : h <= (1 # 2) + eps) by (unfold hi in M2; nra).
  destruct (fadd_near (3 # 4) h ltac:(lra) Hh0) as [A1 A2]. set (j := fadd (3 # 4) h) in *.
  assert (J1 : (3 # 4) - eps <= j) by (unfold lo in A1; nra). assert (J2 : j <= (5 # 4) + 3 * eps) by (unfold hi in A2; nra).
  destruct (fmul_near (of_int base) j ltac:(lra) ltac:(lra)) as [F1 F2]. set (f := fmul (of_int base) j) in *. unfold lo, hi in F1, F2.
  assert (K1 : inject_Z base * ((3 # 4) - eps) <= of_int base * j) by (apply Qmult_le_both; lra).
  assert (K2 : of_int base * j <= inject_Z base * ((5 # 4) + 3 * eps)) by (apply Qmult_le_both; lra).
  assert (L : inject_Z base * eps <= 1 # 100000) by (apply Qle_trans with (8000000000 * (1 # 1000000000000000)); [apply Qmult_le_both; lra|vm_compute; discriminate]).
  set (x := of_int base * j) in *. assert (X : x * eps <= 1 # 10000) by (apply Qle_trans with (10000000001 * (1 # 1000000000000000)); [apply Qmult_le_both; nra|vm_compute; discriminate]).
  split; lra.
Qed.

(** The bound the comment of client.go relies on: at most ten seconds between two attempts, at
    least three quarters of the step. *)
Lemma backoff_bounds n r : 0 <= r → r < 1 → let base := default (8 * second)%Z (backoffDurations !! n) in
  (3 * base / 4 - 1 <= backoffDuration n r <= 10 * second)%Z ∧ (750 * 1000 * 1000 - 1 <= backoffDuration n r)%Z.
Proof.
  intros Hr Hr1 base. assert (Hb : (base = 1 * second ∨ base = 2 * second ∨ base = 4 * second ∨ base = 8 * second)%Z).
  { unfold base, backoffDurations. do 4 (destruct n as [|n]; [cbn; tauto|]). cbn. tauto. }
  unfold backoffDuration. fold base. destruct (jitter_near base r ltac:(unfold second in *; lia) Hr Hr1) as [L U].
  assert (T : (3 * base / 4 - 1 <= trunc (fmul (of_int base) (fadd (3 # 4) (fmul (1 # 2) r))) <= 5 * base / 4)%Z).
  { apply trunc_bounds; [eapply Qle_lt_trans; [|exact L]|eapply Qlt_le_trans; [exact U|]]; destruct Hb as [->|[->|[->| ->]]]; vm_compute; discriminate. }
  unfold second in *. destruct Hb as [->|[->|[->| ->]]]; lia.
Qed.
End Backoff.

(** ** The agent's steps *)

Inductive event := Message (i : inputs) (msg : TunnelMessage) | Turn (t : tick).

Section Steps.
Context `{Unicode} `{P : Primitives} `{Commands} `{Path} `{UrlParser} `{Gzip}.

(** The agent runs until it has been unpaired. *)
Inductive agent_step : Agent → event → Agent → Prop :=
| step_message url i msg a a' resp : exited (a_h a) = false → dispatch (wired url) i msg a = (a', resp) → agent_step a (Message i msg) a'
| step_tick t a : exited (a_h a) = false → agent_step a (Turn t) (apply_tick t a).

Inductive reach (a0 : Agent) : list event → Agent → Prop :=
| reach_start : reach a0 [] a0
| reach_step tr a ev a' : reach a0 tr a → agent_step a ev a' → reach a0 (tr ++ [ev]) a'.

Lemma reach_app a0 tr a tr' a' : reach a0 tr a → reach a tr' a' → reach a0 (tr ++ tr') a'.
Proof.
  intros Hr. induction 1 as [|tr' a1 ev a2 _ IH Hs]; [by rewrite app_nil_r|]. rewrite app_assoc. by eapply reach_step.
Qed.
Lemma reach_one a ev a' : agent_step a ev a' → reach a [ev] a'.
Proof. intros Hs. apply (reach_step a [] a ev a'); [constructor|done]. Qed.

(** An invariant of the steps is one of the traces. *)
Lemma reach_inv (I : Agent → Prop) a0 tr a : (∀ a ev a', I a → agent_step a ev a' → I a') → I a0 → reach a0 tr a → I a.
Proof. intros HI Hstart. induction 1; eauto. Qed.

(** ** What a message does *)

Definition handler_for (ty : string) : option handler :=
  if ty =s "wg:challenge" then Some on_challenge
  else if ty =s "wg:provision" then Some on_provision
  else if (ty =s "device:state") || (ty =s "device:state:gz") then Some on_state
  else if ty =s "acl:heartbeat:ack" then Some on_heartbeat
  else if ty =s "device:unpaired" then Some on_unpaired
  else if ty =s "notify:apikey" then Some on_apikey
  else if ty =s "notify:apikey:rotate" then Some on_rotate
  else if ty =s "relay:grant" then Some on_grant
  else if ty =s "relay:keepalive" then Some on_keepalive
  else None.

Lemma seqb_decide s t : (s =s t) = if decide (t = s) then true else false.
Proof. unfold seqb. case_bool_decide; destruct (decide (t = s)); congruence. Qed.

Lemma handlers_register ty f c : Tunnel.handlers (RegisterHandler ty f c) = <[ty := f]> (Tunnel.handlers c).
Proof. done. Qed.
Lemma wired_handlers url ty : Tunnel.handlers (wired url) !! ty = handler_for ty.
Proof.
  unfold wired, RegisterAll, handler_for. cbv zeta. rewrite !handlers_register. cbn [Tunnel.handlers NewClient]. rewrite !lookup_insert, lookup_empty, !seqb_decide.
  repeat match goal with |- context [decide (?s = ty)] => destruct (decide (s = ty)) end; congruence || reflexivity.
Qed.

(** What no step but the access-changing ones touches. *)
Definition core (h : Handlers) := (access h, keys h, deviceID h, exited h).

(** The effect of a message on the components. *)
Inductive effect (i : inputs) (msg : TunnelMessage) (h h' : Handlers) : Prop :=
| eff_quiet : core h' = core h → effect i msg h h'
| eff_provision relay r : HandleProvision (in_now i) relay msg h = (h', r) → effect i msg h h'
| eff_push r : HandleDeviceState (in_domain i) true (in_now i) msg h = (h', r) → effect i msg h h'
| eff_unpaired : HandleUnpaired (in_now i) (in_removed i) msg h = (h', Ok tt) → effect i msg h h'.

Lemma challenge_core now n msg h : core (HandleChallenge now n msg h).1 = core h.
Proof. unfold HandleChallenge. repeat case_match; done. Qed.
Lemma rotate_core now n msg h : core (HandleNotifyAPIKeyRotate now n msg h).1 = core h.
Proof. unfold HandleNotifyAPIKeyRotate. repeat case_match; done. Qed.
Lemma heartbeat_core now msg h : core (HandleHeartbeatAck now msg h).1 = core h.
Proof. destruct (heartbeat_frame now msg h) as [->|[-> _]]; done. Qed.

Lemma handler_for_inv ty f : handler_for ty = Some f → f = on_challenge ∨ f = on_provision ∨ f = on_state ∨ f = on_heartbeat ∨
  f = on_unpaired ∨ f = on_apikey ∨ f = on_rotate ∨ f = on_grant ∨ f = on_keepalive.
Proof. unfold handler_for. repeat (case_match; [intros [= <-]; tauto|]). done. Qed.

Lemma dispatch_effect url i msg a a' resp : dispatch (wired url) i msg a = (a', resp) → effect i msg (a_h a) (a_h a').
Proof.
  unfold dispatch. rewrite wired_handlers. destruct (handler_for (t_Type msg)) as [f|] eqn:Ef; [|intros [= <- _]; by apply eff_quiet].
  destruct (f i msg a) as [a1 r] eqn:E. intros Hr. assert (a' = a1) as -> by (destruct r; congruence). clear Hr. revert E.
  apply handler_for_inv in Ef as [->|[->|[->|[->|[->|[->|[->|[->| ->]]]]]]]].
  - unfold on_challenge, lift. intros [= <- _]. apply eff_quiet, challenge_core.
  - unfold on_provision, lift. destruct (HandleProvision _ _ _ _) as [h1 r1] eqn:E. intros [= <- _]. by eapply eff_provision.
  - unfold on_state, lift. destruct (HandleDeviceState _ _ _ _ _) as [h1 r1] eqn:E. intros [= <- _]. by eapply eff_push.
  - unfold on_heartbeat, lift. intros [= <- _]. apply eff_quiet, heartbeat_core.
  - unfold on_unpaired, lift. destruct (HandleUnpaired _ _ _ _) as [h1 [[]|e]] eqn:E; intros [= <- _]; [by apply eff_unpaired|].
    apply eff_quiet. revert E. unfold HandleUnpaired. destruct (admin_device_command _ _ _ _); [done|]. by intros [= <- _].
  - unfold on_apikey, lift. intros [= <- _]. by apply eff_quiet.
  - unfold on_rotate, lift. intros [= <- _]. apply eff_quiet, rotate_core.
  - unfold on_grant. case_match; intros [= <- _]; by apply eff_quiet.
  - unfold on_keepalive. repeat case_match; intros [= <- _]; by apply eff_quiet.
Qed.

(** ** Frames of the access-changing handlers *)

Lemma provision_frame now relay msg h h' r : HandleProvision now relay msg h = (h', r) →
  keys h' = keys h ∧ deviceID h' = deviceID h ∧ exited h' = exited h ∧ fw h' = fw h.
Proof.
  intros [(e & _ & [->|[k ->]])|(entry & p & key & _ & _ & Hp)]%HandleProvision_cases; [done..|].
  revert Hp. unfold provision_peer. repeat case_match; intros [= <- _]; done.
Qed.

Lemma push_frame io sender now msg h : let h' := (HandleDeviceState io sender now msg h).1 in
  keys h' = keys h ∧ deviceID h' = deviceID h ∧ exited h' = exited h.
Proof.
  unfold HandleDeviceState, apply_state. repeat (case_match; try done); cbn [fst]; unfold install;
    by rewrite domain_frame, firewall_frame, remove_pruned_frame.
Qed.

Lemma traverse_alloc_keeps {A B} (f : IPAllocator → A → IPAllocator * result handler_error B) (I : IPAllocator → Prop) l a :
  (∀ a x, I a → I (f a x).1) → I a → I (traverse_alloc f a l).1.
Proof.
  intros Hf. revert a. induction l as [|x l IH]; intros a Ha; [done|]. simpl. pose proof (Hf a x Ha) as Hx.
  destruct (f a x) as [a1 [y|e]]; [|done]. pose proof (IH a1 Hx) as Hl. by destruct (traverse_alloc f a1 l) as [a2 [ys|e]].
Qed.
Lemma assign_client_keeps leases a c : Inv a → Inv (assign_client leases a c).1.
Proof.
  intros Ha. unfold assign_client. destruct (_ =s ""); [done|]. destruct (Lookup _ a <>s ""); [done|]. cbv zeta.
  match goal with |- context [if ?b then TryAdopt ?k ?l a else (a, false)] => set (x := if b then TryAdopt k l a else (a, false)) end. assert (Inv x.1) as Hx by (subst x; case_match; [by apply try_adopt_inv|done]).
  destruct x as [a1 []]; [done|]. pose proof (allocate_inv (c_WGPublicKey c) a1 Hx). by destruct (Allocate _ a1) as [a2 [ip|e]].
Qed.
Lemma assign_members_keep leases l a : Inv a → Inv (traverse_alloc (assign_member leases) a l).1.
Proof.
  apply traverse_alloc_keeps. clear a. intros a m Ha. unfold assign_member.
  pose proof (traverse_alloc_keeps (assign_client leases) Inv (m_Clients m) a (assign_client_keeps leases) Ha).
  by destruct (traverse_alloc _ a (m_Clients m)) as [a1 [cs|e]].
Qed.
Lemma releases_inv ks a : Inv a → Inv (foldl (λ a k, Release k a) a ks).
Proof. revert a. induction ks as [|k ks IH]; intros a Ha; [done|]. by apply IH, release_inv. Qed.

Lemma apply_state_alloc io sender now owner st vApps vs h : Inv (alloc h) → Inv (alloc (apply_state io sender now owner st vApps vs h).1).
Proof.
  intros Hi. unfold apply_state. pose proof (assign_members_keep (lease_map (mjoin (map v_Leases vs))) (map v_Entry vs) _ Hi) as Ha.
  destruct (traverse_alloc _ _ _) as [a [assigned|e]]; [|done]. cbv zeta. destruct (Reconcile _ _ _) as [s0 [gone|e]]; [|done].
  cbn [fst]. match goal with |- context [install ?x ?y ?z ?w ?v ?g ?h] => destruct (install_frame x y z w v g h) as (_ & _ & -> & _) end.
  by apply releases_inv.
Qed.
Lemma push_alloc io sender now msg h : Inv (alloc h) → Inv (alloc (HandleDeviceState io sender now msg h).1).
Proof.
  intros Hi. unfold HandleDeviceState. destruct (decodeDeviceState msg) as [st|]; [|done]. destruct (_ && _); [done|].
  destruct (_ <? _)%Z; [done|]. destruct (PinnedAdminPublicKey _) as [owner|]; [|done]. destruct (verify_apps _ _ _ _) as [vApps|]; [|done].
  destruct (verify_members _ _ _ _ _ _ _ _) as [vs|]; [|done]. by apply apply_state_alloc.
Qed.

(** ** The invariant of the components *)

Record Good (h : Handlers) : Prop := {
  gd_pin : pin_ok (acl h);
  gd_fresh : fresh (acl h);
  gd_alloc : Inv (alloc h);
  gd_keyed : keyed (wg h)
}.

Lemma keyed_add k ip w : keyed w → keyed (AddPeer k ip w).1.
Proof.
  intros Hw k' p. destruct (AddPeer k ip w) as [w' r] eqn:E. cbn [fst]. rewrite (AddPeer_peers _ _ _ _ _ E).
  destruct r; [|apply Hw]. intros [[<- <-]|[_ Hp]]%lookup_insert_Some; [done|]. by apply Hw.
Qed.
Lemma keyed_remove k w : keyed w → keyed (RemovePeer k w).
Proof. intros Hw k' p. rewrite (proj2 (RemovePeer_state k w)). intros [_ Hp]%lookup_delete_Some. by apply Hw. Qed.
Lemma keyed_foldl {A} (f : WgServer.Server → A → WgServer.Server) l w : (∀ w x, keyed w → keyed (f w x)) → keyed w → keyed (foldl f w l).
Proof. intros Hf. revert w. induction l as [|x l IH]; intros w Hw; [done|]. by apply IH, Hf. Qed.
Lemma keyed_apply_member w m : keyed w → keyed (apply_member w m).
Proof.
  intros Hw. unfold apply_member. destruct (_ =s _); apply keyed_foldl; try done; intros w' c Hw'; case_match; try done;
    by (apply keyed_remove || apply keyed_add).
Qed.

Lemma member_index_spec ms id i : member_index ms !! id = Some i → ∃ m, ms !! i = Some m ∧ m_MemberID m = id.
Proof.
  unfold member_index. induction ms as [|m ms IH] using rev_ind; [cbn; by rewrite lookup_empty|].
  rewrite imap_pair_snoc, foldl_app. cbn [foldl fst snd]. intros [[Hid Hi]|[_ Hi]]%lookup_insert_Some.
  - exists m. subst i. by rewrite lookup_app_r, Nat.sub_diag by lia.
  - destruct (IH Hi) as (m' & Hm' & Hid). exists m'. split; [by apply lookup_app_l_Some|done].
Qed.
Lemma lookup_member id s m : fresh s → LookupByMemberID id s = Some m → existsb (has_id id) (members s) = true.
Proof.
  intros (_ & Hm & _)%fresh_iff. unfold LookupByMemberID. rewrite Hm. destruct (member_index (members s) !! id) as [i|] eqn:Ei; [|done].
  intros Hi. simpl in Hi. apply member_index_spec in Ei as (m' & Hm' & <-). apply existsb_exists. exists m'. unfold has_id. rewrite seqb_refl.
  split; [apply list_elem_of_In; by eapply list_elem_of_lookup_2|done].
Qed.

Lemma provision_good relay c entry k h h' r : existsb (has_id (n_MemberID entry)) (members (acl h)) = true →
  provision_peer relay c entry k h = (h', r) → Good h → Good h'.
Proof.
  intros Hm Hp [G1 G2 G3 G4]. revert Hp. unfold provision_peer. pose proof (allocate_inv k _ G3) as Ha.
  destruct (Allocate k (alloc h)) as [a [ip|e]]; [|intros [= <- _]; by split]. cbv zeta.
  set (rec := MkClient _ _ _ _ _ _). change (acl (set_alloc h a)) with (acl h).
  pose proof (fresh_apply (OpAddClient (n_MemberID entry) rec) (acl h) Hm G2) as F1.
  pose proof (pin_ok_apply (OpAddClient (n_MemberID entry) rec) (acl h) eq_refl G1) as P1. simpl in F1, P1.
  destruct (AddClient _ _ _) as [s added]. destruct added; cbn [negb].
  2:{ intros [= <- _]. split; [done..|by apply release_inv|done]. }
  pose proof (keyed_add k ip (wg h) G4) as K1. cbn [wg set_acl set_alloc]. destruct (AddPeer k ip (wg h)) as [w [[]|e]].
  - destruct (SignProvisionResponse _ _) as [sig|]; [|intros [= <- _]; by split].
    destruct (MintTunnelIPLease _ _ _ _) as [lease|]; intros [= <- _]; by split.
  - intros [= <- _]. cbn in *. split; [..|by apply release_inv|done].
    + apply (pin_ok_apply (OpRemoveClient (n_MemberID entry) k) s eq_refl P1).
    + apply (fresh_apply (OpRemoveClient (n_MemberID entry) k) s eq_refl F1).
Qed.

Lemma push_good io sender now msg h h' r : HandleDeviceState io sender now msg h = (h', r) → Good h → Good h'.
Proof.
  intros E [G1 G2 G3 G4]. pose proof (push_alloc io sender now msg h G3) as Ha. rewrite E in Ha.
  apply HandleDeviceState_cases in E as [(e & _ & Eh)|[(_ & -> & _)|(ms & _ & st & owner & vApps & vs & a & assigned & vm & gone & [])]];
    [rewrite Eh; by split|by split|].
  split; [| |done|]; rewrite ?ar_acl, ?ar_wg.
  - intros pin m Hp Hm Ha'. by apply (proj1 (validate_none _ _) ar_valid pin m).
  - done.
  - apply keyed_foldl; [intros; by apply keyed_apply_member|]. apply keyed_foldl; [intros; by apply keyed_remove|done].
Qed.

Lemma liveness_shape now h : ∃ l, checkLiveness now h = set_live h l ∨ checkLiveness now h = dropAllPeers (set_live h l).
Proof. unfold checkLiveness. cbv zeta. repeat case_match; eexists; (by left) || (by right). Qed.

Lemma drop_peers_sub ms w k p : peers (drop_peers ms w) !! k = Some p → peers w !! k = Some p.
Proof. rewrite drop_peers_spec. by case_bool_decide. Qed.

Lemma tick_frame t a : let h := a_h a in let h' := a_h (apply_tick t a) in
  acl h' = acl h ∧ alloc h' = alloc h ∧ keys h' = keys h ∧ deviceID h' = deviceID h ∧ exited h' = exited h ∧
  ∀ k p, peers (wg h') !! k = Some p → peers (wg h) !! k = Some p.
Proof.
  destruct t as [now|now| |]; cbn; [done| |done|done].
  destruct (liveness_shape now (a_h a)) as [l [->| ->]]; [done|]. split_and!; [done..|]. intros k p. apply drop_peers_sub.
Qed.

Lemma core_good h h' : core h' = core h → Good h → Good h'.
Proof. unfold core, access. intros [= E1 E2 E3 _ _ _ _] [G1 G2 G3 G4]. split; by rewrite ?E1, ?E2, ?E3. Qed.

Lemma client_ops_frame id rec k s : let s1 := (AddClient id rec s).1 in let s2 := (RemoveClient id k s).1 in
  generation s1 = generation s ∧ generation s2 = generation s.
Proof. unfold AddClient, RemoveClient. split; repeat case_match; done. Qed.

Lemma provision_acl relay c entry k h h' r : provision_peer relay c entry k h = (h', r) →
  ∃ ops, acl h' = foldl (λ s o, AclStore.apply_op o s) (acl h) ops ∧ Forall (λ o, drops_pin o = false) ops ∧
    generation (acl h') = generation (acl h).
Proof.
  unfold provision_peer. destruct (Allocate k (alloc h)) as [a [ip|e]]; [|intros [= <- _]; by exists []]. cbv zeta.
  set (rec := MkClient _ _ _ _ _ _). change (acl (set_alloc h a)) with (acl h).
  destruct (client_ops_frame (n_MemberID entry) rec k (acl h)) as [G1 _].
  destruct (AddClient (n_MemberID entry) rec (acl h)) as [s added] eqn:Es. assert (s = AclStore.apply_op (OpAddClient (n_MemberID entry) rec) (acl h)) as Hs by (simpl; by rewrite Es).
  assert (Hone : ∃ ops, s = foldl (λ s o, AclStore.apply_op o s) (acl h) ops ∧ Forall (λ o, drops_pin o = false) ops ∧ generation s = generation (acl h)).
  { exists [OpAddClient (n_MemberID entry) rec]. split; [done|]. split; [by repeat constructor|done]. }
  destruct added; cbn [negb]; [|intros [= <- _]; exact Hone].
  destruct (AddPeer _ _ _) as [w [[]|e]].
  - destruct (SignProvisionResponse _ _) as [sig|]; [|intros [= <- _]; exact Hone].
    destruct (MintTunnelIPLease _ _ _ _); intros [= <- _]; exact Hone.
  - intros [= <- _]. exists [OpAddClient (n_MemberID entry) rec; OpRemoveClient (n_MemberID entry) k]. cbn [acl set_alloc set_acl set_wg].
    split; [simpl; by rewrite Es|]. split; [by repeat constructor|].
    destruct (client_ops_frame (n_MemberID entry) rec k s) as [_ G2]. simpl in *. congruence.
Qed.

Lemma pin_stable_all ops s pin : Forall (λ o, drops_pin o = false) ops → pinnedAdminPubKey s = Some pin →
  pinnedAdminPubKey (foldl (λ s o, AclStore.apply_op o s) s ops) = Some pin.
Proof. intros Hops. revert s. induction Hops as [|o ops Ho _ IH]; intros s Hs; [done|]. by apply IH, pin_stable. Qed.

(** A signed order of the pinned admin to unpair this device. *)
Definition unpair_order (pin dev : string) (msg : TunnelMessage) : Prop :=
  signed_by pin msg ∧ ∃ f d, unmarshal_obj (zero_fields, "") dec_device_payload (t_Payload msg) = Some (f, d) ∧
    Intent f = "unpair-device-" +:+ dev +:+ "-" +:+ itoa (Timestamp f).

(** What one step does to the trust anchors. *)
Record step_safe (pin : string) (ev : event) (h h' : Handlers) : Prop := {
  ss_good : Good h';
  ss_gen : (generation (acl h) <= generation (acl h'))%Z;
  ss_keys : keys h' = keys h ∧ deviceID h' = deviceID h;
  ss_pin : exited h' = false → pinnedAdminPubKey (acl h') = Some pin;
  ss_exit : exited h' = true → ∃ i msg, ev = Message i msg ∧ unpair_order pin (deviceID h) msg
}.

Lemma effect_safe i msg h h' pin : Good h → pinnedAdminPubKey (acl h) = Some pin → exited h = false → effect i msg h h' →
  step_safe pin (Message i msg) h h'.
Proof.
  intros Hg Hp Hx [Hc|relay r E|r E|E].
  - pose proof (core_good _ _ Hc Hg) as Hg'. unfold core, access in Hc. injection Hc as E1 E2 E3 E4 E5 E6 E7.
    split; [done|rewrite E2; lia|done|intros _; by rewrite E2|congruence].
  - destruct (provision_frame _ _ _ _ _ _ E) as (K1 & K2 & K3 & _). rewrite Hx in K3.
    pose proof (HandleProvision_cases _ _ _ _ _ _ E) as [(e & _ & [->|[k ->]])|(entry & p & key & Hauth & _ & Hpp)].
    1, 2: split; [destruct Hg; by split|cbn; lia|done|done|cbn; congruence].
    destruct (provision_acl _ _ _ _ _ _ _ Hpp) as (ops & Ha & Hops & Hgen). split; [|cbn in Hgen; lia|done| |congruence].
    + eapply provision_good; [|exact Hpp|by destruct Hg]. destruct Hauth as (_ & _ & _ & _ & _ & m & pub & Hl & _).
      eapply lookup_member; [apply Hg|exact Hl].
    + intros _. rewrite Ha. by apply pin_stable_all.
  - pose proof (push_good _ _ _ _ _ _ _ E Hg) as Hg'. pose proof (push_frame (in_domain i) true (in_now i) msg h) as Hf. rewrite E in Hf.
    destruct Hf as (K1 & K2 & K3). cbn [fst] in K1, K2, K3. rewrite Hx in K3.
    apply HandleDeviceState_cases in E as [(e & _ & Eh)|[(_ & -> & _)|(ms & _ & st & owner & vApps & vs & a & assigned & vm & gone & [])]].
    + split; [done| |done| |congruence]; rewrite Eh; cbn; [lia|done].
    + split; [done|lia|done|done|congruence].
    + split; [done| |done| |congruence]; rewrite ar_acl; cbn; [lia|done].
  - unfold HandleUnpaired in E. destruct (admin_device_command _ _ _ _) as [[]|] eqn:Ea; [|done]. injection E as <-.
    destruct (admin_device_pinned _ _ _ _ pin (gd_pin _ Hg) Hp Ea) as (Hs & f & d & Hf & Hi & _).
    split; [| |done|done|].
    + destruct Hg as [G1 G2 G3 G4]. split; cbn; [|..|done|].
      * apply (pin_ok_apply (OpClearPin (in_removed i)) (acl h) eq_refl G1).
      * apply (fresh_apply (OpClearPin (in_removed i)) (acl h) eq_refl G2).
      * intros k p. unfold WgServer.Stop. case_match; apply G4.
    + cbn. unfold ClearPinnedAdminPublicKey. repeat case_match; cbn; lia.
    + intros _. exists i, msg. split; [done|]. split; [done|]. eauto.
Qed.

Lemma step_trust a ev a' pin : Good (a_h a) → pinnedAdminPubKey (acl (a_h a)) = Some pin → agent_step a ev a' →
  step_safe pin ev (a_h a) (a_h a').
Proof.
  intros Hg Hp Hs. destruct Hs as [url i msg a a' resp Hx Hd|t a Hx].
  - eapply effect_safe; [done..|by eapply dispatch_effect].
  - destruct (tick_frame t a) as (E1 & E2 & E3 & E4 & E5 & E6). destruct Hg as [G1 G2 G3 G4].
    split; [|rewrite E1; lia|done|intros _; by rewrite E1|congruence]. split; rewrite ?E1, ?E2; [done..|]. intros k p Hk. by apply G4, E6.
Qed.

(** C2: whatever the coordination service sends, in any order, interleaved with the agent's own
    ticks: as long as the agent runs the admin pin is the one it started with, no admin row has
    another identity key, the indexes of the store are those of its rows, no address is bound to
    two keys, the applied generation never goes back and the device's own key and identity stay.
    The agent stops only on a message signed with that very pin that orders to unpair this device. *)
Theorem session_trust a0 tr a pin : Good (a_h a0) → pinnedAdminPubKey (acl (a_h a0)) = Some pin → exited (a_h a0) = false → reach a0 tr a →
  Good (a_h a) ∧ (generation (acl (a_h a0)) <= generation (acl (a_h a)))%Z ∧
  (keys (a_h a) = keys (a_h a0) ∧ deviceID (a_h a) = deviceID (a_h a0)) ∧
  (exited (a_h a) = false → pinnedAdminPubKey (acl (a_h a)) = Some pin) ∧
  (exited (a_h a) = true → ∃ tr0 i msg, tr = tr0 ++ [Message i msg] ∧ unpair_order pin (deviceID (a_h a0)) msg).
Proof.
  intros Hg Hp Hx. induction 1 as [|tr a ev a' Hr IH Hs]; [split_and!; done || lia || congruence|].
  destruct IH as (G & Hgen & [Hk Hd] & Hpin & _). assert (Hrun : exited (a_h a) = false) by (by destruct Hs).
  destruct (step_trust a ev a' pin G (Hpin Hrun) Hs) as [S1 S2 [S3 S4] S5 S6]. split_and!; [done|lia|congruence|congruence|done|].
  intros He. destruct (S6 He) as (i & msg & -> & Ho). rewrite Hd in Ho. eauto.
Qed.

(** ** Where peers come from *)

Definition client_key (entry : nonceEntry) (p : ProvisionPayload) : string := if pp_ClientKey p =s "" then n_ClientKey entry else pp_ClientKey p.

(** The event makes [k] a peer: an answered challenge, or a push in which a member who is not
    suspended and is properly signed for has registered the key. *)
Definition installs (h : Handlers) (ev : event) (k : string) : Prop :=
  match ev with
  | Turn _ => False
  | Message i msg =>
      (∃ entry p, provision_authorized (in_now i) msg h entry p ∧ k = client_key entry p) ∨
      (∃ h' msgs st owner dm m c, HandleDeviceState (in_domain i) true (in_now i) msg h = (h', Ok (Applied msgs)) ∧
         decodeDeviceState msg = Ok st ∧ pinnedAdminPubKey (acl h) = Some owner ∧ dm ∈ ds_Members st ∧
         member_authorised (deviceID h) owner (nas_of h) (keys h) (in_now i) (apps (acl h')) dm m ∧
         c ∈ m_Clients m ∧ c_WGPublicKey c = k ∧ m_Status m ≠ "suspended")
  end.

Lemma provision_peers relay c entry k h h' r j : provision_peer relay c entry k h = (h', r) → is_Some (peers (wg h') !! j) →
  is_Some (peers (wg h) !! j) ∨ j = k.
Proof.
  unfold provision_peer. destruct (Allocate k (alloc h)) as [a [ip|e]]; [|intros [= <- _]; by left]. cbv zeta.
  destruct (AddClient _ _ _) as [s []]; cbn [negb]; [|intros [= <- _]; by left].
  destruct (AddPeer _ _ _) as [w r1] eqn:Ew. apply AddPeer_peers in Ew. cbn [wg set_acl set_alloc] in Ew.
  assert (Hw : is_Some (peers w !! j) → is_Some (peers (wg h) !! j) ∨ j = k).
  { rewrite Ew. destruct r1; [|by left]. intros [Hj|[_ Hj]]%lookup_insert_is_Some; [by right|by left]. }
  destruct r1 as [[]|e]; [|intros [= <- _]; exact Hw].
  destruct (SignProvisionResponse _ _) as [sig|]; [|intros [= <- _]; exact Hw]. destruct (MintTunnelIPLease _ _ _ _); intros [= <- _]; exact Hw.
Qed.

Lemma applied_peers_new io now msg h h' st owner vApps vs a assigned vm gone k :
  applied_run io now msg h h' st owner vApps vs a assigned vm gone → is_Some (peers (wg h') !! k) →
  is_Some (peers (wg h) !! k) ∨ ∃ m c, m ∈ vm ∧ c ∈ m_Clients m ∧ c_WGPublicKey c = k ∧ m_Status m ≠ "suspended".
Proof.
  intros [] Hk. destruct (existsb (λ m, key_of k m && (m_Status m <>s "suspended")) vm) eqn:Ex.
  - right. apply existsb_exists in Ex as (m & Hm & [Hkm Hs]%andb_true_iff). apply list_elem_of_In in Hm.
    apply key_of_spec in Hkm as (c & Hc & Hck). apply negb_true_iff, seqb_false in Hs. eauto 6.
  - left. rewrite ar_wg in Hk. destruct (decide (k = "")) as [->|Hne].
    { rewrite blank_peers, removed_peers in Hk. by case_bool_decide; [destruct Hk|]. }
    rewrite apply_members_peers, removed_peers in Hk; [|done|].
    + destruct (existsb (key_of k) vm); [by destruct Hk|]. by case_bool_decide; [destruct Hk|].
    + intros m Hm Hkm. destruct (m_Status m =s "suspended") eqn:E; [by apply seqb_true|]. exfalso.
      rewrite <- not_true_iff_false in Ex. apply Ex, existsb_exists. exists m. rewrite <- list_elem_of_In, Hkm, E. done.
Qed.

Lemma step_installs a ev a' k : agent_step a ev a' → is_Some (peers (wg (a_h a')) !! k) →
  is_Some (peers (wg (a_h a)) !! k) ∨ installs (a_h a) ev k.
Proof.
  intros Hs Hk. destruct Hs as [url i msg a a' resp Hx Hd|t a Hx].
  - apply dispatch_effect in Hd as [Hc|relay r E|r E|E].
    + unfold core, access in Hc. injection Hc as E1 _ _ _ _ _ _. rewrite E1 in Hk. by left.
    + pose proof (HandleProvision_cases _ _ _ _ _ _ E) as [(e & _ & [Eh|[j Eh]])|(entry & p & key & Hauth & -> & Hpp)].
      1, 2: rewrite Eh in Hk; by left.
      destruct (provision_peers _ _ _ _ _ _ _ k Hpp Hk) as [Hold|Hkey]; [by left|]. right. left. eauto.
    + pose proof E as E'. apply HandleDeviceState_cases in E' as [(e & _ & Eh)|[(_ & Eh & _)|(ms & -> & st & owner & vApps & vs & al & assigned & vm & gone & Hrun)]].
      1, 2: rewrite Eh in Hk; by left.
      destruct (applied_peers_new _ _ _ _ _ _ _ _ _ _ _ _ _ k Hrun Hk) as [Hold|(m & c & Hm & Hc & Hck & Hst)]; [by left|].
      right. right. destruct Hrun. subst vm. destruct (run_members _ _ _ _ _ _ _ _ _ ar_members ar_assign Hm) as (dm & Hdm & Hma).
      exists (a_h a'), ms, st, owner, dm, m, c. rewrite ar_acl. done.
    + unfold HandleUnpaired in E. destruct (admin_device_command _ _ _ _) as [[]|]; [|done]. injection E as E. rewrite <- E in Hk. left.
      revert Hk. cbn. unfold WgServer.Stop. by case_match.
  - left. destruct (tick_frame t a) as (_ & _ & _ & _ & _ & Hp). destruct Hk as [p Hk]. exists p. by apply Hp.
Qed.


(** ** Peers, records and addresses agree *)

(** The address of a record is the one its key has in the allocator. *)
Definition bound (h : Handlers) : Prop := ∀ m c, m ∈ members (acl h) → c ∈ m_Clients m → c_WGPublicKey c ≠ "" →
  allocated (alloc h) !! c_WGPublicKey c = Some (c_TunnelIP c).
Definition aligned (h : Handlers) : Prop := covered h ∧ bound h.

Lemma update_first_other {A} (p : A → bool) f l x : x ∈ l → p x = false → x ∈ update_first p f l.
Proof.
  intros Hx Hp. induction l as [|y l IH]; [by apply not_elem_of_nil in Hx|]. simpl. apply elem_of_cons in Hx as [->|Hx].
  - rewrite Hp. by left.
  - destruct (p y); right; [done|by apply IH].
Qed.

Lemma put_client_cases rec cs c' : c' ∈ put_client rec cs →
  c' ∈ cs ∨ c' = rec ∨ ∃ c, c ∈ cs ∧ c_WGPublicKey c = c_WGPublicKey rec ∧ c' = refresh_client rec c.
Proof.
  unfold put_client. case_match.
  - intros [?|(c & Hc & Hk & ->)]%update_first_cases; [by left|]. right. right. exists c. split; [done|]. split; [by apply seqb_true|done].
  - intros [?|Hc%list_elem_of_singleton]%elem_of_app; tauto.
Qed.
Lemma put_client_keeps rec cs c : c ∈ cs → ∃ c', c' ∈ put_client rec cs ∧ c_WGPublicKey c' = c_WGPublicKey c.
Proof.
  intros Hc. destruct (decide (c_WGPublicKey c = c_WGPublicKey rec)) as [E|E].
  - destruct (put_client_key rec cs) as (c' & Hc' & Hk & _). exists c'. split; [done|congruence].
  - exists c. split; [|done]. unfold put_client. case_match; [|apply elem_of_app; by left].
    apply update_first_other; [done|]. by apply seqb_false.
Qed.

Lemma strip_member_sub id rec m : m_Clients (strip_member id rec m) ⊆ m_Clients m.
Proof. unfold strip_member. case_match; [done|]. cbn. apply filter_sub. Qed.

Lemma AddClient_records id rec s s' m' c' : AddClient id rec s = (s', true) → m' ∈ members s' → c' ∈ m_Clients m' →
  (∃ m, m ∈ members s ∧ c' ∈ m_Clients m) ∨ c' = rec ∨
  ∃ m c, m ∈ members s ∧ c ∈ m_Clients m ∧ c_WGPublicKey c = c_WGPublicKey rec ∧ c' = refresh_client rec c.
Proof.
  unfold AddClient. destruct (_ =s ""); [done|]. case_match; [|done]. intros [= <-]. cbn [members rebuildIndexes with_members].
  intros [Hm|(m1 & Hm & _ & ->)]%update_first_cases Hc.
  - apply list_elem_of_fmap in Hm as (m & -> & Hm). left. exists m. split; [done|by eapply strip_member_sub].
  - apply list_elem_of_fmap in Hm as (m & -> & Hm). cbn in Hc. apply put_client_cases in Hc as [Hc|[->|(c & Hc & Hk & ->)]].
    + left. exists m. split; [done|by eapply strip_member_sub].
    + tauto.
    + right. right. exists m, c. split_and!; [done|by eapply strip_member_sub|done..].
Qed.

Lemma AddClient_keeps id rec s s' m c : AddClient id rec s = (s', true) → m ∈ members s → c ∈ m_Clients m → strips rec c = false →
  ∃ m' c', m' ∈ members s' ∧ c' ∈ m_Clients m' ∧ c_WGPublicKey c' = c_WGPublicKey c.
Proof.
  unfold AddClient. destruct (_ =s ""); [done|]. case_match; [|done]. intros [= <-] Hm Hc Hs. cbn [members rebuildIndexes with_members].
  assert (Hin : strip_member id rec m ∈ map (strip_member id rec) (members s)) by (apply list_elem_of_fmap; eauto).
  assert (Hc' : c ∈ m_Clients (strip_member id rec m)).
  { unfold strip_member. case_match; [done|]. cbn. apply list_elem_of_In, filter_In. split; [by apply list_elem_of_In|by rewrite Hs]. }
  set (f := λ m : MemberACLEntry, set_clients m (put_client rec (m_Clients m))).
  assert (Hex : strip_member id rec m ∈ update_first (has_id id) f (map (strip_member id rec) (members s)) ∨
    f (strip_member id rec m) ∈ update_first (has_id id) f (map (strip_member id rec) (members s))).
  { clear -Hin. induction (map (strip_member id rec) (members s)) as [|x l IH]; [by apply not_elem_of_nil in Hin|]. simpl.
    apply elem_of_cons in Hin as [->|Hin]; [destruct (has_id id x); [right|left]; by left|].
    destruct (has_id id x); [left; by right|]. destruct (IH Hin); [left|right]; by right. }
  destruct Hex as [Hex|Hex]; [eauto 6|]. destruct (put_client_keeps rec _ c Hc') as (c' & Hp & Hk). exists (f (strip_member id rec m)), c'. done.
Qed.

Lemma Allocate_err k a a' e : Allocate k a = (a', Err e) → a' = a.
Proof. unfold Allocate. repeat case_match; congruence. Qed.

Lemma provision_aligned relay c entry k h h' r : Inv (alloc h) → existsb (has_id (n_MemberID entry)) (members (acl h)) = true →
  provision_peer relay c entry k h = (h', r) → r ≠ Err HAddPeer → aligned h → aligned h'.
Proof.
  intros Hi Hm Hp Hr [Hc Hb]. revert Hp. unfold provision_peer. pose proof (allocate_inv k _ Hi) as Hia.
  destruct (Allocate k (alloc h)) as [a [ip|e]] eqn:Ea; [|apply Allocate_err in Ea as ->; intros [= <- _]; by split]. cbv zeta.
  apply Allocate_grows in Ea as [Hsub Hk]. set (rec := MkClient _ _ _ _ _ _). change (acl (set_alloc h a)) with (acl h).
  assert (Hb0 : ∀ m c, m ∈ members (acl h) → c ∈ m_Clients m → c_WGPublicKey c ≠ "" → allocated a !! c_WGPublicKey c = Some (c_TunnelIP c))
    by (intros m1 c1 Hm1 Hc1 Hk1; eapply lookup_weaken; [by eapply Hb|done]).
  destruct (AddClient (n_MemberID entry) rec (acl h)) as [s []] eqn:Es; cbn [negb].
  - assert (Hne : k ≠ "") by (intros ->; by unfold AddClient in Es).
    destruct (AddPeer _ _ _) as [w [[]|e]] eqn:Ew; [|intros [= <- <-]; done]. apply AddPeer_peers in Ew. cbn [wg set_acl set_alloc] in Ew.
    assert (Hal : aligned (set_wg (set_acl (set_alloc h a) s) w)).
    { split.
      - intros j Hj. cbn [wg set_wg acl set_acl] in *. rewrite Ew in Hj. apply client_keys_spec.
        destruct (decide (j = k)) as [->|Hjk].
        { split; [done|]. apply AddClient_holds in Es as (m1 & c1 & ? & _ & ? & ? & _). eauto. }
        rewrite lookup_insert_ne in Hj by done. apply Hc, client_keys_spec in Hj as [Hj0 (m1 & c1 & Hm1 & Hc1 & Hck)]. split; [done|].
        destruct (strips rec c1) eqn:Est; [|destruct (AddClient_keeps _ _ _ _ _ _ Es Hm1 Hc1 Est) as (m2 & c2 & ? & ? & ?); exists m2, c2; split_and!; congruence || done].
        exfalso. apply Hjk. unfold strips in Est. apply orb_true_iff in Est as [Est%seqb_true|[_ Est%seqb_true]%andb_true_iff]; [by rewrite <- Hck|].
        cbn in Est. apply (inv_inj _ Hia j k ip); [|done]. rewrite <- Est, <- Hck. apply (Hb0 m1 c1 Hm1 Hc1). by rewrite Hck.
      - intros m1 c1 Hm1 Hc1 Hk1. cbn [acl set_wg set_acl alloc set_alloc] in *.
        destruct (AddClient_records _ _ _ _ _ _ Es Hm1 Hc1) as [(m2 & Hm2 & Hc2)|[->|(m2 & c2 & Hm2 & Hc2 & Hck & ->)]]; [by eapply Hb0|done|].
        cbn in *. rewrite Hk. f_equal. unfold orElse. case_match eqn:E0; [|done]. 
        assert (allocated a !! c_WGPublicKey c2 = Some (c_TunnelIP c2)) as E1 by (apply (Hb0 m2 c2 Hm2 Hc2); by rewrite Hck).
        rewrite Hck in E1. congruence. }
    destruct (SignProvisionResponse _ _) as [sig|]; [|intros [= <- _]; exact Hal]. destruct (MintTunnelIPLease _ _ _ _); intros [= <- _]; exact Hal.
  - intros [= <- _]. assert (k = "" ∧ s = acl h) as [-> ->].
    { revert Es. unfold AddClient. cbn [c_WGPublicKey rec]. destruct (k =s "") eqn:E0; [intros [= <-]; split; [by apply seqb_true|done]|].
      rewrite existsb_strip, Hm. done. }
    split; [exact Hc|]. intros m1 c1 Hm1 Hc1 Hk1. cbn. unfold Release. rewrite Hk. cbn. rewrite lookup_delete_ne by done. by eapply Hb0.
Qed.

Lemma assign_client_grows leases a c : Inv a → allocated a ⊆ allocated (assign_client leases a c).1.
Proof.
  intros Hi. destruct (assign_client leases a c) as [a' [c'|e]] eqn:E; [by destruct (assign_client_spec _ _ _ _ _ Hi E) as (_ & ? & _)|].
  revert E. unfold assign_client. destruct (_ =s ""); [done|]. destruct (Lookup _ a <>s ""); [done|]. cbv zeta.
  match goal with |- context [if ?b then TryAdopt ?k ?l a else (a, false)] => destruct (if b then TryAdopt k l a else (a, false)) as [a1 []] eqn:Et end; [done|].
  assert (a1 = a) as -> by (revert Et; case_match; [apply TryAdopt_refused|congruence]).
  destruct (Allocate _ a) as [a2 [ip|e']] eqn:Ea; [done|]. apply Allocate_err in Ea as ->. by intros [= <- _].
Qed.

Lemma push_grows io sender now msg h h' e : Inv (alloc h) → HandleDeviceState io sender now msg h = (h', Err e) →
  allocated (alloc h) ⊆ allocated (alloc h').
Proof.
  intros Hi. assert (Hone : ∀ leases l, Inv (traverse_alloc (assign_member leases) (alloc h) l).1 ∧
    allocated (alloc h) ⊆ allocated (traverse_alloc (assign_member leases) (alloc h) l).1).
  { intros leases l. apply (traverse_alloc_keeps (assign_member leases) (λ a, Inv a ∧ allocated (alloc h) ⊆ allocated a)); [|done].
    intros a m [Ha Hsub]. assert (Hx : Inv (traverse_alloc (assign_client leases) a (m_Clients m)).1 ∧
      allocated (alloc h) ⊆ allocated (traverse_alloc (assign_client leases) a (m_Clients m)).1).
    { apply (traverse_alloc_keeps (assign_client leases) (λ a, Inv a ∧ allocated (alloc h) ⊆ allocated a)); [|done].
      intros a1 c [Ha1 Hs1]. split; [by apply assign_client_keeps|]. etrans; [done|by apply assign_client_grows]. }
    unfold assign_member. by destruct (traverse_alloc _ a (m_Clients m)) as [a1 [cs|e1]]. }
  unfold HandleDeviceState. destruct (decodeDeviceState msg) as [st|]; [|by intros [= <- _]]. destruct (_ && _); [by intros [= <- _]|].
  destruct (_ <? _)%Z; [done|]. destruct (PinnedAdminPublicKey _) as [owner|]; [|by intros [= <- _]].
  destruct (verify_apps _ _ _ _) as [vApps|]; [|by intros [= <- _]]. destruct (verify_members _ _ _ _ _ _ _ _) as [vs|]; [|by intros [= <- _]].
  unfold apply_state. destruct (Hone (lease_map (mjoin (map v_Leases vs))) (map v_Entry vs)) as [_ Hsub].
  destruct (traverse_alloc _ _ _) as [a [assigned|e1]]; [|by intros [= <- _]]. cbv zeta. destruct (Reconcile _ _ _) as [s0 [gone|e1]]; [done|]. by intros [= <- _].
Qed.

Lemma push_aligned io now msg h h' r : Inv (alloc h) → HandleDeviceState io true now msg h = (h', r) → aligned h → aligned h'.
Proof.
  intros Hi E [Hc Hb]. destruct r as [[|msgs]|e].
  - apply HandleDeviceState_cases in E as [(e & ? & _)|[(_ & -> & _)|(ms & ? & _)]]; done.
  - split.
    + intros k Hk. destruct (push_peers_active _ _ _ _ _ _ _ Hc E k Hk) as (m & c & Hm & Hcm & Hck & _). apply client_keys_spec.
      split; [|eauto]. intros ->. revert Hk. apply HandleDeviceState_cases in E as [(e & ? & _)|[(? & _)|(ms & _ & st & owner & vApps & vs & a & assigned & vm & gone & [])]]; [done..|].
      rewrite ar_wg, blank_peers, removed_peers. case_bool_decide; [by intros []|]. intros Hk. apply Hc, client_keys_spec in Hk as [? _]. done.
    + intros m c Hm Hcm Hk. by destruct (proj2 (push_addresses _ _ _ _ _ _ _ Hi E) m c Hm Hcm Hk).
  - pose proof (push_grows _ _ _ _ _ _ _ Hi E) as Hsub. apply HandleDeviceState_cases in E as [(e' & _ & Eh)|[(? & _)|(ms & ? & _)]]; [|done..].
    rewrite Eh. split; [exact Hc|]. intros m c Hm Hcm Hk. cbn in *. eapply lookup_weaken; [by eapply Hb|done].
Qed.

(** A provision whose last step, adding the peer, fails takes the record and the address back,
    but leaves a peer the key may have had. *)
Definition add_failed (h : Handlers) (ev : event) : Prop :=
  match ev with
  | Message i msg => ∃ relay, (HandleProvision (in_now i) relay msg h).2 = Err HAddPeer
  | Turn _ => False
  end.

Lemma step_aligned a ev a' : Good (a_h a) → agent_step a ev a' → ~ add_failed (a_h a) ev → aligned (a_h a) → aligned (a_h a').
Proof.
  intros Hg Hs Hn Hal. destruct Hs as [url i msg a a' resp Hx Hd|t a Hx].
  - apply dispatch_effect in Hd as [Hc|relay r E|r E|E].
    + unfold core, access in Hc. injection Hc as E1 E2 E3 _ _ _ _. destruct Hal as [Hc Hb]. unfold aligned, covered, bound. by rewrite E1, E2, E3.
    + pose proof (HandleProvision_cases _ _ _ _ _ _ E) as [(e & _ & [Eh|[j Eh]])|(entry & p & key & Hauth & _ & Hpp)].
      1, 2: rewrite Eh; by destruct Hal.
      eapply provision_aligned; [| |exact Hpp| |by destruct Hal].
      * apply Hg.
      * destruct Hauth as (_ & _ & _ & _ & _ & m & pub & Hl & _). eapply lookup_member; [apply Hg|exact Hl].
      * intros ->. apply Hn. exists relay. by rewrite E.
    + eapply push_aligned; [apply Hg|exact E|done].
    + unfold HandleUnpaired in E. destruct (admin_device_command _ _ _ _) as [[]|]; [|done]. injection E as E. rewrite <- E.
      destruct Hal as [Hc Hb]. split.
      * intros k Hk. unfold ClearPinnedAdminPublicKey. cbn in *. assert (is_Some (peers (wg (a_h a)) !! k)) by (revert Hk; unfold WgServer.Stop; by case_match).
        repeat case_match; by apply Hc.
      * intros m c Hm. unfold ClearPinnedAdminPublicKey in Hm. cbn in *. assert (m ∈ members (acl (a_h a))) by (revert Hm; repeat case_match; done). by apply Hb.
  - destruct (tick_frame t a) as (E1 & E2 & _ & _ & _ & Hp). destruct Hal as [Hc Hb]. split.
    + intros k [p Hk]. rewrite E1. apply Hc. exists p. by apply Hp.
    + intros m c. rewrite E1, E2. apply Hb.
Qed.

(** C10: as long as no provision fails at its last step, peers, records and addresses agree in
    every state the agent reaches: each WireGuard peer has a client record in the store, each
    record has the address the allocator holds for its key, and so two records with different
    keys never share an address. When the server has been silent too long the liveness tick then
    leaves no peer at all. *)
Theorem session_aligned a0 tr a pin : Good (a_h a0) → pinnedAdminPubKey (acl (a_h a0)) = Some pin → aligned (a_h a0) → reach a0 tr a →
  (∀ tr1 ev tr2 a1, tr = tr1 ++ ev :: tr2 → reach a0 tr1 a1 → ~ add_failed (a_h a1) ev) →
  aligned (a_h a) ∧
  (∀ m c m' c', m ∈ members (acl (a_h a)) → c ∈ m_Clients m → m' ∈ members (acl (a_h a)) → c' ∈ m_Clients m' → c_WGPublicKey c ≠ "" →
     c_WGPublicKey c' ≠ "" → c_TunnelIP c' = c_TunnelIP c → c_WGPublicKey c' = c_WGPublicKey c) ∧
  ∀ now, failClosed (liveness now (a_h a)) = false → unusable now (a_h a) → peers (wg (a_h (apply_tick (TLiveness now) a))) = ∅.
Proof.
  intros Hg Hp Hal Hr Hn. assert (Hboth : (Good (a_h a) ∧ (exited (a_h a) = false → pinnedAdminPubKey (acl (a_h a)) = Some pin)) ∧ aligned (a_h a)).
  { revert Hn. induction Hr as [|tr a ev a' Hr IH Hs]; intros Hn; [done|]. destruct IH as [[G Hpin] IHal].
    { intros tr1 ev1 tr2 a1 -> Hr1. apply (Hn tr1 ev1 (tr2 ++ [ev]) a1); [by rewrite <- app_assoc|done]. }
    assert (Hrun : exited (a_h a) = false) by (by destruct Hs). destruct (step_trust a ev a' pin G (Hpin Hrun) Hs) as [S1 _ _ S5 _].
    split; [done|]. eapply step_aligned; [exact G|exact Hs| |done]. apply (Hn tr ev [] a); done. }
  destruct Hboth as [[G _] [Hc Hb]]. split; [done|]. split.
  - intros m c m' c' Hm Hcm Hm' Hcm' Hk Hk' Hip. apply (inv_inj _ (gd_alloc _ G) _ _ (c_TunnelIP c)); [|by apply (Hb m c)].
    rewrite <- Hip. by apply (Hb m' c').
  - intros now Hf Hu. destruct (fail_closed_drops now (a_h a) Hf) as (_ & _ & _ & Hdrop & _). cbn. by apply Hdrop.
Qed.

(** ** Fail-closed and provisioning *)

Lemma tick_fail_closed l t a : live (a_h a) = Some l → failClosed l = true →
  live (a_h (apply_tick t a)) = Some l ∧ peers (wg (a_h (apply_tick t a))) = peers (wg (a_h a)).
Proof.
  intros Hl Hf. destruct t as [now|now| |]; try done. cbn [apply_tick set_h a_h]. unfold checkLiveness, liveness. rewrite Hl. cbn [from_option id]. by rewrite Hf.
Qed.


(** ** The connection loop takes only the agent's steps *)

Definition inbound (items : list item) (i : inputs) (msg : TunnelMessage) : Prop := ∃ w, Inbound i msg w ∈ items.

(** A message that was written is the answer a handler gave to a message that had been read. *)
Definition answers (items : list item) (m : TunnelMessage) : Prop :=
  ∃ url i msg a a', inbound items i msg ∧ dispatch (wired url) i msg a = (a', Some m).

(** The run went through the steps of [tr], whose messages were all read from the socket. *)
Definition stepped (items : list item) (a a' : Agent) : Prop :=
  ∃ tr, reach a tr a' ∧ ∀ i msg, Message i msg ∈ tr → inbound items i msg.

Lemma stepped_mono items items' a a' : (∀ x, x ∈ items → x ∈ items') → stepped items a a' → stepped items' a a'.
Proof. intros Hsub (tr & Hr & Hin). exists tr. split; [done|]. intros i msg Hm. destruct (Hin i msg Hm) as [w Hw]. exists w. by apply Hsub. Qed.
Lemma stepped_trans items a b c : stepped items a b → stepped items b c → stepped items a c.
Proof.
  intros (t1 & R1 & I1) (t2 & R2 & I2). exists (t1 ++ t2). split; [by eapply reach_app|]. intros i msg [Hm|Hm]%elem_of_app; [by apply I1|by apply I2].
Qed.
Lemma stepped_refl items a : stepped items a a.
Proof. exists []. split; [constructor|]. by intros i msg Hm%not_elem_of_nil. Qed.
Lemma stepped_tick items t a : exited (a_h a) = false → stepped items a (apply_tick t a).
Proof. intros Hx. exists [Turn t]. split; [by apply reach_one, step_tick|]. by intros i msg Hm%list_elem_of_singleton. Qed.

Lemma readLoop_steps url c items a a' out : Tunnel.handlers c = Tunnel.handlers (wired url) → readLoop c items a = (a', out) →
  stepped items a a' ∧ Forall (answers items) out.
Proof.
  intros Hh. revert a a' out. induction items as [|it rest IH]; intros a a' out; cbn [readLoop]; [intros [= <- <-]; split; [apply stepped_refl|done]|].
  destruct (exited (a_h a)) eqn:Ex; [intros [= <- <-]; split; [apply stepped_refl|done]|].
  assert (Hup : ∀ x y, stepped rest x y → stepped (it :: rest) x y) by (intros x y; apply stepped_mono; intros z Hz; by right).
  assert (Hout : ∀ l, Forall (answers rest) l → Forall (answers (it :: rest)) l).
  { intros l Hl. eapply Forall_impl; [exact Hl|]. intros m (u & i & msg & b & b' & [w Hw] & Hd). exists u, i, msg, b, b'. split; [exists w; by right|done]. }
  destruct it as [i msg wrote|t].
  - assert (Hdisp : ∀ b r, dispatch c i msg a = (b, r) → dispatch (wired url) i msg a = (b, r)) by (unfold dispatch; by rewrite Hh).
    destruct (dispatch c i msg a) as [b r] eqn:Ed. specialize (Hdisp b r eq_refl).
    assert (Hone : stepped (Inbound i msg wrote :: rest) a b).
    { exists [Message i msg]. split; [by eapply reach_one, step_message|]. intros j m Hm%list_elem_of_singleton. injection Hm as -> ->. exists wrote. by left. }
    destruct r as [resp|]; [destruct wrote|].
    + destruct (readLoop c rest b) as [a2 out2] eqn:Er. intros [= <- <-]. destruct (IH _ _ _ Er) as [S O]. split; [by eapply stepped_trans, Hup|].
      constructor; [|by apply Hout]. exists url, i, msg, a, b. split; [exists true; by left|done].
    + intros [= <- <-]. done.
    + intros Er. destruct (IH _ _ _ Er) as [S O]. split; [by eapply stepped_trans, Hup|by apply Hout].
  - intros Er. destruct (IH _ _ _ Er) as [S O]. split; [|by apply Hout]. eapply stepped_trans; [by apply stepped_tick|by apply Hup].
Qed.

Lemma publish_sub msgs ws m : m ∈ publish msgs ws → m ∈ msgs.
Proof.
  revert ws. induction msgs as [|x msgs IH]; intros ws; [done|]. destruct ws as [|[] ws]; simpl; [by intros ?%not_elem_of_nil| |by intros ?%not_elem_of_nil].
  intros [->|Hm]%elem_of_cons; [by left|right; by eapply IH].
Qed.

End Steps.

(** ** A session *)

Module TunnelDemo.
#[local] Existing Instance AclStore.Demo.ascii_only.
#[local] Existing Instance Toy.prims.
#[local] Existing Instance HandDemo.normal.
#[local] Existing Instance HandDemo.on_host.
#[local] Existing Instance HandDemo.urls.
#[local] Existing Instance DevDemo.plain.

Definition key : string := DevDemo.key.
Definition i0 : inputs := MkInputs (1000 * second) (Some "ff") (Some false) DevDemo.io true None.
(** The owner is known, and no client yet. *)
Definition owner_row : MemberACLEntry := set_clients AclStore.Demo.owner [].
Definition st0 : Store := rebuildIndexes (with_members EnvDemo.store [owner_row]).
Definition a0 : Agent := MkAgent (set_acl DevDemo.start st0) (Relay.NewManager true).
Definition url : string := "https://api.example/".
Definition push : TunnelMessage := DevDemo.full "active".
Definition next (msg : TunnelMessage) (a : Agent) : Agent := (dispatch (wired url) i0 msg a).1.
Definition a1 : Agent := next push a0.

Lemma step_next msg a : exited (a_h a) = false → agent_step a (Message i0 msg) (next msg a).
Proof. intros Hx. apply (step_message url i0 msg a (next msg a) (dispatch (wired url) i0 msg a).2 Hx). unfold next. by destruct (dispatch _ _ _ _). Qed.

Lemma reached : reach a0 [Message i0 push] a1.
Proof. apply reach_one, step_next. reflexivity. Qed.

Lemma a0_pinned : pin_ok (acl (a_h a0)).
Proof.
  intros p m Hp Hm Ha.
  apply list_elem_of_singleton in Hm as ->. apply (EnvDemo.store_pinned p AclStore.Demo.owner Hp); [|vm_compute; reflexivity].
  unfold EnvDemo.store. rewrite AclStore.Demo.store_members. by left.
Qed.
Lemma a0_good : Good (a_h a0).
Proof.
  split; [exact a0_pinned|apply fresh_rebuild|exact DevDemo.start_alloc|].
  intros k p Hk. change (peers (wg (a_h a0))) with (∅ : gmap string Peer) in Hk. rewrite lookup_empty in Hk. discriminate Hk.
Qed.
Lemma a0_pin : pinnedAdminPubKey (acl (a_h a0)) = Some HandDemo.pin.
Proof. vm_compute. reflexivity. Qed.

Example pushed_summary : DevDemo.summary (a_h a1) = (3%Z, [("o", "active", ["100.64.9.2"]); ("b", "active", ["100.64.9.3"])], [key; DevDemo.bob_wg]).
Proof. vm_compute. reflexivity. Qed.

Lemma session_trust_witness : Good (a_h a1) ∧ (generation (acl (a_h a0)) <= generation (acl (a_h a1)))%Z ∧
  (exited (a_h a1) = false → pinnedAdminPubKey (acl (a_h a1)) = Some HandDemo.pin).
Proof. destruct (session_trust a0 [Message i0 push] a1 HandDemo.pin a0_good a0_pin eq_refl reached) as (H1 & H2 & _ & H3 & _). exact (conj H1 (conj H2 H3)). Defined.

Lemma a1_peer : is_Some (peers (wg (a_h a1)) !! key).
Proof. vm_compute. by eexists. Qed.

Lemma reach_nil a b : reach a [] b → b = a.
Proof. intros Hr. remember [] as tr eqn:E. destruct Hr as [|tr a' ev a'' ? ?]; [done|]. by destruct tr. Qed.

Lemma a0_aligned : aligned (a_h a0).
Proof.
  split.
  - intros k [p Hp]. change (peers (wg (a_h a0))) with (∅ : gmap string Peer) in Hp. rewrite lookup_empty in Hp. discriminate Hp.
  - intros m c Hm Hc. apply list_elem_of_singleton in Hm as ->. by apply not_elem_of_nil in Hc.
Qed.
Lemma push_not_provision relay : (HandleProvision (in_now i0) relay push (a_h a0)).2 = Err HNoNonce.
Proof. vm_compute. reflexivity. Qed.

Lemma session_aligned_witness : aligned (a_h a1) ∧
  ∀ now, failClosed (liveness now (a_h a1)) = false → unusable now (a_h a1) → peers (wg (a_h (apply_tick (TLiveness now) a1))) = ∅.
Proof.
  destruct (session_aligned a0 [Message i0 push] a1 HandDemo.pin a0_good a0_pin a0_aligned reached) as (H1 & _ & H2); [|exact (conj H1 H2)].
  intros tr1 ev tr2 b E Hr. destruct tr1 as [|x [|]]; [|discriminate E..]. injection E as <- <-. apply reach_nil in Hr as ->.
  intros [relay Hf]. rewrite push_not_provision in Hf. discriminate Hf.
Defined.

(** Failed closed, and a member asks for a peer. *)
Definition tripped : Handlers := set_live HandDemo.handlers (Some (MkLive 0 true (1 * second) true)).
Definition i1 : inputs := MkInputs (1010 * second) None None DevDemo.io true None.
Definition provided : Agent * result dispatch_error (option TunnelMessage) := on_provision i1 (HandDemo.provision "ab") (set_h a0 tripped).
Definition ticks : list tick := [TLiveness (2000 * second); TReap (3000 * second); TLiveness (9000 * second)]%Z.

(** Two connections: the first cannot be dialled, the second brings the push and a challenge. *)
Definition ov : Overlay := MkOverlay "100.64.9.0/24" "100.64.9.1" "fd00::/64" "fd00::1" 0.
Definition challenge : TunnelMessage :=
  EnvDemo.signed "wg:challenge" "o" HandDemo.pin (JObj [("intent", JStr "wg:challenge-o-1000"); ("ts", JNum "1000"); ("memberId", JStr "o"); ("publicKey", JStr key)]).
Definition scripts : list script :=
  [MkScript (900 * second) false None [] [] 0%Q;
   MkScript (901 * second) true None [true; true] [Inbound i0 push true; Background (TReap (1000 * second)); Inbound i0 challenge true] (1 # 3)].
Definition served : Client * Agent * list TunnelMessage := Start 443 ov scripts (wired url) a0.

Example served_messages : map (λ m, t_Type m) served.2 = ["device:metadata"; "wg:challenge:nonce"] ∧ reconnectAttempt served.1.1 = 1 ∧
  DevDemo.summary (a_h served.1.2) = DevDemo.summary (a_h a1).
Proof. split_and!; vm_compute; reflexivity. Qed.


Example dial_url : wsURL (1000 * second) (wired url) (a_h a0) ≠ None ∧ ws_base "http://localhost:8080//" = "ws://localhost:8080" ∧
  QueryEscape "tunnel:connect-a b+c" = "tunnel%3Aconnect-a+b%2Bc".
Proof. split_and!; [vm_compute; discriminate|reflexivity|reflexivity]. Qed.
End TunnelDemo.
