(* ===== verification/Notify.v ===== *)
(** * internal/notify: the notification API, and what it sends to a member

    The sealed box (curve25519-xsalsa20-poly1305 with an anonymous sender) and the Edwards to
    Montgomery map are parameters ([SealedBox]); their one law ([SealLaw]) is that the holder of
    the identity's private key opens what was sealed to its public key. The mux of net/http picks
    the route; random draws, the clock and the answer of the coordination service are inputs. *)

From S2P Require Import Prelude TimeText Encoding Json CanonJson Crypto Atreolink AclStore Envelope Pairing Endpoints.

(** ** SealToUser *)

Class SealedBox := {
  montgomery : string → option string;                         (* Ed25519 public key to X25519 *)
  seal_anonymous : string → string → string → option string    (* draw, public key, plaintext *)
}.

Class SealLaw (P : Primitives) (B : SealedBox) := {
  box_open : string → string → option string;                  (* identity private key, box *)
  open_seal : ∀ sk x d p c, montgomery (ed25519_public sk) = Some x → seal_anonymous d x p = Some c → box_open sk c = Some p
}.

Inductive seal_error := ErrIdentityB64 | ErrIdentitySize | ErrIdentityPoint | ErrSeal.

Definition SealToUser `{SealedBox} (draw identityEdPubB64 plaintext : string) : result seal_error string :=
  let! edPub := of_option ErrIdentityB64 (Base64.decode identityEdPubB64) in
  check! guard_err (slen edPub =? Crypto.publicKeySize) ErrIdentitySize in
  let! xPub := of_option ErrIdentityPoint (montgomery edPub) in
  let! sealed := of_option ErrSeal (seal_anonymous draw xPub plaintext) in
  Ok (Base64.encode sealed).

(** ** The API key *)

Inductive key_error := ErrGenerateKey | ErrWriteKey.

(** The key and what is on disk afterwards. *)
Definition GenerateAPIKey (draw : option string) (written : bool) (f : read_file) : read_file * result key_error string :=
  match draw with
  | None => (f, Err ErrGenerateKey)
  | Some b => let key := Hex.encode b in if written then (FileBytes key, Ok key) else (f, Err ErrWriteKey)
  end.

Definition LoadOrGenerateAPIKey (draw : option string) (written : bool) (f : read_file) : read_file * result key_error string :=
  match f with
  | FileBytes data => let key := trim_space data in if slen key =? 64 then (f, Ok key) else GenerateAPIKey draw written f
  | _ => GenerateAPIKey draw written f
  end.

Record Server := MkNotify { n_port : Z; n_apiKey : string; n_agentID : string }.

Definition NewServer (draw : option string) (written : bool) (port : Z) (agentID : string) (f : read_file)
    : read_file * result key_error Server :=
  match LoadOrGenerateAPIKey draw written f with
  | (f', Ok key) => (f', Ok (MkNotify port key agentID))
  | (f', Err e) => (f', Err e)
  end.

Definition RotateAPIKey (draw : option string) (written : bool) (f : read_file) (s : Server) : read_file * Server * result key_error string :=
  match GenerateAPIKey draw written f with
  | (f', Ok key) => (f', MkNotify (n_port s) key (n_agentID s), Ok key)
  | (f', Err e) => (f', s, Err e)
  end.

(** ** What is sent *)

Record NotifyRequest := MkNotifyRequest {
  q_UserID : string;
  q_UserEmail : string;
  q_Title : string;
  q_Body : string;
  q_HTML : string;
  q_Plaintext : string;
  q_ContentType : string;
  q_Severity : string;
  q_EmailFrom : string;
  q_EmailSubject : string
}.

Definition zero_request : NotifyRequest := MkNotifyRequest "" "" "" "" "" "" "" "" "" "".

Definition dec_request : NotifyRequest → json → option NotifyRequest := dec_struct (λ o kvs,
  u ← assign dec_string (q_UserID o) "userId" kvs; e ← assign dec_string (q_UserEmail o) "userEmail" kvs;
  t ← assign dec_string (q_Title o) "title" kvs; b ← assign dec_string (q_Body o) "body" kvs;
  h ← assign dec_string (q_HTML o) "html" kvs; p ← assign dec_string (q_Plaintext o) "plaintext" kvs;
  c ← assign dec_string (q_ContentType o) "contentType" kvs; s ← assign dec_string (q_Severity o) "severity" kvs;
  f ← assign dec_string (q_EmailFrom o) "emailFrom" kvs; j ← assign dec_string (q_EmailSubject o) "emailSubject" kvs;
  Some (MkNotifyRequest u e t b h p c s f j)).

Definition set_severity (r : NotifyRequest) (s : string) : NotifyRequest :=
  MkNotifyRequest (q_UserID r) (q_UserEmail r) (q_Title r) (q_Body r) (q_HTML r) (q_Plaintext r) (q_ContentType r) s (q_EmailFrom r) (q_EmailSubject r).

(** atreolink.NotificationEnvelope; a SealedField is its ciphertext. *)
Record NotificationEnvelope := MkNotification {
  ne_UserID : string;
  ne_AgentID : string;
  ne_Summary : string;
  ne_HTML : option string;
  ne_Plaintext : option string;
  ne_Severity : string
}.

Definition sealed_json (ct : string) : json := JObj [("ct", JStr ct)].
Definition opt_field (k : string) (o : option json) : list (string * json) := match o with Some v => [(k, v)] | None => [] end.
Definition notification_json (e : NotificationEnvelope) : json :=
  JObj ([("userId", JStr (ne_UserID e)); ("agentId", JStr (ne_AgentID e)); ("summary", sealed_json (ne_Summary e))] ++
        opt_field "html" (sealed_json <$> ne_HTML e) ++ opt_field "plaintext" (sealed_json <$> ne_Plaintext e) ++ [("severity", JStr (ne_Severity e))]).

Definition PreviewBodyChars : nat := 200.

Definition full_body (r : NotifyRequest) : bool := (q_HTML r <>s "") || (q_Plaintext r <>s "").

(** s[:n], for n within s *)
Definition summaryBody (r : NotifyRequest) : string :=
  if full_body r && (PreviewBodyChars <? slen (q_Body r))%nat then stake PreviewBodyChars (q_Body r) else q_Body r.

Definition contentType (r : NotifyRequest) : string :=
  if q_ContentType r =s "" then if q_HTML r <>s "" then "text/html" else "text/plain" else q_ContentType r.

Definition opt_text (k v : string) : list (string * json) := if v <>s "" then [(k, JStr v)] else [].

Definition summary (id : string) (now : Z) (r : NotifyRequest) : list (string * json) :=
  [("id", JStr id); ("title", JStr (q_Title r)); ("body", JStr (summaryBody r)); ("createdAt", JStr (format_rfc3339 now))] ++
  (if full_body r then [("hasFullBody", JBool true); ("contentType", JStr (contentType r))] else []) ++
  opt_text "emailFrom" (q_EmailFrom r) ++ opt_text "emailSubject" (q_EmailSubject r).

(** What one send meets. *)
Record send_io := MkSend {
  io_id : string;               (* 16 random bytes *)
  io_draw : nat → string;       (* the sealed boxes' draws *)
  io_now : Z;
  io_answer : AuthEnvelope → response
}.

Inductive send_error := ErrNoIdentity | ErrSealSummary (e : seal_error) | ErrSealHTML (e : seal_error) | ErrSealPlaintext (e : seal_error)
| ErrPost (e : http_error).

Section Send.
Context `{Primitives} `{SealedBox}.

Definition SendNotification (km : KeyManager) (deviceID : string) (e : NotificationEnvelope) (now : Z) (answer : AuthEnvelope → response)
    : result http_error unit :=
  authPostVia km deviceID "notifications:send" (Some (notification_json e)) now answer tt None.

Definition sealField (draw identityPubB64 : string) (v : json) : result seal_error string := SealToUser draw identityPubB64 (json_marshal v).

(** An optional part: sealed when it is not empty. *)
Definition seal_part (draw key part : string) : result seal_error (option string) :=
  if part <>s "" then let! ct := SealToUser draw key part in Ok (Some ct) else Ok None.

(** The envelope, up to the point where it is posted. *)
Definition envelope (agentID : string) (io : send_io) (m : MemberACLEntry) (r : NotifyRequest) : result send_error NotificationEnvelope :=
  check! guard_err (m_IdentityKey m <>s "") ErrNoIdentity in
  let! s := map_err ErrSealSummary (sealField (io_draw io 0) (m_IdentityKey m) (JObj (summary (Hex.encode (io_id io)) (io_now io) r))) in
  let! h := map_err ErrSealHTML (seal_part (io_draw io 1) (m_IdentityKey m) (q_HTML r)) in
  let! p := map_err ErrSealPlaintext (seal_part (io_draw io 2) (m_IdentityKey m) (q_Plaintext r)) in
  Ok (MkNotification (m_UserID m) agentID s h p (q_Severity r)).

(** What was posted, and the result. *)
Definition SendToMember (km : KeyManager) (deviceID agentID : string) (io : send_io) (m : MemberACLEntry) (r : NotifyRequest)
    : list NotificationEnvelope * result send_error unit :=
  match envelope agentID io m r with
  | Err e => ([], Err e)
  | Ok e => ([e], map_err ErrPost (SendNotification km deviceID e (io_now io) (io_answer io)))
  end.

(** SendToAll: one send per row of the list, [ios] in step with it. *)
Fixpoint send_each (km : KeyManager) (deviceID agentID : string) (r : NotifyRequest) (ms : list (MemberACLEntry * send_io))
    : list NotificationEnvelope * (nat * nat) :=
  match ms with
  | [] => ([], (0, 0))
  | (m, io) :: rest =>
      let '(out, res) := SendToMember km deviceID agentID io m r in
      let '(out', (sent, failed)) := send_each km deviceID agentID r rest in
      (out ++ out', if is_ok res then (S sent, failed) else (sent, S failed))
  end.

Definition SendToAll (km : KeyManager) (deviceID agentID title body severity : string) (ios : nat → send_io) (acl : Store)
    : list NotificationEnvelope * (nat * nat) :=
  send_each km deviceID agentID (MkNotifyRequest "" "" title body "" "" "" severity "" "") (imap (λ i m, (m, ios i)) (members acl)).
End Send.

(** ** The HTTP API *)

Inductive route := POST_notify | GET_members.
Inductive answer := Refused (code : Z) | Listed (rows : list (string * string * string * string)) | Sent (userID : string).

Definition status (a : answer) : Z := match a with Refused c => c | _ => 200 end.

(** int32(n) *)
Definition int32 (n : Z) : Z := (n + 2 ^ 31) mod 2 ^ 32 - 2 ^ 31.

(** Both comparisons of crypto/subtle must say 1. *)
Definition key_matches (candidate expected : string) : bool :=
  (int32 (Z.of_nat (slen candidate)) =? int32 (Z.of_nat (slen expected)))%Z && (candidate =s expected).

Definition authorized (apiKey auth : string) : bool := has_prefix auth "Bearer " && key_matches (sdrop 7 auth) apiKey.

Definition notifiable (m : MemberACLEntry) : bool := (m_IdentityKey m <>s "") && negb (suspended m).
Definition handleMembers (acl : Store) : answer :=
  Listed (map (λ m, (m_UserID m, m_MemberName m, m_Email m, m_Role m)) (List.filter notifiable (members acl))).

Definition maxNotifyBody : nat := 64 * 1024.

Section Api.
Context `{Unicode} `{Primitives} `{SealedBox}.

Definition resolveMember (userID userEmail : string) (acl : Store) : option MemberACLEntry :=
  if userID <>s "" then List.find (λ m, m_UserID m =s userID) (members acl) else LookupByEmail userEmail acl.

(** json.NewDecoder reads the first value; a value that is not complete within the limit is an
    error. *)
Definition read_request (body : string) : option NotifyRequest :=
  '(v, _) ← decoder_decode (stake maxNotifyBody body); dec_request zero_request v.

Definition handleNotify (km : KeyManager) (deviceID : string) (io : send_io) (body : string) (acl : Store) (s : Server)
    : list NotificationEnvelope * answer :=
  match read_request body with
  | None => ([], Refused 400)
  | Some req =>
      if q_Title req =s "" then ([], Refused 400)
      else
        let req := if q_Severity req =s "" then set_severity req "info" else req in
        if eqb (q_UserID req =s "") (q_UserEmail req =s "") then ([], Refused 400)
        else match resolveMember (q_UserID req) (q_UserEmail req) acl with
             | None => ([], Refused 404)
             | Some m => match SendToMember km deviceID (n_agentID s) io m req with
                         | (out, Ok _) => (out, Sent (m_UserID m))
                         | (out, Err _) => (out, Refused 500)
                         end
             end
  end.

(** One request that the mux has routed; [auth] is its Authorization header. *)
Definition serve (km : KeyManager) (deviceID : string) (io : send_io) (r : route) (auth body : string) (acl : Store) (s : Server)
    : list NotificationEnvelope * answer :=
  if negb (authorized (n_apiKey s) auth) then ([], Refused 401)
  else match r with
       | POST_notify => handleNotify km deviceID io body acl s
       | GET_members => ([], handleMembers acl)
       end.
End Api.

(** ** Looking a member up by email *)

Section Email.
Context `{Unicode}.

Lemma email_index_snoc ms m : email_index (ms ++ [m]) =
  if fold_email (m_Email m) <>s "" then <[fold_email (m_Email m) := length ms]> (email_index ms) else email_index ms.
Proof. unfold email_index. by rewrite imap_pair_snoc, foldl_app. Qed.

Lemma email_index_spec ms e i : email_index ms !! e = Some i → e ≠ "" ∧ ∃ m, ms !! i = Some m ∧ fold_email (m_Email m) = e.
Proof.
  induction ms as [|m ms IH] using rev_ind; [done|]. rewrite email_index_snoc.
  assert (Hold : email_index ms !! e = Some i → e ≠ "" ∧ ∃ x, (ms ++ [m]) !! i = Some x ∧ fold_email (m_Email x) = e).
  { intros (He & x & Hx & Hf)%IH. split; [done|]. exists x. split; [|done]. rewrite lookup_app_l; [done|]. by eapply lookup_lt_Some. }
  destruct (fold_email (m_Email m) =s "") eqn:E; cbn [negb]; [done|]. apply seqb_false in E.
  destruct (decide (fold_email (m_Email m) = e)) as [<-|Hne]; [|by rewrite lookup_insert_ne].
  rewrite lookup_insert_eq. intros [= <-]. split; [done|]. exists m. by rewrite lookup_app_r, Nat.sub_diag.
Qed.

Lemma LookupByEmail_spec e acl m : fresh acl → LookupByEmail e acl = Some m →
  m ∈ members acl ∧ fold_email (m_Email m) = fold_email e ∧ fold_email e ≠ "".
Proof.
  intros (_ & _ & Hi)%fresh_iff. unfold LookupByEmail. rewrite Hi.
  destruct (email_index _ !! _) as [i|] eqn:E; [|done]. apply email_index_spec in E as (He & x & Hx & Hf). cbn. intros Hm.
  assert (x = m) as -> by congruence. split; [by eapply list_elem_of_lookup_2|done].
Qed.

(** A member of that address is found (the last of them, when several share it). *)
Lemma LookupByEmail_complete e acl m : fresh acl → m ∈ members acl → fold_email (m_Email m) = fold_email e → fold_email e ≠ "" →
  is_Some (LookupByEmail e acl).
Proof.
  intros (_ & _ & Hi)%fresh_iff Hm Hf He. unfold LookupByEmail. rewrite Hi.
  assert (is_Some (email_index (members acl) !! fold_email e)) as [i E].
  { clear Hi. induction (members acl) as [|x ms IH] using rev_ind; [by apply not_elem_of_nil in Hm|]. rewrite email_index_snoc.
    destruct (decide (fold_email (m_Email x) = fold_email e)) as [Hx|Hne].
    - rewrite Hx. rewrite (proj2 (seqb_false _ _) He). cbn [negb]. rewrite lookup_insert_eq. done.
    - apply elem_of_app in Hm as [Hm|Hm%list_elem_of_singleton]; [|by subst]. destruct (IH Hm) as [i Hi].
      destruct (_ =s _); cbn [negb]; [done|]. by rewrite lookup_insert_ne. }
  rewrite E. apply email_index_spec in E as (_ & x & Hx & _). cbn. rewrite Hx. done.
Qed.
End Email.

(** ** The key on disk *)

Section ApiKey.
Import SlugFacts.

Lemma alnum_run r s : slug r → forallb alnum_byte (String.list_ascii_of_string s) = true → slug (r +:+ s).
Proof.
  revert r. induction s as [|c s IH]; intros r Hr Hs; [by rewrite sapp_nil_r|]. cbn in Hs. apply andb_prop in Hs as [Hc Hs].
  change (String c s) with (String c "" +:+ s). rewrite <- sapp_assoc. apply IH; [by apply slug_more|done].
Qed.

Lemma hex_alnum s : forallb alnum_byte (String.list_ascii_of_string (Hex.encode s)) = true.
Proof.
  assert (Hd : ∀ n, (n < 16)%N → alnum_byte (Hex.digit n) = true).
  { intros n Hn. unfold alnum_byte, Hex.digit. destruct (N.ltb_spec n 10); rewrite bN_Nb by lia; lia. }
  induction s as [|c s IH]; [done|]. cbn. pose proof (bN_lt c). rewrite IH, !Hd; [done|apply N.mod_lt; done|]. apply N.Div0.div_lt_upper_bound. lia.
Qed.

Lemma hex_trim s : trim_space (Hex.encode s) = Hex.encode s.
Proof.
  destruct s as [|c s]; [done|]. apply trim_space_slug. pose proof (hex_alnum (String c s)) as Ha. cbn in Ha |- *. apply andb_prop in Ha as [Ha Hs].
  change (String ?a ?b) with (String a "" +:+ b). apply alnum_run; [by constructor|done].
Qed.
End ApiKey.

(** The API key is never shorter than 64 characters, and a key the agent made is the key the
    next start reads back from the disk, whatever that start draws: a restart does not change
    the key, a rotation changes it on disk and in memory together, and a failed rotation changes
    neither. *)
Theorem apikey_persisted b draw w port id f : slen b = 32 →
  (∀ f' s, NewServer (Some b) w port id f = (f', Ok s) → slen (n_apiKey s) = 64 ∧ ∀ d w', NewServer d w' port id f' = (f', Ok s)) ∧
  (∀ s f' s' r, RotateAPIKey draw w f s = (f', s', r) → match r with
     | Ok key => n_apiKey s' = key ∧ (draw = Some b → ∀ d w', NewServer d w' (n_port s) (n_agentID s) f' = (f', Ok s'))
     | Err _ => s' = s ∧ f' = f
     end).
Proof.
  intros Hb. assert (Hlen : slen (Hex.encode b) = 64) by (rewrite Hex.length_encode; lia).
  assert (Hback : ∀ d w' p i, NewServer d w' p i (FileBytes (Hex.encode b)) = (FileBytes (Hex.encode b), Ok (MkNotify p (Hex.encode b) i))).
  { intros. unfold NewServer, LoadOrGenerateAPIKey. by rewrite hex_trim, Hlen. }
  split.
  - intros f' s. unfold NewServer, LoadOrGenerateAPIKey at 1.
    assert (Hgen : (let '(f1, r) := GenerateAPIKey (Some b) w f in match r with Ok key => (f1, Ok (MkNotify port key id)) | Err e => (f1, Err e) end) = (f', Ok s) →
      slen (n_apiKey s) = 64 ∧ ∀ d w', NewServer d w' port id f' = (f', Ok s)).
    { unfold GenerateAPIKey. destruct w; [|done]. intros [= <- <-]. split; [done|]. intros. apply Hback. }
    destruct f as [| |data]; [exact Hgen|exact Hgen|]. destruct (Nat.eqb_spec (slen (trim_space data)) 64) as [E|]; [|exact Hgen].
    intros [= <- <-]. split; [done|]. intros d w'. unfold NewServer, LoadOrGenerateAPIKey. by rewrite E.
  - intros s f' s' r. unfold RotateAPIKey, GenerateAPIKey. destruct draw as [x|]; [|intros [= <- <- <-]; done].
    destruct w; intros [= <- <- <-]; [|done]. split; [done|]. intros [= ->] d w'. apply Hback.
Qed.

(** ** Who may send, and to whom *)

Lemma key_matches_spec a b : key_matches a b = true ↔ a = b.
Proof. unfold key_matches. rewrite andb_true_iff, seqb_true, Z.eqb_eq. naive_solver. Qed.

Lemma authorized_spec key auth : authorized key auth = true ↔ auth = "Bearer " +:+ key.
Proof.
  unfold authorized. rewrite andb_true_iff, key_matches_spec, has_prefix_spec. split.
  - intros [[r ->] H]. change 7 with (slen "Bearer ") in H. by rewrite sdrop_app in H; subst.
  - intros ->. split; [by exists key|]. change 7 with (slen "Bearer "). apply sdrop_app.
Qed.

(** The request names the member, in exactly one way. *)
Definition names `{Unicode} (r : NotifyRequest) (m : MemberACLEntry) : Prop :=
  (q_UserID r ≠ "" ∧ q_UserEmail r = "" ∧ m_UserID m = q_UserID r) ∨
  (q_UserID r = "" ∧ q_UserEmail r ≠ "" ∧ fold_email (m_Email m) = fold_email (q_UserEmail r)).

Section Guard.
Context `{Unicode} `{Primitives} `{SealedBox}.

Lemma envelope_fields id io m r e : envelope id io m r = Ok e →
  m_IdentityKey m ≠ "" ∧ ne_UserID e = m_UserID m ∧ ne_AgentID e = id ∧ ne_Severity e = q_Severity r.
Proof.
  unfold envelope. intros Hk. apply res_bind_ok in Hk as (? & Hk%guard_err_ok & Hr). apply negb_true_iff, seqb_false in Hk. res_inv.
  simplify_eq. done.
Qed.

Lemma SendToMember_out km dev id io m r out res : SendToMember km dev id io m r = (out, res) →
  (∀ e, e ∈ out → out = [e] ∧ envelope id io m r = Ok e) ∧ (res = Ok tt → ∃ e, out = [e]).
Proof.
  unfold SendToMember. destruct (envelope id io m r) as [e|e]; intros [= <- <-]; (split; [|by eauto || done]).
  - by intros x ->%list_elem_of_singleton.
  - by intros x ?%not_elem_of_nil.
Qed.

Lemma resolveMember_spec r m acl : fresh acl → eqb (q_UserID r =s "") (q_UserEmail r =s "") = false →
  resolveMember (q_UserID r) (q_UserEmail r) acl = Some m → m ∈ members acl ∧ names r m.
Proof.
  intros Hf Hone. unfold resolveMember, names. destruct (q_UserID r =s "") eqn:E1, (q_UserEmail r =s "") eqn:E2; try done; str_inv; cbn [negb].
  - intros (Hm & He & _)%LookupByEmail_spec; [|done]. naive_solver.
  - intros [Hm Hi]%List.find_some. apply seqb_true in Hi. split; [by apply list_elem_of_In|]. left. done.
Qed.

(** C14: nothing leaves the notification API, and no request is answered other than 401, unless
    the Authorization header is the bearer of the API key, byte for byte. What a request sends
    is at most one envelope, to the member of the access list that the request names by exactly
    one of user id and email and whose identity key is known, in the agent's name; and a request
    answered as sent has sent one. *)
Theorem notify_guarded km dev io r auth body acl s out a : fresh acl → serve km dev io r auth body acl s = (out, a) →
  (out ≠ [] ∨ status a ≠ 401%Z → auth = "Bearer " +:+ n_apiKey s) ∧
  (∀ e, e ∈ out → out = [e] ∧ ∃ req m, read_request body = Some req ∧ m ∈ members acl ∧ names req m ∧ m_IdentityKey m ≠ "" ∧
     ne_UserID e = m_UserID m ∧ ne_AgentID e = n_agentID s) ∧
  (∀ u, a = Sent u → ∃ e, out = [e] ∧ ne_UserID e = u).
Proof.
  intros Hf. unfold serve. destruct (authorized (n_apiKey s) auth) eqn:Ea; cbn [negb].
  2:{ intros [= <- <-]. split; [by intros [?|?]|]. split; [by intros e ?%not_elem_of_nil|done]. }
  apply authorized_spec in Ea as ->. intros Hs. split; [done|]. revert Hs.
  assert (Hnone : ∀ a', ([] : list NotificationEnvelope, a') = (out, a) → (∀ u, a' ≠ Sent u) → (∀ e, e ∈ out → out = [e] ∧ ∃ req m, read_request body = Some req ∧ m ∈ members acl ∧ names req m ∧ m_IdentityKey m ≠ "" ∧
     ne_UserID e = m_UserID m ∧ ne_AgentID e = n_agentID s) ∧ (∀ u, a = Sent u → ∃ e, out = [e] ∧ ne_UserID e = u)).
  { intros a' [= <- <-] Hn. split; [by intros e ?%not_elem_of_nil|]. intros u ->. by destruct (Hn u). }
  destruct r; [|intros E; by eapply Hnone].
  unfold handleNotify. destruct (read_request body) as [req|]; [|intros E; by eapply Hnone].
  destruct (q_Title req =s ""); [intros E; by eapply Hnone|]. cbv zeta. set (req' := if q_Severity req =s "" then _ else _).
  assert (Hr : q_UserID req' = q_UserID req ∧ q_UserEmail req' = q_UserEmail req) by (unfold req'; by destruct (q_Severity req =s "")).
  destruct Hr as [-> ->]. destruct (eqb _ _) eqn:E1; [intros E; by eapply Hnone|].
  destruct (resolveMember _ _ acl) as [m|] eqn:Em; [|intros E; by eapply Hnone]. apply resolveMember_spec in Em as [Hm Hn]; [|done..].
  destruct (SendToMember km dev (n_agentID s) io m req') as [o res] eqn:Es. apply SendToMember_out in Es as [Ho Hok].
  assert (Hall : ∀ e, e ∈ o → o = [e] ∧ ∃ req0 m0, Some req = Some req0 ∧ m0 ∈ members acl ∧ names req0 m0 ∧ m_IdentityKey m0 ≠ "" ∧
     ne_UserID e = m_UserID m0 ∧ ne_AgentID e = n_agentID s).
  { intros e [-> He]%Ho. split; [done|]. apply envelope_fields in He as (? & ? & ? & _). by exists req, m. }
  destruct res as [[]|err]; intros [= <- <-]; (split; [done|]); [|done]. intros u [= <-]. destruct (Hok eq_refl) as [e ->]. exists e. split; [done|].
  destruct (Ho e ltac:(by left)) as [_ He]. by apply envelope_fields in He as (_ & ? & _).
Qed.
End Guard.

(** ** What the member reads *)

Section Read.
Context `{P : Primitives} {B : SealedBox} `{!SealLaw P B}.

(** The holder of the private key [sk] reads [p] in the field [ct]. *)
Definition reads (sk ct p : string) : Prop := ∃ c, Base64.decode ct = Some c ∧ box_open sk c = Some p.

Lemma SealToUser_reads sk d p ct : SealToUser d (Base64.encode (ed25519_public sk)) p = Ok ct → reads sk ct p.
Proof.
  unfold SealToUser. rewrite Base64.decode_encode. cbn [of_option res_bind]. intros Hs. res_inv. simplify_eq.
  eexists. split; [apply Base64.decode_encode|]. by eapply open_seal.
Qed.

Lemma seal_part_reads sk d part o : seal_part d (Base64.encode (ed25519_public sk)) part = Ok o →
  match o with Some ct => part ≠ "" ∧ reads sk ct part | None => part = "" end.
Proof.
  unfold seal_part. destruct (part =s "") eqn:E; cbn [negb]; str_inv; [by intros [= <-]|]. intros Hs. res_inv. simplify_eq.
  split; [done|]. by eapply SealToUser_reads.
Qed.

Definition texts (r : NotifyRequest) : list string := [q_Title r; summaryBody r; q_ContentType r; q_EmailFrom r; q_EmailSubject r].

Lemma opt_text_keys k v : map fst (opt_text k v) = [] ∨ map fst (opt_text k v) = [k].
Proof. unfold opt_text. destruct (negb _); auto. Qed.

Lemma summary_good id now r : Utf8.valid id = true → Forall (λ s, Utf8.valid s = true) (texts r) →
  distinct (JObj (summary id now r)) ∧ good max_nesting_depth (JObj (summary id now r)).
Proof.
  intros Hid Hv. unfold texts in Hv. rewrite !Forall_cons in Hv. destruct Hv as (Ht & Hb & Hc & Hf & Hs & _).
  pose proof (ascii_valid _ (ascii_format now)) as Hn.
  assert (Hct : Utf8.valid (contentType r) = true) by (unfold contentType; repeat case_match; done).
  assert (Hk : NoDup (map fst (summary id now r))).
  { unfold summary, opt_text. destruct (full_body r), (q_EmailFrom r <>s ""), (q_EmailSubject r <>s ""); cbn;
      repeat (constructor; [set_solver|]); constructor. }
  assert (Hall : Forall (λ p, (∃ s, p.2 = JStr s ∧ Utf8.valid s = true) ∨ p.2 = JBool true) (summary id now r)).
  { unfold summary, opt_text. repeat apply Forall_app_2; repeat case_match; repeat apply Forall_cons_2; try apply Forall_nil_2; cbn; eauto. }
  assert (Hkv : Forall (λ p, Utf8.valid p.1 = true) (summary id now r)).
  { unfold summary, opt_text. repeat apply Forall_app_2; repeat case_match; repeat constructor. }
  split; [|split].
  - apply distinct_obj. split; [done|]. eapply Forall_impl; [exact Hall|]. by intros [k v] [(s & -> & _)| ->].
  - apply wf_obj, Forall_and. split; [exact Hkv|]. eapply Forall_impl; [exact Hall|]. by intros [k v] [(s & -> & ?)| ->].
  - apply depth_obj. split; [by vm_compute|]. eapply Forall_impl; [exact Hall|]. by intros [k v] [(s & -> & ?)| ->].
Qed.

Lemma ascii_hex s : is_ascii_string (Hex.encode s) = true.
Proof. generalize (hex_alnum s). apply SlugFacts.all_bytes_impl. intros c Hc. apply N.ltb_lt. by apply SlugFacts.alnum_small. Qed.

(** json.Marshal of the summary, decoded again. *)
Lemma summary_decodes id now r : Utf8.valid id = true → Forall (λ s, Utf8.valid s = true) (texts r) →
  ∃ kvs, unmarshal (json_marshal (JObj (summary id now r))) = Some (JObj kvs) ∧ kvs ≡ₚ summary id now r.
Proof.
  intros Hid Hv. destruct (summary_good id now r Hid Hv) as [Hd Hg].
  exists (merge_sort key_le (map (λ p, match p with (k, x) => (k, canon x) end) (summary id now r))). split.
  - unfold unmarshal, json_marshal. rewrite (decode_text _ _ html_quoter (canon_good _ _ Hd Hg)). done.
  - rewrite merge_sort_Permutation. assert (E : map (λ p, match p with (k, x) => (k, canon x) end) (summary id now r) = summary id now r); [|by rewrite E].
    unfold summary, opt_text. by destruct (full_body r), (q_EmailFrom r <>s ""), (q_EmailSubject r <>s "").
Qed.

End Read.

(** ** A server *)

Module NotifyDemo.
#[local] Existing Instance AclStore.Demo.ascii_only.
#[local] Existing Instance Toy.prims.

(** A box that names its recipient in front of the text. *)
Definition box : SealedBox := {| montgomery k := Some k; seal_anonymous d x p := Some (x +:+ p) |}.
#[local] Existing Instance box.
Definition open_box (sk c : string) : option string :=
  if has_prefix c (ed25519_public sk) then Some (sdrop (slen (ed25519_public sk)) c) else None.
Lemma open_box_seal sk x d p c : montgomery (ed25519_public sk) = Some x → seal_anonymous d x p = Some c → open_box sk c = Some p.
Proof. cbn. intros [= <-] [= <-]. unfold open_box. by rewrite has_prefix_app, sdrop_app. Qed.
#[local] Instance box_law : SealLaw Toy.prims box := {| box_open := open_box; open_seal := open_box_seal |}.

Definition sk : string := "0123456789abcdef0123456789abcdef".
Definition key : string := Base64.encode (ed25519_public sk).
Definition carol (status : string) : MemberACLEntry := MkMember "c" "u2" "Carol" "Carol@X" "member" key None None None [] [] status.
Definition acl (status : string) : Store := rebuildIndexes (with_members NewStore [AclStore.Demo.owner; carol status]).
Definition io : send_io := MkSend "0123456789abcdef" (λ _, "r") (1000 * second) (λ _, Response 204 "").
Definition server : Server := MkNotify 9876 "k64" "agent".
Definition body (who : string) : string := sample ("{'title':'Backup','body':'done','html':'<b>ok</b>','userEmail':'" +:+ who +:+ "'}").
Definition ask (auth who status : string) : list NotificationEnvelope * answer :=
  serve Toy.keys "d" io POST_notify auth (body who) (acl status) server.

Example statuses : map (λ q, status (ask q.1 q.2 "active").2) [("Bearer k64", "carol@x"); ("Bearer k64 ", "carol@x"); ("k64", "carol@x"); ("Bearer k64", "dave@x")]
  = [200; 401; 401; 404]%Z.
Proof. vm_compute. reflexivity. Qed.
Example bad_requests : map (λ b, status (serve Toy.keys "d" io POST_notify "Bearer k64" (sample b) (acl "") server).2)
  ["{'title':'t','userId':'u2','userEmail':'carol@x'}"; "{'title':'t'}"; "{'userId':'u2'}"; "{'title':1}"; ""; "{'title':'t','userId':'u0'} x"] =
  [400; 400; 400; 400; 400; 200]%Z.
Proof. vm_compute. reflexivity. Qed.

(** A suspended member is not listed, and is notified all the same. *)
Example suspended_still_notified : handleMembers (acl "suspended") = Listed [("u0", "Owner", "o@x", "owner")] ∧
  (ask "Bearer k64" "carol@x" "suspended").2 = Sent "u2" ∧ length (ask "Bearer k64" "carol@x" "suspended").1 = 1.
Proof. split_and!; vm_compute; reflexivity. Qed.

Definition sent : NotificationEnvelope := match (ask "Bearer k64" "Carol@x " "active").1 with e :: _ => e | [] => MkNotification "" "" "" None None "" end.
Lemma ask_eq : ask "Bearer k64" "Carol@x " "active" = ([sent], Sent "u2").
Proof. vm_compute. reflexivity. Qed.

Lemma notify_guarded_witness : (∃ e, [sent] = [e] ∧ ne_UserID e = "u2") ∧ "Bearer k64" = "Bearer " +:+ n_apiKey server.
Proof.
  destruct (notify_guarded Toy.keys "d" io POST_notify "Bearer k64" (body "Carol@x ") (acl "active") server [sent] (Sent "u2") eq_refl ask_eq) as (Ha & _ & Hs).
  split; [by apply Hs|]. apply Ha. by left.
Defined.

Definition req : NotifyRequest := MkNotifyRequest "u2" "" "Backup" "done" "<b>ok</b>" "" "" "info" "" "".
Definition posted : NotificationEnvelope := match (SendToMember Toy.keys "d" "agent" io (carol "") req).1 with e :: _ => e | [] => sent end.
Lemma posted_eq : SendToMember Toy.keys "d" "agent" io (carol "") req = ([posted], Ok tt).
Proof. vm_compute. reflexivity. Qed.


Lemma apikey_persisted_witness : slen (Hex.encode sk) = 64 ∧ ∀ d w', NewServer d w' 9876 "a" (FileBytes (Hex.encode sk)) = (FileBytes (Hex.encode sk), Ok (MkNotify 9876 (Hex.encode sk) "a")).
Proof.
  split; [reflexivity|]. refine (proj2 (proj1 (apikey_persisted sk None true 9876 "a" FileMissing eq_refl) (FileBytes (Hex.encode sk)) (MkNotify 9876 (Hex.encode sk) "a") eq_refl)).
Defined.

(** The excerpt is cut by bytes: a cut inside a rune shows as the replacement character. *)
Example preview_splits_rune : let r := MkNotifyRequest "u2" "" "t" (join "" (repeat "é" 100) +:+ "x") "<b>x</b>" "" "" "info" "" "" in
  let r' := MkNotifyRequest "u2" "" "t" ("x" +:+ join "" (repeat "é" 100)) "<b>x</b>" "" "" "info" "" "" in
  Utf8.valid (summaryBody r) = true ∧ Utf8.valid (q_Body r') = true ∧ Utf8.valid (summaryBody r') = false.
Proof. vm_compute. done. Qed.
End NotifyDemo.
