(* ===== verification/Files.v ===== *)
(** * Files: paths, atomic writes, indented JSON, and the custom-domain row

    filepath.Join and Clean, internal/atomic (temporary file and rename) with the states a crash
    can leave behind, json.MarshalIndent of a flat struct, and internal/store/customdomain.go. The
    file system is a map from paths to contents; which system call fails is an argument. *)

From S2P Require Import Prelude Encoding Json CanonJson AclStore Endpoints.

(** ** path/filepath *)

(** One segment on the (reversed) stack of those kept. *)
Definition push_segment (rooted : bool) (stack : list string) (seg : string) : list string :=
  if (seg =s "") || (seg =s ".") then stack
  else if seg =s ".." then
    match stack with
    | [] => if rooted then [] else [".."]
    | top :: rest => if top =s ".." then ".." :: stack else rest
    end
  else seg :: stack.

Definition Clean (p : string) : string :=
  let rooted := has_prefix p "/" in
  let body := join "/" (rev (foldl (push_segment rooted) [] (split_on "/" p))) in
  if rooted then "/" +:+ body else if body =s "" then "." else body.

(** filepath.Join(dir, name) for a name that is not empty. *)
Definition Join (dir name : string) : string := if dir =s "" then Clean name else Clean (dir +:+ "/" +:+ name).

Definition plain (name : string) : bool := (name <>s "") && (name <>s ".") && (name <>s "..") && negb (contains_byte "/" name).

Lemma split_on_ne c s : split_on c s ≠ [].
Proof. destruct s as [|d s]; cbn; [done|]. destruct (ceqb c d); [done|]. by destruct (split_on c s). Qed.

Lemma split_on_sep c a b : split_on c (a +:+ String c b) = split_on c a ++ split_on c b.
Proof.
  induction a as [|d a IH]; cbn; [by rewrite (proj2 (ceqb_true c c) eq_refl)|]. destruct (ceqb c d); [by rewrite IH|].
  rewrite IH. pose proof (split_on_ne c a). by destruct (split_on c a).
Qed.

Lemma split_on_none c s : contains_byte c s = false → split_on c s = [s].
Proof. induction s as [|d s IH]; cbn; [done|]. intros [-> Hs]%orb_false_elim. by rewrite IH. Qed.

Lemma join_snoc sep l x : join sep (l ++ [x]) = (if decide (l = []) then "" else join sep l +:+ sep) +:+ x.
Proof.
  induction l as [|w l IH]; [done|]. destruct l as [|v l]; [rewrite decide_False by done; cbn [app join]; by rewrite sapp_assoc|].
  change (join sep ((w :: v :: l) ++ [x])) with (w +:+ sep +:+ join sep ((v :: l) ++ [x])). rewrite IH.
  rewrite !decide_False by done. change (join sep (w :: v :: l)) with (w +:+ sep +:+ join sep (v :: l)). by rewrite !sapp_assoc.
Qed.

(** A plain name stays the last segment. *)
Lemma Join_pre dir name : plain name = true → ∃ pre, (pre = "" ∨ ∃ q, pre = q +:+ "/") ∧ (∀ n, plain n = true → Join dir n = pre +:+ n) ∧ Join dir name = pre +:+ name.
Proof.
  intros Hp. assert (Hseg : ∀ r st n, plain n = true → push_segment r st n = n :: st).
  { intros r st n. unfold plain, push_segment. rewrite !andb_true_iff, !negb_true_iff. intros [[[-> ->] ->] _]. done. }
  assert (Hnosep : ∀ n, plain n = true → split_on "/" n = [n]).
  { intros n. unfold plain. rewrite !andb_true_iff, !negb_true_iff. intros [_ Hn]. by apply split_on_none. }
  assert (Hhead : ∀ n, plain n = true → has_prefix n "/" = false ∧ n ≠ "").
  { intros n Hn. unfold plain in Hn. rewrite !andb_true_iff, !negb_true_iff in Hn. destruct Hn as [[[Hn _] _] Hc]. apply seqb_false in Hn. split; [|done].
    destruct n as [|c n]; [done|]. cbn in Hc. apply orb_false_elim in Hc as [Hc _]. apply has_prefix_head, ceqb_false. apply ceqb_false in Hc. congruence. }
  unfold Join. destruct (dir =s "") eqn:Ed.
  { exists "". split; [by left|]. split.
    - intros n Hn. unfold Clean. destruct (Hhead n Hn) as [-> Hne]. rewrite Hnosep by done. cbn [foldl]. rewrite Hseg by done. cbn. by rewrite (proj2 (seqb_false _ _) Hne).
    - unfold Clean. destruct (Hhead name Hp) as [-> Hne]. rewrite Hnosep by done. cbn [foldl]. rewrite Hseg by done. cbn. by rewrite (proj2 (seqb_false _ _) Hne). }
  apply seqb_false in Ed. set (rooted := has_prefix dir "/"). set (st := foldl (push_segment rooted) [] (split_on "/" dir)).
  set (pre := (if rooted then "/" else "") +:+ (if decide (rev st = []) then "" else join "/" (rev st) +:+ "/")).
  assert (Hall : ∀ n, plain n = true → Clean (dir +:+ "/" +:+ n) = pre +:+ n).
  { intros n Hn. unfold Clean. assert (has_prefix (dir +:+ "/" +:+ n) "/" = rooted) as -> by (unfold rooted; by destruct dir).
    change (dir +:+ "/" +:+ n) with (dir +:+ String "/" n). rewrite split_on_sep, (Hnosep n), foldl_app by done. fold st. cbn [foldl]. rewrite Hseg by done. cbn [rev].
    rewrite join_snoc. unfold pre. destruct rooted; cbn [String.append]; [done|]. destruct (Hhead n Hn) as [_ Hne].
    destruct (_ =s "") eqn:E; [|done]. apply seqb_true in E. exfalso. destruct (decide _); cbn in E; [done|]. by destruct (join "/" (rev st)). }
  exists pre. split; [|split; [exact Hall|by apply Hall]]. unfold pre. destruct rooted, (decide _); cbn [String.append].
  - right. by exists "".
  - right. exists (String "/" (join "/" (rev st))). done.
  - by left.
  - right. by eexists.
Qed.
Lemma Join_last dir name : plain name = true → ∃ pre, (∀ n, plain n = true → Join dir n = pre +:+ n) ∧ Join dir name = pre +:+ name.
Proof. intros Hp. destruct (Join_pre dir name Hp) as (pre & _ & ?). by exists pre. Qed.

(** Two names in one directory are two files. *)
Lemma Join_inj dir a b : plain a = true → plain b = true → Join dir a = Join dir b → a = b.
Proof.
  intros Ha Hb. destruct (Join_last dir a Ha) as (pre & Hall & ->). rewrite (Hall b Hb). clear. induction pre as [|c pre IH]; [done|]. cbn. by intros [= ?%IH].
Qed.

(** The last segment of a path. *)
Definition base (p : string) : option string := last (split_on "/" p).

Lemma base_Join dir n : plain n = true → base (Join dir n) = Some n.
Proof.
  intros Hn. destruct (Join_pre dir n Hn) as (pre & Hpre & _ & ->). unfold base.
  assert (Hs : split_on "/" n = [n]) by (unfold plain in Hn; rewrite !andb_true_iff, !negb_true_iff in Hn; apply split_on_none, Hn).
  destruct Hpre as [->|[q ->]]; [cbn [String.append]; by rewrite Hs|]. rewrite sapp_assoc. change ("/" +:+ n) with (String "/" n). by rewrite split_on_sep, Hs, last_snoc.
Qed.

(** Files with different names are different, in whatever directories they are. *)
Lemma Join_names_ne d1 d2 a b : plain a = true → plain b = true → a ≠ b → Join d1 a ≠ Join d2 b.
Proof. intros Ha Hb Hne E. apply (f_equal base) in E. rewrite !base_Join in E by done. congruence. Qed.

(** ** internal/atomic *)

Notation fs := (gmap string string).

Definition ReadFile (path : string) (f : fs) : read_file := match f !! path with Some data => FileBytes data | None => FileMissing end.

Definition tmp_of (path : string) : string := path +:+ ".tmp".

(** Whether os.WriteFile can open its file, how far it came when it failed after that, and whether
    os.Rename succeeds. *)
Record write_io := MkWrite { w_open : bool; w_short : option nat; w_renamed : bool }.

Definition WriteFile (io : write_io) (path data : string) (f : fs) : fs * bool :=
  if negb (w_open io) then (f, false)
  else match w_short io with
  | Some n => (<[tmp_of path := stake n data]> f, false)
  | None =>
      let f := <[tmp_of path := data]> f in
      if w_renamed io then (<[path := data]> (delete (tmp_of path) f), true) else (delete (tmp_of path) f, false)
  end.

(** The disk when the process dies during WriteFile: before it, with any part of the temporary
    file written, or after the rename. *)
Inductive crashed (path data : string) (f : fs) : fs → Prop :=
| crash_before : crashed path data f f
| crash_writing n : crashed path data f (<[tmp_of path := stake n data]> f)
| crash_after io : crashed path data f (WriteFile io path data f).1.

Lemma tmp_Join dir n : plain n = true → plain (n +:+ ".tmp") = true → tmp_of (Join dir n) = Join dir (n +:+ ".tmp").
Proof. intros Hn Ht. destruct (Join_last dir n Hn) as (pre & Hall & ->). unfold tmp_of. by rewrite (Hall _ Ht), sapp_assoc. Qed.

Lemma tmp_ne path : tmp_of path ≠ path.
Proof. unfold tmp_of. intros E%(f_equal slen). rewrite slen_app in E. cbn in E. lia. Qed.

(** The atomicity of a write: whenever the process dies, the file has its old content or the new
    one, all of it, and no other file but the temporary one is touched. *)
Lemma crashed_atomic path data f f' : crashed path data f f' →
  (f' !! path = f !! path ∨ f' !! path = Some data) ∧ ∀ p, p ≠ path → p ≠ tmp_of path → f' !! p = f !! p.
Proof.
  pose proof (tmp_ne path). intros [|n|io]; [by split; [left|]| |].
  - split; [left|intros]; by rewrite lookup_insert_ne.
  - unfold WriteFile. destruct (w_open io); cbn [negb]; [|by split; [left|]]. destruct (w_short io); cbn; [split; [left|intros]; by rewrite lookup_insert_ne|]. destruct (w_renamed io); cbn.
    + split; [right; apply lookup_insert_eq|]. intros p Hp Ht. by rewrite lookup_insert_ne, lookup_delete_ne, lookup_insert_ne.
    + split; [left|intros p Hp Ht]; by rewrite lookup_delete_ne, lookup_insert_ne.
Qed.

Lemma WriteFile_result io path data f f' ok : WriteFile io path data f = (f', ok) → f' !! path = if ok then Some data else f !! path.
Proof.
  pose proof (tmp_ne path). unfold WriteFile. destruct (w_open io); cbn [negb]; [|by intros [= <- <-]]. destruct (w_short io); [intros [= <- <-]; by rewrite lookup_insert_ne|].
  destruct (w_renamed io); intros [= <- <-]; [apply lookup_insert_eq|]. by rewrite lookup_delete_ne, lookup_insert_ne.
Qed.

(** ** json.MarshalIndent(v, "", "  ") of a struct of strings *)

Definition newline : string := String (Nb 10) "".
Definition indent_member (p : string * string) : string := "  " +:+ quote_html p.1 +:+ ": " +:+ quote_html p.2.
Definition indent_flat (kvs : list (string * string)) : string :=
  match kvs with
  | [] => "{}"
  | _ => "{" +:+ newline +:+ join ("," +:+ newline) (map indent_member kvs) +:+ newline +:+ "}"
  end.

Definition utf8_members (kvs : list (string * string)) : Prop := Forall (λ p, Utf8.valid p.1 = true ∧ Utf8.valid p.2 = true) kvs.

Lemma skip_newline s : skip_ws (newline +:+ s) = skip_ws s.
Proof. done. Qed.

(** One member, with the blanks around it. *)
Lemma parse_indented f d p rest : Utf8.valid p.1 = true → Utf8.valid p.2 = true → parse_members (S (S f)) d (newline +:+ indent_member p +:+ rest) =
  match skip_ws rest with
  | String c k => if ceqb c "," then '(kvs, k5) ← parse_members (S f) d k; Some ((p.1, JStr p.2) :: kvs, k5)
                  else if ceqb c "}" then Some ([(p.1, JStr p.2)], k) else None
  | "" => None
  end.
Proof.
  intros Hk Hv. unfold indent_member. rewrite !sapp_assoc.
  destruct (html_quoter p.1 (": " +:+ quote_html p.2 +:+ rest) Hk) as (u & b & Eu & Hb & Hub).
  destruct (html_quoter p.2 rest Hv) as (u2 & b2 & Eu2 & Hb2 & Hub2).
  rewrite Eu, Eu2 in *. cbn [parse_members]. cbn [String.append newline skip_ws is_ws] in Hb, Hb2 |- *.
  change (is_ws (Nb 10)) with true. change (is_ws " ") with true. change (is_ws (Nb 34)) with false. cbv iota.
  change (bN (Nb 34) =? 34)%N with true. cbv iota. rewrite Hb. cbn [mbind option_bind skip_ws].
  change (is_ws ":") with false. change (ceqb ":" ":") with true. cbv iota. cbn [parse_value skip_ws].
  change (is_ws " ") with true. change (is_ws (Nb 34)) with false. cbv iota.
  change (ceqb (Nb 34) "{") with false. change (ceqb (Nb 34) "[") with false. change (bN (Nb 34) =? 34)%N with true. cbv iota.
  rewrite Hb2. cbn [mbind option_bind]. rewrite Hub, Hub2. done.
Qed.

Lemma parse_indent_members d kvs f t : kvs ≠ [] → utf8_members kvs → length kvs < f →
  parse_members (S f) d (newline +:+ join ("," +:+ newline) (map indent_member kvs) +:+ newline +:+ "}" +:+ t) =
  Some (map (λ p, (p.1, JStr p.2)) kvs, t).
Proof.
  revert f. induction kvs as [|p kvs IH]; [done|]. intros [|f] _ [[Hk Hv] Hu]%Forall_cons Hl; [lia|]. cbn in Hl. destruct kvs as [|q kvs].
  - cbn [map join]. rewrite parse_indented by done. done.
  - change (join ("," +:+ newline) (map indent_member (p :: q :: kvs))) with (indent_member p +:+ ("," +:+ newline) +:+ join ("," +:+ newline) (map indent_member (q :: kvs))).
    rewrite sapp_assoc, parse_indented by done. rewrite !sapp_assoc. cbn [String.append skip_ws]. change (is_ws ",") with false. change (ceqb "," ",") with true. cbv iota.
    specialize (IH f ltac:(done) Hu ltac:(lia)). cbn [String.append] in IH. rewrite IH. done.
Qed.

(** What MarshalIndent writes, Unmarshal reads. *)
Lemma unmarshal_indent kvs : utf8_members kvs → unmarshal (indent_flat kvs) = Some (JObj (map (λ p, (p.1, JStr p.2)) kvs)).
Proof.
  intros Hu. destruct kvs as [|p kvs]; [done|]. unfold unmarshal, decoder_decode. set (s := indent_flat (p :: kvs)).
  assert (Hfuel : ∃ f, value_fuel s = S (S f) ∧ length (p :: kvs) < f).
  { assert (∀ l, length l ≤ slen (join ("," +:+ newline) (map indent_member l))) as Hj.
    { clear. induction l as [|q l IH]; [cbn; lia|]. destruct l as [|r l]; [cbn; lia|].
      change (join ("," +:+ newline) (map indent_member (q :: r :: l))) with (indent_member q +:+ ("," +:+ newline) +:+ join ("," +:+ newline) (map indent_member (r :: l))).
      rewrite !slen_app. cbn [length slen] in *. lia. }
    specialize (Hj (p :: kvs)). exists (2 * slen s). split; [unfold value_fuel; lia|]. unfold s, indent_flat. rewrite !slen_app. cbn [slen newline] in *. lia. }
  destruct Hfuel as (f & -> & Hl). unfold s, indent_flat. set (l := p :: kvs) in *.
  change ("{" +:+ ?x) with (String "{" x). cbn [parse_value skip_ws]. change (is_ws "{") with false. change (ceqb "{" "{") with true. cbv iota.
  change (max_nesting_depth =? 0)%N with false. cbv iota.
  pose proof (parse_indent_members (max_nesting_depth - 1) l f "" ltac:(done) Hu Hl) as Hp. rewrite sapp_nil_r in Hp.
  assert (Hhead : ∃ r, skip_ws (newline +:+ join ("," +:+ newline) (map indent_member l) +:+ newline +:+ "}") = String (Nb 34) r).
  { pose proof Hu as [[Hk _] _]%Forall_cons. destruct (html_quoter p.1 "" Hk) as (u & b & E & _). unfold l. rewrite skip_newline.
    destruct kvs; cbn [map join]; unfold indent_member at 1; rewrite E; by eexists. }
  destruct Hhead as [r ->]. change (ceqb (Nb 34) "}") with false. cbv iota. rewrite Hp. done.
Qed.

(** ** Reading members of a known object *)

Lemma assign_none {A} (dec : A → json → option A) l : foldl (λ acc j, a ← acc; dec a j) None l = None.
Proof. by induction l. Qed.
Lemma assign_nil {A} (dec : A → json → option A) z field : assign dec z field [] = Some z.
Proof. done. Qed.
Lemma assign_cons {A} (dec : A → json → option A) z field k v kvs :
  assign dec z field ((k, v) :: kvs) = if name_matches field k then z' ← dec z v; assign dec z' field kvs else assign dec z field kvs.
Proof. unfold assign, members_named. cbn. destruct (name_matches field k); [|done]. cbn. destruct (dec z v); [done|]. apply assign_none. Qed.

(** Compute the assignments whose names are known. *)
Ltac run_assign :=
  repeat first
  [ rewrite assign_nil
  | rewrite assign_cons; match goal with |- context [if name_matches ?f ?k then _ else _] =>
      let b := eval vm_compute in (name_matches f k) in change (name_matches f k) with b; cbv iota; cbn [dec_string mbind option_bind] end ].

(** ** internal/store/customdomain.go *)

(** The row as it is stored: the payload is bytes. *)
Record DomainRow := MkRow { ParentZone : string; EnvelopePayload : string; EnvelopeOwnerSig : string; VerifiedAt : string }.

Inductive store_error := ErrRead | ErrParse | ErrEmptyZone | ErrDir | ErrTemp | ErrRename | ErrRemove.

(** A []byte field is base64 text. *)
Definition dec_bytes (old : string) (j : json) : option string :=
  match j with JNull => Some "" | JStr s => Base64.decode s | _ => None end.

Definition dec_row : DomainRow → json → option DomainRow := dec_struct (λ o kvs,
  z ← assign dec_string (ParentZone o) "parentZone" kvs; p ← assign dec_bytes (EnvelopePayload o) "envelopePayload" kvs;
  s ← assign dec_string (EnvelopeOwnerSig o) "envelopeOwnerSig" kvs; v ← assign dec_string (VerifiedAt o) "verifiedAt" kvs;
  Some (MkRow z p s v)).

Definition omitempty (k v : string) : list (string * string) := if v =s "" then [] else [(k, v)].
Definition row_members (r : DomainRow) : list (string * string) :=
  [("parentZone", ParentZone r)] ++ omitempty "envelopePayload" (Base64.encode (EnvelopePayload r)) ++
  omitempty "envelopeOwnerSig" (EnvelopeOwnerSig r) ++ omitempty "verifiedAt" (VerifiedAt r).

Definition Get (file : read_file) : result store_error (option DomainRow) :=
  match file with
  | FileMissing => Ok None
  | FileUnreadable => Err ErrRead
  | FileBytes data =>
      match unmarshal data ≫= dec_row (MkRow "" "" "" "") with
      | None => Err ErrParse
      | Some r => Ok (if ParentZone r =s "" then None else Some r)
      end
  end.

(** The directory, the name CreateTemp picks, whether the content was written, the mode set and
    the file closed, and whether the rename succeeds. *)
Record set_io := MkSet { s_dir : bool; s_tmp : option string; s_written : bool; s_renamed : bool }.

Definition Set_ (io : set_io) (path : string) (r : DomainRow) (f : fs) : fs * result store_error unit :=
  if ParentZone r =s "" then (f, Err ErrEmptyZone)
  else if negb (s_dir io) then (f, Err ErrDir)
  else match s_tmp io with
       | None => (f, Err ErrTemp)
       | Some tmp =>
           if negb (s_written io) then (delete tmp f, Err ErrTemp)
           else if negb (s_renamed io) then (delete tmp f, Err ErrRename)
           else (<[path := indent_flat (row_members r)]> (delete tmp f), Ok tt)
       end.

Definition Clear (removable : bool) (path : string) (f : fs) : fs * result store_error unit :=
  match f !! path with
  | None => (f, Ok tt)
  | Some _ => if removable then (delete path f, Ok tt) else (f, Err ErrRemove)
  end.

Lemma ascii_base64 s : is_ascii_string (Base64.encode s) = true.
Proof.
  assert (Hs : ∀ n, (n < 64)%N → (bN (Base64.sym n) <? 128)%N = true) by (apply Base64.sym_all; by vm_compute).
  unfold is_ascii_string. induction s using Base64.string_ind3; cbn -[N.div N.modulo N.mul]; rewrite ?Hs by Base64.b64_arith; done.
Qed.

Definition row_ok (r : DomainRow) : Prop := ParentZone r ≠ "" ∧ Forall (λ s, Utf8.valid s = true) [ParentZone r; EnvelopeOwnerSig r; VerifiedAt r].

Lemma row_decodes r : row_ok r → Get (FileBytes (indent_flat (row_members r))) = Ok (Some r).
Proof.
  intros [Hz Hv]. rewrite !Forall_cons in Hv. destruct Hv as (V1 & V2 & V3 & _). pose proof (ascii_valid _ (ascii_base64 (EnvelopePayload r))) as V4.
  unfold Get. rewrite unmarshal_indent.
  2:{ unfold row_members, omitempty. repeat apply Forall_app_2; repeat case_match; repeat constructor; done. }
  cbn [mbind option_bind]. destruct r as [z p s v]. cbn [ParentZone EnvelopePayload EnvelopeOwnerSig VerifiedAt] in *.
  assert (Hd : dec_row (MkRow "" "" "" "") (JObj (map (λ p0, (p0.1, JStr p0.2)) (row_members (MkRow z p s v)))) = Some (MkRow z p s v)).
  { unfold row_members, omitempty. cbn [ParentZone EnvelopePayload EnvelopeOwnerSig VerifiedAt].
    destruct (Base64.encode p =s "") eqn:Ep, (s =s "") eqn:Es, (v =s "") eqn:Ev; str_inv; cbn [app map fst snd]; unfold dec_row, dec_struct; cbn [ParentZone EnvelopePayload EnvelopeOwnerSig VerifiedAt];
      run_assign; cbn [dec_bytes]; rewrite ?Base64.decode_encode; cbn [mbind option_bind]; run_assign; try done;
      (assert (p = "") as -> by (destruct (decide (p = "")) as [|Hp]; [done|by apply Base64.encode_nonempty in Hp])); done. }
  rewrite Hd. cbn [ParentZone]. by rewrite (proj2 (seqb_false _ _) Hz).
Qed.

(** The custom-domain row that Set stores is the row Get returns, its signed payload byte for
    byte, so the owner's intent can be verified again after a restart; a Set that fails leaves
    the stored row as it was, and after Clear there is none. *)
Theorem domain_row_roundtrip io path r f : row_ok r → s_tmp io ≠ Some path →
  (let '(f', res) := Set_ io path r f in Get (ReadFile path f') = if is_ok res then Ok (Some r) else Get (ReadFile path f)) ∧
  (∀ removable f' , Clear removable path f = (f', Ok tt) → Get (ReadFile path f') = Ok None).
Proof.
  intros Hr Ht. split.
  - unfold Set_. destruct (ParentZone r =s ""); [done|]. destruct (s_dir io); cbn [negb]; [|done]. destruct (s_tmp io) as [tmp|]; [|done].
    assert (Hne : tmp ≠ path) by congruence. destruct (s_written io); cbn [negb is_ok]; [|unfold ReadFile; by rewrite lookup_delete_ne].
    destruct (s_renamed io); cbn [negb is_ok]; unfold ReadFile; [|by rewrite lookup_delete_ne]. rewrite lookup_insert_eq. by apply row_decodes.
  - intros removable f'. unfold Clear, ReadFile. destruct (f !! path) eqn:E; [|intros [= <-]; by rewrite E]. destruct removable; [|done]. intros [= <-]. by rewrite lookup_delete_eq.
Qed.

Module StoreDemo.
Definition row : DomainRow := MkRow "home.example" "{raw}" "sig" "2026-01-01T00:00:00Z".
Definition io : set_io := MkSet true (Some "/d/.custom_domain.1.tmp") true true.

Lemma domain_row_roundtrip_witness : (let '(f', res) := Set_ io "/d/custom_domain.json" row ∅ in
  Get (ReadFile "/d/custom_domain.json" f') = if is_ok res then Ok (Some row) else Get (ReadFile "/d/custom_domain.json" ∅)) ∧ is_ok (Set_ io "/d/custom_domain.json" row ∅).2 = true.
Proof.
  split; [|reflexivity]. apply (domain_row_roundtrip io "/d/custom_domain.json" row ∅); [split; [discriminate|repeat constructor]|discriminate].
Defined.

(** A corrupt file is an error, not an absent row. *)
Example corrupt_row : Get (FileBytes "{") = Err ErrParse ∧ Get (FileBytes "{}") = Ok None.
Proof. vm_compute. done. Qed.
Example cleaned : map Clean ["/a/../b//c/."; "a/../../b"; "/.."; ""; "./x/"] = ["/b/c"; "../b"; "/"; "."; "x"].
Proof. vm_compute. reflexivity. Qed.
End StoreDemo.
