(* ===== verification/Smtp.v ===== *)
(** * internal/smtp: the mail-to-push gateway

    A connection is admitted ([NewSession]), then go-smtp drives the session's methods; the SASL
    PLAIN server and the MIME parser (enmime) are libraries: a PLAIN exchange is the password it
    hands to the callback, a parsed message is an argument. The two regular expressions of
    inline.go are written out as matchers over bytes (every character they name is ASCII but the
    long s, which (?i) folds to s). *)

From S2P Require Import Prelude TimeText Encoding Json CanonJson NetAddr Crypto Atreolink AclStore Envelope Proxy Pairing Float64 RateLimit Notify.
#[local] Close Scope Q_scope.

(** ** Server *)

Record Config := MkSmtp {
  Listen : string;
  MaxMessageBytes : Z;
  RatePerMinute : Z;
  TLSEnabled : bool;
  DataDir : string;
  TrustedNetworks : list string;
  CatchAll : string
}.

Record Server := MkSmtpServer { cfg : Config; limiter : Limiter; trusted : list IPNet; tlsOn : bool }.

Inductive smtp_error := ErrNoDataDir | ErrTLSCert.

Definition parseCIDRs (cidrs : list string) : list IPNet := omap (λ c, snd <$> ParseCIDR c) cidrs.

(** newIPLimiter *)
Definition newIPLimiter (perMinute : Z) : Limiter := RateLimit.New perMinute.

(** [cert]: loadOrGenerateTLSCert succeeds. *)
Definition NewServer (cert : bool) (c : Config) : result smtp_error Server :=
  let c := MkSmtp (if Listen c =s "" then "0.0.0.0:2525" else Listen c)
             (if (MaxMessageBytes c =? 0)%Z then (2 ^ 20)%Z else MaxMessageBytes c)
             (if (RatePerMinute c =? 0)%Z then 5%Z else RatePerMinute c)
             (TLSEnabled c) (DataDir c) (TrustedNetworks c) (CatchAll c) in
  let s := MkSmtpServer c (newIPLimiter (RatePerMinute c)) (parseCIDRs (TrustedNetworks c)) in
  if TLSEnabled c then
    if DataDir c =s "" then Err ErrNoDataDir else if cert then Ok (s true) else Err ErrTLSCert
  else Ok (s false).

Definition ipTrusted (host : string) (s : Server) : bool :=
  match trusted s with
  | [] => true
  | nets => match ParseIP host with None => false | Some ip => existsb (λ n, Contains n ip) nets end
  end.

Definition allowlistIncludesPublic (s : Server) : bool :=
  existsb (λ probe, match ParseIP probe with Some ip => existsb (λ n, Contains n ip) (trusted s) | None => false end)
    ["8.8.8.8"; "2001:4860:4860::8888"].

(** The reaper of Start. *)
Definition reap (now : Z) (s : Server) : Server := MkSmtpServer (cfg s) (Reap now (5 * minute) (limiter s)) (trusted s) (tlsOn s).

Record session := MkSession {
  remoteIP : string;
  authed : bool;
  from : string;
  recipient : option MemberACLEntry;
  rcptTo : string;
  catchAll : bool
}.

(** The host of RemoteAddr, or all of it when it does not split. *)
Definition remote_host (remote : string) : string := match SplitHostPort remote with Some (h, _) => h | None => remote end.

(** What a method returns to go-smtp. *)
Inductive refusal := ErrAuthRequired | SMTPError (code : Z).

Definition NewSession (now : Z) (remote : string) (s : Server) : Server * result refusal session :=
  let host := remote_host remote in
  if negb (ipTrusted host s) then (s, Err (SMTPError 554))
  else match Allow now host (limiter s) with
       | (l, ok) => (MkSmtpServer (cfg s) l (trusted s) (tlsOn s), if ok then Ok (MkSession host false "" None "" false) else Err (SMTPError 421))
       end.

(** ** AUTH *)

Definition set_authed (se : session) : session := MkSession (remoteIP se) true (from se) (recipient se) (rcptTo se) (catchAll se).

(** An empty key admits nobody. *)
Definition validatePassword (key password : string) (se : session) : session * bool :=
  if (slen key =? 0) || negb (key_matches password key) then (se, false) else (set_authed se, true).

Record loginServer := MkLogin { step : nat; username : string }.
Definition newLoginServer : loginServer := MkLogin 0 "".

(** The challenge, whether the exchange is over, and whether it failed. *)
Record next := MkNext { challenge : option string; finished : bool; failed : bool }.

Definition Next (key response : string) (l : loginServer) (se : session) : loginServer * session * next :=
  match step l with
  | 0 => (MkLogin 1 (username l), se, MkNext (Some "Username:") false false)
  | 1 => (MkLogin 2 response, se, MkNext (Some "Password:") false false)
  | 2 => let '(se, ok) := validatePassword key response se in (MkLogin 3 (username l), se, MkNext None true (negb ok))
  | _ => (l, se, MkNext None true true)
  end.

(** The responses of one AUTH LOGIN exchange, until it is over. *)
Fixpoint login (key : string) (responses : list string) (l : loginServer) (se : session) : session * bool :=
  match responses with
  | [] => (se, false)
  | r :: rest => let '(l, se, n) := Next key r l se in if finished n then (se, negb (failed n)) else login key rest l se
  end.

(** ** MIME parts (inline.go) *)

Record Part := MkPart { p_ContentID : string; p_ContentType : string; p_Content : string }.

#[export] Instance Part_eq_dec : EqDecision Part.
Proof. solve_decision. Defined.

(** enmime.Envelope: what Data reads of it. *)
Record Mail := MkMail { Attachments : list Part; HTML : string; Text : string; Inlines : list Part; GetHeader : string → string }.

(** strings.Trim(s, "<>") *)
Fixpoint trim_angles_l (s : string) : string :=
  match s with String c r => if ceqb c "<" || ceqb c ">" then trim_angles_l r else s | "" => "" end.
Fixpoint trim_angles_r (s : string) : string :=
  match s with
  | "" => ""
  | String c r => let t := trim_angles_r r in if (t =s "") && (ceqb c "<" || ceqb c ">") then "" else String c t
  end.
Definition trim_angles (s : string) : string := trim_angles_r (trim_angles_l s).

(** A letter in either case; the text after it. *)
Definition letter (lower : ascii) (s : string) : option string :=
  match s with String c r => if ceqb (ascii_lower c) lower then Some r else None | "" => None end.
Definition letter_s (s : string) : option string :=
  match s with
  | String c (String d r) => if ceqb c (Nb 0xC5) && ceqb d (Nb 0xBF) then Some r else letter "s" s
  | _ => letter "s" s
  end.
Definition exactly (c : ascii) (s : string) : option string :=
  match s with String d r => if ceqb c d then Some r else None | "" => None end.
Definition dquote : ascii := Nb 0x22.
Definition is_quote (c : ascii) : bool := ceqb c dquote || ceqb c "'".
Definition a_quote (s : string) : option string := match s with String c r => if is_quote c then Some r else None | "" => None end.
(** \s *)
Definition regexp_space (c : ascii) : bool := let n := bN c in ((n =? 9) || (n =? 10) || (n =? 12) || (n =? 13) || (n =? 32))%N.
Definition cid_char (c : ascii) : bool := negb (is_quote c || ceqb c "<" || ceqb c ">" || regexp_space c).
Fixpoint cid_run (s : string) : string * string :=
  match s with
  | String c r => if cid_char c then let '(a, k) := cid_run r in (String c a, k) else ("", s)
  | "" => ("", "")
  end.

(** cidImgPattern at the start of [s]: the group and the text after the match. *)
Definition match_cid (s : string) : option (string * string) :=
  s ← letter_s s; s ← letter "r" s; s ← letter "c" s; s ← exactly "=" s; s ← a_quote s;
  s ← letter "c" s; s ← letter "i" s; s ← letter "d" s; s ← exactly ":" s;
  let '(cid, k) := cid_run s in
  if cid =s "" then None else k ← a_quote k; Some (cid, k).

Definition cid_map (inlines : list Part) : gmap string Part :=
  foldl (λ m p, let cid := trim_angles (p_ContentID p) in if cid <>s "" then <[cid := p]> m else m) ∅ inlines.

Definition data_uri (p : Part) : string :=
  "src=" +:+ String dquote ("data:" +:+ (if p_ContentType p =s "" then "application/octet-stream" else p_ContentType p) +:+
  ";base64," +:+ Base64.encode (p_Content p) +:+ String dquote "").

(** ReplaceAllStringFunc, leftmost matches first; each round consumes a byte of [s]. *)
Fixpoint replace_cids (fuel : nat) (m : gmap string Part) (s : string) : string :=
  match fuel, s with
  | S f, String c r =>
      match match_cid s with
      | Some (cid, rest) =>
          (match m !! cid with Some p => data_uri p | None => stake (slen s - slen rest) s end) +:+ replace_cids f m rest
      | None => String c (replace_cids f m r)
      end
  | _, _ => s
  end.

Definition inlineCIDs (html : string) (inlines : list Part) : string :=
  match inlines with
  | [] => html
  | _ => let m := cid_map inlines in if decide (m = ∅) then html else replace_cids (slen html) m html
  end.

(** tagPattern, replaced by a blank. *)
Fixpoint strip_tags (fuel : nat) (s : string) : string :=
  match fuel, s with
  | S f, String c r =>
      if ceqb c "<" then
        match cut_at ">" r with
        | Some (a, rest) => if a =s "" then String c (strip_tags f r) else String " " (strip_tags f rest)
        | None => String c (strip_tags f r)
        end
      else String c (strip_tags f r)
  | _, _ => s
  end.

Definition flush (cur : string) : list string := if cur =s "" then [] else [cur].
(** strings.Fields *)
Fixpoint fields (fuel : nat) (cur s : string) : list string :=
  match fuel, s with
  | S f, String c r =>
      match space_width s with
      | 0 => fields f (cur +:+ String c "") r
      | w => flush cur ++ fields f "" (sdrop w s)
      end
  | _, _ => flush (cur +:+ s)
  end.

Definition htmlToPreview (html : string) : string :=
  if html =s "" then "" else let s := strip_tags (slen html) html in join " " (fields (slen s) "" s).

(** ** The transaction *)

Definition preview (text html : string) : string :=
  let p := trim_space (if text =s "" then htmlToPreview html else text) in
  if (PreviewBodyChars <? slen p)%nat then stake PreviewBodyChars p else p.

(** fmt.Sprintf("%s → %s", a, b) *)
Definition arrow (a b : string) : string := a +:+ " → " +:+ b.

(** What Data makes of a message, or the refusal. *)
Definition mail_request (mail : option Mail) (se : session) : result refusal NotifyRequest :=
  let! m := of_option (SMTPError 554) mail in
  check! guard_err (bool_decide (Attachments m = [])) (SMTPError 554) in
  let html := if HTML m <>s "" then inlineCIDs (HTML m) (Inlines m) else HTML m in
  let text := Text m in
  check! guard_err (negb ((html =s "") && (text =s ""))) (SMTPError 554) in
  let subject := orElse (trim_space (GetHeader m "Subject")) "(no subject)" in
  let emailFrom := orElse (trim_space (GetHeader m "From")) (from se) in
  let emailFrom := if catchAll se then arrow emailFrom (rcptTo se) else emailFrom in
  Ok (MkNotifyRequest "" "" subject (preview text html) html text (if html <>s "" then "text/html" else "text/plain") "info" emailFrom subject).

Section Session.
Context `{Unicode} `{Primitives} `{SealedBox}.

Definition Mail_ (f : string) (se : session) : session * option refusal :=
  if negb (authed se) then (se, Some ErrAuthRequired)
  else (MkSession (remoteIP se) (authed se) f (recipient se) (rcptTo se) (catchAll se), None).

Definition Rcpt (acl : Store) (catch to : string) (se : session) : session * option refusal :=
  match recipient se with
  | Some _ => (se, Some (SMTPError 452))
  | None =>
      match LookupByEmail to acl with
      | Some m => (MkSession (remoteIP se) (authed se) (from se) (Some m) (rcptTo se) (catchAll se), None)
      | None =>
          if catch <>s "" then
            match LookupByEmail catch acl with
            | Some m => (MkSession (remoteIP se) (authed se) (from se) (Some m) to true, None)
            | None => (se, Some (SMTPError 550))
            end
          else (se, Some (SMTPError 550))
      end
  end.

(** What was sent, and the refusal of a failure. *)
Definition Data (km : KeyManager) (deviceID agentID : string) (io : send_io) (mail : option Mail) (se : session)
    : list NotificationEnvelope * option refusal :=
  match recipient se with
  | None => ([], Some (SMTPError 503))
  | Some m =>
      match mail_request mail se with
      | Err code => ([], Some code)
      | Ok req => match SendToMember km deviceID agentID io m req with
                  | (out, Ok _) => (out, None)
                  | (out, Err _) => (out, Some (SMTPError 451))
                  end
      end
  end.

Definition Reset (se : session) : session := MkSession (remoteIP se) (authed se) "" None "" false.
End Session.

(** ** Excerpts hold no markup *)

(** No < is followed by text and a >. *)
Fixpoint tagless (s : string) : bool :=
  match s with
  | "" => true
  | String c r => (negb (ceqb c "<") || match cut_at ">" r with Some (a, _) => a =s "" | None => true end) && tagless r
  end.

(** [tagless] says that tagPattern matches nowhere. *)
Lemma tagless_spec s : tagless s = true ↔ ∀ a b c, s = a +:+ "<" +:+ b +:+ ">" +:+ c → contains_byte ">" b = false → b = "".
Proof.
  induction s as [|x s IH]; [split; [|done]; intros _ [|] ? ?; done|]. cbn [tagless]. rewrite andb_true_iff, IH. split.
  - intros [Hx Hs] [|y a] b c E Hb; cbn in E; injection E as -> E; [|exact (Hs a b c E Hb)].
    cbn in Hx. pose proof (cut_at_app ">" b c Hb) as Hc. cbn in E. rewrite E in Hx. cbn in Hc. rewrite Hc in Hx. by apply seqb_true in Hx.
  - intros Hall. split; [|intros a b c -> Hb; by apply (Hall (String x a) b c)].
    destruct (ceqb x "<") eqn:Ex; [|done]. apply ceqb_true in Ex as ->. pose proof (cut_at_spec ">" s) as Hc. cbn [negb orb].
    destruct (cut_at ">" s) as [[a r]|]; [|done]. destruct Hc as [-> Hc]. apply seqb_true. apply (Hall "" a r); [done|]. done.
Qed.

Lemma strip_contains f s : contains_byte ">" s = false → contains_byte ">" (strip_tags f s) = false.
Proof.
  revert s. induction f as [|f IH]; intros [|c r]; try done. cbn [strip_tags contains_byte]. intros [Hc Hr]%orb_false_elim.
  assert (Hk : contains_byte ">" (String c (strip_tags f r)) = false) by (cbn; rewrite Hc; by apply IH).
  destruct (ceqb c "<"); [|done]. pose proof (cut_at_spec ">" r) as Hs. destruct (cut_at ">" r) as [[a rest]|]; [|done].
  destruct Hs as [-> _]. rewrite contains_app in Hr. by apply orb_false_elim in Hr as [_ [Hr _]%orb_false_elim].
Qed.

Lemma strip_tagless f s : slen s ≤ f → tagless (strip_tags f s) = true.
Proof.
  revert s. induction f as [|f IH]; intros [|c r] Hf; try done; [cbn in Hf; lia|]. cbn [strip_tags]. cbn in Hf.
  destruct (ceqb c "<") eqn:Ec; [|cbn; rewrite Ec; apply IH; lia].
  pose proof (cut_at_spec ">" r) as Hs. destruct (cut_at ">" r) as [[a rest]|] eqn:E.
  - destruct Hs as [Hr _]. assert (slen rest ≤ f) by (subst r; rewrite slen_app in Hf; cbn in Hf; lia).
    destruct (a =s "") eqn:Ea; [|cbn; by apply IH]. apply seqb_true in Ea as ->. cbn in Hr. subst r. cbn [tagless]. rewrite Ec. cbn [negb orb].
    destruct f as [|f]; [cbn in Hf; lia|]. rewrite IH by lia. rewrite andb_true_r. cbn [strip_tags]. done.
  - cbn. rewrite Ec, IH by lia. cbn. rewrite andb_true_r. pose proof (strip_contains f r Hs) as Hn. pose proof (cut_at_spec ">" (strip_tags f r)) as Hc.
    destruct (cut_at ">" (strip_tags f r)) as [[x y]|]; [|done]. destruct Hc as [E2 _]. rewrite E2, contains_app in Hn. by apply orb_false_elim in Hn as [_ [Hn _]%orb_false_elim].
Qed.

(** [t] is [s] with some blanks removed or replaced by a space. *)
Inductive shrinks : string → string → Prop :=
| shrinks_nil : shrinks "" ""
| shrinks_keep c s t : shrinks s t → shrinks (String c s) (String c t)
| shrinks_drop c s t : c ≠ ">"%char → c ≠ "<"%char → shrinks s t → shrinks (String c s) t
| shrinks_blank c s t : c ≠ ">"%char → c ≠ "<"%char → shrinks s t → shrinks (String c s) (String " " t).

Lemma shrinks_contains s t : shrinks s t → contains_byte ">" s = false → contains_byte ">" t = false.
Proof. induction 1; cbn; rewrite ?orb_false_iff; naive_solver. Qed.

Lemma cut_at_none c s : contains_byte c s = false → cut_at c s = None.
Proof.
  intros Hn. pose proof (cut_at_spec c s) as Hs. destruct (cut_at c s) as [[a r]|]; [|done]. destruct Hs as [-> _].
  rewrite contains_app in Hn. apply orb_false_elim in Hn as [_ [Hn _]%orb_false_elim]. apply ceqb_false in Hn. done.
Qed.

Lemma shrinks_tagless s t : shrinks s t → tagless s = true → tagless t = true.
Proof.
  induction 1 as [|c s t Hs IH|c s t H1 H2 Hs IH|c s t H1 H2 Hs IH]; cbn [tagless]; rewrite ?andb_true_iff; [done| |naive_solver..].
  intros [Hc Ht]. split; [|by apply IH]. destruct (ceqb c "<") eqn:Ec; [|done]. cbn [negb orb] in Hc |- *.
  pose proof (cut_at_spec ">" s) as Hcut. destruct (cut_at ">" s) as [[a r]|].
  - apply seqb_true in Hc as ->. destruct Hcut as [-> _]. cbn in Hs. inversion Hs; [done|done|done].
  - by rewrite (cut_at_none ">" t (shrinks_contains _ _ Hs Hcut)).
Qed.

(** A byte that is neither angle bracket. *)
Definition no_angle (c : ascii) : Prop := c ≠ ">"%char ∧ c ≠ "<"%char.
Lemma no_angle_byte c n : (bN c =? n)%N = true → n ≠ 62%N → n ≠ 60%N → no_angle c.
Proof. intros <-%N.eqb_eq H1 H2. by split; intros ->. Qed.

Lemma shrink_spaces w s : space_width s = S w → ∀ t, shrinks (sdrop (S w) s) t → shrinks s t ∧ shrinks s (String " " t).
Proof.
  assert (Hrange : ∀ c lo hi, ((lo <=? bN c) && (bN c <=? hi))%N = true → (hi < 60 ∨ 62 < lo)%N → no_angle c).
  { intros c lo hi [Hl%N.leb_le Hh%N.leb_le]%andb_prop Hr. split; intros ->; [change (bN ">") with 62%N in *|change (bN "<") with 60%N in *]; lia. }
  assert (Hone : ∀ c r t, no_angle c → shrinks r t → shrinks (String c r) t) by (intros c r t []; by apply shrinks_drop).
  assert (Hfirst : ∀ c r t, no_angle c → shrinks r t → shrinks (String c r) t ∧ shrinks (String c r) (String " " t)).
  { intros c r t Hc Hs. split; [by apply Hone|]. destruct Hc. by apply shrinks_blank. }
  unfold space_width. destruct s as [|c0 r0]; [done|]. cbn [String.list_ascii_of_string].
  destruct ((9 <=? bN c0) && (bN c0 <=? 13) || (bN c0 =? 32))%N eqn:E1.
  { intros [= <-] t Ht. cbn [sdrop] in Ht. apply Hfirst; [|by destruct r0]. apply orb_prop in E1 as [E1|E1]; [by eapply Hrange; [exact E1|lia]|by eapply no_angle_byte]. }
  destruct r0 as [|c1 r1]; cbn [String.list_ascii_of_string].
  { repeat case_match; try done; lia. }
  assert (Hany : ∀ c a b, ((bN c =? a) || (bN c =? b))%N = true → (62 < a)%N → (62 < b)%N → no_angle c).
  { intros c a b [E|E]%orb_prop Ha Hb; eapply no_angle_byte; try exact E; lia. }
  destruct ((bN c0 =? 0xC2) && ((bN c1 =? 0x85) || (bN c1 =? 0xA0)))%N eqn:E2.
  { intros [= <-] t Ht. cbn [sdrop] in Ht. apply andb_prop in E2 as [E2 E3]. apply Hfirst; [by eapply no_angle_byte|]. apply Hone; [by eapply Hany|by destruct r1]. }
  destruct r1 as [|c2 r2]; cbn [String.list_ascii_of_string]; [repeat case_match; try done; lia|].
  assert (Hthree : no_angle c0 → no_angle c1 → no_angle c2 → 3 = S w → ∀ t, shrinks (sdrop (S w) (String c0 (String c1 (String c2 r2)))) t →
    shrinks (String c0 (String c1 (String c2 r2))) t ∧ shrinks (String c0 (String c1 (String c2 r2))) (String " " t)).
  { intros H0 H1 H2 [= <-] t Ht. cbn [sdrop] in Ht. apply Hfirst; [done|]. apply Hone; [done|]. apply Hone; [done|]. by destruct r2. }
  repeat match goal with |- context [if ?b then _ else _] => let E := fresh "E" in destruct b eqn:E end; try done; apply Hthree;
    repeat match goal with H : (_ && _)%bool = true |- _ => apply andb_prop in H as [? ?] end; try (by eapply no_angle_byte);
    repeat match goal with H : (_ || _)%bool = true |- _ => apply orb_prop in H as [?|?] end; (by eapply no_angle_byte) || (eapply Hrange; [eassumption|lia]).
Qed.

Lemma fields_shrinks f cur s : slen s ≤ f → ∃ t, join " " (fields f cur s) = cur +:+ t ∧ shrinks s t.
Proof.
  revert cur s. induction f as [|f IH]; intros cur s Hf.
  { destruct s; [|cbn in Hf; lia]. exists "". cbn. rewrite !sapp_nil_r. split; [|constructor]. unfold flush. destruct (cur =s "") eqn:E; str_inv; by subst. }
  destruct s as [|c r]; [exists ""; cbn; rewrite !sapp_nil_r; split; [|constructor]; unfold flush; destruct (cur =s "") eqn:E; str_inv; by subst|].
  cbn [fields]. cbn in Hf. destruct (space_width (String c r)) as [|w] eqn:Ew.
  - destruct (IH (cur +:+ String c "") r) as (t & Hj & Ht); [lia|]. exists (String c t). rewrite Hj, sapp_assoc. split; [done|by constructor].
  - destruct (IH "" (sdrop (S w) (String c r))) as (t & Hj & Ht).
    { cbn. assert (∀ n x, slen (sdrop n x) ≤ slen x) as Hd by (induction n; intros [|? x]; cbn; auto with lia). specialize (Hd w r). lia. }
    cbn [String.append] in Hj. destruct (shrink_spaces w (String c r) Ew t Ht) as [S1 S2]. unfold flush. destruct (seqb cur "") eqn:E.
    + apply seqb_true in E as ->. exists t. split; [by rewrite <- Hj|done].
    + destruct (fields f "" _) as [|x l] eqn:El.
      * exists t. cbn in Hj. subst t. split; [cbn; by rewrite sapp_nil_r|done].
      * exists (String " " t). split; [|done]. rewrite <- Hj. done.
Qed.

Lemma htmlToPreview_tagless html : tagless (htmlToPreview html) = true.
Proof.
  unfold htmlToPreview. destruct (html =s ""); [done|]. destruct (fields_shrinks (slen (strip_tags (slen html) html)) "" (strip_tags (slen html) html)) as (t & -> & Ht); [done|].
  cbn [String.append]. by eapply shrinks_tagless, strip_tagless.
Qed.

Lemma tagless_drop n s : tagless s = true → tagless (sdrop n s) = true.
Proof. revert s. induction n as [|n IH]; intros [|c s]; try done. cbn. intros [_ Hs]%andb_prop. by apply IH. Qed.
Lemma cut_at_take c n s a b : cut_at c (stake n s) = Some (a, b) → ∃ b', cut_at c s = Some (a, b').
Proof.
  intros E. pose proof (cut_at_spec c (stake n s)) as Hs. rewrite E in Hs. destruct Hs as [Hs Hn]. exists (b +:+ sdrop n s).
  rewrite <- (stake_sdrop n s) at 1. rewrite Hs, sapp_assoc. cbn [String.append]. by apply cut_at_app.
Qed.
Lemma tagless_take n s : tagless s = true → tagless (stake n s) = true.
Proof.
  revert s. induction n as [|n IH]; intros [|c s]; try done. cbn. intros [Hc Hs]%andb_prop. rewrite IH by done. rewrite andb_true_r.
  destruct (ceqb c "<"); [|done]. cbn in Hc |- *. destruct (cut_at ">" (stake n s)) as [[a b]|] eqn:E; [|done]. apply cut_at_take in E as [b' E]. by rewrite E in Hc.
Qed.
Lemma trim_left_sub f s : ∃ n, trim_left_fuel f s = sdrop n s.
Proof.
  revert s. induction f as [|f IH]; intros s; [by exists 0; destruct s|]. cbn [trim_left_fuel]. destruct (space_width s) as [|w]; [by exists 0; destruct s|]. destruct (IH (sdrop (S w) s)) as [n ->].
  exists (S w + n). clear. revert s. induction (S w) as [|k IH]; intros s; [by destruct s|]. destruct s as [|c s]; [by destruct n|]. cbn. apply IH.
Qed.
Lemma trim_right_sub (P : string → Prop) f s : (∀ n x, P x → P (stake n x)) → P s → P (trim_right_fuel f s).
Proof. intros HP. revert s. induction f as [|f IH]; intros s Hs; [done|]. cbn. destruct (space_width_r s); [done|]. apply IH. by apply HP. Qed.

Lemma trim_space_tagless s : tagless s = true → tagless (trim_space s) = true.
Proof.
  intros Hs. unfold trim_space. apply (trim_right_sub (λ x, tagless x = true)); [intros n x; apply tagless_take|].
  destruct (trim_left_sub (slen s) s) as [n ->]. by apply tagless_drop.
Qed.

Lemma preview_bounds text html : slen (preview text html) ≤ PreviewBodyChars ∧ (text = "" → tagless (preview text html) = true).
Proof.
  unfold preview. split.
  - destruct (Nat.ltb_spec PreviewBodyChars (slen (trim_space (if text =s "" then htmlToPreview html else text)))); [|done]. rewrite slen_stake; lia.
  - intros ->. cbn [seqb]. rewrite seqb_refl. destruct (Nat.ltb _ _); [apply tagless_take|]; apply trim_space_tagless, htmlToPreview_tagless.
Qed.


(** ** A conversation *)

(** The methods go-smtp calls, with what each call meets. *)
Inductive call :=
| CPlain (password : string)          (* the PLAIN server's callback *)
| CLogin (responses : list string)
| CMail (f : string)
| CRcpt (to : string)
| CData (mail : option Mail) (io : send_io)
| CReset.

(** A call, with the API key and the access list of that moment. *)
Record event := MkEvent { e_key : string; e_acl : Store; e_call : call }.
Record outcome := MkOutcome { accepted : bool; dispatched : list NotificationEnvelope }.

(** Where go-smtp is: a RCPT needs an accepted MAIL, a DATA needs an accepted RCPT, and a DATA is
    followed by a reset of the session. *)
Inductive phase := Idle | Mailed | Ready | Spent.
#[export] Instance phase_eq_dec : EqDecision phase.
Proof. solve_decision. Defined.
Definition allowed (ph : phase) (c : call) : Prop :=
  match c with
  | CReset => True
  | CRcpt _ => ph = Mailed ∨ ph = Ready
  | CData _ _ => ph = Ready
  | _ => ph ≠ Spent
  end.
Definition advance (ph : phase) (c : call) (ok : bool) : phase :=
  match c with
  | CReset => Idle
  | CData _ _ => Spent
  | CMail _ => if ok then match ph with Idle => Mailed | _ => ph end else ph
  | CRcpt _ => if ok then Ready else ph
  | _ => ph
  end.

Section Talk.
Context `{Unicode} `{Primitives} `{SealedBox} (catch : string) (km : KeyManager) (dev id : string).

Definition accept (r : option refusal) : outcome := MkOutcome (match r with None => true | Some _ => false end) [].

Definition handle (ev : event) (se : session) : session * outcome :=
  match e_call ev with
  | CPlain p => let '(se', ok) := validatePassword (e_key ev) p se in (se', MkOutcome ok [])
  | CLogin rs => let '(se', ok) := login (e_key ev) rs newLoginServer se in (se', MkOutcome ok [])
  | CMail f => let '(se', r) := Mail_ f se in (se', accept r)
  | CRcpt to => let '(se', r) := Rcpt (e_acl ev) catch to se in (se', accept r)
  | CData mail io => let '(out, r) := Data km dev id io mail se in (se, MkOutcome (match r with None => true | _ => false end) out)
  | CReset => (Reset se, MkOutcome true [])
  end.

(** The conversations of a connection from [host]. *)
Inductive talk (host : string) : list (event * outcome) → session → phase → Prop :=
| talk_start : talk host [] (MkSession host false "" None "" false) Idle
| talk_step tr se ph ev se' out : talk host tr se ph → allowed ph (e_call ev) → handle ev se = (se', out) →
    talk host (tr ++ [(ev, out)]) se' (advance ph (e_call ev) (accepted out)).

#[export] Instance allowed_dec ph c : Decision (allowed ph c).
Proof. destruct c; cbn; apply _. Defined.

(** Run the calls, as long as their order is respected. *)
Fixpoint run_talk (evs : list event) (tr : list (event * outcome)) (se : session) (ph : phase) : option (list (event * outcome) * session * phase) :=
  match evs with
  | [] => Some (tr, se, ph)
  | ev :: rest =>
      if decide (allowed ph (e_call ev)) then
        let '(se', out) := handle ev se in run_talk rest (tr ++ [(ev, out)]) se' (advance ph (e_call ev) (accepted out))
      else None
  end.

Lemma run_talk_sound host evs tr se ph tr' se' ph' : talk host tr se ph → run_talk evs tr se ph = Some (tr', se', ph') → talk host tr' se' ph'.
Proof.
  revert tr se ph. induction evs as [|ev rest IH]; intros tr se ph Ht; cbn [run_talk]; [by intros [= <- <- <-]|].
  destruct (decide _); [|done]. destruct (handle ev se) as [s1 out] eqn:Eh. apply IH. by eapply talk_step.
Qed.

(** The call proves knowledge of the key of its moment. *)
Definition authenticates (ev : event) : Prop :=
  e_key ev ≠ "" ∧ (e_call ev = CPlain (e_key ev) ∨ ∃ r u rest, e_call ev = CLogin (r :: u :: e_key ev :: rest)).

(** How a recipient was found: by its own address, or as the catch-all of an unknown one. *)
Definition routed (acl : Store) (to : string) (m : MemberACLEntry) (viaCatch : bool) : Prop :=
  if viaCatch then LookupByEmail to acl = None ∧ catch ≠ "" ∧ LookupByEmail catch acl = Some m else LookupByEmail to acl = Some m.

(** The RCPT of the transaction the trace is in. *)
Definition addressed (tr : list (event * outcome)) (to : string) (m : MemberACLEntry) (viaCatch : bool) : Prop :=
  ∃ pre rc o mid, tr = pre ++ (rc, o) :: mid ∧ Forall (λ x, e_call x.1 ≠ CReset) mid ∧ e_call rc = CRcpt to ∧ routed (e_acl rc) to m viaCatch.

Record talk_inv (tr : list (event * outcome)) (se : session) (ph : phase) : Prop := {
  ti_authed : authed se = true → ∃ x, x ∈ tr ∧ authenticates x.1;
  ti_phase : ph = Mailed ∨ ph = Ready → authed se = true;
  ti_recipient : ∀ m, recipient se = Some m → authed se = true ∧ ∃ to, addressed tr to m (catchAll se) ∧ (catchAll se = true → rcptTo se = to);
  ti_clean : recipient se = None → catchAll se = false
}.

Lemma validatePassword_spec key p se se' ok : validatePassword key p se = (se', ok) →
  (ok = true ∧ key ≠ "" ∧ p = key ∧ se' = set_authed se) ∨ (ok = false ∧ se' = se).
Proof.
  unfold validatePassword. destruct (Nat.eqb_spec (slen key) 0) as [|Hl]; cbn [orb]; [intros [= <- <-]; by right|].
  destruct (key_matches p key) eqn:Em; cbn [negb]; intros [= <- <-]; [left|by right]. apply key_matches_spec in Em. split_and!; [done| |done..]. by intros ->.
Qed.

Lemma login_spec key rs se se' ok : login key rs newLoginServer se = (se', ok) →
  (ok = true ∧ key ≠ "" ∧ (∃ r u rest, rs = r :: u :: key :: rest) ∧ se' = set_authed se) ∨ (ok = false ∧ se' = se).
Proof.
  destruct rs as [|r [|u [|p rest]]]; cbn; try (intros [= <- <-]; by right).
  destruct (validatePassword key p se) as [se1 b] eqn:Ev. cbn. intros [= <- <-]. rewrite negb_involutive.
  apply validatePassword_spec in Ev as [(-> & ? & -> & ->)|[-> ->]]; [left|by right]. split_and!; [done..| |done]. by eauto.
Qed.

Lemma addressed_later tr x to m v : e_call x.1 ≠ CReset → addressed tr to m v → addressed (tr ++ [x]) to m v.
Proof.
  intros Hx (pre & rc & o & mid & -> & Hmid & Hc & Hr). exists pre, rc, o, (mid ++ [x]). rewrite <- app_assoc. split; [done|]. split; [|done].
  apply Forall_app. by repeat constructor.
Qed.

(** A call that keeps the transaction. *)
Lemma talk_inv_keep tr se ph x : talk_inv tr se ph → e_call x.1 ≠ CReset → ∀ se', authed se' = authed se ∨ authenticates x.1 → (authed se = true → authed se' = true) →
  recipient se' = recipient se → catchAll se' = catchAll se → rcptTo se' = rcptTo se →
  ∀ ph', (ph' = Mailed ∨ ph' = Ready → authed se' = true) → talk_inv (tr ++ [x]) se' ph'.
Proof.
  intros [Ha Hp Hr Hcl] Hx se' Hau Hup Erec Eca Ert ph' Hph. split.
  - intros Hse. destruct Hau as [Hau|Hau]; [rewrite Hau in Hse; destruct (Ha Hse) as (y & Hy & ?); exists y; split; [apply elem_of_app; by left|done]|].
    exists x. split; [apply elem_of_app; right; by left|done].
  - done.
  - intros m Hm. rewrite Erec in Hm. destruct (Hr m Hm) as (Hau1 & to & Had & Hto). split; [by apply Hup|]. exists to. rewrite Eca, Ert. split; [by apply addressed_later|done].
  - rewrite Erec, Eca. done.
Qed.

Lemma talk_invariant host tr se ph : talk host tr se ph → talk_inv tr se ph.
Proof.
  induction 1 as [|tr se ph ev se' out Ht IH Hal Hh]; [split; [done|by intros [?|?]|done|done]|]. pose proof IH as [Ha Hp Hr Hcl]. unfold handle in Hh.
  assert (Hsame : ∀ s2 o, e_call ev ≠ CReset → se' = s2 → s2 = se → ∀ ph', (ph' = Mailed ∨ ph' = Ready → authed se = true) → talk_inv (tr ++ [(ev, o)]) se' ph').
  { intros s2 o Hne -> -> ph' Hph. eapply talk_inv_keep; eauto. }
  assert (Hauth : ∀ ok o, e_call ev ≠ CReset → (ok = true ∧ authenticates ev ∧ se' = set_authed se) ∨ (ok = false ∧ se' = se) → talk_inv (tr ++ [(ev, o)]) se' ph).
  { intros ok o Hne [(_ & Hau & ->)|[_ ->]]; [|by eapply Hsame]. eapply talk_inv_keep; eauto. }
  destruct (e_call ev) as [p|rs|f|to|mail io|] eqn:Ec; cbn [advance].
  - destruct (validatePassword (e_key ev) p se) as [s2 ok] eqn:Ev. injection Hh as <- <-. apply (Hauth ok); [done|].
    apply validatePassword_spec in Ev as [(-> & Hk & -> & ->)|[-> ->]]; [left|by right]. split_and!; [done| |done]. split; [done|]. by left.
  - destruct (login (e_key ev) rs newLoginServer se) as [s2 ok] eqn:Ev. injection Hh as <- <-. apply (Hauth ok); [done|].
    apply login_spec in Ev as [(-> & Hk & (r & u & rest & ->) & ->)|[-> ->]]; [left|by right]. split_and!; [done| |done]. split; [done|]. right. by exists r, u, rest.
  - unfold Mail_ in Hh. destruct (authed se) eqn:Eau; cbn [negb] in Hh; injection Hh as <- <-; cbn [accept accepted].
    + eapply talk_inv_keep; [exact IH|cbn; congruence|cbn; by left|done..].
    + by eapply Hsame.
  - assert (Hau : authed se = true) by by apply Hp.
    assert (Hput : ∀ m v rt, recipient se = None → routed (e_acl ev) to m v → (v = true → rt = to) → ∀ o,
      talk_inv (tr ++ [(ev, o)]) (MkSession (remoteIP se) (authed se) (from se) (Some m) rt v) Ready).
    { intros m v rt _ Hrt Hv o. split; cbn.
      - intros Hse. destruct (Ha Hse) as (y & Hy & ?). exists y. split; [apply elem_of_app; by left|done].
      - done.
      - intros m' [= <-]. split; [done|]. exists to. split; [|done]. exists tr, ev, o, []. by repeat constructor.
      - done. }
    unfold Rcpt in Hh. destruct (recipient se) as [m0|] eqn:Erec.
    { injection Hh as <- <-. cbn [accept accepted]. by eapply Hsame. }
    destruct (LookupByEmail to (e_acl ev)) as [m|] eqn:El.
    { injection Hh as <- <-. cbn [accept accepted]. rewrite (Hcl eq_refl). by apply (Hput m false). }
    destruct (catch =s "") eqn:Eca; cbn [negb] in Hh; [injection Hh as <- <-; cbn [accept accepted]; by eapply Hsame|].
    destruct (LookupByEmail catch (e_acl ev)) as [m|] eqn:El2; injection Hh as <- <-; cbn [accept accepted]; [|by eapply Hsame].
    apply (Hput m true); [done| |done]. apply seqb_false in Eca. done.
  - destruct (Data km dev id io mail se) as [o r]. injection Hh as <- <-. eapply Hsame; [done..|]. by intros [?|?].
  - injection Hh as <- <-. split; cbn; [|by intros [?|?]|done|done].
    intros Hse. destruct (Ha Hse) as (y & Hy & ?). exists y. split; [apply elem_of_app; by left|done].
Qed.

(** The call in the middle of a conversation, with the session that met it. *)
Lemma talk_split host pre ev out post se ph : talk host (pre ++ (ev, out) :: post) se ph →
  ∃ se1 ph1 se2, talk host pre se1 ph1 ∧ allowed ph1 (e_call ev) ∧ handle ev se1 = (se2, out).
Proof.
  revert se ph. induction post as [|x post IH] using rev_ind; intros se ph Ht.
  - inversion Ht as [Hn|tr se0 ph0 ev0 se' out0 Ht0 Hal Hh Heq]; [by destruct pre|]. apply app_inj_tail in Heq as [-> [= -> ->]]. by exists se0, ph0, se.
  - inversion Ht as [Hn|tr se0 ph0 ev0 se' out0 Ht0 Hal Hh Heq]; [by destruct pre|].
    rewrite app_comm_cons, app_assoc in Heq. apply app_inj_tail in Heq as [-> _]. by eapply IH.
Qed.

(** C6: what the gateway sends was asked for by somebody who knows the notification key. In any
    conversation that respects SMTP's order of commands, when a DATA sends a notification, an
    earlier AUTH of the same connection gave the API key of its moment, and that key was not
    empty; and the notification goes to the member that the RCPT of the same transaction
    resolved to: the owner of that address, or, for an address nobody has, the configured
    catch-all, in which case the sender line names the address that was asked for. *)
Theorem smtp_sends_authenticated host pre ev out post se ph e : talk host (pre ++ (ev, out) :: post) se ph → e ∈ dispatched out →
  (∃ x, x ∈ pre ∧ authenticates x.1) ∧
  ∃ mail io req to m viaCatch se1, e_call ev = CData mail io ∧ addressed pre to m viaCatch ∧ mail_request mail se1 = Ok req ∧ envelope id io m req = Ok e ∧
    ne_UserID e = m_UserID m ∧ (viaCatch = true → ∃ f, q_EmailFrom req = arrow f to).
Proof.
  intros (se1 & ph1 & se2 & Ht & Hal & Hh)%talk_split He. apply talk_invariant in Ht as [Ha Hp Hr Hcl]. unfold handle in Hh.
  destruct (e_call ev) as [p|rs|f|to|mail io|] eqn:Ec; try (by (repeat case_match; simplify_eq; apply not_elem_of_nil in He)).
  split; [apply Ha, Hp; by right|]. destruct (Data km dev id io mail se1) as [o r] eqn:Ed. injection Hh as <- <-. cbn [dispatched] in He. unfold Data in Ed.
  destruct (recipient se1) as [m|] eqn:Erec; [|injection Ed as <- <-; by apply not_elem_of_nil in He].
  destruct (Hr m eq_refl) as (_ & to & Had & Hto).
  destruct (mail_request mail se1) as [req|] eqn:Em; [|injection Ed as <- <-; by apply not_elem_of_nil in He].
  destruct (SendToMember km dev id io m req) as [o2 res] eqn:Es. assert (o = o2) as -> by (destruct res; congruence).
  apply SendToMember_out in Es as [Ho _]. destruct (Ho e He) as [_ Henv]. destruct (envelope_fields _ _ _ _ _ Henv) as (_ & Hu & _).
  exists mail, io, req, to, m, (catchAll se1), se1. split_and!; [done..|]. intros Hv. rewrite <- (Hto Hv).
  unfold mail_request in Em. rewrite Hv in Em. res_inv. cbn [q_EmailFrom]. by eexists.
Qed.
End Talk.

(** ** Admission *)

Lemma NewServer_fields cert c s : NewServer cert c = Ok s → trusted s = parseCIDRs (TrustedNetworks c) ∧ CatchAll (cfg s) = CatchAll c ∧
  limiter s = newIPLimiter (if (RatePerMinute c =? 0)%Z then 5 else RatePerMinute c).
Proof. unfold NewServer. cbn. repeat case_match; intros [= <-]; done. Qed.

Lemma parseCIDRs_none l : Forall (λ c, ParseCIDR c = None) l → parseCIDRs l = [].
Proof. unfold parseCIDRs. induction 1 as [|c l Hc _ IH]; cbn; [done|]. by rewrite Hc. Qed.

(** C40: the source check fails open. When no entry of trusted_networks parses as a CIDR (one
    mistyped entry such as 192.168.1.0 without a prefix is enough, when it is the only one), the
    gateway drops the entries with a warning and is left with an empty list, which admits every
    source: no connection is ever refused for its address. *)
Theorem allowlist_fails_open cert c s : NewServer cert c = Ok s → Forall (λ x, ParseCIDR x = None) (TrustedNetworks c) →
  ∀ remote now, ipTrusted (remote_host remote) s = true ∧ (NewSession now remote s).2 ≠ Err (SMTPError 554).
Proof.
  intros Hs Hn remote now. apply NewServer_fields in Hs as (Ht & _). rewrite parseCIDRs_none in Ht by done.
  assert (Htr : ipTrusted (remote_host remote) s = true) by (unfold ipTrusted; by rewrite Ht). split; [done|].
  unfold NewSession. rewrite Htr. cbn [negb]. destruct (Allow _ _ _) as [l []]; done.
Qed.

Lemma NewSession_ok now remote s s' se : NewSession now remote s = (s', Ok se) →
  ipTrusted (remote_host remote) s = true ∧ Allow now (remote_host remote) (limiter s) = (limiter s', true) ∧
  se = MkSession (remote_host remote) false "" None "" false ∧ trusted s' = trusted s ∧ cfg s' = cfg s.
Proof.
  unfold NewSession. destruct (ipTrusted _ s) eqn:Et; cbn [negb]; [|done]. destruct (Allow _ _ _) as [l ok] eqn:El.
  intros [= <- Hok]. destruct ok; [|done]. injection Hok as <-. done.
Qed.

(** ** A connection *)

Module SmtpDemo.
#[local] Existing Instance AclStore.Demo.ascii_only.
#[local] Existing Instance Toy.prims.
#[local] Existing Instance NotifyDemo.box.

Definition conf (nets : list string) : Config := MkSmtp "" 0 0 false "" nets "carol@x".
Definition typo : Server := match NewServer true (conf ["192.168.1.0"]) with Ok s => s | Err _ => MkSmtpServer (conf []) (RateLimit.New 5) [] true end.
Example typo_ok : NewServer true (conf ["192.168.1.0"]) = Ok typo.
Proof. vm_compute. reflexivity. Qed.

Lemma allowlist_fails_open_witness : ipTrusted (remote_host "8.8.8.8:4711") typo = true ∧ (NewSession 0 "8.8.8.8:4711" typo).2 ≠ Err (SMTPError 554).
Proof.
  apply (allowlist_fails_open true (conf ["192.168.1.0"]) typo typo_ok). repeat constructor.
Defined.

Definition lan : Server := match NewServer true (conf ["192.168.0.0/16"; "fe80::/10"]) with Ok s => s | Err _ => typo end.
Example admission : map (λ r, ipTrusted (remote_host r) lan) ["192.168.7.9:25"; "8.8.8.8:25"; "[fe80::1]:25"; "[::1]:25"; "nonsense"] = [true; false; true; false; false].
Proof. vm_compute. reflexivity. Qed.

(** One mail to an address nobody has. *)
Definition text_mail (subject body html : string) : Mail :=
  MkMail [] html body [MkPart "<logo@x>" "image/png" "PNG"] (λ h, if h =s "Subject" then subject else if h =s "From" then "cron@nas" else "").
Definition tape : list call :=
  [CLogin [""; "any"; "k64"]; CMail "root@nas"; CRcpt "dave@x"; CData (Some (text_mail " Backup " "" "<p>all <b>done</b></p>")) NotifyDemo.io].
Definition events : list call → list event := map (MkEvent "k64" (NotifyDemo.acl "active")).
Definition start : session := MkSession "192.168.7.9" false "" None "" false.
Definition drive (cs : list call) : option (list (event * outcome) * session * phase) := run_talk "carol@x" Toy.keys "d" "agent" (events cs) [] start Idle.
Definition outcomes (cs : list call) : option (list (bool * nat)) := (λ r, map (λ x, (accepted x.2, length (dispatched x.2))) r.1.1) <$> drive cs.

Example sent_one : outcomes tape = Some [(true, 0); (true, 0); (true, 0); (true, 1)].
Proof. vm_compute. reflexivity. Qed.
Example unauthenticated : outcomes [CMail "root@nas"; CLogin [""; "any"; ""]; CPlain "K64"; CMail "root@nas"] = Some [(false, 0); (false, 0); (false, 0); (false, 0)].
Proof. vm_compute. reflexivity. Qed.
Example out_of_order : outcomes [CPlain "k64"; CRcpt "carol@x"] = None.
Proof. vm_compute. reflexivity. Qed.
Example empty_and_second : outcomes [CPlain "k64"; CMail "a"; CRcpt "carol@x"; CRcpt "o@x"; CData (Some (text_mail "" "" "")) NotifyDemo.io; CReset; CMail "a"; CRcpt "o@x"] =
  Some [(true, 0); (true, 0); (true, 0); (false, 0); (false, 0); (true, 0); (true, 0); (true, 0)].
Proof. vm_compute. reflexivity. Qed.

Definition talked : list (event * outcome) * session * phase := default ([], start, Idle) (drive tape).
Definition at_data : event * outcome := default (MkEvent "" NewStore CReset, MkOutcome false []) (last talked.1.1).
Definition the_mail : NotificationEnvelope := default (MkNotification "" "" "" None None "") (head (dispatched at_data.2)).

Lemma talked_is_talk : talk "carol@x" Toy.keys "d" "agent" "192.168.7.9" (take 3 talked.1.1 ++ (at_data.1, at_data.2) :: []) talked.1.2 talked.2.
Proof.
  apply (run_talk_sound "carol@x" Toy.keys "d" "agent" "192.168.7.9" (events tape) [] start Idle); [constructor|vm_compute; reflexivity].
Qed.

Lemma smtp_sends_authenticated_witness : (∃ x, x ∈ take 3 talked.1.1 ∧ authenticates x.1) ∧ ne_UserID the_mail = "u2".
Proof.
  split; [|vm_compute; reflexivity].
  exact (proj1 (smtp_sends_authenticated "carol@x" Toy.keys "d" "agent" "192.168.7.9" (take 3 talked.1.1) at_data.1 at_data.2 [] talked.1.2 talked.2 the_mail
    talked_is_talk ltac:(vm_compute; left))).
Defined.

Definition html_mail : Mail := text_mail "" "" "<p>all <b>done</b></p>".
Definition html_request : NotifyRequest := match mail_request (Some html_mail) start with Ok r => r | Err _ => zero_request end.

(** The pieces of inline.go. *)
Example inlined : inlineCIDs (sample "<IMG SRC='cid:logo@x'><img src='cid:other'>") (Inlines (text_mail "" "" "")) =
  sample "<IMG src='data:image/png;base64,UE5H'><img src='cid:other'>".
Proof. vm_compute. reflexivity. Qed.
Example excerpt : htmlToPreview "<p>all <b>done</b></p> a <> b> < c" = "all done a <> b> < c" ∧ htmlToPreview "x<" = "x<".
Proof. vm_compute. done. Qed.
End SmtpDemo.
