(* ===== verification/Config.v ===== *)
(** * internal/config: the effective configuration, and the files under the data directory

    The YAML decoder (gopkg.in/yaml.v3) is a parameter that decodes a document into a
    configuration; the environment and what each path reads are arguments. ParseLevel of
    internal/logging is here because Load ends with it, the SMTP part of agent.Run because it is
    where the configuration, the overlay plan and the gateway meet. *)

From S2P Require Import Prelude Encoding Json CanonJson NetAddr Overlay AclStore Endpoints Files Smtp.

(** ** Data *)

Record WireGuardConfig := MkWireGuard {
  ListenPort : Z;
  FirewallEnabled : option bool;
  UPnPEnabled : bool;
  PCPEnabled : bool;
  IPv6PinholeEnabled : option bool
}.
Record ProxyConfig := MkProxyConfig {
  ProxyEnabled : option bool;
  HTTPPort : Z;
  HTTPSPort : Z;
  AuthPort : Z;
  ProxyTrustedNetworks : list string;
  TrustedProxies : list string
}.
Record CertsConfig := MkCerts { CertsEmail : string; CertDir : string }.
Record NotifyConfig := MkNotifyConfig { NotifyPort : Z }.
Record SMTPConfig := MkSMTPConfig {
  SMTPEnabled : bool;
  SMTPListen : string;
  SMTPMaxMessageBytes : Z;
  SMTPRatePerMinute : Z;
  SMTPTLSEnabled : bool;
  SMTPTrustedNetworks : list string;
  SMTPCatchAll : string
}.
Record RelayConfig := MkRelayConfig { RelayEnabled : option bool; RelayForce : bool }.

Record Config := MkConfig {
  AtreoLinkAPIURL : string;
  AtreoLinkAppURL : string;
  LogLevel : string;
  DeviceID : string;
  AppsHostname : string;
  TunnelHost : string;
  DataDir : string;
  EndpointIP : string;
  EndpointPort : Z;
  WireGuard : WireGuardConfig;
  Proxy : ProxyConfig;
  Certs : CertsConfig;
  Notify : NotifyConfig;
  SMTP : SMTPConfig;
  Relay : RelayConfig
}.

Definition DefaultConfig : Config :=
  MkConfig "https://api.atreolink.com" "https://app.atreolink.com" "info" "" "" "" "/var/lib/atreoagent" "" 0
    (MkWireGuard 51820 (Some true) true true (Some true)) (MkProxyConfig (Some true) 80 443 9091 [] [])
    (MkCerts "" "/var/lib/atreoagent/certs") (MkNotifyConfig 0) (MkSMTPConfig false "" 0 0 false [] "") (MkRelayConfig (Some true) false).

Definition lanDefault : list string :=
  ["127.0.0.0/8"; "::1/128"; "10.0.0.0/8"; "172.16.0.0/12"; "192.168.0.0/16"; "169.254.0.0/16"; "fe80::/10"; "fc00::/7"; LegacySubnetV4].

Definition or_text (s d : string) : string := if s =s "" then d else s.
Definition or_int (n d : Z) : Z := if (n =? 0)%Z then d else n.
Definition or_flag (o : option bool) : option bool := match o with None => Some true | _ => o end.

Definition applyDefaults (c : Config) : Config :=
  let w := WireGuard c in let p := Proxy c in let s := SMTP c in
  MkConfig (or_text (AtreoLinkAPIURL c) "https://api.atreolink.com") (or_text (AtreoLinkAppURL c) "https://app.atreolink.com")
    (or_text (LogLevel c) "info") (DeviceID c) (AppsHostname c) (TunnelHost c) (or_text (DataDir c) "/var/lib/atreoagent") (EndpointIP c) (EndpointPort c)
    (MkWireGuard (or_int (ListenPort w) 51820) (or_flag (FirewallEnabled w)) (UPnPEnabled w) (PCPEnabled w) (or_flag (IPv6PinholeEnabled w)))
    (MkProxyConfig (or_flag (ProxyEnabled p)) (or_int (HTTPPort p) 80) (or_int (HTTPSPort p) 443) (or_int (AuthPort p) 9091)
       (ProxyTrustedNetworks p) (TrustedProxies p))
    (Certs c) (MkNotifyConfig (or_int (NotifyPort (Notify c)) 9876))
    (MkSMTPConfig (SMTPEnabled s) (or_text (SMTPListen s) "0.0.0.0:2525") (or_int (SMTPMaxMessageBytes s) (2 ^ 20)) (or_int (SMTPRatePerMinute s) 50)
       (SMTPTLSEnabled s) (match SMTPTrustedNetworks s with [] => lanDefault | l => l end) (SMTPCatchAll s))
    (MkRelayConfig (or_flag (RelayEnabled (Relay c))) (RelayForce (Relay c))).

(** ** The environment *)

(** strconv.Atoi and ParseInt(s, 10, 64) *)
Definition atoi (s : string) : option Z :=
  let digits d := if d =s "" then None else Num.digits_val 0 d in
  let signed := match s with
                | String c r => if ceqb c "-" then Z.opp <$> digits r else if ceqb c "+" then digits r else digits s
                | "" => None
                end in
  v ← signed; if ((- 2 ^ 63 <=? v) && (v <? 2 ^ 63))%Z then Some v else None.

Definition env_flag (v : string) : option bool :=
  if (v =s "false") || (v =s "0") then Some false else if (v =s "true") || (v =s "1") then Some true else None.

(** The entries of a comma-separated list, blanks trimmed, empty ones dropped. *)
Definition env_list (v : string) : list string := List.filter (λ c, c <>s "") (map trim_space (split_on "," v)).

Section Env.
Context (env : string → string).

Definition text_of (name old : string) : string := if env name <>s "" then env name else old.
Definition int_of (name : string) (old : Z) : Z := default old (atoi (env name)).
Definition flag_of (name : string) (old : bool) : bool := default old (env_flag (env name)).
Definition opt_flag_of (name : string) (old : option bool) : option bool := match env_flag (env name) with Some b => Some b | None => old end.
Definition list_of (name : string) (old : list string) : list string := if env name <>s "" then env_list (env name) else old.

Definition applyEnvOverrides (c : Config) : Config :=
  let w := WireGuard c in let p := Proxy c in let s := SMTP c in
  MkConfig (text_of "ATREOLINK_API_URL" (AtreoLinkAPIURL c)) (text_of "ATREOLINK_APP_URL" (AtreoLinkAppURL c))
    (text_of "LOG_LEVEL" (LogLevel c)) (DeviceID c) (AppsHostname c) (TunnelHost c) (text_of "DATA_DIR" (DataDir c))
    (text_of "ENDPOINT_IP" (EndpointIP c)) (int_of "ENDPOINT_PORT" (EndpointPort c))
    (MkWireGuard (int_of "WG_PORT" (ListenPort w)) (opt_flag_of "WG_FIREWALL_ENABLED" (FirewallEnabled w)) (flag_of "WG_UPNP_ENABLED" (UPnPEnabled w))
       (flag_of "WG_PCP_ENABLED" (PCPEnabled w)) (opt_flag_of "WG_IPV6_PINHOLE_ENABLED" (IPv6PinholeEnabled w)))
    (MkProxyConfig (opt_flag_of "PROXY_ENABLED" (ProxyEnabled p)) (int_of "PROXY_HTTP_PORT" (HTTPPort p)) (int_of "PROXY_HTTPS_PORT" (HTTPSPort p))
       (int_of "PROXY_AUTH_PORT" (AuthPort p)) (ProxyTrustedNetworks p) (list_of "PROXY_TRUSTED_PROXIES" (TrustedProxies p)))
    (Certs c) (MkNotifyConfig (int_of "NOTIFY_PORT" (NotifyPort (Notify c))))
    (MkSMTPConfig (flag_of "SMTP_ENABLED" (SMTPEnabled s)) (text_of "SMTP_LISTEN" (SMTPListen s)) (int_of "SMTP_MAX_MESSAGE_BYTES" (SMTPMaxMessageBytes s))
       (int_of "SMTP_RATE_PER_MINUTE" (SMTPRatePerMinute s)) (flag_of "SMTP_TLS_ENABLED" (SMTPTLSEnabled s))
       (list_of "SMTP_TRUSTED_NETWORKS" (SMTPTrustedNetworks s)) (text_of "SMTP_CATCH_ALL" (SMTPCatchAll s)))
    (MkRelayConfig (opt_flag_of "RELAY_ENABLED" (RelayEnabled (Relay c))) (flag_of "RELAY_FORCE" (RelayForce (Relay c)))).
End Env.

(** ** Paths *)

Definition ConfigPath (c : Config) : string := Join (DataDir c) "config.yaml".
Definition PairingPath (c : Config) : string := Join (DataDir c) "pairing.json".
Definition KeysDir (c : Config) : string := Join (DataDir c) "keys".
Definition ACLPath (c : Config) : string := Join (DataDir c) "acl.json".
Definition IPAllocPath (c : Config) : string := Join (DataDir c) "ip_alloc.json".
Definition OverlayPath (c : Config) : string := Join (DataDir c) "overlay.json".
Definition CertsDir (c : Config) : string := Join (DataDir c) "certs".
Definition CustomDomainPath (c : Config) : string := Join (DataDir c) "custom_domain.json".
Definition PortMappingAlertPath (c : Config) : string := Join (DataDir c) "port_mapping_alert.cooldown".
Definition PinholePath (c : Config) : string := Join (DataDir c) "pcp_nonces.json".
Definition TransportRelayWarnPath (c : Config) : string := Join (DataDir c) "transport_relay_warned.marker".

(** ** The pairing identity *)

Inductive config_error := ErrReadConfig | ErrYAML | ErrReadPairing | ErrParsePairing | ErrLogLevel.

(** pairingState *)
Definition pairing_members (c : Config) : list (string * string) :=
  [("device_id", DeviceID c); ("apps_hostname", AppsHostname c); ("tunnel_host", TunnelHost c)].
Definition pairing_text (c : Config) : string := indent_flat (pairing_members c).

Definition SavePairing (mkdir : bool) (io : write_io) (c : Config) (f : fs) : fs * bool :=
  if negb mkdir then (f, false) else WriteFile io (PairingPath c) (pairing_text c) f.

Definition set_identity (c : Config) (dev apps host : string) : Config :=
  MkConfig (AtreoLinkAPIURL c) (AtreoLinkAppURL c) (LogLevel c) dev apps host (DataDir c) (EndpointIP c) (EndpointPort c)
    (WireGuard c) (Proxy c) (Certs c) (Notify c) (SMTP c) (Relay c).

Definition dec_pairing : string * string * string → json → option (string * string * string) := dec_struct (λ o kvs,
  d ← assign dec_string o.1.1 "device_id" kvs; a ← assign dec_string o.1.2 "apps_hostname" kvs; h ← assign dec_string o.2 "tunnel_host" kvs;
  Some (d, a, h)).

Definition loadPairing (file : read_file) (c : Config) : result config_error Config :=
  match file with
  | FileMissing => Ok c
  | FileUnreadable => Err ErrReadPairing
  | FileBytes data =>
      match unmarshal data ≫= dec_pairing ("", "", "") with
      | None => Err ErrParsePairing
      | Some (d, a, h) => Ok (set_identity c (or_text d (DeviceID c)) (or_text a (AppsHostname c)) (or_text h (TunnelHost c)))
      end
  end.

(** logging.ParseLevel: the slog level. *)
Definition ParseLevel `{Unicode} (s : string) : option Z :=
  let l := to_lower (trim_space s) in
  if (l =s "") || (l =s "info") then Some 0%Z else if l =s "debug" then Some (-4)%Z
  else if (l =s "warn") || (l =s "warning") then Some 4%Z else if l =s "error" then Some 8%Z else None.

Definition Load `{Unicode} (yaml : string → Config → option Config) (env : string → string) (read : string → read_file) (path : string)
    : result config_error Config :=
  let cfg := DefaultConfig in
  let path := if path =s "" then ConfigPath cfg else path in
  let! cfg := match read path with
              | FileUnreadable => Err ErrReadConfig
              | FileMissing => Ok cfg
              | FileBytes data => of_option ErrYAML (yaml data cfg)
              end in
  let cfg := applyEnvOverrides env (applyDefaults cfg) in
  let! cfg := loadPairing (read (PairingPath cfg)) cfg in
  let! _ := of_option ErrLogLevel (ParseLevel (LogLevel cfg)) in
  Ok cfg.

(** ** What Load returns *)

(** A port is never zero, unless its variable says so. *)
Definition port_set (env : string → string) (name : string) (p : Z) : Prop := p ≠ 0%Z ∨ atoi (env name) = Some p.

Record effective (env : string → string) (c : Config) : Prop := {
  ef_flags : is_Some (FirewallEnabled (WireGuard c)) ∧ is_Some (IPv6PinholeEnabled (WireGuard c)) ∧ is_Some (ProxyEnabled (Proxy c)) ∧ is_Some (RelayEnabled (Relay c));
  ef_texts : AtreoLinkAPIURL c ≠ "" ∧ AtreoLinkAppURL c ≠ "" ∧ LogLevel c ≠ "" ∧ DataDir c ≠ "" ∧ SMTPListen (SMTP c) ≠ "";
  ef_ports : port_set env "WG_PORT" (ListenPort (WireGuard c)) ∧ port_set env "PROXY_HTTP_PORT" (HTTPPort (Proxy c)) ∧
    port_set env "PROXY_HTTPS_PORT" (HTTPSPort (Proxy c)) ∧ port_set env "PROXY_AUTH_PORT" (AuthPort (Proxy c)) ∧ port_set env "NOTIFY_PORT" (NotifyPort (Notify c));
  ef_trusted : SMTPTrustedNetworks (SMTP c) ≠ [] ∨ env "SMTP_TRUSTED_NETWORKS" ≠ ""
}.

Lemma or_int_ne n d : d ≠ 0%Z → or_int n d ≠ 0%Z.
Proof. unfold or_int. by destruct (Z.eqb_spec n 0). Qed.
Lemma or_text_ne s d : d ≠ "" → or_text s d ≠ "".
Proof. unfold or_text. destruct (s =s "") eqn:E; [done|]. by apply seqb_false in E. Qed.
Lemma text_of_ne env name old : old ≠ "" → text_of env name old ≠ "".
Proof. unfold text_of. destruct (env name =s "") eqn:E; [done|]. by apply seqb_false in E. Qed.
Lemma int_of_set env name old : old ≠ 0%Z → port_set env name (int_of env name old).
Proof. unfold port_set, int_of. destruct (atoi (env name)); cbn; auto. Qed.
Lemma opt_flag_set env name old : is_Some (opt_flag_of env name (or_flag old)).
Proof. unfold opt_flag_of, or_flag. destruct (env_flag _); [done|]. by destruct old. Qed.

Lemma defaults_effective env c : effective env (applyEnvOverrides env (applyDefaults c)).
Proof.
  split; cbn.
  - split_and!; apply opt_flag_set.
  - split_and!; apply text_of_ne, or_text_ne; done.
  - split_and!; apply int_of_set, or_int_ne; done.
  - unfold list_of. destruct (env _ =s "") eqn:E; cbn; [left; by destruct (SMTPTrustedNetworks (SMTP c))|right; by apply seqb_false in E].
Qed.

Lemma loadPairing_same file c c' : loadPairing file c = Ok c' → ∃ d a h, c' = set_identity c d a h.
Proof. unfold loadPairing. destruct file; [intros [= <-]; exists (DeviceID c), (AppsHostname c), (TunnelHost c); by destruct c|done|]. destruct (_ ≫= _) as [[[d a] h]|]; [|done]. intros [= <-]. by do 3 eexists. Qed.


(** ** The state files do not meet *)

Definition state_names : list string :=
  ["config.yaml"; "pairing.json"; "keys"; "acl.json"; "ip_alloc.json"; "overlay.json"; "certs"; "custom_domain.json"; "port_mapping_alert.cooldown";
   "pcp_nonces.json"; "transport_relay_warned.marker"].
Definition state_paths (c : Config) : list string :=
  [ConfigPath c; PairingPath c; KeysDir c; ACLPath c; IPAllocPath c; OverlayPath c; CertsDir c; CustomDomainPath c; PortMappingAlertPath c; PinholePath c;
   TransportRelayWarnPath c].

(** A write to one of the agent's files, whenever the process dies in it, leaves the file with
    its old content or the whole new one, and every other file of the data directory as it was:
    the paths are eleven different files for every data directory, and the temporary file of a
    write is none of them. *)
Theorem state_files_independent c p data f f' : p ∈ state_paths c → crashed p data f f' →
  NoDup (state_paths c) ∧ (f' !! p = f !! p ∨ f' !! p = Some data) ∧ ∀ q, q ∈ state_paths c → q ≠ p → f' !! q = f !! q.
Proof.
  intros Hp Hc. assert (Hpl : ∀ n, n ∈ state_names → plain n = true ∧ plain (n +:+ ".tmp") = true).
  { intros n Hn. apply (Forall_forall (λ n, plain n = true ∧ plain (n +:+ ".tmp") = true) state_names); [|done]. repeat constructor. }
  assert (Hpaths : state_paths c = Join (DataDir c) <$> state_names) by done.
  apply crashed_atomic in Hc as [Hat Hoth]. split; [|split; [done|]].
  - rewrite Hpaths. apply NoDup_fmap_2_strong; [|by apply (bool_decide_unpack _); vm_compute].
    intros a b Ha Hb. apply Join_inj; by apply Hpl.
  - intros q Hq Hne. apply Hoth; [done|]. rewrite Hpaths in Hp, Hq. apply list_elem_of_fmap in Hp as (n & -> & Hn), Hq as (m & -> & Hm).
    destruct (Hpl n Hn) as [Hn1 Hn2]. destruct (Hpl m Hm) as [Hm1 _]. unfold tmp_of. intros E.
    destruct (Join_last (DataDir c) n Hn1) as (pre & Hall & En). rewrite En, sapp_assoc, <- (Hall _ Hn2) in E.
    apply Join_inj in E; [|done..]. subst m. clear -Hn Hm. revert Hm. apply (Forall_forall (λ n, n +:+ ".tmp" ∉ state_names) state_names); [|done].
    repeat constructor; apply (bool_decide_unpack _); by vm_compute.
Qed.

(** ** The identity survives *)

Definition identity (c : Config) : string * string * string := (DeviceID c, AppsHostname c, TunnelHost c).
Definition utf8_identity (c : Config) : Prop := Forall (λ s, Utf8.valid s = true) [DeviceID c; AppsHostname c; TunnelHost c].

Lemma pairing_reads c c0 : utf8_identity c → loadPairing (FileBytes (pairing_text c)) c0 =
  Ok (set_identity c0 (or_text (DeviceID c) (DeviceID c0)) (or_text (AppsHostname c) (AppsHostname c0)) (or_text (TunnelHost c) (TunnelHost c0))).
Proof.
  intros Hu. unfold utf8_identity in Hu. rewrite !Forall_cons in Hu. destruct Hu as (V1 & V2 & V3 & _).
  unfold loadPairing, pairing_text. rewrite unmarshal_indent by (repeat constructor; done).
  assert (Hd : dec_pairing ("", "", "") (JObj (map (λ p, (p.1, JStr p.2)) (pairing_members c))) = Some (DeviceID c, AppsHostname c, TunnelHost c)).
  { unfold dec_pairing, dec_struct, pairing_members. cbn [map fst snd]. by run_assign. }
  cbn [mbind option_bind]. by rewrite Hd.
Qed.

(** The pairing identity is never lost to a crash. When SavePairing is interrupted at any
    point, the next start finds in pairing.json either exactly what it found before or the
    identity that was being saved, and never a broken file; when SavePairing succeeds it is the
    latter: a later Load, under any YAML document and environment with the same data directory,
    returns the saved device id, host name and tunnel host (each that is not empty). *)
Theorem identity_survives c f f' : utf8_identity c → crashed (PairingPath c) (pairing_text c) f f' → ∀ c0, DataDir c0 = DataDir c →
  let saved := Ok (set_identity c0 (or_text (DeviceID c) (DeviceID c0)) (or_text (AppsHostname c) (AppsHostname c0)) (or_text (TunnelHost c) (TunnelHost c0))) in
  (loadPairing (ReadFile (PairingPath c0) f') c0 = loadPairing (ReadFile (PairingPath c0) f) c0 ∨ loadPairing (ReadFile (PairingPath c0) f') c0 = saved) ∧
  (∀ mkdir io, SavePairing mkdir io c f = (f', true) → loadPairing (ReadFile (PairingPath c0) f') c0 = saved).
Proof.
  intros Hu Hc c0 Hd saved. assert (Hpath : PairingPath c0 = PairingPath c) by (unfold PairingPath; by rewrite Hd). rewrite Hpath.
  assert (Hnew : f' !! PairingPath c = Some (pairing_text c) → loadPairing (ReadFile (PairingPath c) f') c0 = saved).
  { intros E. unfold ReadFile. rewrite E. by apply pairing_reads. }
  split.
  - apply crashed_atomic in Hc as [[E|E] _]; [left|right; by apply Hnew]. unfold ReadFile. by rewrite E.
  - intros mkdir io. unfold SavePairing. destruct mkdir; cbn [negb]; [|done]. intros Hw%WriteFile_result. by apply Hnew.
Qed.

(** ** Who may use the mail gateway by default *)

(** agent.Run, the SMTP part. *)
Definition smtp_config (c : Config) (ov : Overlay) : Smtp.Config :=
  MkSmtp (SMTPListen (SMTP c)) (SMTPMaxMessageBytes (SMTP c)) (SMTPRatePerMinute (SMTP c)) (SMTPTLSEnabled (SMTP c)) (DataDir c)
    (ExpandLegacy (SMTPTrustedNetworks (SMTP c)) (SubnetV4 ov)) (SMTPCatchAll (SMTP c)).

Lemma hex_run_bound n acc s v k r : n ≤ 4 → (acc < 16 ^ N.of_nat n)%N → hex_run n acc s = Some (v, k, r) → (v < 65536)%N.
Proof.
  revert n acc. induction s as [|c s IH]; intros n acc Hn Ha; cbn [hex_run].
  { intros [= <- _ _]. eapply N.lt_le_trans; [exact Ha|]. change 65536%N with (16 ^ 4)%N. apply N.pow_le_mono_r; lia. }
  destruct (hex_digit c) as [d|] eqn:Ed; [|intros [= <- _ _]; eapply N.lt_le_trans; [exact Ha|]; change 65536%N with (16 ^ 4)%N; apply N.pow_le_mono_r; lia].
  case_bool_decide; [done|]. apply IH; [lia|]. rewrite Nat2N.inj_succ, N.pow_succ_r'. assert (d < 16)%N; [|lia].
  unfold hex_digit in Ed. pose proof (bN_lt c). repeat case_match; simplify_eq; lia.
Qed.

Lemma parse_groups_bytes f acc e s bs e' r : bytes_ok acc → parse_groups f acc e s = Some (bs, e', r) → bytes_ok bs.
Proof.
  revert acc e s. induction f as [|f IH]; intros acc e s Ha; cbn [parse_groups]; [by intros [= <- _ _]|].
  intros ([[v n] t] & Hh & Hp)%bind_Some. apply hex_run_bound in Hh; [|lia|done]. case_bool_decide; [done|].
  assert (Ha2 : bytes_ok (acc ++ two_bytes v)).
  { apply Forall_app. split; [done|]. unfold two_bytes. repeat constructor; [apply N.Div0.div_lt_upper_bound; lia|by apply N.mod_lt]. }
  destruct t as [|c t]; [by injection Hp as <- <- <-|].
  destruct (ceqb c "."); [|destruct (negb (ceqb c ":")); [done|]].
  - case_bool_decide; [done|]. case_bool_decide; [done|]. apply bind_Some in Hp as (b & Hb & [= <- <- <-]).
    apply parse_ipv4_bytes in Hb as (w & x & y & z & -> & ? & ? & ? & ?). apply Forall_app. by repeat constructor.
  - destruct t as [|c2 t]; [done|]. destruct (ceqb c2 ":"); [|by eapply IH].
    destruct e; [done|]. destruct (t =s ""); [by injection Hp as <- <- <-|by eapply IH].
Qed.

Lemma ParseIP_bytes s ip : ParseIP s = Some ip → bytes_ok ip ∧ length ip = 16.
Proof.
  unfold ParseIP, parse_addr. intros (a & Ha & ->)%fmap_Some. apply bind_Some in Ha as (c & _ & Ha). destruct (ceqb c ".").
  - apply fmap_Some in Ha as (b & Hb & ->). apply parse_ipv4_bytes in Hb as (w & x & y & z & -> & ? & ? & ? & ?). split; [|done]. by repeat constructor.
  - destruct (ceqb c ":"); [|done]. destruct (contains_byte "%" s); [done|]. apply fmap_Some in Ha as (b & Hb & ->). cbn [as16].
    split; [|by eapply parse_ipv6_length]. revert Hb. unfold parse_ipv6. destruct (_ && _); [intros [= <-]; by repeat constructor|].
    intros ([[bs e] r] & Hg & Hp)%bind_Some. apply parse_groups_bytes in Hg; [|constructor]. destruct (r <>s ""); [done|]. case_bool_decide.
    + apply bind_Some in Hp as (i & _ & [= <-]). apply Forall_app. split; [by apply Forall_take|]. apply Forall_app. split; [by apply Forall_replicate|by apply Forall_drop].
    + destruct e; [done|]. by injection Hp as <-.
Qed.

Definition lan_nets : list IPNet := Eval vm_compute in parseCIDRs lanDefault.

Lemma lan_parsed : parseCIDRs lanDefault = lan_nets.
Proof. vm_compute. reflexivity. Qed.

(** An entry that is not a legacy one changes nothing. *)
Lemma expand_other d gw st l : Forall (λ c, c ≠ LegacySubnetV4 ∧ c ≠ LegacyGatewayV4 +:+ "/32") l → foldl (expand_entry d gw) st l = st.
Proof.
  induction 1 as [|c l [H1 H2] _ IH]; [done|]. cbn [foldl]. assert (expand_entry d gw st c = st) as ->; [|done]. unfold expand_entry. destruct st as [have add].
  by rewrite (proj2 (seqb_false _ _) H1), (proj2 (seqb_false _ _) H2).
Qed.

Definition lan_front : list string := ["127.0.0.0/8"; "::1/128"; "10.0.0.0/8"; "172.16.0.0/12"; "192.168.0.0/16"; "169.254.0.0/16"; "fe80::/10"; "fc00::/7"].

Lemma expand_default d g : gatewayOf d = Some g → ExpandLegacy lanDefault d = lanDefault ++ (if bool_decide (d ∈ lanDefault) then [] else [d]).
Proof.
  intros Hg. unfold ExpandLegacy. rewrite Hg. change lanDefault with (lan_front ++ [LegacySubnetV4]). rewrite foldl_app, (expand_other _ _ _ lan_front).
  2:{ apply (bool_decide_unpack _). by vm_compute. }
  f_equal. cbn [foldl]. unfold expand_entry. rewrite seqb_refl.
  rewrite (bool_decide_ext (d ∈ (list_to_set (lan_front ++ [LegacySubnetV4]) : gset string)) (d ∈ lan_front ++ [LegacySubnetV4])) by apply elem_of_list_to_set.
  by destruct (bool_decide _).
Qed.

(** The sources the default list is about. *)
Definition lan_source (ip : IP) : Prop :=
  match To4 ip with
  | Some [a; b; c; d] => (a = 127 ∨ a = 10 ∨ a = 172 ∧ 16 <= b <= 31 ∨ a = 192 ∧ b = 168 ∨ a = 169 ∧ b = 254 ∨ a = 100 ∧ b = 64 ∧ c = 0)%N
  | Some _ => False
  | None => ip = replicate 15 0%N ++ [1%N] ∨ (NetIP.byte 0 ip = 0xfe ∧ 0x80 <= NetIP.byte 1 ip <= 0xbf)%N ∨ (NetIP.byte 0 ip = 0xfc ∨ NetIP.byte 0 ip = 0xfd)%N
  end.

Lemma Contains_iff n ip nn ones : network n = (nn, ones) →
  Contains n ip = true ↔ length (default ip (To4 ip)) = length nn ∧ mask_bytes ones nn = mask_bytes ones (default ip (To4 ip)).
Proof. intros Hn. unfold Contains. rewrite Hn. apply bool_decide_eq_true. Qed.

(** Unfold every membership in a network that is known. *)
Ltac contains_all := repeat match goal with |- context [Contains ?n ?ip = true] =>
  let r := eval vm_compute in (network n) in match r with (?nn, ?ones) => rewrite (Contains_iff n ip nn ones eq_refl) end end.

(** An octet under the mask of a prefix that ends in it. *)
Lemma octet_240 n : (n < 256)%N → (16 = N.land n 240 ↔ 16 <= n <= 31)%N.
Proof. intros Hn. pose proof (land_byte 240 16 31 16 ltac:(by vm_compute) n Hn) as E. destruct (N.eqb_spec (N.land n 240) 16); symmetry in E; [apply andb_prop in E|apply andb_false_iff in E]; lia. Qed.
Lemma octet_192 n : (n < 256)%N → (128 = N.land n 192 ↔ 128 <= n <= 191)%N.
Proof. intros Hn. pose proof (land_byte 192 128 191 128 ltac:(by vm_compute) n Hn) as E. destruct (N.eqb_spec (N.land n 192) 128); symmetry in E; [apply andb_prop in E|apply andb_false_iff in E]; lia. Qed.
Lemma octet_254 n : (n < 256)%N → (252 = N.land n 254 ↔ 252 <= n <= 253)%N.
Proof. intros Hn. pose proof (land_byte 254 252 253 252 ltac:(by vm_compute) n Hn) as E. destruct (N.eqb_spec (N.land n 254) 252); symmetry in E; [apply andb_prop in E|apply andb_false_iff in E]; lia. Qed.

Lemma lan_nets_v4 ip a b c d : bytes_ok ip → To4 ip = Some [a; b; c; d] → existsb (λ n, Contains n ip) lan_nets = true ↔ lan_source ip.
Proof.
  intros Hb E4. destruct (To4_bytes ip _ Hb E4) as [Hb4 _]. unfold bytes_ok in Hb4. rewrite !Forall_cons in Hb4. destruct Hb4 as (Ha & Hb1 & Hc & Hd & _).
  unfold lan_source. rewrite E4. unfold lan_nets. cbn [existsb]. rewrite !orb_true_iff.
  contains_all. rewrite E4. cbn [default from_option id length].
  change (mask_bytes 8 [127; 0; 0; 0]%N) with [127; 0; 0; 0]%N. change (mask_bytes 8 [10; 0; 0; 0]%N) with [10; 0; 0; 0]%N.
  change (mask_bytes 12 [172; 16; 0; 0]%N) with [172; 16; 0; 0]%N. change (mask_bytes 16 [192; 168; 0; 0]%N) with [192; 168; 0; 0]%N.
  change (mask_bytes 16 [169; 254; 0; 0]%N) with [169; 254; 0; 0]%N. change (mask_bytes 24 [100; 64; 0; 0]%N) with [100; 64; 0; 0]%N.
  change (mask_bytes 8 [a; b; c; d]) with [N.land a 255; N.land b 0; N.land c 0; N.land d 0]. change (mask_bytes 12 [a; b; c; d]) with [N.land a 255; N.land b 240; N.land c 0; N.land d 0].
  change (mask_bytes 16 [a; b; c; d]) with [N.land a 255; N.land b 255; N.land c 0; N.land d 0]. change (mask_bytes 24 [a; b; c; d]) with [N.land a 255; N.land b 255; N.land c 255; N.land d 0].
  rewrite !N.land_0_r, !land_255 by done. pose proof (octet_240 b Hb1). split.
  - intros Hor. destruct_or?; try done; try (destruct Hor as [Hl Hor]; try discriminate Hl; injection Hor); intros; lia.
  - intros Hor. destruct Hor as [->|[->|[[-> Hr]|[[-> ->]|[[-> ->]|[-> [-> ->]]]]]]]; try tauto. assert (N.land b 240 = 16)%N as -> by (symmetry; by apply octet_240). tauto.
Qed.

Lemma lan_nets_v6 ip : bytes_ok ip → length ip = 16 → To4 ip = None → existsb (λ n, Contains n ip) lan_nets = true ↔ lan_source ip.
Proof.
  intros Hb Hl E4. unfold lan_source. rewrite E4. unfold lan_nets. cbn [existsb]. rewrite !orb_true_iff. contains_all. rewrite E4. cbn [default from_option id]. rewrite Hl.
  do 16 (destruct ip as [|? ip]; [discriminate Hl|]). destruct ip; [|discriminate Hl]. clear Hl E4. unfold bytes_ok in Hb. rewrite !Forall_cons in Hb.
  repeat match type of Hb with _ ∧ _ => destruct Hb as [? Hb] end.
  repeat match goal with |- context [mask_bytes ?k ?l] => let r := eval cbv -[N.land] in (mask_bytes k l) in change (mask_bytes k l) with r end.
  repeat match goal with |- context [N.land ?x ?y] => assert_fails (is_var x); let r := eval vm_compute in (N.land x y) in change (N.land x y) with r end.
  rewrite !N.land_0_r, !land_255 by done.
  cbn [length NetIP.byte nth replicate app]. unfold NetIP.byte. cbn [nth].
  pose proof (octet_192 _ H0). pose proof (octet_254 _ H). split.
  - intros Hor. repeat match type of Hor with _ ∨ _ => destruct Hor as [Hor|Hor] end; try done; destruct Hor as [Hx Hor]; try discriminate Hx; injection Hor; intros; subst; try (left; reflexivity); right; lia.
  - intros [Heq|[[-> Hr]|Hr]].
    + injection Heq as -> -> -> -> -> -> -> -> -> -> -> -> -> -> -> ->. tauto.
    + assert (N.land n0 192 = 128)%N as -> by (symmetry; by apply octet_192). tauto.
    + assert (N.land n 254 = 252)%N as -> by (symmetry; apply octet_254; [done|lia]). tauto.
Qed.

Lemma lan_nets_exact ip : bytes_ok ip → length ip = 16 → existsb (λ n, Contains n ip) lan_nets = true ↔ lan_source ip.
Proof.
  intros Hb Hl. destruct (To4 ip) as [v4|] eqn:E4; [|by apply lan_nets_v6]. destruct (To4_bytes ip v4 Hb E4) as [_ Hl4].
  destruct v4 as [|a [|b [|c [|d []]]]]; try done. by eapply lan_nets_v4.
Qed.

(** The mail gateway of a configuration that does not name trusted networks is for the local
    network only: with the overlay plan of the install, it admits a source exactly when the
    address is loopback, private (RFC 1918), link-local, unique-local, in the overlay subnet
    older installs used, or in the overlay subnet of this install; in particular no other public
    address, and nothing that is not an IP address. *)
Theorem smtp_default_lan_only env c0 ov cert s g a n : SMTPTrustedNetworks (SMTP c0) = [] → env "SMTP_TRUSTED_NETWORKS" = "" →
  gatewayOf (SubnetV4 ov) = Some g → ParseCIDR (SubnetV4 ov) = Some (a, n) →
  Smtp.NewServer cert (smtp_config (applyEnvOverrides env (applyDefaults c0)) ov) = Ok s →
  ∀ host, ipTrusted host s = true ↔ ∃ ip, ParseIP host = Some ip ∧ (lan_source ip ∨ Contains n ip = true).
Proof.
  intros Hn He Hg Hp (Ht & _)%NewServer_fields host. cbn [smtp_config TrustedNetworks applyEnvOverrides SMTP applyDefaults SMTPTrustedNetworks] in Ht.
  unfold list_of in Ht. rewrite He, Hn in Ht. cbn [negb] in Ht. change ("" <>s "") with false in Ht. cbv iota in Ht. rewrite (expand_default _ g Hg) in Ht.
  assert (Hpa : ∀ x y, parseCIDRs (x ++ y) = parseCIDRs x ++ parseCIDRs y) by (intros; apply omap_app).
  rewrite Hpa, lan_parsed in Ht.
  assert (Hex : ∀ ip, existsb (λ n, Contains n ip) (trusted s) = existsb (λ n, Contains n ip) lan_nets || Contains n ip).
  { intros ip. rewrite Ht, existsb_app. case_bool_decide as Hin.
    - change (parseCIDRs []) with (@nil IPNet). change (existsb (λ n, Contains n ip) []) with false. destruct (Contains n ip) eqn:Ec; [|done]. rewrite orb_false_r, orb_true_r. apply existsb_exists. exists n. split; [|done].
      rewrite <- lan_parsed. apply list_elem_of_In. unfold parseCIDRs. apply list_elem_of_omap. exists (SubnetV4 ov). by rewrite Hp.
    - f_equal. unfold parseCIDRs. cbn [omap list_omap]. rewrite Hp. cbn [fmap option_fmap option_map snd existsb]. by rewrite orb_false_r. }
  unfold ipTrusted. assert (∃ x l, trusted s = x :: l) as (x & l & Hx) by (rewrite Ht; unfold lan_nets; by do 2 eexists). rewrite Hx, <- Hx.
  destruct (ParseIP host) as [ip|] eqn:Ei; [|naive_solver]. rewrite Hex, orb_true_iff. destruct (ParseIP_bytes host ip Ei) as [Hb Hl]. rewrite lan_nets_exact by done. naive_solver.
Qed.

(** ** Examples *)

Module ConfigDemo.
#[local] Existing Instance AclStore.Demo.ascii_only.

Definition no_yaml (_ : string) (c : Config) : option Config := Some c.
Definition unset (_ : string) : string := "".
Definition only (k v x : string) : string := if x =s k then v else "".
Definition disk : fs := {["/var/lib/atreoagent/pairing.json" := pairing_text (set_identity DefaultConfig "d1" "apps.example" "t.example")]}.
Definition loaded (env : string → string) : result config_error Config := Load no_yaml env (λ p, ReadFile p disk) "".
Definition cfg1 : Config := match loaded unset with Ok c => c | Err _ => DefaultConfig end.


Example identity_loaded : identity cfg1 = ("d1", "apps.example", "t.example").
Proof. vm_compute. reflexivity. Qed.
Example bad_level : loaded (only "LOG_LEVEL" "loud") = Err ErrLogLevel ∧ is_ok (loaded (only "LOG_LEVEL" " WARN ")) = true.
Proof. vm_compute. done. Qed.
Example overrides : (λ c, (ListenPort (WireGuard c), FirewallEnabled (WireGuard c))) <$> [applyEnvOverrides (only "WG_PORT" "5000") cfg1;
  applyEnvOverrides (only "WG_PORT" "5000x") cfg1; applyEnvOverrides (only "WG_FIREWALL_ENABLED" "0") cfg1; applyEnvOverrides (only "WG_PORT" "-1") cfg1] =
  [(5000%Z, Some true); (51820%Z, Some true); (51820%Z, Some false); (-1, Some true)%Z].
Proof. vm_compute. reflexivity. Qed.
(** A list that holds only blanks and commas empties the SMTP allowlist. *)
Example blank_list : SMTPTrustedNetworks (SMTP (applyEnvOverrides (only "SMTP_TRUSTED_NETWORKS" " , ") cfg1)) = [].
Proof. vm_compute. reflexivity. Qed.
(** DATA_DIR moves the pairing file, not the place config.yaml is looked for. *)
Example data_dir : PairingPath (applyEnvOverrides (only "DATA_DIR" "/data/") cfg1) = "/data/pairing.json" ∧
  is_ok (Load (λ _ _, None) (only "DATA_DIR" "/data") (λ p, if p =s "/data/config.yaml" then FileBytes "x" else FileMissing) "") = true.
Proof. vm_compute. done. Qed.

Lemma state_files_independent_witness : NoDup (state_paths cfg1) ∧ ∀ q, q ∈ state_paths cfg1 → q ≠ ACLPath cfg1 → (<[tmp_of (ACLPath cfg1) := "{"]> disk) !! q = disk !! q.
Proof.
  destruct (state_files_independent cfg1 (ACLPath cfg1) "{}" disk (<[tmp_of (ACLPath cfg1) := "{"]> disk)) as (Hn & _ & Hq);
    [unfold state_paths; do 3 right; left|apply (crash_writing (ACLPath cfg1) "{}" disk 1)|exact (conj Hn Hq)].
Defined.

Definition repaired : Config := set_identity cfg1 "d2" "apps.example" "".
Lemma identity_survives_witness : loadPairing (ReadFile (PairingPath cfg1) (<[PairingPath repaired := pairing_text repaired]> (delete (tmp_of (PairingPath repaired)) (<[tmp_of (PairingPath repaired) := pairing_text repaired]> disk)))) cfg1 =
  Ok (set_identity cfg1 "d2" "apps.example" "t.example").
Proof.
  refine (proj2 (identity_survives repaired disk _ _ (crash_after (PairingPath repaired) (pairing_text repaired) disk (MkWrite true None true)) cfg1 eq_refl) true (MkWrite true None true) eq_refl).
  repeat constructor.
Defined.

Definition ov : Overlay := MkOverlay "100.64.9.0/24" "100.64.9.1" "fd00:64:9::/64" "fd00:64:9::1" 0.
Definition gw : Smtp.Server := match Smtp.NewServer true (smtp_config (applyEnvOverrides unset (applyDefaults DefaultConfig)) ov) with Ok s => s | Err _ => SmtpDemo.typo end.
Lemma gw_eq : Smtp.NewServer true (smtp_config (applyEnvOverrides unset (applyDefaults DefaultConfig)) ov) = Ok gw.
Proof. vm_compute. reflexivity. Qed.
Lemma smtp_default_lan_only_witness : ipTrusted "100.64.9.77" gw = true ∧ (ipTrusted "100.64.10.1" gw = true ↔ ∃ ip, ParseIP "100.64.10.1" = Some ip ∧ (lan_source ip ∨ Contains (MkIPNet [100; 64; 9; 0]%N 24 32) ip = true)).
Proof.
  split; [vm_compute; reflexivity|].
  refine (smtp_default_lan_only unset DefaultConfig ov true gw "100.64.9.1" _ (MkIPNet [100; 64; 9; 0]%N 24 32) eq_refl eq_refl _ _ gw_eq "100.64.10.1"); vm_compute; reflexivity.
Defined.
End ConfigDemo.
