(* ===== verification/Keys.v ===== *)
(** * Keys: the key files of the agent

    NewKeyManager of internal/crypto/keys.go (the Ed25519 identity) and loadOrGenerateKeys,
    GenerateKeyPair and TruncateKey of internal/wireguard/server.go (the WireGuard key), over the
    file system of Files.v. Random bytes and the outcomes of the system calls are arguments; the
    two public-key derivations are parameters ([KeyGen]). A start that is killed leaves any
    prefix of its writes behind ([key_start], [wg_start]). *)

From S2P Require Import Prelude Encoding Bytes AclStore Crypto Files.

(** crypto/ed25519 and golang.org/x/crypto/curve25519: the public key of a seed, and the product
    of a scalar with the base point, an error for a scalar that does not have 32 bytes. *)
Class KeyGen (P : Primitives) := {
  ed25519_derive : string → string;
  x25519_base : string → option string
}.

(** A public key has 32 bytes, signatures made with the private key of a seed verify under the
    public key of that seed, and every scalar of 32 bytes has a product. *)
Class KeyGenLaw (P : Primitives) (K : KeyGen P) : Prop := {
  derive_size : ∀ s, slen (ed25519_derive s) = 32;
  derive_public : ∀ s, slen s = 32 → ed25519_public (s +:+ ed25519_derive s) = ed25519_derive s;
  x25519_total : ∀ s, slen s = 32 → is_Some (x25519_base s)
}.

Inductive keyfile_error :=
| KMkdir | KRead | KRandom | KWritePrivate | KWritePublic | KDecode | KDerive
| KPanic.  (* a slice expression out of range *)

(** os.WriteFile: truncates the file and writes; cut short after some bytes when it fails. *)
Definition WritePlain (open : bool) (short : option nat) (path data : string) (f : fs) : fs * bool :=
  if negb open then (f, false)
  else match short with
       | Some n => (<[path := stake n data]> f, false)
       | None => (<[path := data]> f, true)
       end.

(** The directory can be made, the private key file can be read if it exists, the random bytes,
    the two writes. *)
Record key_io := MkKeyIo {
  k_dir : bool;
  k_readable : bool;
  k_random : option string;
  k_private : write_io;
  k_open : bool;
  k_short : option nat
}.

Definition read_private (io : key_io) (path : string) (f : fs) : read_file :=
  if k_readable io then ReadFile path f else FileUnreadable.

Section Keys.
Context `{K : KeyGen}.

(** PrivateKey.Public: copy(publicKey, priv[32:]) into 32 bytes. *)
Definition Public (priv : string) : option string :=
  if slen priv <? 32 then None else let p := stake 32 (sdrop 32 priv) in Some (p +:+ zeros (32 - slen p)).

(** The keys and the two files of a fresh key pair. *)
Definition write_pair (io : key_io) (privPath pubPath priv pub : string) (f : fs) : fs * result keyfile_error unit :=
  let '(f1, ok) := WriteFile (k_private io) privPath (Base64.encode priv) f in
  if negb ok then (f1, Err KWritePrivate)
  else let '(f2, ok) := WritePlain (k_open io) (k_short io) pubPath (Base64.encode pub) f1 in
       (f2, guard_err ok KWritePublic).

Definition NewKeyManager (io : key_io) (keysDir : string) (f : fs) : fs * result keyfile_error KeyManager :=
  if negb (k_dir io) then (f, Err KMkdir)
  else
    let privPath := Join keysDir "ed25519.key" in
    let pubPath := Join keysDir "ed25519.pub" in
    match read_private io privPath f with
    | FileUnreadable => (f, Err KRead)
    | FileMissing =>
        match k_random io with
        | None => (f, Err KRandom)
        | Some seed =>
            let pub := ed25519_derive seed in
            let priv := seed +:+ pub in
            let '(f', r) := write_pair io privPath pubPath priv pub f in
            (f', let! _ := r in Ok (MkKeys priv pub))
        end
    | FileBytes data =>
        (f, let! priv := of_option KDecode (Base64.decode data) in
            let! pub := of_option KPanic (Public priv) in
            Ok (MkKeys priv pub))
    end.

(** ** The WireGuard key *)

Fixpoint on_byte (n : nat) (g : N → N) (s : string) : string :=
  match s, n with
  | "", _ => ""
  | String c r, O => String (Nb (g (bN c))) r
  | String c r, S n' => String c (on_byte n' g r)
  end.

(** priv[0] &= 248; priv[31] &= 127; priv[31] |= 64 *)
Definition clamp (s : string) : string :=
  on_byte 31 (λ b, N.lor b 64) (on_byte 31 (λ b, N.land b 127) (on_byte 0 (λ b, N.land b 248) s)).

Record wg_keys := MkWgKeys { wk_private : string; wk_public : string }.

(** s.keysDir exists: NewKeyManager made it. *)
Definition loadOrGenerateKeys (io : key_io) (keysDir : string) (f : fs) : fs * result keyfile_error wg_keys :=
  let privPath := Join keysDir "wg_private.key" in
  let pubPath := Join keysDir "wg_public.key" in
  match read_private io privPath f with
  | FileUnreadable => (f, Err KRead)
  | FileMissing =>
      match k_random io with
      | None => (f, Err KRandom)
      | Some b =>
          let priv := clamp b in
          match x25519_base priv with
          | None => (f, Err KDerive)
          | Some pub =>
              let '(f', r) := write_pair io privPath pubPath priv pub f in
              (f', let! _ := r in Ok (MkWgKeys priv pub))
          end
      end
  | FileBytes data =>
      (f, let! priv := of_option KDecode (Base64.decode (trim_space data)) in
          let! pub := of_option KDerive (x25519_base priv) in
          Ok (MkWgKeys priv pub))
  end.

Definition GenerateKeyPair (random : option string) : result keyfile_error (string * string) :=
  let! b := of_option KRandom random in
  let priv := clamp b in
  let! pub := of_option KDerive (x25519_base priv) in
  Ok (Base64.encode priv, Base64.encode pub).
End Keys.

Definition TruncateKey (key : string) : string := if 16 <? slen key then stake 16 key +:+ "..." else key.

(** ** White space *)

(** Printable ASCII, no blank. *)
Definition visible (c : ascii) : bool := ((33 <=? bN c) && (bN c <? 128))%N.

Lemma space_width_visible s : forallb visible (String.list_ascii_of_string s) = true → space_width s = 0.
Proof.
  unfold space_width. destruct (String.list_ascii_of_string s) as [|c r]; [done|]. cbn [forallb]. intros [Hc _]%andb_prop. unfold visible in Hc.
  replace ((9 <=? bN c) && (bN c <=? 13) || (bN c =? 32))%N with false by lia. replace (bN c =? 0xC2)%N with false by lia.
  replace (bN c =? 0xE1)%N with false by lia. replace (bN c =? 0xE2)%N with false by lia. by replace (bN c =? 0xE3)%N with false by lia.
Qed.

Lemma visible_sdrop n s : forallb visible (String.list_ascii_of_string s) = true → forallb visible (String.list_ascii_of_string (sdrop n s)) = true.
Proof. revert s. induction n as [|n IH]; intros [|c s]; cbn; try done. intros [_ Hs]%andb_prop. by apply IH. Qed.

Lemma trim_space_visible s : forallb visible (String.list_ascii_of_string s) = true → trim_space s = s.
Proof.
  intros Hs. unfold trim_space. assert (trim_left_fuel (slen s) s = s) as -> by (destruct (slen s); cbn; [done|]; by rewrite space_width_visible).
  destruct (slen s) eqn:E; cbn; [done|]. unfold space_width_r. rewrite !space_width_visible by (by apply visible_sdrop).
  by rewrite !bool_decide_eq_false_2 by lia.
Qed.

Lemma base64_visible s : forallb visible (String.list_ascii_of_string (Base64.encode s)) = true.
Proof.
  assert (Hs : ∀ n, (n < 64)%N → visible (Base64.sym n) = true) by (apply Base64.sym_all; by vm_compute).
  induction s using Base64.string_ind3; cbn -[N.div N.modulo N.mul]; rewrite ?Hs by Base64.b64_arith; done.
Qed.

(** ** A pair of files *)

(** The disk when the process dies while it writes a key pair. *)
Inductive pair_killed (privPath pubPath priv pub : string) (f : fs) : fs → Prop :=
| killed_private f' : crashed privPath (Base64.encode priv) f f' → pair_killed privPath pubPath priv pub f f'
| killed_public io f1 n : WriteFile io privPath (Base64.encode priv) f = (f1, true) →
    pair_killed privPath pubPath priv pub f (<[pubPath := stake n (Base64.encode pub)]> f1).

Lemma stake_all n s : slen s ≤ n → stake n s = s.
Proof. revert s. induction n as [|n IH]; intros [|c s]; cbn; intros; [done|lia|done|]. rewrite IH; [done|lia]. Qed.

(** The outcomes of a write that runs to its end are among them. *)
Lemma write_pair_killed io a b priv pub f : pair_killed a b priv pub f (write_pair io a b priv pub f).1.
Proof.
  unfold write_pair. destruct (WriteFile (k_private io) a _ f) as [f1 ok] eqn:E.
  assert (Hc : crashed a (Base64.encode priv) f f1) by (change f1 with (f1, ok).1; rewrite <- E; constructor).
  destruct ok; cbn [negb]; [|by constructor]. unfold WritePlain. destruct (k_open io); cbn [negb]; [|by constructor].
  destruct (k_short io) as [n|]; cbn; [by eapply killed_public|].
  rewrite <- (stake_all (slen (Base64.encode pub)) (Base64.encode pub)) by done. by eapply killed_public.
Qed.

Lemma pair_killed_files a b priv pub f f' : a ≠ b → pair_killed a b priv pub f f' →
  (f' !! a = f !! a ∨ f' !! a = Some (Base64.encode priv)) ∧ ∀ p, p ≠ a → p ≠ tmp_of a → p ≠ b → f' !! p = f !! p.
Proof.
  intros Hab [f1 Hc|io f1 n Hw].
  - apply crashed_atomic in Hc as [Ha Hp]. split; [done|auto].
  - assert (Hc : crashed a (Base64.encode priv) f f1) by (change f1 with (f1, true).1; rewrite <- Hw; constructor).
    apply crashed_atomic in Hc as [_ Hp]. apply WriteFile_result in Hw. split; [right; by rewrite lookup_insert_ne|].
    intros p ? ? ?. rewrite lookup_insert_ne by done. auto.
Qed.

Lemma write_pair_ok io a b priv pub f f' : a ≠ b → write_pair io a b priv pub f = (f', Ok tt) → f' !! a = Some (Base64.encode priv).
Proof.
  intros Hab. unfold write_pair. destruct (WriteFile _ a _ f) as [f1 ok] eqn:E. destruct ok; [|done]. apply WriteFile_result in E.
  cbn [negb]. unfold WritePlain. destruct (k_open io); [|done]. destruct (k_short io); [done|]. cbn. intros [= <-]. by rewrite lookup_insert_ne.
Qed.

(** Two of the key files are different. *)
Ltac join_ne := rewrite ?tmp_Join by done; apply Join_names_ne; [reflexivity|reflexivity|discriminate].

(** ** Starts *)

Section Starts.
Context `{K : KeyGen} `{!KeyGenLaw P K}.
Variable dir : string.
Notation idPriv := (Join dir "ed25519.key").
Notation idPub := (Join dir "ed25519.pub").
Notation wgPriv := (Join dir "wg_private.key").
Notation wgPub := (Join dir "wg_public.key").

(** rand.Reader fills the 32 bytes or fails. *)
Definition random_ok (io : key_io) : Prop := ∀ b, k_random io = Some b → slen b = 32.
(** The directory and the file are accessible. *)
Definition accessible (io : key_io) : Prop := k_dir io = true ∧ k_readable io = true.
(** And everything a first start does succeeds. *)
Definition works (io : key_io) : Prop :=
  accessible io ∧ (∃ b, k_random io = Some b ∧ slen b = 32) ∧ k_private io = MkWrite true None true ∧ k_open io = true ∧ k_short io = None.

(** What one start does to the key files: it loads or makes one of the two keys, to the end, or
    it is killed while it writes a new one. *)
Inductive key_start (f : fs) : fs → Prop :=
| id_done io : random_ok io → key_start f (NewKeyManager io dir f).1
| wg_done io : random_ok io → key_start f (loadOrGenerateKeys io dir f).1
| id_killed seed f' : f !! idPriv = None → slen seed = 32 →
    pair_killed idPriv idPub (seed +:+ ed25519_derive seed) (ed25519_derive seed) f f' → key_start f f'
| wg_killed b pub f' : f !! wgPriv = None → slen b = 32 → x25519_base (clamp b) = Some pub →
    pair_killed wgPriv wgPub (clamp b) pub f f' → key_start f f'.

Lemma slen_on_byte n g s : slen (on_byte n g s) = slen s.
Proof. revert n. induction s as [|c s IH]; intros [|n]; cbn; try done. by rewrite IH. Qed.
Lemma slen_clamp s : slen (clamp s) = slen s.
Proof. unfold clamp. by rewrite !slen_on_byte. Qed.

Lemma Public_seed seed : slen seed = 32 → Public (seed +:+ ed25519_derive seed) = Some (ed25519_derive seed).
Proof.
  intros Hs. pose proof (derive_size seed) as Hd. unfold Public. rewrite slen_app, Hs, Hd. cbn [Nat.ltb Nat.leb Nat.add].
  assert (sdrop 32 (seed +:+ ed25519_derive seed) = ed25519_derive seed) as -> by (rewrite <- Hs; apply sdrop_app).
  rewrite stake_all by lia. by rewrite Hd, sapp_nil_r.
Qed.

(** The file of a key that NewKeyManager makes, and that of a WireGuard key. *)
Definition id_file (data : string) : Prop := ∃ seed, slen seed = 32 ∧ data = Base64.encode (seed +:+ ed25519_derive seed).
Definition wg_file (data : string) : Prop := ∃ b, slen b = 32 ∧ data = Base64.encode (clamp b).

(** A start keeps a private key that is there, and makes only complete ones. *)
Lemma key_start_files f f' : key_start f f' →
  (f' !! idPriv = f !! idPriv ∨ f !! idPriv = None ∧ ∃ d, f' !! idPriv = Some d ∧ id_file d) ∧
  (f' !! wgPriv = f !! wgPriv ∨ f !! wgPriv = None ∧ ∃ d, f' !! wgPriv = Some d ∧ wg_file d).
Proof.
  assert (Hid : ∀ seed f', f !! idPriv = None → slen seed = 32 → pair_killed idPriv idPub (seed +:+ ed25519_derive seed) (ed25519_derive seed) f f' →
    (f' !! idPriv = f !! idPriv ∨ f !! idPriv = None ∧ ∃ d, f' !! idPriv = Some d ∧ id_file d) ∧ f' !! wgPriv = f !! wgPriv).
  { intros seed g Hn Hs Hk. apply pair_killed_files in Hk as [Ha Hp]; [|join_ne]. split; [|apply Hp; join_ne].
    destruct Ha as [Ha|Ha]; [by left|right]. split; [done|]. eexists. split; [exact Ha|by exists seed]. }
  assert (Hwg : ∀ b pub f', f !! wgPriv = None → slen b = 32 → pair_killed wgPriv wgPub (clamp b) pub f f' →
    f' !! idPriv = f !! idPriv ∧ (f' !! wgPriv = f !! wgPriv ∨ f !! wgPriv = None ∧ ∃ d, f' !! wgPriv = Some d ∧ wg_file d)).
  { intros b pub g Hn Hs Hk. apply pair_killed_files in Hk as [Ha Hp]; [|join_ne]. split; [apply Hp; join_ne|].
    destruct Ha as [Ha|Ha]; [by left|right]. split; [done|]. eexists. split; [exact Ha|by exists b]. }
  intros [io Hr|io Hr|seed g ? ? ?|b pub g ? ? ? ?].
  - unfold NewKeyManager. destruct (k_dir io); cbn [negb fst]; [|by split; left]. unfold read_private, ReadFile. destruct (k_readable io); [|by split; left].
    destruct (f !! idPriv) eqn:E; [by split; left|]. destruct (k_random io) as [seed|] eqn:Er; [|by split; left].
    destruct (write_pair _ _ _ _ _ _) as [f1 r] eqn:Ew. cbn [fst]. destruct (Hid seed f1) as [H1 H2]; [done|by apply Hr| |split; [exact H1|by left]].
    change f1 with (f1, r).1. rewrite <- Ew. apply write_pair_killed.
  - unfold loadOrGenerateKeys. unfold read_private, ReadFile. destruct (k_readable io); [|by split; left].
    destruct (f !! wgPriv) eqn:E; [by split; left|]. destruct (k_random io) as [b|] eqn:Er; [|by split; left].
    destruct (x25519_base (clamp b)) as [pub|]; [|by split; left].
    destruct (write_pair _ _ _ _ _ _) as [f1 r] eqn:Ew. cbn [fst]. destruct (Hwg b pub f1) as [H1 H2]; [done|by apply Hr| |split; [by left|exact H2]].
    change f1 with (f1, r).1. rewrite <- Ew. apply write_pair_killed.
  - destruct (Hid seed g) as [? ?]; [done..|]. split; [done|by left].
  - destruct (Hwg b pub g) as [? ?]; [done..|]. split; [by left|done].
Qed.

Lemma starts_keep f f' : rtc key_start f f' → (is_Some (f !! idPriv) → f' !! idPriv = f !! idPriv) ∧ (is_Some (f !! wgPriv) → f' !! wgPriv = f !! wgPriv).
Proof.
  induction 1 as [|f g f' Hs _ [IH1 IH2]]; [done|]. apply key_start_files in Hs as [Hi Hw]. split; intros [d Hd].
  - destruct Hi as [E|[E _]]; [|congruence]. rewrite IH1; rewrite E; [done|by eexists].
  - destruct Hw as [E|[E _]]; [|congruence]. rewrite IH2; rewrite E; [done|by eexists].
Qed.

Lemma starts_fresh f f' : rtc key_start f f' →
  (f !! idPriv = None → ∀ d, f' !! idPriv = Some d → id_file d) ∧ (f !! wgPriv = None → ∀ d, f' !! wgPriv = Some d → wg_file d).
Proof.
  intros Hs. induction Hs as [f|f g f' Hs Hr [IH1 IH2]]; [split; intros; congruence|]. destruct (starts_keep _ _ Hr) as [K1 K2].
  apply key_start_files in Hs as [Hi Hw]. split; intros Hn d Hd.
  - destruct Hi as [E|(_ & d' & E & Hf)]; [apply IH1; [congruence|done]|]. rewrite K1 in Hd by (rewrite E; by eexists). congruence.
  - destruct Hw as [E|(_ & d' & E & Hf)]; [apply IH2; [congruence|done]|]. rewrite K2 in Hd by (rewrite E; by eexists). congruence.
Qed.

(** What a start finds in the file of a key made by the agent. *)
Lemma id_file_reads io seed f : accessible io → slen seed = 32 → f !! idPriv = Some (Base64.encode (seed +:+ ed25519_derive seed)) →
  NewKeyManager io dir f = (f, Ok (MkKeys (seed +:+ ed25519_derive seed) (ed25519_derive seed))).
Proof.
  intros [Hd Hr] Hs E. unfold NewKeyManager, read_private, ReadFile. rewrite Hd, Hr, E. cbn [negb]. rewrite Base64.decode_encode. cbn. by rewrite Public_seed.
Qed.
Lemma wg_file_reads io b pub f : k_readable io = true → x25519_base (clamp b) = Some pub → f !! wgPriv = Some (Base64.encode (clamp b)) →
  loadOrGenerateKeys io dir f = (f, Ok (MkWgKeys (clamp b) pub)).
Proof.
  intros Hr Hx E. unfold loadOrGenerateKeys, read_private, ReadFile. rewrite Hr, E, trim_space_visible, Base64.decode_encode by apply base64_visible. cbn [of_option res_bind]. by rewrite Hx.
Qed.

(** A start that succeeds has read the file, which decides the key, or has written it. *)
Lemma NewKeyManager_ok io f f' km : random_ok io → NewKeyManager io dir f = (f', Ok km) →
  (f' = f ∧ ∃ d, f' !! idPriv = Some d ∧ ∀ io' g, accessible io' → g !! idPriv = Some d → NewKeyManager io' dir g = (g, Ok km)) ∨
  ∃ seed, slen seed = 32 ∧ f' !! idPriv = Some (Base64.encode (seed +:+ ed25519_derive seed)) ∧ km = MkKeys (seed +:+ ed25519_derive seed) (ed25519_derive seed).
Proof.
  intros Hr. unfold NewKeyManager at 1. destruct (k_dir io); [|done]. cbn [negb]. unfold read_private, ReadFile. destruct (k_readable io); [|done].
  destruct (f !! idPriv) as [d|] eqn:E.
  - intros [= <- Hk]. left. split; [done|]. exists d. split; [done|]. intros io' g [Hd' Hr'] Hg. unfold NewKeyManager, read_private, ReadFile. by rewrite Hd', Hr', Hg, Hk.
  - destruct (k_random io) as [seed|] eqn:Es; [|done]. destruct (write_pair _ _ _ _ _ _) as [f1 r] eqn:Ew. destruct r as [[]|]; [|done]. intros [= <- <-].
    apply write_pair_ok in Ew; [|join_ne]. right. exists seed. split_and!; [by apply Hr|done|done].
Qed.
Lemma loadOrGenerateKeys_ok io f f' wk : loadOrGenerateKeys io dir f = (f', Ok wk) →
  (f' = f ∧ ∃ d, f' !! wgPriv = Some d ∧ ∀ io' g, k_readable io' = true → g !! wgPriv = Some d → loadOrGenerateKeys io' dir g = (g, Ok wk)) ∨
  ∃ b pub, x25519_base (clamp b) = Some pub ∧ f' !! wgPriv = Some (Base64.encode (clamp b)) ∧ wk = MkWgKeys (clamp b) pub.
Proof.
  unfold loadOrGenerateKeys at 1. unfold read_private, ReadFile. destruct (k_readable io); [|done]. destruct (f !! wgPriv) as [d|] eqn:E.
  - intros [= <- Hk]. left. split; [done|]. exists d. split; [done|]. intros io' g Hr' Hg. unfold loadOrGenerateKeys, read_private, ReadFile. by rewrite Hr', Hg, Hk.
  - destruct (k_random io) as [b|] eqn:Es; [|done]. destruct (x25519_base (clamp b)) as [pub|] eqn:Ex; [|done].
    destruct (write_pair _ _ _ _ _ _) as [f1 r] eqn:Ew. destruct r as [[]|]; [|done]. intros [= <- <-].
    apply write_pair_ok in Ew; [|join_ne]. right. by exists b, pub.
Qed.

(** After a start that succeeds the file decides what every later start has. *)
Lemma id_settled io f f' km : random_ok io → NewKeyManager io dir f = (f', Ok km) → ∃ d, f' !! idPriv = Some d ∧
  ∀ io' g, accessible io' → g !! idPriv = Some d → NewKeyManager io' dir g = (g, Ok km).
Proof.
  intros Hr E. apply NewKeyManager_ok in E as [(_ & d & ?)|(seed & Hsz & Ed & ->)]; [|eexists; split; [exact Ed|]; intros; by apply id_file_reads|done]. by exists d.
Qed.
Lemma wg_settled io f f' wk : loadOrGenerateKeys io dir f = (f', Ok wk) → ∃ d, f' !! wgPriv = Some d ∧
  ∀ io' g, accessible io' → g !! wgPriv = Some d → loadOrGenerateKeys io' dir g = (g, Ok wk).
Proof.
  intros E. apply loadOrGenerateKeys_ok in E as [(_ & d & Ed & Hd)|(b & pub & Hx & Ed & ->)].
  - exists d. split; [done|]. intros io' g [_ ?]. by apply Hd.
  - eexists. split; [exact Ed|]. intros io' g [_ ?] ?. by apply wg_file_reads.
Qed.

Lemma write_pair_works io a b priv pub f : works io → ∃ f', write_pair io a b priv pub f = (f', Ok tt).
Proof. intros (_ & _ & Hp & Ho & Hs). unfold write_pair. rewrite Hp. cbn. unfold WritePlain. rewrite Ho, Hs. by eexists. Qed.

Lemma NewKeyManager_works io f : works io → (∀ d, f !! idPriv = Some d → id_file d) → ∃ f' km, NewKeyManager io dir f = (f', Ok km) ∧
  publicKey km = ed25519_public (privateKey km) ∧ slen (privateKey km) = privateKeySize ∧ f' !! wgPriv = f !! wgPriv.
Proof.
  intros Hw Hf. pose proof Hw as (Ha & (seed & Hseed & Hlen) & _). pose proof Ha as [Hd Hr].
  assert (Hkey : ∀ s, slen s = 32 → ed25519_derive s = ed25519_public (s +:+ ed25519_derive s) ∧ slen (s +:+ ed25519_derive s) = privateKeySize).
  { intros s Hs. split; [by rewrite derive_public|]. by rewrite slen_app, Hs, derive_size. }
  destruct (f !! idPriv) as [d|] eqn:E.
  - destruct (Hf d eq_refl) as (s & Hs & ->). eexists f, _. split; [by apply id_file_reads|]. destruct (Hkey s Hs). by split_and!.
  - unfold NewKeyManager, read_private, ReadFile. rewrite Hd, Hr, E, Hseed. cbn [negb].
    destruct (write_pair_works io idPriv idPub (seed +:+ ed25519_derive seed) (ed25519_derive seed) f Hw) as [f' E']. rewrite E'.
    eexists f', _. split; [done|]. destruct (Hkey seed Hlen). split_and!; [done..|].
    assert (Hk : pair_killed idPriv idPub (seed +:+ ed25519_derive seed) (ed25519_derive seed) f f').
    { change f' with (f', Ok tt : result keyfile_error unit).1. rewrite <- E'. apply write_pair_killed. }
    apply pair_killed_files in Hk as [_ Hk]; [|join_ne]. apply Hk; join_ne.
Qed.
Lemma loadOrGenerateKeys_works io f : works io → (∀ d, f !! wgPriv = Some d → wg_file d) → ∃ f' wk, loadOrGenerateKeys io dir f = (f', Ok wk) ∧
  x25519_base (wk_private wk) = Some (wk_public wk).
Proof.
  intros Hw Hf. pose proof Hw as ([_ Hr] & (b & Hb & Hlen) & _).
  assert (Hx : ∀ b, slen b = 32 → is_Some (x25519_base (clamp b))) by (intros; apply x25519_total; by rewrite slen_clamp).
  destruct (f !! wgPriv) as [d|] eqn:E.
  - destruct (Hf d eq_refl) as (s & Hs & ->). destruct (Hx s Hs) as [pub Hpub]. eexists f, _. split; [by apply wg_file_reads|done].
  - unfold loadOrGenerateKeys, read_private, ReadFile. rewrite Hr, E, Hb. destruct (Hx b Hlen) as [pub Hpub]. rewrite Hpub.
    destruct (write_pair_works io wgPriv wgPub (clamp b) pub f Hw) as [f' E']. rewrite E'. by eexists f', _.
Qed.

(** The agent's keys outlive its process. A key that a start loaded or made is the key of every
    later start that can read its file, bytes and all, however many starts there were in between,
    whatever they drew and wherever they failed or were killed. And on a new installation no
    start leaves a private key file that a later one cannot use: whatever killed or failed starts
    came before, a start in which nothing fails has an identity whose public half belongs to its
    private half, and a WireGuard key pair. *)
Theorem keys_survive f0 f : rtc key_start f0 f →
  (∀ io f1 km, random_ok io → NewKeyManager io dir f1 = (f0, Ok km) → ∀ io', accessible io' → NewKeyManager io' dir f = (f, Ok km)) ∧
  (∀ io f1 wk, random_ok io → loadOrGenerateKeys io dir f1 = (f0, Ok wk) → ∀ io', accessible io' → loadOrGenerateKeys io' dir f = (f, Ok wk)) ∧
  (f0 !! idPriv = None → f0 !! wgPriv = None → ∀ io io', works io → works io' → ∃ f' km f'' wk,
     NewKeyManager io dir f = (f', Ok km) ∧ publicKey km = ed25519_public (privateKey km) ∧ slen (privateKey km) = privateKeySize ∧
     loadOrGenerateKeys io' dir f' = (f'', Ok wk) ∧ x25519_base (wk_private wk) = Some (wk_public wk)).
Proof.
  intros Hs. destruct (starts_keep _ _ Hs) as [Ki Kw]. destruct (starts_fresh _ _ Hs) as [Fi Fw]. split_and!.
  - intros io f1 km Hr (d & Ed & Hd)%id_settled io' Ha; [|done]. apply Hd; [done|]. rewrite Ki; [done|by eexists].
  - intros io f1 wk Hr (d & Ed & Hd)%wg_settled io' Ha. apply Hd; [done|]. rewrite Kw; [done|by eexists].
  - intros Hi Hw io io' Hio Hio'. destruct (NewKeyManager_works io f Hio (Fi Hi)) as (f' & km & E & Hp & Hl & Hwg).
    destruct (loadOrGenerateKeys_works io' f' Hio') as (f'' & wk & E' & Hx); [by rewrite Hwg; apply Fw|]. by exists f', km, f'', wk.
Qed.
End Starts.

Module KeysDemo.
#[local] Existing Instance Toy.prims.
#[local] Instance toy_gen : KeyGen Toy.prims := {|
  ed25519_derive s := stake 32 (s +:+ Toy.pad);
  x25519_base s := if slen s =? 32 then Some s else None
|}.
#[local] Instance toy_gen_law : KeyGenLaw Toy.prims toy_gen.
Proof.
  assert (Hsz : ∀ s, slen (stake 32 (s +:+ Toy.pad)) = 32) by (intros s; rewrite slen_stake; [done|]; rewrite slen_app; change (slen Toy.pad) with 64; lia).
  split; cbn; [done| |intros s ->; by eexists]. intros s Hs. assert (Ht : ∀ t, stake 32 (s +:+ t) = s) by (intros t; rewrite <- Hs; apply stake_app). change (stake 32 (s +:+ stake 32 (s +:+ Toy.pad)) = stake 32 (s +:+ Toy.pad)). by rewrite !Ht.
Qed.

Definition seed : string := "0123456789abcdef0123456789abcdef".
Definition other : string := "ABCDEFGHIJKLMNOPABCDEFGHIJKLMNOP".
Definition io (draw : string) : key_io := MkKeyIo true true (Some draw) (MkWrite true None true) true None.
Definition made : fs * result keyfile_error KeyManager := NewKeyManager (io seed) "/d/keys" ∅.

Lemma io_works d : slen d = 32 → works (io d).
Proof. intros Hd. split_and!; try done. by exists d. Qed.

(** Between the two starts one was killed while it wrote the WireGuard key. *)
Lemma keys_survive_witness : is_ok made.2 = true ∧ ∃ f, f ≠ made.1 ∧ (NewKeyManager (io other) "/d/keys" f).2 = made.2.
Proof.
  split; [reflexivity|]. set (f := <[tmp_of (Join "/d/keys" "wg_private.key") := stake 4 (Base64.encode (clamp seed))]> made.1). exists f.
  assert (Hs : rtc (key_start "/d/keys") made.1 f).
  { apply rtc_once, (wg_killed _ _ seed (clamp seed)); [vm_compute; reflexivity..|]. constructor. apply (crash_writing _ _ _ 4). }
  split; [intros E; apply (f_equal (λ g : fs, g !! tmp_of (Join "/d/keys" "wg_private.key"))) in E; vm_compute in E; discriminate E|].
  destruct made as [f1 [km|e]] eqn:E; [|discriminate E].
  assert (Hr : random_ok (io seed)) by (intros b [= <-]; reflexivity).
  rewrite (proj1 (keys_survive "/d/keys" _ _ Hs) (io seed) ∅ km Hr E (io other) ltac:(split; reflexivity)). reflexivity.
Defined.

(** A key file cut to 24 bytes stops every start: Public slices it out of range. One of 40 bytes is
    taken for a key, its public half padded with zeros. *)
Definition cut (n : nat) : fs := {["/d/keys/ed25519.key" := Base64.encode (stake n (seed +:+ seed))]}.
Example short_key_file : (NewKeyManager (io other) "/d/keys" (cut 24)).2 = Err KPanic ∧
  (NewKeyManager (io other) "/d/keys" (cut 40)).2 = Ok (MkKeys (stake 40 (seed +:+ seed)) ("01234567" +:+ zeros 24)).
Proof. vm_compute. done. Qed.
End KeysDemo.
