(* ===== verification/Start.v ===== *)
(** * Start: construction of the agent, shutdown, and the commands

    New and the shutdown branch of Run of internal/agent/agent.go, NewServer of
    internal/wireguard/server.go, and the commands run, pair and reroll of cmd/atreoagent. The
    data directory is the key files and pairing.json as files, overlay.json and ip_alloc.json as
    their decoded contents; random draws and the outcomes of system calls are arguments. *)

From S2P Require Import Prelude Encoding Json NetAddr IpAllocator Overlay WgServer Firewall Crypto AclStore Atreolink Envelope Handlers Pairing Boot Upnp Files Config Keys.

(** ** The data directory *)

Record state_dir := MkDir {
  sd_files : fs;
  sd_overlay : Overlay.file;
  sd_alloc : state_file;
  sd_nonces : option (gmap string string)
}.
Definition set_files (d : state_dir) (f : fs) : state_dir := MkDir f (sd_overlay d) (sd_alloc d) (sd_nonces d).
Definition set_overlay (d : state_dir) (o : Overlay.file) : state_dir := MkDir (sd_files d) o (sd_alloc d) (sd_nonces d).
Definition set_entries (d : state_dir) (e : state_file) : state_dir := MkDir (sd_files d) (sd_overlay d) e (sd_nonces d).

(** What a start is given: the two key steps, the draws of the overlay plan, the time, and whether
    overlay.json can be written. *)
Record new_io := MkNewIo {
  n_id : key_io;
  n_wg : key_io;
  n_draws : list (option Z);
  n_now : Z;
  n_writable : bool
}.

Inductive new_error := NKeys (e : keyfile_error) | NOverlay (e : overlay_error) | NAlloc (e : alloc_error) | NWireGuard (e : keyfile_error).

(** The components New builds, as far as they hold state. *)
Record Agent := MkAgentParts {
  ag_keys : KeyManager;
  ag_overlay : Overlay;
  ag_alloc : IPAllocator;
  ag_wg : WgServer.Server;
  ag_wgKeys : wg_keys;
  ag_deviceID : string;
  ag_acl : Store;
  ag_upnp : Upnp.Client
}.

Section New.
Context `{K : KeyGen}.

(** wireguard.NewServer *)
Definition NewServer (io : key_io) (port : Z) (ip sub ip6 sub6 keysDir : string) (f : fs) : fs * result keyfile_error (WgServer.Server * wg_keys) :=
  if negb (k_dir io) then (f, Err KMkdir)
  else match loadOrGenerateKeys io keysDir f with
       | (f', Err e) => (f', Err e)
       | (f', Ok wk) => (f', Ok (WgServer.NewServer port ip sub ip6 sub6 (Join keysDir "wg_private_raw.key"), wk))
       end.

(** upnp.NewClient, SetPCPEnabled, SetStatePath *)
Definition new_upnp (c : Config) (nonces : option (gmap string string)) : Upnp.Client :=
  let u := Upnp.NewClient (ListenPort (WireGuard c)) in
  let u := MkUpnp (internalPort u) (externalPort u) (PCPEnabled (WireGuard c)) (v4cleanup u) (lastExternalIP u) (v6pinholes u) (v4nonce u) (statePath u) (Upnp.disk u) in
  SetStatePath true nonces u.

(** [None] when the draws end before the loop that picks a plan does. *)
Definition New (io : new_io) (c : Config) (d : state_dir) : option (state_dir * result new_error Agent) :=
  let '(f, r) := NewKeyManager (n_id io) (KeysDir c) (sd_files d) in
  let d := set_files d f in
  match r with
  | Err e => Some (d, Err (NKeys e))
  | Ok km =>
      '(r, o) ← LoadOrCreate (sd_overlay d) (n_draws io) (n_now io) (n_writable io);
      let d := set_overlay d o in
      match r with
      | Err e => Some (d, Err (NOverlay e))
      | Ok ov =>
          match NewIPAllocator (SubnetV4 ov) (GatewayV4 ov) (sd_alloc d) with
          | Err e => Some (d, Err (NAlloc e))
          | Ok al =>
              match NewServer (n_wg io) (ListenPort (WireGuard c)) (GatewayV4 ov) (SubnetV4 ov) (GatewayV6 ov) (SubnetV6 ov) (KeysDir c) (sd_files d) with
              | (f, Err e) => Some (set_files d f, Err (NWireGuard e))
              | (f, Ok (w, wk)) =>
                  Some (set_files d f, Ok (MkAgentParts km ov al w wk (DeviceID c) NewStore (new_upnp c (sd_nonces d))))
              end
          end
      end
  end.
End New.

(** tunnel.NewHandlers over the parts, before anything has arrived. *)
Definition handlers_of (c : Config) (a : Agent) : Handlers :=
  MkHandlers (ag_wg a) (Base64.encode (wk_public (ag_wgKeys a))) (ag_acl a) (ag_keys a) (ag_alloc a) (ag_deviceID a) (TunnelHost c)
    ∅ None None (Some None) None false.

(** ** Shutdown *)

Section Shutdown.
Context `{Commands} `{Path}.
(** The branch of Run for a cancelled context: the port mappings (the requests that remove them
    are returned), the packet filter, the interface, ip_alloc.json. *)
Definition shutdown (saved : bool) (h : Handlers) (u : Upnp.Client) (d : state_dir) : Handlers * Upnp.Client * list removal * state_dir :=
  let '(u, gone) := Upnp.Stop u in
  let h := set_fw h (Firewall.Stop <$> fw h) in
  let h := set_wg h (WgServer.Stop (wg h)) in
  (h, u, gone, if saved then set_entries d (Entries (IpAllocator.Save (alloc h))) else d).
End Shutdown.

(** ** The commands *)

Definition set_dataDir (c : Config) (dir : string) : Config :=
  MkConfig (AtreoLinkAPIURL c) (AtreoLinkAppURL c) (LogLevel c) (DeviceID c) (Config.AppsHostname c) (TunnelHost c) dir (EndpointIP c) (EndpointPort c)
    (WireGuard c) (Proxy c) (Certs c) (Notify c) (SMTP c) (Relay c).
Definition set_upnp (c : Config) (b : bool) : Config :=
  let w := WireGuard c in
  MkConfig (AtreoLinkAPIURL c) (AtreoLinkAppURL c) (LogLevel c) (DeviceID c) (Config.AppsHostname c) (TunnelHost c) (DataDir c) (EndpointIP c) (EndpointPort c)
    (MkWireGuard (ListenPort w) (Config.FirewallEnabled w) b (PCPEnabled w) (IPv6PinholeEnabled w)) (Proxy c) (Certs c) (Notify c) (SMTP c) (Relay c).
Definition set_urls (c : Config) (api app : string) : Config :=
  MkConfig api app (LogLevel c) (DeviceID c) (Config.AppsHostname c) (TunnelHost c) (DataDir c) (EndpointIP c) (EndpointPort c)
    (WireGuard c) (Proxy c) (Certs c) (Notify c) (SMTP c) (Relay c).

Section Run.
Context `{Unicode}.
(** The configuration runDaemon hands to the agent; [noUPnP] is the flag when it was passed. *)
Definition daemon_config (yaml : string → Config → option Config) (env : string → string) (read : string → read_file)
    (configPath dataDir : string) (noUPnP : option bool) : result config_error Config :=
  let! cfg := Config.Load yaml env read configPath in
  let cfg := if dataDir <>s "" then set_dataDir cfg dataDir else cfg in
  Ok (match noUPnP with Some b => set_upnp cfg (negb b) | None => cfg end).
End Run.

Inductive pair_failure :=
| PLogLevel | PKeys (e : keyfile_error) | PToken | PPair (e : flow_error) | PPin (e : acl_error) | POwner (e : acl_error) | PSave.

(** The owner row of the pair command: no user id, name or address. *)
Definition command_owner (r : PairResult) : MemberACLEntry :=
  MkMember (pr_OwnerMemberID r) "" "" "" "owner" (Base64.encode (pr_OwnerIdentityPubkey r)) None None None [] [] "active".

(** The keys, the random token, the files of the access-control list, the outcome of the writes. *)
Record pair_io := MkPairIo {
  p_keys : key_io;
  p_token : option string;
  p_pinFile : read_file;
  p_aclFile : read_file;
  p_pinWritten : bool;
  p_mkdir : bool;
  p_write : write_io
}.

Section Pair.
Context `{Unicode} `{K : KeyGen} `{UrlParser}.

(** runPair: what is on disk and in the list afterwards, and the configuration that was saved. A
    failed Load or Save of the list is only logged. *)
Definition runPair (io : pair_io) (env : string → string) (dataDir : string) (initAnswer : response) (polls : list response) (f : fs)
    : fs * Store * result pair_failure Config :=
  let cfg := set_urls DefaultConfig (text_of env "ATREOLINK_API_URL" (AtreoLinkAPIURL DefaultConfig)) (text_of env "ATREOLINK_APP_URL" (AtreoLinkAppURL DefaultConfig)) in
  if (env "LOG_LEVEL" <>s "") && bool_decide (ParseLevel (env "LOG_LEVEL") = None) then (f, NewStore, Err PLogLevel)
  else
    let cfg := set_dataDir cfg dataDir in
    match NewKeyManager (p_keys io) (KeysDir cfg) f with
    | (f, Err e) => (f, NewStore, Err (PKeys e))
    | (f, Ok km) =>
        let s := (AclStore.Load (p_pinFile io) (p_aclFile io) NewStore).1 in
        match p_token io with
        | None => (f, s, Err PToken)
        | Some token =>
            let decoder blob session := DecodePairApprovalBlob blob token session (PublicKeyBase64 km) in
            match Pair decoder (auth_url token) initAnswer polls with
            | Err e => (f, s, Err (PPair e))
            | Ok r =>
                match SetPinnedAdminPublicKey (p_pinWritten io) (pr_OwnerIdentityPubkey r) s with
                | (s, Some e) => (f, s, Err (PPin e))
                | (s, None) =>
                    let '(s, owner) := if pr_OwnerMemberID r =s "" then (s, None) else UpsertMember (command_owner r) s in
                    match owner with
                    | Some e => (f, s, Err (POwner e))
                    | None =>
                        let cfg := Config.set_identity cfg (pr_DeviceID r) (pr_AppsHostname r) (pr_TunnelHost r) in
                        let '(f, ok) := SavePairing (p_mkdir io) (p_write io) cfg f in
                        (f, s, if ok then Ok cfg else Err PSave)
                    end
                end
            end
        end
    end.
End Pair.

(** runReroll: how the command ends, and overlay.json. [chown] is the outcome of restoring the
    owner, when the command runs as root. *)
Inductive reroll_end := RConfig | RNoOverlay | RUnreadable (e : overlay_error) | RConfirm (cur : Overlay) | RFailed (e : overlay_error)
| RChown (next : Overlay) | RDone (cur next : Overlay).

Definition runReroll (cfg : option Config) (yes : bool) (draws : list (option Z)) (now : Z) (writable : bool) (chown : option bool) (f : Overlay.file)
    : option (reroll_end * Overlay.file) :=
  match cfg with
  | None => Some (RConfig, f)
  | Some _ =>
      match LoadOverlay f with
      | Err ErrNotExist => Some (RNoOverlay, f)
      | Err e => Some (RUnreadable e, f)
      | Ok cur =>
          if negb yes then Some (RConfirm cur, f)
          else
            '(r, f) ← Reroll f draws now writable;
            match r with
            | Err e => Some (RFailed e, f)
            | Ok next => Some (if default true chown then RDone cur next else RChown next, f)
            end
      end
  end.

(** ** Restarts *)

Section Restarts.
Context `{K : KeyGen} `{!KeyGenLaw P K}.
Variable c : Config.
Notation idPriv := (Join (KeysDir c) "ed25519.key").
Notation wgPriv := (Join (KeysDir c) "wg_private.key").
Notation key_start := (key_start (KeysDir c)).

(** Random bytes come 32 at a time, and a draw below the number of subnets. *)
Definition io_ok (io : new_io) : Prop := random_ok (n_id io) ∧ random_ok (n_wg io) ∧ draws_ok (n_draws io).

(** What happens to the data directory over the life of an installation: a start that ran to its
    end, well or not; one that was killed while it made a key, or after it had dealt with
    overlay.json; a running agent that saved its allocations. *)
Inductive restart (d : state_dir) : state_dir → Prop :=
| ran io d' r : io_ok io → New io c d = Some (d', r) → restart d d'
| killed_at_keys f : key_start (sd_files d) f → restart d (set_files d f)
| killed_after_overlay draws now w r o : draws_ok draws → LoadOrCreate (sd_overlay d) draws now w = Some (r, o) → restart d (set_overlay d o)
| saved_allocations l : restart d (set_entries d (Entries l)).

(** overlay.json holds the plan [ov], or one that is completed to it. *)
Definition holds (ov : Overlay) (o : Overlay.file) : Prop := ∃ d m, o = Content d ∧ parseAndMigrate d = Ok (ov, m).

Lemma parse_again ov : validate ov = Ok tt → ∃ m, parseAndMigrate (Some ov) = Ok (ov, m).
Proof.
  intros Hv. unfold parseAndMigrate. cbn [of_option res_bind]. destruct ((SubnetV6 ov =s "") && (GatewayV6 ov =s "")); [|exists false; cbn [res_bind fst]; by rewrite Hv].
  exists true. destruct (validate_inv ov Hv) as (x & y & Hx & Hy & E). set (r := RolledAt ov) in E. clearbody r. subst ov.
  cbn [plan SubnetV4 GatewayV4 RolledAt]. rewrite v6FromV4_plan by lia. cbn [res_bind fst]. fold (plan x y r). by rewrite Hv.
Qed.

Lemma parse_valid d ov m : parseAndMigrate d = Ok (ov, m) → validate ov = Ok tt.
Proof. unfold parseAndMigrate. intros E. apply res_bind_ok in E as (o & _ & E). apply res_bind_ok in E as ([o' m'] & _ & E). apply res_bind_ok in E as ([] & Hv & E). injection E as -> ->. done. Qed.

(** The plan a start uses is then in the file, and a file that holds a plan keeps it. *)
Lemma LoadOrCreate_holds f draws now w ov f' : draws_ok draws → LoadOrCreate f draws now w = Some (Ok ov, f') → holds ov f'.
Proof.
  intros Hd. destruct f as [| |d]; cbn [LoadOrCreate]; [|done|].
  - intros E. apply bind_Some in E as ([r rest] & Hr & E). apply derive_inv in Hr as [->|(n & Hn & _ & ->)]; [done| |done]. destruct w; [|done]. injection E as <- <-.
    destruct (parse_again (subnetAt n now)) as [m Hm]; [apply subnetAt_valid; lia|]. exists (Some (subnetAt n now)), m. exact (conj eq_refl Hm).
  - destruct (parseAndMigrate d) as [[o m]|] eqn:Ep; [|done]. intros [= <- <-]. destruct (m && w); [|by exists d, m].
    destruct (parse_again o (parse_valid _ _ _ Ep)) as [m' Hm]. by exists (Some o), m'.
Qed.
Lemma LoadOrCreate_keeps ov f draws now w : holds ov f → ∃ f', LoadOrCreate f draws now w = Some (Ok ov, f') ∧ holds ov f'.
Proof.
  intros (d & m & -> & Hp). cbn [LoadOrCreate]. rewrite Hp. eexists. split; [done|]. destruct (m && w); [|by exists d, m].
  destruct (parse_again ov (parse_valid _ _ _ Hp)) as [m' Hm]. by exists (Some ov), m'.
Qed.

(** The key files only take the steps of key starts, the rest of the directory is overlay.json's. *)
Lemma New_effect io d d' r : io_ok io → New io c d = Some (d', r) →
  rtc key_start (sd_files d) (sd_files d') ∧ sd_alloc d' = sd_alloc d ∧
  (sd_overlay d' = sd_overlay d ∨ ∃ r, LoadOrCreate (sd_overlay d) (n_draws io) (n_now io) (n_writable io) = Some (r, sd_overlay d')).
Proof.
  intros (Hi & Hw & _). unfold New. destruct (NewKeyManager _ _ _) as [f [km|e]] eqn:Ek.
  2:{ intros [= <- _]. cbn. split_and!; [|done|by left]. apply rtc_once. change f with (f, Err e : result keyfile_error KeyManager).1. rewrite <- Ek. by constructor. }
  assert (Hf : key_start (sd_files d) f) by (change f with (f, Ok km : result keyfile_error KeyManager).1; rewrite <- Ek; by constructor).
  intros E. apply bind_Some in E as ([ro o] & Eo & E). destruct ro as [ov|e]; [|injection E as <- _; cbn; split_and!; [by apply rtc_once|done|right; by eexists]].
  destruct (NewIPAllocator _ _ _); [|injection E as <- _; cbn; split_and!; [by apply rtc_once|done|right; by eexists]].
  assert (Hs : ∀ x, NewServer (n_wg io) (ListenPort (WireGuard c)) (GatewayV4 ov) (SubnetV4 ov) (GatewayV6 ov) (SubnetV6 ov) (KeysDir c) f = x → rtc key_start (sd_files d) x.1).
  { intros x <-. unfold NewServer. destruct (k_dir (n_wg io)); cbn [negb fst]; [|by apply rtc_once]. destruct (loadOrGenerateKeys _ _ _) as [f2 r2] eqn:Ew.
    apply rtc_l with f; [done|]. assert (Hk : key_start f (loadOrGenerateKeys (n_wg io) (KeysDir c) f).1) by by constructor. rewrite Ew in Hk.
    destruct r2; by apply rtc_once. }
  destruct (NewServer _ _ _ _ _ _ _ _) as [f2 [[w wk]|e]] eqn:En; injection E as <- _; cbn; (split_and!; [exact (Hs _ eq_refl)|done|right; by eexists]).
Qed.

Lemma restart_keeps ov d d' : restart d d' → rtc key_start (sd_files d) (sd_files d') ∧ (holds ov (sd_overlay d) → holds ov (sd_overlay d')).
Proof.
  assert (Hkeep : ∀ f draws now w r o, LoadOrCreate f draws now w = Some (r, o) → holds ov f → holds ov o).
  { intros f draws now w r o E Hh. destruct (LoadOrCreate_keeps ov f draws now w Hh) as (f' & E' & Hh'). rewrite E in E'. by injection E' as -> ->. }
  intros [io d1 r Hio (Hf & _ & Ho)%New_effect|f Hf|draws now w r o _ E|l]; [|done|cbn..].
  - split; [done|]. destruct Ho as [->|[r' E]]; [done|by eapply Hkeep].
  - split; [by apply rtc_once|done].
  - split; [done|by eapply Hkeep].
  - done.
Qed.
Lemma restarts_keep ov d d' : rtc restart d d' → rtc key_start (sd_files d) (sd_files d') ∧ (holds ov (sd_overlay d) → holds ov (sd_overlay d')).
Proof.
  induction 1 as [|d d1 d' Hs _ [IH1 IH2]]; [done|]. destruct (restart_keeps ov _ _ Hs). split; [by etrans|auto].
Qed.

(** The directory of a new installation. *)
Definition new_install (d : state_dir) : Prop :=
  sd_files d !! idPriv = None ∧ sd_files d !! wgPriv = None ∧ sd_overlay d = Missing ∧ sd_alloc d ≠ BadFile.

Lemma restart_fresh_overlay d d' : restart d d' →
  (sd_overlay d = Missing ∨ ∃ ov, holds ov (sd_overlay d)) → sd_overlay d' = Missing ∨ ∃ ov, holds ov (sd_overlay d').
Proof.
  assert (Hlc : ∀ f draws now w r o, draws_ok draws → LoadOrCreate f draws now w = Some (r, o) → f = Missing ∨ (∃ ov, holds ov f) → o = Missing ∨ ∃ ov, holds ov o).
  { intros f draws now w r o Hd E [->|[ov Hh]].
    - destruct r as [ov|e]; [right; exists ov; by eapply LoadOrCreate_holds|left]. cbn in E. apply bind_Some in E as ([r rest] & _ & E).
      destruct r as [x|]; [|by injection E]. destruct w; [discriminate E|by injection E].
    - destruct (LoadOrCreate_keeps ov f draws now w Hh) as (f' & E' & Hh'). rewrite E in E'. injection E' as -> ->. right. by exists ov. }
  intros [io d1 r Hio Hn|f Hf|draws now w r o Hd E|l]; cbn; [|done|by eapply Hlc|done].
  pose proof Hio as (_ & _ & Hd). apply New_effect in Hn as (_ & _ & [->|[r' E]]); [done|by eapply Hlc|done].
Qed.
Lemma restart_alloc d d' : restart d d' → sd_alloc d ≠ BadFile → sd_alloc d' ≠ BadFile.
Proof. intros [io d1 r Hio (_ & -> & _)%New_effect|f Hf|draws now w r o Hd E|l]; cbn; done. Qed.

Lemma subnetPrefix_valid ov : validate ov = Ok tt → ∃ p, subnetPrefix (SubnetV4 ov) = Ok p.
Proof.
  intros (x & y & Hx & Hy & ->)%validate_inv. cbn [plan SubnetV4]. unfold subnetPrefix.
  destruct (byte_text_plain 100 ltac:(lia)) as (D1 & S1 & _), (byte_text_plain x ltac:(lia)) as (D2 & S2 & _), (byte_text_plain y Hy) as (D3 & S3 & _), (byte_text_plain 0 ltac:(lia)) as (D4 & S4 & _).
  change "/24" with (String "/" "" +:+ "24"). unfold string4. cbn [map join]. fold (byte_text 100) (byte_text x) (byte_text y) (byte_text 0).
  rewrite split_on_app by (rewrite !contains_app, S1, S2, S3, S4; done). change (split_on "/" "24") with ["24"]. cbv iota.
  rewrite (split_on_app "." _ _ D1), (split_on_app "." _ _ D2), (split_on_app "." _ _ D3), (split_on_last "." _ D4). by eexists.
Qed.

(** What a successful start leaves behind. *)
Lemma New_succeeds io d d' a : io_ok io → New io c d = Some (d', Ok a) → ∃ di dw p,
  sd_files d' !! idPriv = Some di ∧ sd_files d' !! wgPriv = Some dw ∧ holds (ag_overlay a) (sd_overlay d') ∧
  (∀ io' g, accessible io' → g !! idPriv = Some di → NewKeyManager io' (KeysDir c) g = (g, Ok (ag_keys a))) ∧
  (∀ io' g, accessible io' → g !! wgPriv = Some dw → loadOrGenerateKeys io' (KeysDir c) g = (g, Ok (ag_wgKeys a))) ∧
  subnetPrefix (SubnetV4 (ag_overlay a)) = Ok p ∧ (IpAllocator.serverIP (ag_alloc a) = GatewayV4 (ag_overlay a) ∧ prefix (ag_alloc a) = p).
Proof.
  intros (Hi & Hw & Hd). unfold New. destruct (NewKeyManager _ _ _) as [f [km|e]] eqn:Ek; [|done].
  intros E. apply bind_Some in E as ([ro o] & Eo & E). destruct ro as [ov|]; [|done]. destruct (NewIPAllocator _ _ _) as [al|] eqn:Ea; [|done].
  unfold NewServer in E. destruct (k_dir (n_wg io)); [|done]. cbn [negb] in E. destruct (loadOrGenerateKeys _ _ _) as [f2 [wk|]] eqn:Ew; [|done]. injection E as <- <-. cbn.
  cbn in Ew, Ea. destruct (id_settled _ _ _ _ _ Hi Ek) as (di & Hdi & Hid). destruct (wg_settled _ _ _ _ _ Ew) as (dw & Hdw & Hwg).
  assert (Hk : key_start f f2) by (change f2 with (f2, Ok wk : result keyfile_error wg_keys).1; rewrite <- Ew; by constructor).
  destruct (starts_keep (KeysDir c) _ _ (rtc_once _ _ Hk)) as [Ki _]. exists di, dw. unfold NewIPAllocator in Ea. destruct (subnetPrefix (SubnetV4 ov)) as [p|] eqn:Ep; [|done].
  exists p. assert (IpAllocator.serverIP al = GatewayV4 ov ∧ prefix al = p) as [? ?].
  { cbn in Ea. destruct (sd_alloc d) as [| |l]; [by injection Ea as <-|done|injection Ea as <-]. by destruct (load_frame l (MkAllocator (GatewayV4 ov) p ∅ ({[GatewayV4 ov]} ∪ {[p +:+ ".0"]} ∪ {[p +:+ ".255"]}))) as [<- <-]. }
  split_and!; try done; [rewrite Ki; [done|by eexists]|by eapply LoadOrCreate_holds].
Qed.

(** A start whose keys and plan are settled. *)
Lemma New_again io d km wk ov p : NewKeyManager (n_id io) (KeysDir c) (sd_files d) = (sd_files d, Ok km) →
  loadOrGenerateKeys (n_wg io) (KeysDir c) (sd_files d) = (sd_files d, Ok wk) → k_dir (n_wg io) = true → holds ov (sd_overlay d) →
  subnetPrefix (SubnetV4 ov) = Ok p → sd_alloc d ≠ BadFile →
  ∃ d' a, New io c d = Some (d', Ok a) ∧ ag_keys a = km ∧ ag_wgKeys a = wk ∧ ag_overlay a = ov ∧ NewIPAllocator (SubnetV4 ov) (GatewayV4 ov) (sd_alloc d) = Ok (ag_alloc a).
Proof.
  intros Ek Ew Hd Hh Hp Hal. unfold New. rewrite Ek. destruct (LoadOrCreate_keeps ov (sd_overlay d) (n_draws io) (n_now io) (n_writable io) Hh) as (o & Eo & _).
  cbn [set_files sd_overlay]. rewrite Eo. cbn [mbind option_bind set_overlay set_files sd_alloc sd_files].
  assert (∃ al, NewIPAllocator (SubnetV4 ov) (GatewayV4 ov) (sd_alloc d) = Ok al) as [al Ea] by (unfold NewIPAllocator; rewrite Hp; cbn; destruct (sd_alloc d); [by eexists|done|by eexists]).
  rewrite Ea. unfold NewServer. rewrite Hd, Ew. cbn [negb]. eexists _, _. by split_and!.
Qed.

Lemma derive_works draws now : draws_ok draws → None ∉ draws → (∃ n, Some n ∈ draws ∧ n ≠ 0%Z) →
  ∃ n rest, Derive draws now = Some (Ok (subnetAt n now), rest) ∧ (0 <= n < subnetCount)%Z.
Proof.
  induction draws as [|[m|] draws IH]; intros Hd Hn (n & Hin & Hz); [by apply elem_of_nil in Hin| |by destruct Hn; left]. cbn [Derive].
  assert (0 <= m < subnetCount)%Z by (apply Hd; left). destruct (Z.eqb_spec m 0); [|by eexists m, _]. apply IH; [intros x ?; apply Hd; by right|set_solver|].
  exists n. split; [|done]. apply elem_of_cons in Hin as [[= ->]|?]; done.
Qed.

Lemma LoadOrCreate_works f draws now : f = Missing ∨ (∃ ov, holds ov f) → draws_ok draws → None ∉ draws → (∃ n, Some n ∈ draws ∧ n ≠ 0%Z) →
  ∃ ov f', LoadOrCreate f draws now true = Some (Ok ov, f') ∧ validate ov = Ok tt.
Proof.
  intros [->|[ov Hh]] Hd Hn Hz.
  - destruct (derive_works draws now Hd Hn Hz) as (n & rest & E & Hr). eexists _, _. cbn [LoadOrCreate]. rewrite E. split; [reflexivity|by apply subnetAt_valid].
  - destruct (LoadOrCreate_keeps ov f draws now true Hh) as (f' & E & _). destruct Hh as (d & m & _ & Hp). exists ov, f'. split; [done|by eapply parse_valid].
Qed.

Lemma New_works io d : works (n_id io) → works (n_wg io) → (∀ x, sd_files d !! idPriv = Some x → id_file x) → (∀ x, sd_files d !! wgPriv = Some x → wg_file x) →
  sd_overlay d = Missing ∨ (∃ ov, holds ov (sd_overlay d)) → sd_alloc d ≠ BadFile → draws_ok (n_draws io) → None ∉ n_draws io → (∃ n, Some n ∈ n_draws io ∧ n ≠ 0%Z) →
  n_writable io = true → ∃ d' a, New io c d = Some (d', Ok a) ∧ publicKey (ag_keys a) = ed25519_public (privateKey (ag_keys a)) ∧ validate (ag_overlay a) = Ok tt.
Proof.
  intros Wi Ww Fi Fw Ho Hal Hd Hn Hz Hwr. destruct (NewKeyManager_works (KeysDir c) (n_id io) (sd_files d) Wi Fi) as (f' & km & Ek & Hpub & _ & Ewg).
  destruct (LoadOrCreate_works (sd_overlay d) (n_draws io) (n_now io) Ho Hd Hn Hz) as (ov & o & Eo & Hv). destruct (subnetPrefix_valid ov Hv) as [p Hp].
  destruct (loadOrGenerateKeys_works (KeysDir c) (n_wg io) f' Ww) as (f2 & wk & Ew & _); [intros x Hx; apply Fw; by rewrite <- Ewg|].
  unfold New. rewrite Ek. cbn [set_files sd_overlay]. rewrite Hwr, Eo. cbn [mbind option_bind set_overlay set_files sd_alloc sd_files].
  assert (∃ al, NewIPAllocator (SubnetV4 ov) (GatewayV4 ov) (sd_alloc d) = Ok al) as [al Ea] by (unfold NewIPAllocator; rewrite Hp; cbn; destruct (sd_alloc d); [by eexists|done|by eexists]).
  rewrite Ea. unfold NewServer. destruct Ww as ([-> _] & _). rewrite Ew. cbn [negb]. eexists _, _. split; [reflexivity|]. done.
Qed.

(** C21: restarting the agent changes nothing about who it is. Once a start has succeeded, every later
    start that can read its files succeeds too, with the same identity key, the same WireGuard
    key and the same address plan, whatever starts, failures and kills came in between and
    whatever was drawn; and when ip_alloc.json is what the running agent saved, with the same
    addresses for the same clients. On a new installation the first start in which nothing fails
    succeeds, however many were killed half-way before it, with a key whose halves belong
    together and a valid plan. *)
Theorem agent_survives_restart d0 d : rtc restart d0 d →
  (∀ io d1 a io', io_ok io → New io c d1 = Some (d0, Ok a) → accessible (n_id io') → accessible (n_wg io') → sd_alloc d ≠ BadFile → ∃ d' a',
     New io' c d = Some (d', Ok a') ∧ ag_keys a' = ag_keys a ∧ ag_wgKeys a' = ag_wgKeys a ∧ ag_overlay a' = ag_overlay a ∧
     ∀ al, Inv al → IpAllocator.serverIP al = IpAllocator.serverIP (ag_alloc a) → prefix al = prefix (ag_alloc a) →
       sd_alloc d = Entries (IpAllocator.Save al) → allocated (ag_alloc a') = allocated al) ∧
  (new_install d0 → ∀ io, works (n_id io) → works (n_wg io) → (∃ n, Some n ∈ n_draws io ∧ n ≠ 0%Z) → draws_ok (n_draws io) → None ∉ n_draws io → n_writable io = true → ∃ d' a,
     New io c d = Some (d', Ok a) ∧ publicKey (ag_keys a) = ed25519_public (privateKey (ag_keys a)) ∧ validate (ag_overlay a) = Ok tt).
Proof.
  intros Hr. split.
  - intros io d1 a io' Hio Hnew Hacc Hacc' Hal. destruct (New_succeeds io d1 d0 a Hio Hnew) as (di & dw & p & Hdi & Hdw & Hov & Hid & Hwg & Hp & Eal).
    destruct (restarts_keep (ag_overlay a) _ _ Hr) as [Hfs Hh]. destruct (starts_keep (KeysDir c) _ _ Hfs) as [Ki Kw].
    rewrite <- Ki in Hdi by (rewrite Hdi; by eexists). rewrite <- Kw in Hdw by (rewrite Hdw; by eexists).
    destruct (New_again io' d (ag_keys a) (ag_wgKeys a) (ag_overlay a) p) as (d' & a' & En & E1 & E2 & E3 & E4); [by apply Hid|by apply Hwg|apply Hacc'|auto|done..|].
    exists d', a'. split_and!; [done..|]. intros al Hinv Es Epre Esaved. rewrite Esaved in E4.
    destruct (Save_Load (SubnetV4 (ag_overlay a)) al (MkAllocator (IpAllocator.serverIP al) p ∅ ({[IpAllocator.serverIP al]} ∪ {[p +:+ ".0"]} ∪ {[p +:+ ".255"]}))) as (al' & El & Ea);
      [done|by unfold NewIPAllocator; rewrite Hp|cbn; by rewrite Epre, (proj2 Eal)|]. rewrite Es, (proj1 Eal) in El. rewrite El in E4. by injection E4 as <-.
  - intros (Hi & Hw & Hm & Hal) io Wi Ww Hz Hd Hn Hwr. destruct (restarts_keep (subnetAt 0 0) _ _ Hr) as [Hfs _].
    destruct (starts_fresh (KeysDir c) _ _ Hfs) as [Fi Fw]. apply New_works; auto.
    + assert (H0 : sd_overlay d0 = Missing ∨ ∃ ov, holds ov (sd_overlay d0)) by by left. clear -Hr H0 KeyGenLaw0.
      induction Hr as [|x y z Hs _ IH]; [done|]. apply IH. by eapply restart_fresh_overlay.
    + clear -Hr Hal KeyGenLaw0. induction Hr as [|x y z Hs _ IH]; [done|]. apply IH. by eapply restart_alloc.
Qed.

End Restarts.

(** ** Pairing by command *)

Section Command.
Context `{Unicode} `{K : KeyGen} `{UrlParser}.

(** A pairing that succeeds went through every step. *)
Lemma runPair_ok io env dataDir init polls f f' s cfg : runPair io env dataDir init polls f = (f', s, Ok cfg) → ∃ f1 km token r,
  NewKeyManager (p_keys io) (Join dataDir "keys") f = (f1, Ok km) ∧ p_token io = Some token ∧
  Pair (λ blob session, DecodePairApprovalBlob blob token session (PublicKeyBase64 km)) (auth_url token) init polls = Ok r ∧
  pinnedAdminPubKey (AclStore.Load (p_pinFile io) (p_aclFile io) NewStore).1 = None ∧ pinnedAdminPubKey s = Some (pr_OwnerIdentityPubkey r) ∧
  Config.identity cfg = (pr_DeviceID r, pr_AppsHostname r, pr_TunnelHost r) ∧ DataDir cfg = dataDir ∧ SavePairing (p_mkdir io) (p_write io) cfg f1 = (f', true).
Proof.
  unfold runPair. destruct (_ && _); [done|]. destruct (NewKeyManager _ _ _) as [f1 [km|]] eqn:Ek; [|done]. destruct (p_token io) as [token|]; [|done].
  destruct (Pair _ _ _ _) as [r|] eqn:Ep; [|done]. destruct (SetPinnedAdminPublicKey _ _ _) as [s1 [|]] eqn:Es; [done|].
  unfold SetPinnedAdminPublicKey in Es. destruct (negb _); [done|]. destruct (pinnedAdminPubKey _) eqn:Hpin; [done|]. destruct (p_pinWritten io); [|done]. injection Es as <-.
  destruct (if _ : bool then _ else _) as [s2 [|]] eqn:Eo; [done|]. destruct (SavePairing _ _ _ _) as [f2 []] eqn:Ev; [|done]. intros [= <- <- <-].
  exists f1, km, token, r. split_and!; try done. destruct (_ =s ""); [by injection Eo as <-|]. unfold UpsertMember in Eo. destruct (validateAdminPinLocked _ _); [done|].
  by injection Eo as <-.
Qed.


(** C36: the data-dir flag of run is too late for the pairing. When the directory is only given by the
    flag, both to pair and to run, the daemon has read pairing.json in the default directory
    before it looks at the flag: it works in the new directory but starts without a device id,
    and so pairs again. *)
Theorem run_flag_unpaired io env dataDir init polls f f' s cfg : runPair io env dataDir init polls f = (f', s, Ok cfg) → dataDir ≠ "" →
  f' !! "/var/lib/atreoagent/config.yaml" = None → f' !! "/var/lib/atreoagent/pairing.json" = None →
  ∀ yaml env' noUPnP c, env' "DATA_DIR" = "" → daemon_config yaml env' (λ p, ReadFile p f') "" dataDir noUPnP = Ok c →
    DataDir c = dataDir ∧ f' !! PairingPath c = Some (pairing_text cfg) ∧ DeviceID c = "".
Proof.
  intros Hr Hne Hy Hp yaml env' u c He Hc. apply runPair_ok in Hr as (f1 & km & token & r & _ & _ & _ & _ & _ & _ & Hdir & Hsave).
  unfold daemon_config in Hc. apply res_bind_ok in Hc as (c1 & Hl & Hc). rewrite (proj2 (seqb_false _ _) Hne) in Hc. cbn [negb] in Hc.
  assert (Hsame : DataDir c = dataDir ∧ DeviceID c = DeviceID c1) by (destruct u; by injection Hc as <-). clear Hc. destruct Hsame as [Hd ->].
  split; [done|]. split.
  - unfold SavePairing in Hsave. destruct (p_mkdir io); [|done]. apply WriteFile_result in Hsave. unfold PairingPath in *. by rewrite Hd, <- Hdir.
  - unfold Config.Load in Hl. change (ConfigPath DefaultConfig) with "/var/lib/atreoagent/config.yaml" in Hl. change ("" =s "") with true in Hl. cbv iota zeta beta in Hl. unfold ReadFile at 1 in Hl. rewrite Hy in Hl. cbn [res_bind] in Hl.
    set (c4 := applyEnvOverrides env' (applyDefaults DefaultConfig)) in *. assert (E : PairingPath c4 = "/var/lib/atreoagent/pairing.json").
    { unfold PairingPath, c4. cbn [applyEnvOverrides DataDir]. unfold text_of. rewrite He. reflexivity. }
    rewrite E in Hl. unfold ReadFile in Hl. rewrite Hp in Hl. cbn [loadPairing res_bind] in Hl. apply res_bind_ok in Hl as (_ & _ & Hl). by injection Hl as <-.
Qed.
End Command.

(** ** Moving to a new subnet by command *)

(** The reroll command leaves overlay.json alone unless it was confirmed and a new plan was drawn
    and written; then the file holds that plan, which is valid, not the legacy one, and differs
    from the old plan in both families. *)
Theorem reroll_command cfg yes draws now writable chown f e f' : draws_ok draws → runReroll cfg yes draws now writable chown f = Some (e, f') →
  match e with
  | RDone _ next | RChown next => yes = true ∧ f' = Content (Some next) ∧ validate next = Ok tt ∧ SubnetV4 next ≠ LegacySubnetV4 ∧
      ∃ cur, LoadOverlay f = Ok cur ∧ SubnetV4 next ≠ SubnetV4 cur ∧ SubnetV6 next ≠ SubnetV6 cur
  | _ => f' = f
  end.
Proof.
  intros Hd. unfold runReroll. destruct cfg as [c|]; [|by intros [= <- <-]]. destruct (LoadOverlay f) as [cur|e0] eqn:El; [|destruct e0; by intros [= <- <-]].
  destruct yes; cbn [negb]; [|by intros [= <- <-]]. intros E. apply bind_Some in E as ([r f1] & Er & E).
  assert (Hfail : ∀ e0, r = Err e0 → f1 = f).
  { intros e0 ->. unfold Reroll in Er. rewrite El in Er. apply bind_Some in Er as ([x|] & _ & Er); [|by injection Er]. destruct writable; [done|by injection Er]. }
  destruct r as [next|e0]; [|injection E as <- <-; by eapply Hfail]. injection E as <- <-.
  assert (Hw : writable = true). { unfold Reroll in Er. rewrite El in Er. apply bind_Some in Er as ([x|] & _ & Er); [|done]. by destruct writable. }
  subst writable. destruct (reroll_moves _ _ _ _ _ Hd Er) as (-> & Hv & Hl & Hc). rewrite El in Hc. destruct (default true chown); by split_and!.
Qed.

(** ** Runs *)

Module StartDemo.
#[local] Existing Instance AclStore.Demo.ascii_only.
#[local] Existing Instance Toy.prims.
#[local] Existing Instance KeysDemo.toy_gen.
#[local] Existing Instance KeysDemo.toy_gen_law.
#[local] Existing Instance HandDemo.urls.

Definition cfg : Config := Config.set_identity DefaultConfig "d" "apps.example" "t.example".
Definition io (seed : string) (draw : Z) : new_io := MkNewIo (KeysDemo.io seed) (KeysDemo.io seed) [Some 0%Z; Some draw] 5 true.
Definition empty_dir : state_dir := MkDir ∅ Missing NoFile None.

Lemma io_fine seed draw : slen seed = 32 → (0 <= draw < subnetCount)%Z → io_ok (io seed draw).
Proof.
  intros Hs Hd. split_and!; [by intros b [= <-]..|]. intros n Hn. cbn in Hn. rewrite !elem_of_cons in Hn. unfold subnetCount in *.
  destruct Hn as [[= ->]|[[= ->]|Hn]]; [lia|lia|by apply elem_of_nil in Hn].
Qed.

(** A first start, then one that draws other numbers. *)
Definition first : option (state_dir * result new_error Agent) := New (io KeysDemo.seed 9) cfg empty_dir.
Definition second_ (d : state_dir) : option (state_dir * result new_error Agent) := New (io KeysDemo.other 77) cfg d.

Lemma agent_survives_restart_witness : ∃ d0 a d' a', first = Some (d0, Ok a) ∧ second_ d0 = Some (d', Ok a') ∧
  ag_keys a' = ag_keys a ∧ ag_wgKeys a' = ag_wgKeys a ∧ SubnetV4 (ag_overlay a') = "100.64.9.0/24".
Proof.
  assert (Hok : match first with Some (_, Ok a) => SubnetV4 (ag_overlay a) =s "100.64.9.0/24" | _ => false end = true) by (vm_compute; reflexivity).
  destruct first as [[d0 [a|e]]|] eqn:E; [|discriminate Hok..]. apply seqb_true in Hok. exists d0, a.
  assert (Hal : sd_alloc d0 ≠ BadFile) by (destruct (New_effect cfg _ _ _ _ (io_fine KeysDemo.seed 9 eq_refl ltac:(unfold subnetCount; lia)) E) as (_ & -> & _); discriminate).
  destruct (proj1 (agent_survives_restart cfg d0 d0 (rtc_refl _ d0)) (io KeysDemo.seed 9) empty_dir a (io KeysDemo.other 77)) as (d' & a' & E' & H1 & H2 & H3 & _);
    [apply io_fine; [reflexivity|unfold subnetCount; lia]|exact E|split; reflexivity|split; reflexivity|exact Hal|].
  exists d', a'. rewrite H3. exact (conj eq_refl (conj E' (conj H1 (conj H2 Hok)))).
Defined.

(** A pairing by command into /srv. *)
Definition pio : pair_io := MkPairIo (KeysDemo.io (stake 32 EnvDemo.agent_key)) (Some "tok") FileMissing FileMissing true true (MkWrite true None true).
Definition unset (_ : string) : string := "".
Definition paired : fs * Store * result pair_failure Config := runPair pio unset "/srv" PairDemo.init PairDemo.polls ∅.
Definition in_srv (x : string) : string := if x =s "DATA_DIR" then "/srv" else "".
Definition no_yaml (_ : string) (c : Config) : option Config := Some c.

Example paired_run_starts : match paired with
  | (f', _, _) => is_ok (daemon_config no_yaml in_srv (λ p, ReadFile p f') "" "" None) && is_ok (daemon_config no_yaml unset (λ p, ReadFile p f') "" "/srv" None)
  end = true.
Proof. vm_compute. reflexivity. Qed.

Lemma run_flag_unpaired_witness : match paired with
  | (f', s, Ok c) => DeviceID c = "d" ∧ ∀ c', daemon_config no_yaml unset (λ p, ReadFile p f') "" "/srv" None = Ok c' → DataDir c' = "/srv" ∧ DeviceID c' = ""
  | _ => False
  end.
Proof.
  assert (Hok : match paired with (f', _, Ok c) => bool_decide (DeviceID c = "d" ∧ f' !! "/var/lib/atreoagent/config.yaml" = None ∧ f' !! "/var/lib/atreoagent/pairing.json" = None) | _ => false end = true) by (vm_compute; reflexivity).
  destruct paired as [[f' s] [c|e]] eqn:E; [|discriminate Hok]. apply bool_decide_eq_true in Hok as (Hd & Hy & Hp). split; [exact Hd|]. intros c' Hc.
  destruct (run_flag_unpaired pio unset "/srv" PairDemo.init PairDemo.polls ∅ f' s c E ltac:(discriminate) Hy Hp no_yaml unset None c' eq_refl Hc) as (H1 & _ & H2). exact (conj H1 H2).
Defined.

(** The command refuses to replace a pinned owner, which the daemon's own pairing would not. *)
Example pair_keeps_pin : (runPair (MkPairIo (p_keys pio) (p_token pio) BootDemo.pin_file FileMissing true true (p_write pio)) unset "/srv" PairDemo.init PairDemo.polls ∅).2 = Err (PPin ErrAdminPinAlreadySet).
Proof. vm_compute. reflexivity. Qed.

Lemma reroll_command_witness : ∃ cur next, runReroll (Some cfg) true [Some 0%Z; Some 9%Z; Some 77%Z] 6 true None (Content (Some (subnetAt 9 5))) = Some (RDone cur next, Content (Some next)) ∧ SubnetV4 next ≠ SubnetV4 cur.
Proof.
  assert (Hd : draws_ok [Some 0%Z; Some 9%Z; Some 77%Z]).
  { intros n Hn. rewrite !elem_of_cons in Hn. unfold subnetCount. destruct Hn as [[= ->]|[[= ->]|[[= ->]|Hn]]]; [lia|lia|lia|by apply elem_of_nil in Hn]. }
  assert (E : runReroll (Some cfg) true [Some 0%Z; Some 9%Z; Some 77%Z] 6 true None (Content (Some (subnetAt 9 5))) = Some (RDone (subnetAt 9 5) (subnetAt 77 6), Content (Some (subnetAt 77 6)))) by (vm_compute; reflexivity).
  exists (subnetAt 9 5), (subnetAt 77 6). split; [exact E|]. destruct (reroll_command _ _ _ _ _ _ _ _ _ Hd E) as (_ & _ & _ & _ & cur & Hl & Hne & _). vm_compute in Hl. injection Hl as <-. exact Hne.
Defined.
End StartDemo.
