(* ===== verification/Issuer.v ===== *)
(** * internal/certs/issuer.go: obtaining a certificate

    (Last section: internal/smtp/tlscert.go, the mail gateway's own certificate.)

    IssueCert with its account key and registration files and the DNS-01 provider, over the file
    system of Files.v, and PathsFor of registry.go. lego and the ACME service are the record
    [acme] (what they answer and which records they ask for, in which order); the encodings of
    the account key (PEM, SEC 1) and of lego's registration are parameters ([AcmeCodec]), as is
    the reading of a certificate ([CertCodec]). [events] are the calls that leave the process. *)

From S2P Require Import Prelude NetAddr Certs AclStore Files.

Class AcmeCodec := {
  pem_encode : string → string;            (* MarshalECPrivateKey, pem.EncodeToMemory *)
  pem_decode : string → option string;     (* pem.Decode, ParseECPrivateKey *)
  reg_encode : string → string;            (* json.Marshal of the registration with this URI *)
  reg_decode : string → option string      (* json.Unmarshal: the URI *)
}.
Class AcmeLaw (C : AcmeCodec) : Prop := {
  pem_roundtrip : ∀ k, pem_decode (pem_encode k) = Some k;
  reg_roundtrip : ∀ u, reg_decode (reg_encode u) = Some u
}.

(** ** The DNS-01 provider *)

Inductive event :=
| Register (key : string)                            (* a new account for this key *)
| DNS (present : bool) (fqdn value : string)         (* DNSPresent, DNSCleanup *)
| Order (key uri domain : string).                   (* the account and the name *)

(** A call of the provider: Present or CleanUp, with what GetChallengeInfo returns. *)
Record provider_call := MkCall { pc_present : bool; EffectiveFQDN : string; pc_value : string }.

(** Present and CleanUp: the request to the coordination service, or the refusal. *)
Definition provider (currentSuffix deviceID : string) (pc : provider_call) : option event :=
  let fqdn := trim_suffix (EffectiveFQDN pc) "." in
  if isAllowedFQDN currentSuffix deviceID fqdn then Some (DNS (pc_present pc) fqdn (pc_value pc)) else None.

(** ** IssueCert *)

(** lego.NewClient, Register's account URI, SetDNS01Provider, the calls of the provider during
    Obtain and Obtain's certificate and key. *)
Record acme := MkAcme {
  ac_client : bool;
  ac_register : option string;
  ac_provider : bool;
  ac_calls : list provider_call;
  ac_obtain : option (string * string)
}.

(** The directories, whether the two account files can be read, a new key, and the four writes. A
    process that is killed leaves the disk of a run in which the write it was in is cut short, or
    the next one is refused. *)
Record issue_io := MkIssueIo {
  i_keysDir : bool;
  i_readable : bool;
  i_certDir : bool;
  i_newKey : option string;
  i_key : write_io;
  i_reg : write_io;
  i_cert : write_io;
  i_private : write_io
}.

Inductive issue_error := IEmptySuffix | IKeysDir | ICertDir | IAccountKey | IClient | IRegister | IWriteReg | IProvider | IObtain | IWriteCert | IWriteKey.

Section Issuer.
Context `{Unicode} `{AcmeCodec}.
Variables keysDir deviceID : string.

Definition accountPath : string := Join keysDir "acme_account.key".
Definition regPath : string := Join keysDir "registration.json".

Definition loadOrCreateAccountKey (io : issue_io) (f : fs) : fs * option string :=
  match (if i_readable io then f !! accountPath ≫= pem_decode else None) with
  | Some key => (f, Some key)
  | None =>
      match i_newKey io with
      | None => (f, None)
      | Some key =>
          let '(f', ok) := WriteFile (i_key io) accountPath (pem_encode key) f in
          (f', if ok then Some key else None)
      end
  end.

(** The registration on disk, when it has a URI. *)
Definition loadRegistration (io : issue_io) (f : fs) : option string :=
  u ← (if i_readable io then f !! regPath else None) ≫= reg_decode; if u <>s "" then Some u else None.

(** The account of the user, registered when there is none on disk. *)
Definition register (io : issue_io) (a : acme) (key : string) (f : fs) : fs * list event * result issue_error string :=
  match loadRegistration io f with
  | Some uri => (f, [], Ok uri)
  | None =>
      match ac_register a with
      | None => (f, [Register key], Err IRegister)
      | Some uri =>
          let '(f', ok) := WriteFile (i_reg io) regPath (reg_encode uri) f in
          (f', [Register key], if ok then Ok uri else Err IWriteReg)
      end
  end.

Definition IssueCert (io : issue_io) (a : acme) (suffix certPath keyPath : string) (f : fs) : fs * list event * result issue_error unit :=
  let suffix := normaliseHost suffix in
  if suffix =s "" then (f, [], Err IEmptySuffix)
  else if negb (i_keysDir io) then (f, [], Err IKeysDir)
  else if negb (i_certDir io) then (f, [], Err ICertDir)
  else match loadOrCreateAccountKey io f with
  | (f, None) => (f, [], Err IAccountKey)
  | (f, Some key) =>
      if negb (ac_client a) then (f, [], Err IClient)
      else match register io a key f with
      | (f, ev, Err e) => (f, ev, Err e)
      | (f, ev, Ok uri) =>
          if negb (ac_provider a) then (f, ev, Err IProvider)
          else
            let ev := ev ++ [Order key uri ("*." +:+ suffix)] ++ omap (provider suffix deviceID) (ac_calls a) in
            match ac_obtain a with
            | None => (f, ev, Err IObtain)
            | Some (cert, priv) =>
                let '(f, ok) := WriteFile (i_cert io) certPath cert f in
                if negb ok then (f, ev, Err IWriteCert)
                else
                  let '(f, ok) := WriteFile (i_private io) keyPath priv f in
                  (f, ev, guard_err ok IWriteKey)
            end
      end
  end.
End Issuer.

(** Registry.PathsFor; [made] tells whether the directory can be created. *)
Definition PathsFor `{Unicode} (rootDir : string) (made : bool) (host : string) : result cert_error (string * string) :=
  let host := normaliseHost host in
  if host =s "" then Err ErrEmptyHost
  else
    let dir := Join rootDir host in
    if negb made then Err ErrPaths else Ok (Join dir "cert.pem", Join dir "key.pem").

(** ** Names *)

Section Theorems.
Context `{Unicode} `{C : AcmeCodec} `{!AcmeLaw C}.
Variables keysDir deviceID : string.
Notation accountPath := (accountPath keysDir).
Notation regPath := (regPath keysDir).

(** A path that is not one of the account's files. *)
Definition apart (p : string) : Prop := p ≠ accountPath ∧ p ≠ tmp_of accountPath ∧ p ≠ regPath ∧ p ≠ tmp_of regPath.

Lemma apart_name dir n : plain n = true → n ≠ "acme_account.key" → n ≠ "acme_account.key.tmp" → n ≠ "registration.json" → n ≠ "registration.json.tmp" → apart (Join dir n).
Proof.
  intros. unfold apart, Issuer.accountPath, Issuer.regPath. rewrite !tmp_Join by done. split_and!; apply Join_names_ne; done.
Qed.

Lemma WriteFile_frame io path data f p : p ≠ path → p ≠ tmp_of path → (WriteFile io path data f).1 !! p = f !! p.
Proof. intros. by apply (crashed_atomic path data f (WriteFile io path data f).1 (crash_after _ _ _ _)). Qed.

Lemma account_files_ne : regPath ≠ accountPath ∧ regPath ≠ tmp_of accountPath ∧ accountPath ≠ tmp_of regPath.
Proof. unfold Issuer.accountPath, Issuer.regPath. rewrite !tmp_Join by done. split_and!; apply Join_names_ne; done. Qed.

(** What the account key step leaves. *)
Lemma account_key_effect io f f' o : loadOrCreateAccountKey keysDir io f = (f', o) →
  f' !! regPath = f !! regPath ∧ (∀ p, apart p → f' !! p = f !! p) ∧
  (∀ k, i_readable io = true → f !! accountPath ≫= pem_decode = Some k → f' = f ∧ o = Some k) ∧
  (∀ k, o = Some k → f' !! accountPath ≫= pem_decode = Some k).
Proof.
  destruct account_files_ne as (N1 & N2 & _). unfold loadOrCreateAccountKey. destruct (if i_readable io then _ else _) as [k|] eqn:E.
  - intros [= <- <-]. split_and!; [done|done|intros k' Hr Hk; rewrite Hr in E; naive_solver|]. intros k' [= <-]. by destruct (i_readable io).
  - destruct (i_newKey io) as [k|]; [|intros [= <- <-]; split_and!; [done|done|intros k' Hr Hk; rewrite Hr in E; naive_solver|done]].
    destruct (WriteFile _ _ _ _) as [f1 ok] eqn:Ew. intros [= <- <-].
    assert (Hf : ∀ p, p ≠ accountPath → p ≠ tmp_of accountPath → f1 !! p = f !! p) by (intros; change f1 with (f1, ok).1; rewrite <- Ew; by apply WriteFile_frame).
    split_and!; [by apply Hf|intros p (? & ? & _); by apply Hf|intros k' Hr Hk; rewrite Hr in E; naive_solver|].
    intros k' Hk. destruct ok; [|done]. injection Hk as <-. apply WriteFile_result in Ew. rewrite Ew. cbn. apply pem_roundtrip.
Qed.

(** What the registration step leaves. *)
Lemma register_effect io a key f f' ev r : register keysDir io a key f = (f', ev, r) →
  f' !! accountPath = f !! accountPath ∧ (∀ p, apart p → f' !! p = f !! p) ∧
  (∀ u, i_readable io = true → f !! regPath ≫= reg_decode = Some u → u ≠ "" → f' = f ∧ ev = [] ∧ r = Ok u) ∧
  (∀ u, r = Ok u → f' !! regPath ≫= reg_decode = Some u) ∧ (∀ e, e ∈ ev → e = Register key).
Proof.
  destruct account_files_ne as (N1 & _ & N3). unfold register. destruct (loadRegistration keysDir io f) as [u|] eqn:E; unfold loadRegistration in E.
  - apply bind_Some in E as (u' & E & Eu). destruct (i_readable io); [|done]. destruct (u' =s "") eqn:Es; cbn in Eu; [done|]. injection Eu as ->. intros [= <- <- <-].
    split_and!; [done|done|intros u1 _ Hu1; naive_solver|naive_solver|set_solver].
  - assert (Hno : ∀ u, i_readable io = true → f !! regPath ≫= reg_decode = Some u → u ≠ "" → False).
    { intros u Hr Hu Hn. rewrite Hr, Hu in E. cbn in E. by rewrite (proj2 (seqb_false _ _) Hn) in E. }
    destruct (ac_register a) as [u|]; [|intros [= <- <- <-]; split_and!; [done|done|naive_solver|done|set_solver]].
    destruct (WriteFile _ _ _ _) as [f1 ok] eqn:Ew. intros [= <- <- <-].
    assert (Hf : ∀ p, p ≠ regPath → p ≠ tmp_of regPath → f1 !! p = f !! p) by (intros; change f1 with (f1, ok).1; rewrite <- Ew; by apply WriteFile_frame).
    split_and!; [apply Hf; [by apply not_eq_sym|done]|intros p (_ & _ & ? & ?); by apply Hf|naive_solver| |set_solver].
    intros u' Hu. destruct ok; [|done]. injection Hu as <-. apply WriteFile_result in Ew. rewrite Ew. cbn. apply reg_roundtrip.
Qed.

(** A run ends before the order, with the certificate's files untouched, or places it. *)
Inductive issue_run (io : issue_io) (a : acme) (suffix cp kp : string) (f : fs) : fs → list event → result issue_error unit → Prop :=
| run_early f' ev e : (∀ p, apart p → f' !! p = f !! p) →
    (∀ x, x ∈ ev → ∃ key, x = Register key ∧ f' !! accountPath ≫= pem_decode = Some key) →
    (i_readable io = true → is_Some (f !! accountPath ≫= pem_decode) → f' !! accountPath = f !! accountPath) →
    (i_readable io = true → ∀ u, f !! regPath ≫= reg_decode = Some u → u ≠ "" → ev = [] ∧ f' !! regPath = f !! regPath) →
    issue_run io a suffix cp kp f f' ev (Err e)
| run_late f1 f2 key uri ev : loadOrCreateAccountKey keysDir io f = (f1, Some key) → register keysDir io a key f1 = (f2, ev, Ok uri) →
    issue_run io a suffix cp kp f
      match ac_obtain a with
      | None => f2
      | Some (cert, priv) => let '(f3, ok) := WriteFile (i_cert io) cp cert f2 in if ok then (WriteFile (i_private io) kp priv f3).1 else f3
      end
      (ev ++ [Order key uri ("*." +:+ normaliseHost suffix)] ++ omap (provider (normaliseHost suffix) deviceID) (ac_calls a))
      match ac_obtain a with
      | None => Err IObtain
      | Some (cert, priv) => let '(f3, ok) := WriteFile (i_cert io) cp cert f2 in if ok then guard_err (WriteFile (i_private io) kp priv f3).2 IWriteKey else Err IWriteCert
      end.

Lemma IssueCert_run io a suffix cp kp f f' ev r : IssueCert keysDir deviceID io a suffix cp kp f = (f', ev, r) → issue_run io a suffix cp kp f f' ev r.
Proof.
  unfold IssueCert. assert (Hnone : ∀ e, issue_run io a suffix cp kp f f [] (Err e)) by (intros e; constructor; [done|set_solver|done|done]).
  destruct (_ =s ""); [by intros [= <- <- <-]|]. destruct (i_keysDir io); [|by intros [= <- <- <-]]. destruct (i_certDir io); [|by intros [= <- <- <-]]. cbn [negb].
  destruct (loadOrCreateAccountKey keysDir io f) as [f1 o] eqn:Ek. destruct (account_key_effect _ _ _ _ Ek) as (K1 & K2 & K3 & K4).
  assert (Hkey : i_readable io = true → is_Some (f !! accountPath ≫= pem_decode) → f1 !! accountPath = f !! accountPath).
  { intros Hr [k Hk]. by destruct (K3 k Hr Hk) as [-> _]. }
  destruct o as [key|]; [|intros [= <- <- <-]; constructor; [done|set_solver|done|done]].
  destruct (ac_client a); cbn [negb]; [|intros [= <- <- <-]; constructor; [done|set_solver|done|done]].
  destruct (register keysDir io a key f1) as [[f2 ev2] r2] eqn:Er. destruct (register_effect _ _ _ _ _ _ _ Er) as (R1 & R2 & R3 & R4 & R5).
  assert (Hearly : ∀ e, issue_run io a suffix cp kp f f2 ev2 (Err e)).
  { intros e. constructor; [intros p Hp; by rewrite R2, K2| | |].
    - intros x Hx. exists key. split; [by apply R5|]. rewrite R1. by apply K4.
    - intros Hr Hk. rewrite R1. by apply Hkey.
    - intros Hr u Hu Hn. rewrite <- K1 in Hu. destruct (R3 u Hr Hu Hn) as (-> & -> & _). by rewrite K1. }
  destruct r2 as [uri|e]; [|intros [= <- <- <-]; apply Hearly]. destruct (ac_provider a); cbn [negb]; [|intros [= <- <- <-]; apply Hearly].
  pose proof (run_late io a suffix cp kp f f1 f2 key uri ev2 Ek Er) as Hl. destruct (ac_obtain a) as [[cert priv]|]; [|by intros [= <- <- <-]].
  destruct (WriteFile (i_cert io) cp cert f2) as [f3 ok]. destruct ok; cbn [negb]; [|by intros [= <- <- <-]].
  destruct (WriteFile (i_private io) kp priv f3) as [f4 ok]. intros [= <- <- <-]. exact Hl.
Qed.

Section Dir.
Variable dir : string.
Notation certPath := (Join dir "cert.pem").
Notation keyPath := (Join dir "key.pem").
Notation IssueCert := (λ io a suffix f, IssueCert keysDir deviceID io a suffix certPath keyPath f).

Lemma late_frame io cert priv f p : p ≠ certPath → p ≠ tmp_of certPath → p ≠ keyPath → p ≠ tmp_of keyPath →
  (let '(f3, ok) := WriteFile (i_cert io) certPath cert f in if ok then (WriteFile (i_private io) keyPath priv f3).1 else f3) !! p = f !! p.
Proof.
  intros. destruct (WriteFile (i_cert io) _ _ _) as [f3 ok] eqn:E. assert (E3 : f3 !! p = f !! p) by (change f3 with (f3, ok).1; rewrite <- E; by apply WriteFile_frame).
  destruct ok; [|done]. by rewrite WriteFile_frame.
Qed.

Lemma account_late io a f2 : let f' := match ac_obtain a with
  | None => f2
  | Some (cert, priv) => let '(f3, ok) := WriteFile (i_cert io) certPath cert f2 in if ok then (WriteFile (i_private io) keyPath priv f3).1 else f3
  end in f' !! accountPath = f2 !! accountPath ∧ f' !! regPath = f2 !! regPath.
Proof.
  destruct (ac_obtain a) as [[cert priv]|]; [|done]. cbv zeta. unfold Issuer.accountPath, Issuer.regPath.
  split; apply late_frame; rewrite ?tmp_Join by done; apply Join_names_ne; done.
Qed.

(** What leaves the process. Each record a run asks the coordination service to write or delete
    is the challenge name of the suffix it issues for, or has the agent's own device id as a
    label; the one order is for the wildcard of the suffix, under the account key and the
    registration that are on disk when the run ends; and only an account with a key on disk is
    registered. *)
Theorem issue_scoped io a suffix f f' ev r : IssueCert io a suffix f = (f', ev, r) → contains_byte "." deviceID = false → ∀ e, e ∈ ev →
  match e with
  | DNS _ fqdn _ => fqdn = "_acme-challenge." +:+ normaliseHost suffix ∨ deviceID ≠ "" ∧ deviceID ∈ split_on "." fqdn
  | Order key uri domain => domain = "*." +:+ normaliseHost suffix ∧ f' !! accountPath ≫= pem_decode = Some key ∧ f' !! regPath ≫= reg_decode = Some uri
  | Register key => f' !! accountPath ≫= pem_decode = Some key
  end.
Proof.
  intros Hrun Hdot. apply IssueCert_run in Hrun as [f1 ev1 e1 _ Hev _ _|f1 f2 key uri ev1 Ek Er]; intros e He; [by destruct (Hev e He) as (k & -> & Hk)|].
  destruct (account_key_effect _ _ _ _ Ek) as (_ & _ & _ & K4). destruct (register_effect _ _ _ _ _ _ _ Er) as (R1 & _ & _ & R4 & R5).
  destruct (account_late io a f2) as [A1 A2]. cbv zeta in A1, A2.
  apply elem_of_app in He as [He|He]; [rewrite (R5 e He), A1, R1; by apply K4|]. apply elem_of_app in He as [He|He].
  - apply list_elem_of_singleton in He as ->. rewrite A1, A2, R1. split_and!; [done|by apply K4|by apply R4].
  - apply list_elem_of_omap in He as (pc & _ & He). unfold provider in He. destruct (isAllowedFQDN _ _ _) eqn:Ea; [|done]. injection He as <-.
    destruct (decide (deviceID = "")) as [->|Hid].
    + left. unfold isAllowedFQDN in Ea. destruct (_ =s _) eqn:E; [by apply seqb_true in E|]. by rewrite seqb_refl in Ea.
    + apply isAllowedFQDN_labels in Ea as [?|?]; [by left|by right|done|done].
Qed.
End Dir.

(** A run for some suffix, with the account files readable. *)
Definition issued (f f' : fs) : Prop := ∃ io a suffix dir, i_readable io = true ∧ f' = (IssueCert keysDir deviceID io a suffix (Join dir "cert.pem") (Join dir "key.pem") f).1.1.

Definition account (key uri : string) (f : fs) : Prop := f !! accountPath ≫= pem_decode = Some key ∧ f !! regPath ≫= reg_decode = Some uri ∧ uri ≠ "".

Lemma account_kept io a suffix dir f f' ev r key uri : i_readable io = true → account key uri f →
  IssueCert keysDir deviceID io a suffix (Join dir "cert.pem") (Join dir "key.pem") f = (f', ev, r) →
  account key uri f' ∧ ∀ e, e ∈ ev → match e with Register _ => False | Order k u _ => k = key ∧ u = uri | DNS _ _ _ => True end.
Proof.
  intros Hr (Hk & Hu & Hn) Hrun. apply IssueCert_run in Hrun as [f1 ev1 e1 _ _ Hkk Huu|f1 f2 k u ev1 Ek Er].
  - destruct (Huu Hr uri Hu Hn) as [-> Eu]. split; [|intros e He; by apply elem_of_nil in He]. unfold account. rewrite Hkk, Eu by (done || by eexists). done.
  - destruct (account_key_effect _ _ _ _ Ek) as (K1 & _ & K3 & _). destruct (K3 key Hr Hk) as [-> [= ->]].
    destruct (register_effect _ _ _ _ _ _ _ Er) as (R1 & _ & R3 & _). destruct (R3 uri Hr Hu Hn) as (-> & -> & [= ->]).
    destruct (account_late dir io a f) as [A1 A2]. cbv zeta in A1, A2. split; [unfold account; by rewrite A1, A2|]. intros e He.
    apply elem_of_app in He as [He|He]; [by apply elem_of_nil in He|]. apply elem_of_app in He as [He|He]; [by apply list_elem_of_singleton in He as ->|].
    apply list_elem_of_omap in He as (pc & _ & He). unfold provider in He. destruct (isAllowedFQDN _ _ _); [|done]. by injection He as <-.
Qed.

(** The ACME account is made once. When the disk holds an account key and a registration, then
    after any number of runs, for whatever suffixes, cut short wherever they were, a further run
    never registers again and places its order under that very key and registration. *)
Theorem account_once key uri f0 f : account key uri f0 → rtc issued f0 f →
  ∀ io a suffix dir f' ev r, i_readable io = true → IssueCert keysDir deviceID io a suffix (Join dir "cert.pem") (Join dir "key.pem") f = (f', ev, r) →
    ∀ e, e ∈ ev → match e with Register _ => False | Order k u _ => k = key ∧ u = uri | DNS _ _ _ => True end.
Proof.
  intros Ha Hr. assert (Hf : account key uri f).
  { induction Hr as [|f0 f1 f (io & a & suffix & dir & Hio & ->) _ IH]; [done|]. apply IH.
    destruct (IssueCert keysDir deviceID io a suffix (Join dir "cert.pem") (Join dir "key.pem") f0) as [[f' ev] r] eqn:E. by eapply account_kept. }
  intros io a suffix dir f' ev r Hio E. by eapply account_kept.
Qed.

(** A damaged account key file parts the key from its account. When the key file is there but
    does not parse, a run makes a new key, keeps the old registration, and orders under the new
    key with the URI of the account of the old one, without registering the new key; and so does
    every later run. *)
Theorem account_key_parted io a suffix dir f f' ev r key uri : f !! accountPath ≫= pem_decode = None → f !! regPath ≫= reg_decode = Some uri → uri ≠ "" →
  i_readable io = true → i_newKey io = Some key → i_key io = MkWrite true None true →
  IssueCert keysDir deviceID io a suffix (Join dir "cert.pem") (Join dir "key.pem") f = (f', ev, r) → ev ≠ [] →
  Order key uri ("*." +:+ normaliseHost suffix) ∈ ev ∧ (∀ k, Register k ∉ ev) ∧ account key uri f'.
Proof.
  intros Hk Hu Hn Hr Hnew Hw Hrun. apply IssueCert_run in Hrun as [f1 ev1 e1 _ _ _ Huu|f1 f2 k u ev1 Ek Er]; intros Hev.
  - by destruct (Huu Hr uri Hu Hn) as [-> _].
  - destruct (account_key_effect _ _ _ _ Ek) as (K1 & _ & _ & K4). assert (k = key) as ->.
    { unfold loadOrCreateAccountKey in Ek. rewrite Hr, Hk, Hnew in Ek. destruct (WriteFile _ _ _ _) as [g ok]. destruct ok; [|done]. by injection Ek. }
    rewrite <- K1 in Hu. destruct (register_effect _ _ _ _ _ _ _ Er) as (R1 & _ & R3 & R4 & _). destruct (R3 uri Hr Hu Hn) as (-> & -> & [= ->]).
    destruct (account_late dir io a f1) as [A1 A2]. cbv zeta in A1, A2. split_and!; [set_solver| |].
    + intros k [He|He]%elem_of_app; [by apply elem_of_nil in He|]. apply elem_of_app in He as [He|He]; [by apply list_elem_of_singleton in He|].
      apply list_elem_of_omap in He as (pc & _ & He). unfold provider in He. by destruct (isAllowedFQDN _ _ _).
    + unfold account. rewrite A1, A2. split_and!; [by apply K4|done|done].
Qed.

(** ** The certificate manager's view of a run *)

(** The first certificate of cert.pem, and whether tls.LoadX509KeyPair takes the two files. *)
Variables (parse_leaf : string → option leaf) (key_pairs : string → string → bool).

Definition on_disk (dir : string) (f : fs) : option files :=
  cert ← f !! Join dir "cert.pem"; c ← parse_leaf cert;
  Some (MkFiles c (match f !! Join dir "key.pem" with Some k => key_pairs cert k | None => false end)).

Lemma on_disk_same dir f f' : f' !! Join dir "cert.pem" = f !! Join dir "cert.pem" → f' !! Join dir "key.pem" = f !! Join dir "key.pem" → on_disk dir f' = on_disk dir f.
Proof. intros E1 E2. unfold on_disk. by rewrite E1, E2. Qed.

End Theorems.

(** ** internal/smtp/tlscert.go *)

Section SelfSigned.
(** tls.LoadX509KeyPair's check of two files, and the end of validity of the first certificate. *)
Variables (key_pairs : string → string → bool) (not_after : string → option Z).

Definition tlsCertFile : string := "smtp_tls_cert.pem".
Definition tlsKeyFile : string := "smtp_tls_key.pem".

Inductive tls_error := TGenerate | TWriteCert | TWriteKey | TPair.

(** The PEM texts of a new key and its self-signed certificate, and the two writes. *)
Record tls_io := MkTlsIo { t_new : option (string * string); t_cert : write_io; t_key : write_io }.

Definition generateTLSCert (io : tls_io) (certPath keyPath : string) (f : fs) : fs * result tls_error (string * string) :=
  match t_new io with
  | None => (f, Err TGenerate)
  | Some (cert, key) =>
      let '(f, ok) := WriteFile (t_cert io) certPath cert f in
      if negb ok then (f, Err TWriteCert)
      else
        let '(f, ok) := WriteFile (t_key io) keyPath key f in
        if negb ok then (f, Err TWriteKey)
        else (f, if key_pairs cert key then Ok (cert, key) else Err TPair)
  end.

(** The pair on disk, when it loads and has not run out. *)
Definition usable_pair (now : Z) (certPath keyPath : string) (f : fs) : option (string * string) :=
  cert ← f !! certPath; key ← f !! keyPath;
  if key_pairs cert key then (t ← not_after cert; if (now <? t)%Z then Some (cert, key) else None) else None.

Definition loadOrGenerateTLSCert (now : Z) (io : tls_io) (dataDir : string) (f : fs) : fs * result tls_error (string * string) :=
  let certPath := Join dataDir tlsCertFile in
  let keyPath := Join dataDir tlsKeyFile in
  match usable_pair now certPath keyPath f with
  | Some p => (f, Ok p)
  | None => generateTLSCert io certPath keyPath f
  end.

(** The mail gateway always gets back to a certificate. Whatever the two files hold, a pair that
    a killed start left half replaced included, a start in which nothing fails serves a
    certificate with its own key that is valid now; and a certificate that was served is the one
    every start serves, without touching the disk, until it runs out. *)
Theorem tls_self_heals now io dataDir f f' p : loadOrGenerateTLSCert now io dataDir f = (f', Ok p) →
  (∀ cert key, t_new io = Some (cert, key) → ∃ t, not_after cert = Some t ∧ (now < t)%Z) →
  key_pairs p.1 p.2 = true ∧ (∃ t, not_after p.1 = Some t ∧ (now < t)%Z ∧
    ∀ now' io', (now' < t)%Z → loadOrGenerateTLSCert now' io' dataDir f' = (f', Ok p)).
Proof.
  assert (Hn : Join dataDir tlsCertFile ≠ Join dataDir tlsKeyFile ∧ Join dataDir tlsCertFile ≠ tmp_of (Join dataDir tlsKeyFile)).
  { rewrite tmp_Join by done. split; apply Join_names_ne; done. } destruct Hn as [N1 N2].
  assert (Hread : ∀ cert key t, f' !! Join dataDir tlsCertFile = Some cert → f' !! Join dataDir tlsKeyFile = Some key → key_pairs cert key = true → not_after cert = Some t →
    ∀ now' io', (now' < t)%Z → loadOrGenerateTLSCert now' io' dataDir f' = (f', Ok (cert, key))).
  { intros cert key t E1 E2 Ep Et now' io' Hlt. unfold loadOrGenerateTLSCert, usable_pair. rewrite E1, E2. cbn [mbind option_bind]. rewrite Ep, Et. cbn [mbind option_bind]. by rewrite (proj2 (Z.ltb_lt _ _) Hlt). }
  unfold loadOrGenerateTLSCert at 1. destruct (usable_pair _ _ _ _) as [[cert key]|] eqn:Eu.
  - intros [= <- <-] _. unfold usable_pair in Eu. apply bind_Some in Eu as (c & E1 & Eu). apply bind_Some in Eu as (k & E2 & Eu). destruct (key_pairs c k) eqn:Ep; [|done].
    apply bind_Some in Eu as (t & Et & Eu). destruct (Z.ltb_spec now t); [|done]. injection Eu as <- <-. split; [done|]. exists t. split_and!; [done|done|by apply Hread].
  - unfold generateTLSCert. destruct (t_new io) as [[cert key]|]; [|done]. destruct (WriteFile (t_cert io) _ _ _) as [f1 ok1] eqn:E1. destruct ok1; [|done]. cbn [negb].
    destruct (WriteFile (t_key io) _ _ _) as [f2 ok2] eqn:E2. destruct ok2; [|done]. cbn [negb]. destruct (key_pairs cert key) eqn:Ep; [|done]. intros [= -> <-] Hv.
    destruct (Hv cert key eq_refl) as (t & Et & Hlt). split; [done|]. exists t. split_and!; [done|done|]. apply Hread; [|by apply WriteFile_result in E2|done|done].
    change f' with (f', true).1. rewrite <- E2, WriteFile_frame by done. by apply WriteFile_result in E1.
Qed.
End SelfSigned.

(** ** Runs *)

Module IssuerDemo.
#[local] Existing Instance CertDemo.ascii_only.
#[local] Instance codec : AcmeCodec := {|
  pem_encode k := "PEM:" +:+ k;
  pem_decode s := if has_prefix s "PEM:" then Some (sdrop 4 s) else None;
  reg_encode u := "URI:" +:+ u;
  reg_decode s := if has_prefix s "URI:" then Some (sdrop 4 s) else None
|}.
#[local] Instance codec_law : AcmeLaw codec.
Proof. split; intros x; by destruct x. Qed.

Definition ok_write : write_io := MkWrite true None true.
Definition io : issue_io := MkIssueIo true true true (Some "K1") ok_write ok_write ok_write ok_write.
Definition calls : list provider_call :=
  [MkCall true "_acme-challenge.home.example." "v"; MkCall true "_acme-challenge.dev1.link.example." "v"; MkCall true "_acme-challenge.dev12.link.example." "v";
   MkCall false "_acme-challenge.home.example." "v"].
Definition acme0 : acme := MkAcme true (Some "https://acme/1") true calls (Some ("cert:home.example", "key1")).
Definition dir : string := "/d/certs/home.example".
Definition run1 : fs * list event * result issue_error unit := IssueCert "/d/keys" "dev1" io acme0 "*.Home.example." (Join dir "cert.pem") (Join dir "key.pem") ∅.

Example first_issue : run1.1.2 = [Register "K1"; Order "K1" "https://acme/1" "*.home.example"; DNS true "_acme-challenge.home.example" "v";
  DNS true "_acme-challenge.dev1.link.example" "v"; DNS false "_acme-challenge.home.example" "v"] ∧ run1.2 = Ok tt.
Proof. vm_compute. done. Qed.

Lemma issue_scoped_witness : Order "K1" "https://acme/1" "*.home.example" ∈ run1.1.2 ∧
  run1.1.1 !! accountPath "/d/keys" ≫= pem_decode = Some "K1".
Proof.
  split; [rewrite (proj1 first_issue); right; left|]. destruct run1 as [[f' ev] r] eqn:E. pose proof first_issue as [Hev _]. rewrite E in Hev. cbn in Hev.
  refine (issue_scoped "/d/keys" "dev1" dir io acme0 "*.Home.example." ∅ f' ev r E eq_refl (Register "K1") _). rewrite Hev. left.
Defined.

Definition account1 : fs := run1.1.1.
Lemma account1_ok : account "/d/keys" "K1" "https://acme/1" account1.
Proof. split_and!; vm_compute; done. Qed.
Lemma account_once_witness : account "/d/keys" "K1" "https://acme/1" account1 ∧
  ∀ e, e ∈ (IssueCert "/d/keys" "dev1" io acme0 "other.example" (Join "/d/certs/o" "cert.pem") (Join "/d/certs/o" "key.pem") account1).1.2 →
    match e with Register _ => False | Order k u _ => k = "K1" ∧ u = "https://acme/1" | DNS _ _ _ => True end.
Proof.
  split; [exact account1_ok|]. destruct (IssueCert _ _ io acme0 "other.example" _ _ account1) as [[f' ev] r] eqn:E.
  exact (account_once "/d/keys" "dev1" "K1" "https://acme/1" account1 account1 account1_ok (rtc_refl _ _) io acme0 "other.example" "/d/certs/o" f' ev r eq_refl E).
Defined.

Definition damaged : fs := <["/d/keys/acme_account.key" := "garbage"]> account1.
Definition io2 : issue_io := MkIssueIo true true true (Some "K2") ok_write ok_write ok_write ok_write.
Lemma account_key_parted_witness : Order "K2" "https://acme/1" "*.home.example" ∈
  (IssueCert "/d/keys" "dev1" io2 acme0 "home.example" (Join dir "cert.pem") (Join dir "key.pem") damaged).1.2.
Proof.
  assert (Hne : (IssueCert "/d/keys" "dev1" io2 acme0 "home.example" (Join dir "cert.pem") (Join dir "key.pem") damaged).1.2 ≠ []) by (vm_compute; discriminate).
  destruct (IssueCert _ _ io2 acme0 "home.example" _ _ damaged) as [[f' ev] r] eqn:E.
  refine (proj1 (account_key_parted "/d/keys" "dev1" io2 acme0 "home.example" dir damaged f' ev r "K2" "https://acme/1" _ _ _ eq_refl eq_refl eq_refl E Hne)); vm_compute; done.
Defined.

Definition leaf_of (s : string) : option leaf := Some (MkLeaf ["*.home.example"] "" (200 * day)).
Definition pairs (c k : string) : bool := k =s "key1".
(** The key file cannot be replaced: the new certificate sits next to the old key. *)
Definition cut_io : issue_io := MkIssueIo true true true (Some "K1") ok_write ok_write ok_write (MkWrite true (Some 2) true).
Definition old : fs := <[Join dir "cert.pem" := "old"]> (<[Join dir "key.pem" := "old-key"]> ∅).

(** The files of two different starts: the key does not belong to the certificate. *)
Definition torn : fs := <["/d/smtp_tls_cert.pem" := "c2"]> (<["/d/smtp_tls_key.pem" := "k1"]> ∅).
Definition mates (c k : string) : bool := stake 1 (sdrop 1 c) =s stake 1 (sdrop 1 k).
Definition healed : fs * result tls_error (string * string) :=
  loadOrGenerateTLSCert mates (λ _, Some 100%Z) 5 (MkTlsIo (Some ("c3", "k3")) ok_write ok_write) "/d" torn.
Lemma tls_self_heals_witness : healed.2 = Ok ("c3", "k3") ∧
  loadOrGenerateTLSCert mates (λ _, Some 100%Z) 60 (MkTlsIo None ok_write ok_write) "/d" healed.1 = (healed.1, Ok ("c3", "k3")).
Proof.
  assert (E : healed = (healed.1, Ok ("c3", "k3"))) by (vm_compute; reflexivity). split; [rewrite E; reflexivity|].
  destruct (tls_self_heals mates (λ _, Some 100%Z) 5 (MkTlsIo (Some ("c3", "k3")) ok_write ok_write) "/d" torn healed.1 ("c3", "k3") E) as (_ & t & [= <-] & _ & H); [|exact (H 60%Z _ eq_refl)].
  intros cert key _. exists 100%Z. done.
Defined.
End IssuerDemo.
