(* ===== verification/Backend.v ===== *)
(** * Backend: reaching an app, and what a refused client sees

    internal/proxy/docker_resolver.go (container names to addresses, with a cache),
    errorpage.go, the listener choice of Server.Start, and the proxy part of agent.Run. Docker's
    answers, the clock, the order in which Go ranges over a map and the rendered HTML pages are
    arguments. *)

From S2P Require Import Prelude Encoding Json CanonJson NetAddr Overlay Crypto Atreolink AclStore Envelope Proxy Relay Certs Files Config.

(** ** url.PathEscape *)

Definition path_safe (c : ascii) : bool :=
  let n := bN c in
  ((97 <=? n) && (n <=? 122) || (65 <=? n) && (n <=? 90) || (48 <=? n) && (n <=? 57))%N ||
  existsb (ceqb c) ["-"; "_"; "."; "~"; "$"; "&"; "+"; ":"; "="; "@"]%char.

Definition upper_hex (n : N) : ascii := if (n <? 10)%N then Nb (48 + n) else Nb (55 + n).

Fixpoint PathEscape (s : string) : string :=
  match s with
  | "" => ""
  | String c r => if path_safe c then String c (PathEscape r)
                  else String "%" (String (upper_hex (bN c / 16)) (String (upper_hex (bN c mod 16)) (PathEscape r)))
  end.

(** ** The resolver *)

Definition resolveTTL : Z := 10 * second.

Record resolveEntry := MkEntry { re_ip : string; re_expires : Z }.
Notation cache := (gmap string resolveEntry).

Definition cached (now : Z) (name : string) (c : cache) : option string :=
  e ← c !! name; if (re_expires e <? now)%Z then None else Some (re_ip e).

Definition store (now : Z) (name ip : string) (c : cache) : cache := <[name := MkEntry ip (now + resolveTTL)%Z]> c.

(** What the Docker socket answers: nothing, or a status and a body. *)
Inductive docker_answer := NoAnswer | Answer (status : Z) (body : string).

Inductive resolve_error := RRequest | RStatus | RDecode | RNoIP.

Definition dec_ip : string → json → option string := dec_struct (λ o kvs, assign dec_string o "IPAddress" kvs).

(** A JSON object into map[string]struct{ IPAddress string }. *)
Definition dec_networks (old : list (string * string)) (j : json) : option (list (string * string)) :=
  match j with
  | JNull => Some []
  | JObj kvs => foldl (λ acc kv, m ← acc; ip ← dec_ip "" kv.2; Some (map_set kv.1 ip m)) (Some old) kvs
  | _ => None
  end.

Definition dec_settings : list (string * string) → json → option (list (string * string)) := dec_struct (λ o kvs, assign dec_networks o "Networks" kvs).
Definition dec_info : list (string * string) → json → option (list (string * string)) := dec_struct (λ o kvs, assign dec_settings o "NetworkSettings" kvs).

Definition container_path (name : string) : string := "/v1.41/containers/" +:+ PathEscape name +:+ "/json".

Section Resolver.
(** The order in which a range visits the networks. *)
Variable visit : list (string * string) → list (string * string).

(** The address in an answer. *)
Definition answer_ip (a : docker_answer) : result resolve_error string :=
  match a with
  | NoAnswer => Err RRequest
  | Answer status body =>
      if negb (status =? 200)%Z then Err RStatus
      else match decoder_decode body with
           | None => Err RDecode
           | Some (j, _) =>
               match dec_info [] j with
               | None => Err RDecode
               | Some nets => of_option RNoIP (snd <$> List.find (λ kv, kv.2 <>s "") (visit nets))
               end
           end
  end.

(** The cache, the result, and the request path when Docker is asked; [docker] is the answer. *)
Definition resolve (now : Z) (docker : docker_answer) (name : string) (c : cache) : cache * result resolve_error string * option string :=
  match cached now name c with
  | Some ip => (c, Ok ip, None)
  | None =>
      let r := answer_ip docker in
      (match r with Ok ip => store now name ip c | Err _ => c end, r, Some (container_path name))
  end.

(** The address that is dialled. *)
Definition dialContext (now : Z) (docker : docker_answer) (addr : string) (c : cache) : cache * string * option string :=
  match SplitHostPort addr with
  | None => (c, addr, None)
  | Some (host, port) =>
      if bool_decide (ParseIP host = None) && (host <>s "localhost") then
        match resolve now docker host c with
        | (c', Ok ip, asked) => (c', JoinHostPort ip port, asked)
        | (c', Err _, asked) => (c', addr, asked)
        end
      else (c, addr, None)
  end.
End Resolver.

(** ** Error pages *)

Record errorContent := MkContent { ec_status : Z; plainBody : string; title : string; message : string; guidance : string }.

Definition errorContents (k : errKind) : errorContent :=
  match k with
  | errKindBadRequest => MkContent 400 "Bad request" "Something went wrong with that request"
      "Your browser sent a request this server couldn't understand." "Try again, and if it keeps happening let the server owner know."
  | errKindNotFound => MkContent 404 "Not found" "App not found" "There's no app at this address."
      "Check the address for typos, or ask the server owner if the app has moved."
  | errKindForbidden => MkContent 403 "Forbidden" "You don't have access" "Your account isn't allowed to open this app."
      "Ask the server owner to grant you access."
  | errKindBadGateway => MkContent 502 "Bad gateway" "The app isn't responding" "The server is up, but the app behind this address didn't answer."
      "The app might be stopped or still starting. Try again in a moment, or let the server owner know."
  end.

Record answer := MkAnswer { an_status : Z; an_headers : list (string * string); an_body : string }.

Definition wantsHTML (r : Request) : bool := contains_sub "text/html" (Header r "Accept").

(** [page] is the template rendered with the content. *)
Definition writeErrorPage (page : errorContent → string) (r : Request) (k : errKind) : answer :=
  let c := errorContents k in
  let common := [("Cache-Control", "no-store"); ("Vary", "Accept")] in
  if negb (wantsHTML r)
  then MkAnswer (ec_status c) (common ++ [("Content-Type", "text/plain; charset=utf-8"); ("X-Content-Type-Options", "nosniff")]) (plainBody c +:+ newline)
  else MkAnswer (ec_status c) (common ++ [("Content-Type", "text/html; charset=utf-8"); ("X-Content-Type-Options", "nosniff")]) (page c).

(** ** The proxy's listener and its wiring *)

(** Server.Start: the address, and whether it speaks TLS. *)
Definition listen_on (reg : option Certs.Registry) (httpsListen httpListen : string) : string * bool :=
  if match reg with Some r => HasAny r | None => false end then (httpsListen, true)
  else (if httpListen <>s "" then httpListen else httpsListen, false).

(** proxy.NewServer as agent.Run calls it; [sufs] is registry.Suffixes(). *)
Definition proxy_of (c : Config) (ov : Overlay) (sufs : list string) : Proxy.Server :=
  MkProxy (ParseTrustedNetworks (ExpandLegacy (ProxyTrustedNetworks (Config.Proxy c)) (SubnetV4 ov)))
    (ParseTrustedNetworks [SubnetV4 ov; SubnetV6 ov]) (GatewayV4 ov) (GatewayV6 ov) sufs.

Definition auth_of (c : Config) (ov : Overlay) (sufs : list string) : Proxy.AuthServer :=
  MkAuthServer (ParseTrustedNetworks (ExpandLegacy (ProxyTrustedNetworks (Config.Proxy c)) (SubnetV4 ov)))
    (ParseTrustedNetworks (ExpandLegacy (TrustedProxies (Config.Proxy c)) (SubnetV4 ov))) sufs.

(** The addresses of the forward-auth endpoint. *)
Definition auth_listens (c : Config) (ov : Overlay) : list string :=
  map (λ a, a +:+ ":" +:+ itoa (AuthPort (Config.Proxy c)))
    (GatewayV4 ov :: if GatewayV4 ov =s LegacyGatewayV4 then [] else [LegacyGatewayV4]).

(** ** Escaped names *)

Fixpoint PathUnescape (s : string) : option string :=
  match s with
  | "" => Some ""
  | String c r => if ceqb c "%" then match r with
                                     | String a (String b r') => x ← Hex.val a; y ← Hex.val b; rest ← PathUnescape r'; Some (String (Nb (x * 16 + y)) rest)
                                     | _ => None
                                     end
                  else rest ← PathUnescape r; Some (String c rest)
  end.

Lemma upper_hex_val n : (n < 16)%N → Hex.val (upper_hex n) = Some n ∧ forallb (λ c, negb (ceqb (upper_hex n) c)) ["/"; "?"; "#"; "%"]%char = true.
Proof.
  intros Hn. apply (bool_decide_eq_true_1 (Hex.val (upper_hex n) = Some n ∧ forallb (λ c, negb (ceqb (upper_hex n) c)) ["/"; "?"; "#"; "%"]%char = true)).
  assert (Hall : forallb (λ k, bool_decide (Hex.val (upper_hex (N.of_nat k)) = Some (N.of_nat k) ∧ forallb (λ c, negb (ceqb (upper_hex (N.of_nat k)) c)) ["/"; "?"; "#"; "%"]%char = true)) (seq 0 16) = true) by (vm_compute; reflexivity).
  rewrite forallb_forall in Hall. specialize (Hall (N.to_nat n)). rewrite N2Nat.id in Hall. apply Hall, in_seq. lia.
Qed.

Lemma path_safe_plain c : path_safe c = true → forallb (λ d, negb (ceqb c d)) ["/"; "?"; "#"; "%"]%char = true.
Proof.
  assert (Hall : forallb (λ k, let c := Nb (N.of_nat k) in implb (path_safe c) (forallb (λ d, negb (ceqb c d)) ["/"; "?"; "#"; "%"]%char)) (seq 0 256) = true) by (vm_compute; reflexivity).
  rewrite forallb_forall in Hall. specialize (Hall (N.to_nat (bN c))). rewrite N2Nat.id, Nb_bN in Hall. intros Hc. cbv zeta in Hall. rewrite Hc in Hall. apply Hall, in_seq. pose proof (bN_lt c). lia.
Qed.

(** A container name is one segment of the request, whatever bytes it has, and different names ask
    for different containers. *)
Lemma PathEscape_spec s : contains_byte "/" (PathEscape s) = false ∧ contains_byte "?" (PathEscape s) = false ∧ contains_byte "#" (PathEscape s) = false ∧ PathUnescape (PathEscape s) = Some s.
Proof.
  induction s as [|c s (IH1 & IH2 & IH3 & IH4)]; [done|]. cbn [PathEscape]. destruct (path_safe c) eqn:Ec.
  - pose proof (path_safe_plain c Ec) as Hp. cbn [forallb] in Hp. rewrite !andb_true_iff, !negb_true_iff in Hp. destruct Hp as (E1 & E2 & E3 & E4 & _).
    cbn [contains_byte PathUnescape]. rewrite IH1, IH2, IH3, IH4, E4. split_and!; [..|done]; apply orb_false_iff; (split; [|done]); apply ceqb_false; intros <-; [by apply ceqb_false in E1|by apply ceqb_false in E2|by apply ceqb_false in E3].
  - pose proof (bN_lt c) as Hlt. assert (H1 : (bN c / 16 < 16)%N) by (apply N.Div0.div_lt_upper_bound; lia). assert (H2 : (bN c mod 16 < 16)%N) by (by apply N.mod_lt).
    destruct (upper_hex_val _ H1) as [V1 P1], (upper_hex_val _ H2) as [V2 P2]. cbn [forallb] in P1, P2. rewrite !andb_true_iff, !negb_true_iff in P1, P2.
    destruct P1 as (A1 & A2 & A3 & _), P2 as (B1 & B2 & B3 & _). cbn [contains_byte PathUnescape]. rewrite IH1, IH2, IH3, V1, V2, IH4. change (ceqb "%" "%") with true. cbn [mbind option_bind].
    split_and!; [..|f_equal; f_equal; rewrite N.mul_comm, <- N.div_mod by done; apply Nb_bN];
      repeat (apply orb_false_iff; split); try done; apply ceqb_false; intros E; rewrite <- E in *; by rewrite ?(proj2 (ceqb_true _ _) eq_refl) in *.
Qed.

(** ** A run of the resolver *)

Section Dials.
Variable visit : list (string * string) → list (string * string).

Record dial := MkDial { d_now : Z; d_docker : docker_answer; d_addr : string }.

Fixpoint dials (l : list dial) (c : cache) : list (string * option string) :=
  match l with
  | [] => []
  | d :: l' => let '(c', target, asked) := dialContext visit (d_now d) (d_docker d) (d_addr d) c in (target, asked) :: dials l' c'
  end.

(** The name a dial may ask Docker about. *)
Definition named (d : dial) (host : string) : Prop :=
  ∃ port, SplitHostPort (d_addr d) = Some (host, port) ∧ ParseIP host = None ∧ host ≠ "localhost".

(** Docker was asked at [d] and its answer gave this address. *)
Definition told (d : dial) (host ip : string) : Prop := named d host ∧ answer_ip visit (d_docker d) = Ok ip.

(** Each entry is what Docker said, no more than its time to live ago when it was stored. *)
Definition justified (past : list dial) (c : cache) : Prop :=
  ∀ host e, c !! host = Some e → ∃ d, d ∈ past ∧ told d host (re_ip e) ∧ re_expires e = (d_now d + resolveTTL)%Z.

(** One dial: what it keeps of the cache, and where it goes. *)
Lemma dial_step past d c c' target asked : justified past c → dialContext visit (d_now d) (d_docker d) (d_addr d) c = (c', target, asked) →
  justified (past ++ [d]) c' ∧
  (target = d_addr d ∨ ∃ host port ip d0, SplitHostPort (d_addr d) = Some (host, port) ∧ target = JoinHostPort ip port ∧ d0 ∈ past ++ [d] ∧ told d0 host ip ∧ (d_now d <= d_now d0 + resolveTTL)%Z) ∧
  (∀ path, asked = Some path → ∃ host, named d host ∧ path = container_path host ∧ ∀ e, c !! host = Some e → (re_expires e < d_now d)%Z).
Proof.
  intros Hj. assert (Hj' : justified (past ++ [d]) c) by (intros h e He; destruct (Hj h e He) as (d0 & Hd & ?); exists d0; split; [apply elem_of_app; by left|done]).
  unfold dialContext. destruct (SplitHostPort (d_addr d)) as [[host port]|] eqn:Es; [|intros [= <- <- <-]; split_and!; [done|by left|done]].
  destruct (bool_decide (ParseIP host = None) && _) eqn:Eg; [|intros [= <- <- <-]; split_and!; [done|by left|done]].
  apply andb_true_iff in Eg as [Ep%bool_decide_eq_true El%negb_true_iff]. apply seqb_false in El. assert (Hn : named d host) by by exists port.
  unfold resolve, cached. destruct (c !! host) as [e|] eqn:Ee; cbn [mbind option_bind].
  1: destruct (Z.ltb_spec (re_expires e) (d_now d)) as [Hx|Hx]; [|destruct (Hj host e Ee) as (d0 & Hd & Ht & Hexp); intros [= <- <- <-]; split_and!; [done| |done]; right; exists host, port, (re_ip e), d0; split_and!; [done|done|apply elem_of_app; by left|done|lia]].
  all: destruct (answer_ip visit (d_docker d)) as [ip|] eqn:Ea; intros [= <- <- <-].
  2,4: split_and!; [done|by left|]; intros path [= <-]; exists host; split_and!; [done|done|]; intros e' He'; by simplify_eq.
  all: split_and!; [|right; exists host, port, ip, d; split_and!; [done|done|apply elem_of_app; right; by left|by split|unfold resolveTTL, second; lia]|intros path [= <-]; exists host; split_and!; [done|done|]; intros e' He'; by simplify_eq].
  all: unfold store; intros h e' [[<- <-]|[_ He']]%lookup_insert_Some; [exists d; split_and!; [apply elem_of_app; right; by left|by split|done]|by apply Hj'].
Qed.

End Dials.

(** ** What a client learns *)

Section Hidden.
Context `{Unicode}.
Variables (url_ok : string → bool) (page : errorContent → string).

(** The answer as the client sees it: an error page is rendered for the request. *)
Definition seen (s : Proxy.Server) (acl : Store) (r : Request) : answer + Proxy.response :=
  match ServeHTTP url_ok s acl r with ErrorPage k => inl (writeErrorPage page r k) | x => inr x end.

(** C9: error pages and answers do not tell which apps there are. For a client that is not on a
    trusted network, and whose tunnel address belongs to nobody or to a member who is not an
    administrator, the answer depends on that member's own row only: with the same row the
    catalogue, the other members and what they may open can be anything, and the answer is the
    same, byte for byte. *)
Theorem app_list_hidden c ov sufs acl acl' r ip port : SplitHostPort (RemoteAddr r) = Some (ip, port) →
  IsTrusted ip (ParseTrustedNetworks (ExpandLegacy (ProxyTrustedNetworks (Config.Proxy c)) (SubnetV4 ov))) = false →
  LookupByTunnelIP ip acl = LookupByTunnelIP ip acl' → (∀ m, LookupByTunnelIP ip acl = Some m → is_admin m = false) →
  seen (proxy_of c ov sufs) acl r = seen (proxy_of c ov sufs) acl' r.
Proof.
  intros Hs Ht Hl Ha. unfold seen, ServeHTTP. rewrite Hs. cbn [proxy_of Proxy.trustedNetworks]. rewrite Ht.
  assert (E1 : ∀ slug, IsAppAllowed ip slug acl = IsAppAllowed ip slug acl').
  { intros slug. unfold IsAppAllowed. rewrite <- Hl. destruct (LookupByTunnelIP ip acl) as [m|]; [|done]. cbn [mbind option_bind]. by rewrite (Ha m eq_refl). }
  assert (E2 : ∀ slug, IsPortAppAllowed ip slug acl = IsPortAppAllowed ip slug acl') by (intros slug; unfold IsPortAppAllowed; by rewrite <- Hl).
  by rewrite E1, E2.
Qed.
End Hidden.

Module BackendDemo.
#[local] Existing Instance AclStore.Demo.ascii_only.
Definition body (ip : string) : string := match writeValue (JObj [("NetworkSettings", JObj [("Networks", JObj [("bridge", JObj [("IPAddress", JStr "")]); ("media", JObj [("IPAddress", JStr ip)])])])]) with Ok s => s | Err _ => "" end.
Definition run : list dial :=
  [MkDial (1 * second) (Answer 200 (body "172.18.0.5")) "jellyfin:8096"; MkDial (9 * second) (Answer 200 (body "172.18.0.9")) "jellyfin:8096";
   MkDial (12 * second) (Answer 200 (body "172.18.0.9")) "jellyfin:8096"; MkDial (13 * second) NoAnswer "10.0.0.3:80"; MkDial (30 * second) NoAnswer "jellyfin:8096"].

Example resolved : dials id run ∅ =
  [("172.18.0.5:8096", Some "/v1.41/containers/jellyfin/json"); ("172.18.0.5:8096", None); ("172.18.0.9:8096", Some "/v1.41/containers/jellyfin/json");
   ("10.0.0.3:80", None); ("jellyfin:8096", Some "/v1.41/containers/jellyfin/json")].
Proof. vm_compute. reflexivity. Qed.


(** A name of dots is its own segment: the request has another path than a container's. *)
Example dots_not_escaped : container_path ".." = "/v1.41/containers/../json" ∧ container_path "a/b?c" = "/v1.41/containers/a%2Fb%3Fc/json".
Proof. vm_compute. done. Qed.

Definition nobody : Store := rebuildIndexes (with_members AclStore.Demo.store []).
Definition req (accept : string) : Request := MkRequest "203.0.113.9:5000" "photos.home.example" "GET" "/" "" None (λ h, if h =s "Accept" then accept else "").
Definition ov : Overlay := MkOverlay "100.64.9.0/24" "100.64.9.1" "fd00:64:0:9::/64" "fd00:64:0:9::1" 0.
Lemma app_list_hidden_witness :
  seen (λ _, true) title (proxy_of DefaultConfig ov ["home.example"]) AclStore.Demo.store (req "text/html") =
  seen (λ _, true) title (proxy_of DefaultConfig ov ["home.example"]) nobody (req "text/html") ∧
  seen (λ _, true) title (proxy_of DefaultConfig ov ["home.example"]) nobody (req "*/*") =
    inl (MkAnswer 403 [("Cache-Control", "no-store"); ("Vary", "Accept"); ("Content-Type", "text/plain; charset=utf-8"); ("X-Content-Type-Options", "nosniff")] ("Forbidden" +:+ Files.newline)).
Proof.
  split; [|vm_compute; reflexivity]. apply (app_list_hidden (λ _, true) title DefaultConfig ov ["home.example"] AclStore.Demo.store nobody (req "text/html") "203.0.113.9" "5000"); try (vm_compute; reflexivity).
  intros m Hm. vm_compute in Hm. discriminate Hm.
Defined.
End BackendDemo.
