(* ===== verification/Loop.v ===== *)
(** * Loop: the agent's own loops

    What agent.Run does around the components: the certificates at start-up with the replay of
    the custom domain, the first port mapping with its alert over the lives of the process; and
    the loop of internal/endpoints/service.go (Run, Trigger) that collapses bursts of
    interface notifications into refreshes. The moments at which timers fire and channels are
    read are the events of a run. *)

From S2P Require Import Prelude Json NetAddr AclStore Atreolink Pairing Reachability Certs Files Config.

(** ** endpoints.Service.Run *)

Definition debounce : Z := 1 * second.

(** The buffered trigger channel, and when the debounce timer fires. *)
Record service_loop := MkLoop { queued : bool; debounceC : option Z }.

Inductive loop_event :=
| Triggered              (* Trigger, from a netlink message or the agent *)
| Received (now : Z)     (* the loop reads triggerCh *)
| Debounced (now : Z)    (* the loop reads debounceC *)
| Ticked (now : Z).      (* the loop reads tickC *)

(** One event, and whether doRefresh runs. *)
Definition loop_step (s : service_loop) (e : loop_event) : option (service_loop * bool) :=
  match e with
  | Triggered => Some (MkLoop true (debounceC s), false)
  | Received now => if queued s then Some (MkLoop false (match debounceC s with None => Some (now + debounce)%Z | d => d end), false) else None
  | Debounced now => match debounceC s with Some t => if (t <=? now)%Z then Some (MkLoop (queued s) None, true) else None | None => None end
  | Ticked now => Some (s, true)
  end.

Inductive loop_run : service_loop → list loop_event → service_loop → Prop :=
| run_nil s : loop_run s [] s
| run_cons s e s1 b l s2 : loop_step s e = Some (s1, b) → loop_run s1 l s2 → loop_run s (e :: l) s2.

(** A trigger is on its way: queued, or the timer runs. *)
Definition owed (s : service_loop) : Prop := queued s = true ∨ is_Some (debounceC s).
Definition refreshes (e : loop_event) : bool := match e with Debounced _ | Ticked _ => true | _ => false end.
Definition debounced_at (e : loop_event) : option Z := match e with Debounced t => Some t | _ => None end.

Lemma loop_run_app s l1 l2 s2 : loop_run s (l1 ++ l2) s2 ↔ ∃ s1, loop_run s l1 s1 ∧ loop_run s1 l2 s2.
Proof.
  revert s. induction l1 as [|e l1 IH]; intros s; cbn [app].
  - split; [intros Hr; exists s; split; [constructor|done]|]. intros (s1 & H1 & H2). by inversion H1; subst.
  - split.
    + intros Hr. inversion Hr as [|? ? s1 b ? ? Hs Hr']; subst. apply IH in Hr' as (s3 & H1 & H2). exists s3. split; [by econstructor|done].
    + intros (s1 & H1 & H2). inversion H1 as [|? ? s3 b ? ? Hs Hr']; subst. econstructor; [exact Hs|]. apply IH. by exists s1.
Qed.

Lemma owed_kept s l s' : loop_run s l s' → owed s → owed s' ∨ ∃ e, e ∈ l ∧ refreshes e = true.
Proof.
  induction 1 as [|s e s1 b l s2 Hs _ IH]; [by left|]. intros Ho. destruct (refreshes e) eqn:Ee; [right; exists e; split; [by left|done]|].
  assert (owed s1) as [H1|(x & Hx & He)]%IH; [|by left|right; exists x; split; [by right|done]].
  destruct e as [|now|now|now]; [|..|done|done]; cbn in Hs.
  - injection Hs as <- _. by left.
  - destruct (queued s); [|done]. injection Hs as <- _. right. cbn. destruct (debounceC s); by eexists.
Qed.

(** Times do not go back. *)
Definition event_time (e : loop_event) : option Z := match e with Triggered => None | Received t | Debounced t | Ticked t => Some t end.
Fixpoint ordered_from (t : Z) (l : list loop_event) : Prop :=
  match l with
  | [] => True
  | e :: l' => match event_time e with Some u => (t <= u)%Z ∧ ordered_from u l' | None => ordered_from t l' end
  end.

Lemma ordered_earlier t u l : ordered_from u l → (t <= u)%Z → ordered_from t l.
Proof. revert t u. induction l as [|e l IH]; intros t u Ho Hle; [done|]. cbn in *. destruct (event_time e); [destruct Ho; split; [lia|done]|by eapply IH]. Qed.

Fixpoint debounce_times (l : list loop_event) : list Z :=
  match l with [] => [] | e :: l' => match debounced_at e with Some t => t :: debounce_times l' | None => debounce_times l' end end.

Lemma first_debounce s l s' t0 t : loop_run s l s' → ordered_from t0 l → (∀ d, debounceC s = Some d → (t0 + debounce <= d)%Z) →
  head (debounce_times l) = Some t → (t0 + debounce <= t)%Z.
Proof.
  intros Hr. revert t0. induction Hr as [|s e s1 b l s2 Hs _ IH]; intros t0 Ho Hd; [done|]. destruct e as [|now|now|now]; cbn in Hs, Ho |- *.
  - injection Hs as <- _. by apply IH.
  - destruct (queued s); [|done]. injection Hs as <- _. destruct Ho as [Hle Ho]. intros Ht.
    destruct (debounceC s) as [d|] eqn:Ed; [|specialize (IH now Ho); cbn in IH; assert (now + debounce <= t)%Z by (apply IH; [by intros ? [= <-]|done]); lia].
    apply (IH t0); [|by intros ? [= <-]; apply Hd|done]. by eapply ordered_earlier.
  - destruct (debounceC s) as [d|] eqn:Ed; [|done]. destruct (Z.leb_spec d now); [|done]. intros [= <-]. specialize (Hd d eq_refl). lia.
  - injection Hs as <- _. destruct Ho as [Hle Ho]. intros Ht. apply (IH t0); [|done|done].
    by eapply ordered_earlier.
Qed.


(** ** Certificates at start-up *)

Section BootCerts.
Context `{Unicode} `{Fold}.

(** [dirs] is the listing of the certificate directory, [issues] what an ACME attempt for a suffix
    does, [row] the custom-domain file. *)
Definition boot_certs (now : Z) (made : bool) (issues : string → issue) (dirs : list string) (appsHostname : string) (row : read_file) (d : disk)
    : disk * Registry :=
  let r := Certs.Load d dirs ∅ in
  let '(d, r, _) := EnsureCert now made (issues appsHostname) appsHostname d r in
  match Files.Get row with
  | Ok (Some cd) => if ParentZone cd <>s "" then (EnsureCert now made (issues (ParentZone cd)) (ParentZone cd) d r).1 else (d, r)
  | _ => (d, r)
  end.

(** A certificate with more than the renewal time left. *)
Definition good_files (now : Z) (host : string) (f : files) : Prop :=
  f_pair f = true ∧ certMatchesSuffix (f_leaf f) host = true ∧ (renewBefore < time_sub (NotAfter (f_leaf f)) now)%Z ∧ ("*." +:+ host) ∈ DNSNames (f_leaf f).

(** EnsureCert with good files loads them and leaves the disk. *)
Lemma EnsureCert_good now i suffix d r f : normaliseHost (normaliseHost suffix) = normaliseHost suffix → normaliseHost suffix ≠ "" →
  d !! normaliseHost suffix = Some f → good_files now (normaliseHost suffix) f →
  EnsureCert now true i suffix d r = (d, <[normaliseHost suffix := Some (f_leaf f)]> r, Ok tt).
Proof.
  intros Hn Hne Hf (Hp & Hm & Ht & Hd). unfold EnsureCert. rewrite Hn. rewrite (proj2 (seqb_false _ _) Hne). cbn [negb].
  assert (Hl : LoadSuffix d (normaliseHost suffix) r = (<[normaliseHost suffix := Some (f_leaf f)]> r, Ok tt)).
  { unfold LoadSuffix. rewrite Hn, (proj2 (seqb_false _ _) Hne), Hf, Hp, Hm. done. }
  rewrite Hl. cbn [snd is_ok fst]. assert (certFileIsValidForSuffix now d (normaliseHost suffix) (normaliseHost suffix) = true) as ->; [|done].
  unfold certFileIsValidForSuffix. rewrite Hf, (proj2 (seqb_false _ _) Hne). destruct (Z.leb_spec (time_sub (NotAfter (f_leaf f)) now) renewBefore); [lia|].
  apply orb_true_iff. left. apply existsb_exists. exists ("*." +:+ normaliseHost suffix). split; [by apply list_elem_of_In|]. by rewrite seqb_refl.
Qed.

(** EnsureCert changes the files of its own suffix only. *)
Lemma EnsureCert_disk now made i suffix d r h : h ≠ normaliseHost (normaliseHost suffix) → (EnsureCert now made i suffix d r).1.1 !! h = d !! h.
Proof.
  intros Hh. unfold EnsureCert. destruct (_ =s ""); [done|]. destruct (_ =s ""); [done|]. destruct made; [|done]. cbn [negb]. destruct (_ && _); [done|].
  destruct (LoadSuffix _ _ _) as [r' [u|e]]; cbn [fst]; destruct i; cbn [issue_disk]; try done; by apply (lookup_insert_ne (M:=gmap string)).
Qed.

(** The custom domain is served from the first moment. When its row is stored and its certificate
    on disk is good, then at start-up, whatever becomes of the certificate of the apps' host
    name, the registry serves that certificate for the zone and every name directly under it,
    without waiting for the coordination service. *)
Theorem custom_domain_replayed now issues dirs apps row d cd f : Files.Get row = Ok (Some cd) → ParentZone cd ≠ "" →
  normaliseHost (normaliseHost (ParentZone cd)) = normaliseHost (ParentZone cd) → normaliseHost (ParentZone cd) ≠ "" →
  normaliseHost (normaliseHost apps) = normaliseHost apps → d !! normaliseHost (ParentZone cd) = Some f → good_files now (normaliseHost (ParentZone cd)) f →
  let '(d', r) := boot_certs now true issues dirs apps row d in
  d' !! normaliseHost (ParentZone cd) = Some f ∧ lookup_cert r (ParentZone cd) = Some (f_leaf f) ∧
  ∀ name, stripFirstLabel name = ParentZone cd → name ≠ "" → GetCertificate (Some name) r = Ok (f_leaf f).
Proof.
  intros Hrow Hz Hn Hne Ha Hf Hg. unfold boot_certs. set (r0 := Certs.Load d dirs ∅). set (host := normaliseHost (ParentZone cd)) in *.
  assert (Hd1 : (EnsureCert now true (issues apps) apps d r0).1.1 !! host = Some f).
  { destruct (decide (host = normaliseHost apps)) as [E|E]; [|rewrite EnsureCert_disk; [done|by rewrite Ha]].
    rewrite (EnsureCert_good now (issues apps) apps d r0 f); [done|done|by rewrite <- E|by rewrite <- E|by rewrite <- E]. }
  destruct (EnsureCert now true (issues apps) apps d r0) as [[d1 r1] res]. cbn [fst] in Hd1. rewrite Hrow, (proj2 (seqb_false _ _) Hz). cbn [negb].
  rewrite (EnsureCert_good now _ (ParentZone cd) d1 r1 f) by done. cbn [fst].
  match goal with |- context [lookup_cert ?r2 (ParentZone cd)] => assert (Hl : lookup_cert r2 (ParentZone cd) = Some (f_leaf f)); [|set (r3 := r2) in *; clearbody r3] end.
  { unfold lookup_cert. fold host. exact (f_equal mjoin (lookup_insert_eq (M:=gmap string) r1 host (Some (f_leaf f)))). }
  split_and!; [done|done|]. intros name Hs Hnn. unfold GetCertificate. by rewrite (proj2 (seqb_false _ _) Hnn), Hs, Hl.
Qed.
End BootCerts.

(** ** The first port mapping *)

(** TryMapping's outcome at start: an error, or the external address and port. *)
Definition first_mapping (s : Store) (wgPort : Z) (now : Z) (notifyUp delivered stamped : bool) (outcome : option (string * Z)) (stamp : option Z)
    : bool * option Z :=
  let alert := portMappingAlert now notifyUp delivered stamped s stamp in
  match outcome with
  | None => (alert.1.2, alert.2)
  | Some (ip, port) =>
      if negb (port =? wgPort)%Z then (false, None)
      else if negb (usablePublic (classifyMappedIP ip)) then (alert.1.2, alert.2)
      else (false, None)
  end.

(** A life of the agent: the mapping at its start, then the renewal ticks of Run, whose counters
    begin at zero; the cooldown file is what passes from one life to the next. *)
Record life := MkLife { l_now : Z; l_notify : bool; l_delivered : bool; l_stamped : bool; l_first : option (string * Z); l_ticks : list mapping_io }.
Definition fresh_mapping (stamp : option Z) : mapping := MkMapping zero_time false 0 false stamp.

Definition run_mapping (s : Store) (port : Z) (ios : list mapping_io) (st : mapping) : mapping := foldl (λ st io, (mapping_tick s port io st).1) st ios.

Definition live (s : Store) (port : Z) (l : life) (stamp : option Z) : list Z * option Z :=
  let '(sent, stamp) := first_mapping s port (l_now l) (l_notify l) (l_delivered l) (l_stamped l) (l_first l) stamp in
  ((if sent then [l_now l] else []) ++ alert_times s port (l_ticks l) (fresh_mapping stamp), alertStamp (run_mapping s port (l_ticks l) (fresh_mapping stamp))).

Fixpoint lives (s : Store) (port : Z) (ls : list life) (stamp : option Z) : list Z :=
  match ls with [] => [] | l :: ls' => let '(times, stamp) := live s port l stamp in times ++ lives s port ls' stamp end.

(** No mapping of the life is usable, and the cooldown file can be written. *)
Definition unmapped (port : Z) (l : life) : Prop :=
  (∀ ip p, l_first l = Some (ip, p) → p = port ∧ usablePublic (classifyMappedIP ip) = false) ∧ l_stamped l = true ∧
  Forall (λ io, m_stamped io = true ∧ ∀ ip p, m_renewal io = Renewed ip p → usablePublic (classifyMappedIP ip) = false) (l_ticks l).

(** Moments after [stamp] that are a day apart from it and from each other, the last at [stamp']. *)
Fixpoint daily (stamp : option Z) (times : list Z) (stamp' : option Z) : Prop :=
  match times with
  | [] => stamp' = stamp
  | t :: rest => (∀ t0, stamp = Some t0 → (portMappingAlertCooldown <= t - t0)%Z) ∧ daily (Some t) rest stamp'
  end.

Lemma daily_app a l1 b l2 c : daily a l1 b → daily b l2 c → daily a (l1 ++ l2) c.
Proof. revert a. induction l1 as [|t l1 IH]; intros a; cbn; [by intros ->|]. intros [H1 H2] H3. split; [done|by apply IH]. Qed.

Lemma daily_apart a l b i t u : daily a l b → l !! i = Some t → l !! S i = Some u → (portMappingAlertCooldown <= u - t)%Z.
Proof.
  revert a i. induction l as [|x l IH]; intros a i; [done|]. cbn [daily]. intros [_ Hd]. destruct i as [|i]; cbn; [|by apply (IH _ _ Hd)].
  intros [= <-]. destruct l as [|y l]; [done|]. intros [= <-]. by apply Hd.
Qed.

Lemma cooldown_over now stamp t0 : portMappingAlertOnCooldown now stamp = false → stamp = Some t0 → (portMappingAlertCooldown <= now - t0)%Z.
Proof. intros Hc ->. cbn in Hc. apply time_sub_ge in Hc; [done|]. by vm_compute. Qed.

Lemma first_daily s port l stamp : unmapped port l →
  let '(sent, stamp') := first_mapping s port (l_now l) (l_notify l) (l_delivered l) (l_stamped l) (l_first l) stamp in
  daily stamp (if sent then [l_now l] else []) stamp'.
Proof.
  intros (Hf & Hs & _). assert (Ha : let a := portMappingAlert (l_now l) (l_notify l) (l_delivered l) (l_stamped l) s stamp in daily stamp (if a.1.2 then [l_now l] else []) a.2).
  { rewrite Hs. unfold portMappingAlert. destruct (portMappingAlertOnCooldown _ _) eqn:Ec; [done|]. destruct (notifyOwner _ _ _); [|done].
    cbn. split; [|done]. intros t0. by apply cooldown_over. }
  unfold first_mapping. destruct (l_first l) as [[ip p]|]; [|exact Ha]. destruct (Hf ip p eq_refl) as [-> Hu]. by rewrite Z.eqb_refl, Hu.
Qed.

Lemma ticks_daily s port ios st : Forall (λ io, m_stamped io = true ∧ ∀ ip p, m_renewal io = Renewed ip p → usablePublic (classifyMappedIP ip) = false) ios →
  daily (alertStamp st) (alert_times s port ios st) (alertStamp (run_mapping s port ios st)).
Proof.
  revert st. induction ios as [|io ios IH]; intros st; [done|]. intros [[Hs Hu] Hios]%Forall_cons. cbn [alert_times].
  unfold run_mapping. cbn [foldl]. fold (run_mapping s port ios). destruct (mapping_tick s port io st) as [st' out] eqn:E. cbn [fst].
  specialize (IH st' Hios). apply tick_limited in E as [[Hf [Hsame|(ip & p & Hr & Hpub & _)]]|(n & -> & Hn & Hc & Hstamp)].
  - assert (existsb limited out = false) as ->; [|by rewrite <- Hsame].
    destruct (existsb limited out) eqn:Ex; [|done]. apply existsb_exists in Ex as (x & Hx & Hl).
    assert (In x (List.filter limited out)) by (by apply filter_In). by rewrite Hf in *.
  - by rewrite (Hu _ _ Hr) in Hpub.
  - cbn [existsb]. rewrite Hn. cbn [orb app daily]. split; [intros t0; by apply cooldown_over|]. rewrite Hs in Hstamp. by rewrite <- Hstamp.
Qed.

(** A restart loop does not turn into a stream of alerts. Over any sequence of lives of the agent,
    each with its mapping attempt at start and its renewal ticks, in which no usable mapping
    exists: the moments at which a port-forwarding or relay alert reached the owner are at
    least 24 hours apart, across restarts too, although the counters start again at each. *)
Theorem restart_alerts_daily s port ls stamp : Forall (unmapped port) ls →
  ∀ i t u, lives s port ls stamp !! i = Some t → lives s port ls stamp !! S i = Some u → (portMappingAlertCooldown <= u - t)%Z.
Proof.
  intros Hls. assert (∃ stamp', daily stamp (lives s port ls stamp) stamp') as [stamp' Hd]; [|intros i t u; by eapply daily_apart].
  revert stamp. induction Hls as [|l ls Hl Hls IH]; intros stamp; [by exists stamp|]. cbn [lives]. unfold live.
  pose proof (first_daily s port l stamp Hl) as H1. destruct (first_mapping _ _ _ _ _ _ _ _) as [sent stamp1].
  pose proof (ticks_daily s port (l_ticks l) (fresh_mapping stamp1) (proj2 (proj2 Hl))) as H2.
  destruct (IH (alertStamp (run_mapping s port (l_ticks l) (fresh_mapping stamp1)))) as [stamp' H3].
  exists stamp'. eapply daily_app; [eapply daily_app; [exact H1|exact H2]|exact H3].
Qed.

(** ** Runs *)

Module LoopDemo.
#[local] Existing Instance CertDemo.ascii_only.
#[local] Existing Instance CertDemo.ascii_fold.

(** A burst of three notifications around one timer, then a later one. *)
Definition burst : list loop_event :=
  [Triggered; Triggered; Received 10; Triggered; Received 20; Triggered; Debounced (10 + second); Received (11 + second); Ticked (2 * second); Debounced (3 * second)]%Z.

Lemma burst_runs : loop_run (MkLoop false None) burst (MkLoop false None).
Proof. unfold burst. repeat (eapply run_cons; [vm_compute; reflexivity|]). constructor. Qed.


(** The stored zone's certificate, while issuing for the apps' name fails. *)
Definition zone_row : read_file := FileBytes (indent_flat (row_members (MkRow "Home.Example" "" "" ""))).
Definition zone_leaf : leaf := MkLeaf ["*.home.example"; "home.example"] "" (200 * day).
Definition zone_disk : disk := <["home.example" := MkFiles zone_leaf true]> ∅.

Lemma custom_domain_replayed_witness : let '(_, r) := boot_certs 0 true (λ _, IssueFailed) [] "a.link.example" zone_row zone_disk in
  GetCertificate (Some "photos.Home.Example") r = Ok zone_leaf.
Proof.
  pose proof (custom_domain_replayed 0 (λ _, IssueFailed) [] "a.link.example" zone_row zone_disk (MkRow "Home.Example" "" "" "") (MkFiles zone_leaf true)) as Hc.
  destruct (boot_certs _ _ _ _ _ _ _) as [d' r].
  apply Hc; [vm_compute; reflexivity|discriminate|vm_compute; reflexivity|discriminate|vm_compute; reflexivity|vm_compute; reflexivity| |vm_compute; reflexivity|discriminate].
  split_and!; [vm_compute; reflexivity..|]. vm_compute. left.
Defined.

(** Restarted every two hours behind carrier NAT: an alert at the first start and a day later. *)
Definition restarts : list life :=
  map (λ k, MkLife (k * hour) true true true (Some ("100.64.3.4", 51820%Z)) [ReachDemo.carrier (k * hour + 5 * minute)]) [0; 2; 4; 22; 24; 26; 49]%Z.
Example restart_times : lives ReachDemo.owned 51820 restarts None = [0; 24 * hour; 49 * hour]%Z.
Proof. vm_compute. reflexivity. Qed.

Lemma restart_alerts_daily_witness : (portMappingAlertCooldown <= 24 * hour - 0)%Z.
Proof.
  refine (restart_alerts_daily ReachDemo.owned 51820 restarts None _ 0 0%Z (24 * hour)%Z _ _); [|vm_compute; reflexivity..].
  apply Forall_forall. intros l Hl. unfold restarts in Hl. apply list_elem_of_fmap in Hl as (k & -> & _). split_and!; [|reflexivity|].
  - intros ip p [= <- <-]. split; [reflexivity|]. vm_compute. reflexivity.
  - constructor; [|constructor]. split; [reflexivity|]. intros ip p [= <- <-]. vm_compute. reflexivity.
Defined.
End LoopDemo.
