(* ===== verification/Discovery.v ===== *)
(** * Discovery: how internal/upnp/client.go finds a gateway

    tryHighLevel, tryRawSSDPAllInterfaces, rawMSearch and tryDeviceMapping with their loops. What
    the network answers is an argument: the services the goupnp discovery returns, the datagrams
    that come back from an M-SEARCH, whether a service tells its address and accepts a mapping,
    and how many of the context's checks pass before it is cancelled. *)

From S2P Require Import Prelude NetAddr AclStore Endpoints Upnp.

Notation run_result := (Client * list map_request * option (string * Z))%type.

(** ** One service *)

(** GetExternalIPAddress's answer, and whether AddPortMapping succeeds. *)
Record wan := MkWan { w_external : option string; w_added : bool }.

(** mapWithIPConn2, mapWithIPConn1, mapWithPPP. *)
Definition mapWith (w : wan) (c : Client) : run_result :=
  match w_external w with
  | None => (c, [], None)
  | Some extIP =>
      let req := ReqUPnP (uint16 (internalPort c)) (uint16 (externalPort c)) in
      if negb (w_added w) then (c, [req], None)
      else (set_cleanup c (Some (RmUPnP (uint16 (externalPort c)))), [req], Some (extIP, externalPort c))
  end.

(** The services of a device by their type. *)
Definition device : Type := string → list wan.

Definition urn_ip2 : string := "urn:schemas-upnp-org:service:WANIPConnection:2".
Definition urn_ip1 : string := "urn:schemas-upnp-org:service:WANIPConnection:1".
Definition urn_ppp : string := "urn:schemas-upnp-org:service:WANPPPConnection:1".

Definition pick (ip2 ip1 ppp : list wan) (c : Client) : run_result :=
  match ip2 with
  | w :: _ => mapWith w c
  | [] => match ip1 with
          | w :: _ => mapWith w c
          | [] => match ppp with w :: _ => mapWith w c | [] => (c, [], None) end
          end
  end.

Definition tryDeviceMapping (d : device) : Client → run_result := pick (d urn_ip2) (d urn_ip1) (d urn_ppp).

(** The clients of the standard discovery, per service type. *)
Record clients := MkClients { k_ip2 : list wan; k_ip1 : list wan; k_ppp : list wan }.
Definition tryHighLevel (k : clients) : Client → run_result := pick (k_ip2 k) (k_ip1 k) (k_ppp k).

(** ** The raw search *)

Fixpoint split_crlf (s : string) : list string :=
  match s with
  | "" => [""]
  | String a s' =>
      let rest := match split_crlf s' with x :: l => String a x :: l | [] => [String a ""] end in
      match s' with
      | String b r => if (bN a =? 13)%N && (bN b =? 10)%N then "" :: split_crlf r else rest
      | "" => rest
      end
  end.

Section Search.
Context `{Unicode}.

Definition location_of (line : string) : option string :=
  if has_prefix (to_lower line) "location:" then Some (trim_space (sdrop (slen "location:") line)) else None.

(** [None]: no socket; otherwise the datagrams read before the deadline. *)
Definition rawMSearch (responses : option (list string)) : list string :=
  match responses with None => [] | Some l => flat_map (λ resp, omap location_of (split_crlf resp)) l end.

Definition targets : list string :=
  ["urn:schemas-upnp-org:device:InternetGatewayDevice:1"; "urn:schemas-upnp-org:device:InternetGatewayDevice:2";
   urn_ip1; urn_ip2; urn_ppp; "upnp:rootdevice"].

Definition FlagMulticast : N := 16.

Definition searched (iface : Interface) : bool :=
  negb (N.land (if_Flags iface) FlagUp =? 0)%N && (N.land (if_Flags iface) FlagLoopback =? 0)%N && negb (N.land (if_Flags iface) FlagMulticast =? 0)%N.

Definition usable_addr (a : option IP) : option string :=
  match a with Some ip => if bool_decide (is_Some (To4 ip)) && negb (NetIP.IsLoopback ip) then Some (IP_String ip) else None | None => None end.

(** The first usable address of the interface. *)
Definition iface_ip (iface : Interface) : option string := head (omap usable_addr (if_Addrs iface)).

(** The network: what comes back to an M-SEARCH from an address for a target, and what the goupnp
    discovery made for the k-th location found returns (a device, or an entry with an error). *)
Record network := MkNet {
  heard : string → string → option (list string);
  discovered : string → string → nat → option (list (option device))
}.

Definition location_devices (n : network) (ip target : string) (k : nat) : list device :=
  match discovered n ip target k with None => [] | Some ds => omap id ds end.

(** The devices tried for one target. *)
Definition target_devices (n : network) (ip target : string) : list device :=
  flat_map (location_devices n ip target) (seq 0 (length (rawMSearch (heard n ip target)))).

(** The loops; [budget] counts the checks of the context that still pass, and the last component is
    what is left of it, [None] once cancelled. *)
Fixpoint search_targets (n : network) (ip : string) (ts : list string) (budget : nat) (c : Client) : run_result * option nat :=
  match ts with
  | [] => ((c, [], None), Some budget)
  | t :: ts' =>
      match budget with
      | O => ((c, [], None), None)
      | S b =>
          let '(c1, r1, o) := Upnp.first_mapping (map tryDeviceMapping (target_devices n ip t)) c in
          match o with
          | Some _ => ((c1, r1, o), Some b)
          | None => let '((c2, r2, o2), b2) := search_targets n ip ts' b c1 in ((c2, r1 ++ r2, o2), b2)
          end
      end
  end.

Fixpoint search_ifaces (n : network) (ifs : list Interface) (budget : nat) (c : Client) : run_result :=
  match ifs with
  | [] => (c, [], None)
  | i :: ifs' =>
      match budget with
      | O => (c, [], None)
      | S b =>
          if negb (searched i) then search_ifaces n ifs' b c
          else match iface_ip i with
               | None => search_ifaces n ifs' b c
               | Some ip =>
                   match search_targets n ip targets b c with
                   | ((c1, r1, Some res), _) => (c1, r1, Some res)
                   | ((c1, r1, None), None) => (c1, r1, None)
                   | ((c1, r1, None), Some b') => let '(c2, r2, o2) := search_ifaces n ifs' b' c1 in (c2, r1 ++ r2, o2)
                   end
               end
      end
  end.

Definition tryRawSSDPAllInterfaces (n : network) (ifs : option (list Interface)) (budget : nat) (c : Client) : run_result :=
  match ifs with None => (c, [], None) | Some l => search_ifaces n l budget c end.

(** addMapping with the discovery in place. *)
Definition addMapping_full (io : map_io) (k : clients) (n : network) (ifs : option (list Interface)) (budget : nat) (c : Client) : run_result :=
  match mi_localIP io with
  | None => (c, [], None)
  | Some localIP =>
      Upnp.first_mapping ((if pcpEnabled c then [tryPCPv4 io localIP] else []) ++
        [tryNATPMP io; tryHighLevel k; tryRawSSDPAllInterfaces n ifs budget]) c
  end.

(** ** The reduction used by Upnp.v *)

Definition wan_answer (w : wan) : answer string :=
  match w_external w with None => NoService | Some ip => if w_added w then Granted ip else Refused end.
Definition pick_answer (ip2 ip1 ppp : list wan) : answer string :=
  match ip2 ++ ip1 ++ ppp with w :: _ => wan_answer w | [] => NoService end.
Definition device_answer (d : device) : answer string := pick_answer (d urn_ip2) (d urn_ip1) (d urn_ppp).

(** The searches made, in order, as long as the context lasts: (source address, target). *)
Fixpoint probes (ifs : list Interface) (budget : nat) : list (string * string) :=
  match ifs, budget with
  | i :: ifs', S b =>
      if negb (searched i) then probes ifs' b
      else match iface_ip i with
           | None => probes ifs' b
           | Some ip => map (pair ip) (take b targets) ++ if (length targets <=? b)%nat then probes ifs' (b - length targets) else []
           end
  | _, _ => []
  end.

Definition found_answers (n : network) (ps : list (string * string)) : list (answer string) :=
  flat_map (λ p, map device_answer (target_devices n p.1 p.2)) ps.

Lemma pick_spec ip2 ip1 ppp c : pick ip2 ip1 ppp c = tryService (pick_answer ip2 ip1 ppp) c.
Proof.
  assert (Hw : ∀ w, mapWith w c = tryService (wan_answer w) c) by (intros [[ip|] []]; done).
  unfold pick, pick_answer. destruct ip2 as [|w l]; [destruct ip1 as [|w l]; [destruct ppp as [|w l]; [done|]|]|]; apply Hw.
Qed.

Lemma first_mapping_ext (l1 l2 : list (Client → run_result)) c : Forall2 (λ f g, ∀ c, f c = g c) l1 l2 → Upnp.first_mapping l1 c = Upnp.first_mapping l2 c.
Proof.
  intros Hl. revert c. induction Hl as [|f g l1 l2 Hf _ IH]; intros c; [done|]. cbn. rewrite Hf. destruct (g c) as [[c1 r1] [res|]]; [done|]. by rewrite IH.
Qed.

Lemma first_mapping_app (l1 l2 : list (Client → run_result)) c : Upnp.first_mapping (l1 ++ l2) c =
  let '(c1, r1, o) := Upnp.first_mapping l1 c in match o with Some _ => (c1, r1, o) | None => let '(c2, r2, o2) := Upnp.first_mapping l2 c1 in (c2, r1 ++ r2, o2) end.
Proof.
  revert c. induction l1 as [|f l1 IH]; intros c; cbn; [by destruct (Upnp.first_mapping l2 c) as [[? ?] ?]|].
  destruct (f c) as [[c1 r1] [res|]]; [done|]. rewrite IH. destruct (Upnp.first_mapping l1 c1) as [[c2 r2] [res|]]; [done|].
  destruct (Upnp.first_mapping l2 c2) as [[c3 r3] o3]. by rewrite app_assoc.
Qed.

Lemma devices_answers ds c : Upnp.first_mapping (map tryDeviceMapping ds) c = Upnp.first_mapping (map tryService (map device_answer ds)) c.
Proof. apply first_mapping_ext. induction ds as [|d ds IH]; constructor; [|done]. intros c'. apply pick_spec. Qed.

Lemma search_targets_spec n ip ts b c : let '(res, b') := search_targets n ip ts b c in
  res = Upnp.first_mapping (map tryService (found_answers n (map (pair ip) (take b ts)))) c ∧
  (res.2 = None → b' = if (length ts <=? b)%nat then Some (b - length ts) else None).
Proof.
  revert b c. induction ts as [|t ts IH]; intros b c; cbn [search_targets]; [rewrite take_nil, Nat.sub_0_r; by split|].
  destruct b as [|b]; [by split|]. rewrite devices_answers. cbn [take map]. unfold found_answers. cbn [flat_map]. rewrite map_app, first_mapping_app. cbn [fst snd].
  destruct (Upnp.first_mapping _ c) as [[c1 r1] [res|]]; [by split|]. specialize (IH b c1). destruct (search_targets n ip ts b c1) as [[[c2 r2] o2] b2].
  destruct IH as [He Hb]. unfold found_answers in *. rewrite <- He. split; [done|exact Hb].
Qed.

Lemma search_ifaces_spec n ifs b c : search_ifaces n ifs b c = Upnp.first_mapping (map tryService (found_answers n (probes ifs b))) c.
Proof.
  revert b c. induction ifs as [|i ifs IH]; intros b c; [done|]. destruct b as [|b]; [done|]. cbn [search_ifaces probes].
  destruct (searched i); cbn [negb]; [|apply IH]. destruct (iface_ip i) as [ip|]; [|apply IH].
  pose proof (search_targets_spec n ip targets b c) as Ht. destruct (search_targets n ip targets b c) as [[[c1 r1] o] b']. destruct Ht as [He Hb].
  unfold found_answers in *. rewrite flat_map_app, map_app, first_mapping_app, <- He. destruct o as [res|]; [done|]. rewrite (Hb eq_refl).
  destruct (length targets <=? b)%nat; [by rewrite IH|]. cbn. by rewrite app_nil_r.
Qed.

(** C32: the reduction of the SSDP and SOAP exchanges is exact: for whatever the network answers, and
    wherever the context is cancelled, the mapping attempt with the whole discovery sends the
    requests, leaves the state and returns the result of the attempt of Upnp.v whose standard
    service is the first that discovery found (WANIPConnection2 before 1 before PPP) and whose
    raw devices are those of the searches made until the cancellation. *)
Theorem discovery_refines io k n ifs budget c :
  addMapping_full io k n ifs budget c =
  addMapping (MkMap (mi_localIP io) (mi_gateway io) (mi_nonce io) (mi_pcp io) (mi_natpmp io)
    (pick_answer (k_ip2 k) (k_ip1 k) (k_ppp k)) (found_answers n (probes (default [] ifs) budget)) (mi_written io)) c.
Proof.
  unfold addMapping_full, addMapping. cbn [mi_localIP mi_high mi_raw]. destruct (mi_localIP io) as [localIP|]; [|done].
  assert (Hr : ∀ c, tryRawSSDPAllInterfaces n ifs budget c = Upnp.first_mapping (map tryService (found_answers n (probes (default [] ifs) budget))) c).
  { intros c'. destruct ifs as [l|]; [apply search_ifaces_spec|done]. }
  match goal with |- _ = Upnp.first_mapping ((if _ then [tryPCPv4 ?i localIP] else _) ++ [tryNATPMP _; _] ++ _) _ =>
    change (tryPCPv4 i localIP) with (tryPCPv4 io localIP); change (tryNATPMP i) with (tryNATPMP io) end.
  rewrite (first_mapping_app _ ([_; _] ++ map _ _)), (first_mapping_app _ [_; _; _]).
  destruct (Upnp.first_mapping (if pcpEnabled c then _ else _) c) as [[c1 r1] [res|]]; [done|].
  cbn [app Upnp.first_mapping]. destruct (tryNATPMP io c1) as [[c2 r2] [res|]]; [done|].
  unfold tryHighLevel. rewrite pick_spec. destruct (tryService _ c2) as [[c3 r3] [res|]]; [done|]. rewrite Hr.
  destruct (Upnp.first_mapping (map tryService _) c3) as [[c4 r4] [res|]]; by rewrite ?app_nil_r.
Qed.

Lemma iface_ip_spec i s : iface_ip i = Some s → ∃ ip, Some ip ∈ if_Addrs i ∧ is_Some (To4 ip) ∧ NetIP.IsLoopback ip = false ∧ s = IP_String ip.
Proof.
  unfold iface_ip. intros Hh. assert (He : s ∈ omap usable_addr (if_Addrs i)) by (destruct (omap _ _); [done|injection Hh as ->; by left]).
  apply list_elem_of_omap in He as ([ip|] & Ha & Hu); [|done]. cbn in Hu. exists ip. case_bool_decide; [|done].
  destruct (NetIP.IsLoopback ip) eqn:El; [done|]. by injection Hu as <-.
Qed.

Lemma probes_elem ifs budget p : p ∈ probes ifs budget → p.2 ∈ targets ∧ ∃ i, i ∈ ifs ∧ searched i = true ∧ iface_ip i = Some p.1.
Proof.
  revert budget. induction ifs as [|i ifs IH]; intros [|b]; [by intros ?%elem_of_nil..|]. cbn [probes].
  assert (Hskip : ∀ b', p ∈ probes ifs b' → p.2 ∈ targets ∧ ∃ j, j ∈ i :: ifs ∧ searched j = true ∧ iface_ip j = Some p.1).
  { intros b' (Ht & j & Hj & Hr)%IH. split; [done|]. exists j. split; [by right|done]. }
  destruct (searched i) eqn:Es; [|apply Hskip]. destruct (iface_ip i) as [ip|] eqn:Ei; [|apply Hskip]. cbn [negb]. intros [Hp|Hp]%elem_of_app.
  - apply list_elem_of_fmap in Hp as (t & -> & Ht%subseteq_take). split; [done|]. exists i. split; [by left|done].
  - destruct (_ <=? _)%nat; [by eapply Hskip|by apply elem_of_nil in Hp].
Qed.

Lemma probes_length ifs budget : (length (probes ifs budget) <= 6 * length ifs)%nat ∧ (length (probes ifs budget) <= budget)%nat.
Proof.
  revert budget. induction ifs as [|i ifs IH]; intros [|b]; [cbn; lia..|]. cbn [probes]. pose proof (IH b) as Hb.
  destruct (searched i); cbn [negb]; [|cbn [length]; lia]. destruct (iface_ip i) as [ip|]; [|cbn [length]; lia].
  rewrite length_app, length_map, length_take. change (length targets) with 6. pose proof (IH (b - 6)). destruct (Nat.leb_spec 6 b); cbn [length]; lia.
Qed.

(** The search stays on the local network and ends: every M-SEARCH is sent from an IPv4 address,
    not a loopback one, of an interface that is up, not loopback and does multicast, for one of
    the six targets; an attempt makes at most six searches per interface and no more than the
    context allows. *)
Theorem search_confined ifs budget : let ps := probes ifs budget in
  (∀ p, p ∈ ps → p.2 ∈ targets ∧ ∃ i ip, i ∈ ifs ∧ searched i = true ∧ Some ip ∈ if_Addrs i ∧ is_Some (To4 ip) ∧ NetIP.IsLoopback ip = false ∧ p.1 = IP_String ip) ∧
  (length ps <= 6 * length ifs)%nat ∧ (length ps <= budget)%nat.
Proof.
  cbn zeta. split; [|apply probes_length]. intros p (Ht & i & Hi & Hs & (ip & Hip)%iface_ip_spec)%probes_elem. split; [done|]. by exists i, ip.
Qed.

(** Where a gateway says it is does not matter: two networks that answer the M-SEARCHes with as
    many locations, whatever these are, and whose standard discovery finds the same give the
    same mapping. The location found through an interface is never contacted; the standard
    discovery is made again instead, once per location. *)
Theorem locations_unused n n' ifs budget c :
  (∀ ip t, length (rawMSearch (heard n ip t)) = length (rawMSearch (heard n' ip t))) → (∀ ip t k, discovered n ip t k = discovered n' ip t k) →
  tryRawSSDPAllInterfaces n ifs budget c = tryRawSSDPAllInterfaces n' ifs budget c.
Proof.
  intros Hl Hd. destruct ifs as [l|]; [|done]. cbn. rewrite !search_ifaces_spec. enough (∀ ps, found_answers n ps = found_answers n' ps) as -> by done. intros ps. apply flat_map_ext. intros [ip t].
  cbn. f_equal. unfold target_devices. rewrite Hl. apply flat_map_ext. intros k. unfold location_devices. by rewrite Hd.
Qed.
End Search.

(** ** Runs *)

Module DiscoveryDemo.
#[local] Existing Instance AclStore.Demo.ascii_only.

Definition crlf : string := String (Nb 13) (String (Nb 10) "").
Definition reply (url : string) : string := "HTTP/1.1 200 OK" +:+ crlf +:+ "LOCATION:  " +:+ url +:+ " " +:+ crlf +:+ "ST: upnp:rootdevice" +:+ crlf +:+ crlf.
Definition eth0 : Interface := MkInterface "eth0" 2 (1 + 16) [Some (replicate 16 1%N); Some (NetIP.v4 192 168 1 20)] ∅.
Definition wg0 : Interface := MkInterface "wg0" 3 1 [Some (NetIP.v4 10 0 0 1)] ∅.
Definition router : device := λ urn, if urn =s urn_ip1 then [MkWan (Some "203.0.113.7") true] else [].
Definition lan (url : string) : network :=
  MkNet (λ ip t, if (ip =s "192.168.1.20") && (t =s "upnp:rootdevice") then Some [reply url] else None) (λ _ _ _, Some [None; Some router]).

Example location_read : rawMSearch (heard (lan "http://192.168.1.1:5000/root.xml") "192.168.1.20" "upnp:rootdevice") = ["http://192.168.1.1:5000/root.xml"].
Proof. vm_compute. reflexivity. Qed.

(** The last of the six targets answers; two checks less and the search is cut short. *)
Example mapped_raw :
  (tryRawSSDPAllInterfaces (lan "x") (Some [wg0; eth0]) 8 (NewClient 51820)).2 = Some ("203.0.113.7", 51820%Z) ∧
  (tryRawSSDPAllInterfaces (lan "x") (Some [wg0; eth0]) 7 (NewClient 51820)).2 = None.
Proof. vm_compute. done. Qed.

Lemma locations_unused_witness :
  tryRawSSDPAllInterfaces (lan "http://192.168.1.1:5000/root.xml") (Some [eth0]) 7 (NewClient 51820) = tryRawSSDPAllInterfaces (lan "http://nowhere") (Some [eth0]) 7 (NewClient 51820).
Proof.
  apply (locations_unused (lan "http://192.168.1.1:5000/root.xml") (lan "http://nowhere")); [|reflexivity].
  intros ip t. cbn [heard lan]. destruct ((ip =s "192.168.1.20") && (t =s "upnp:rootdevice")); vm_compute; reflexivity.
Defined.
End DiscoveryDemo.
