(* ===== verification/Console.v ===== *)
(** * Console: what the agent prints

    internal/banner/banner.go (the box around a message) and the version strings of
    cmd/atreoagent/version.go. *)

From S2P Require Import Prelude Encoding Files.

(** utf8.RuneCountInString. *)
Definition RuneCount (s : string) : nat := length (Utf8.runes s).

(** strings.Repeat. *)
Fixpoint Repeat (s : string) (n : nat) : string := match n with O => "" | S n' => s +:+ Repeat s n' end.

(** ** banner.Box *)

Definition maxLen (lines : list string) : nat := foldl (λ m l, if (m <? RuneCount l)%nat then RuneCount l else m) 0 lines.

Definition top_border (inner : nat) : string := "  ╔" +:+ Repeat "═" inner +:+ "╗".
Definition bottom_border (inner : nat) : string := "  ╚" +:+ Repeat "═" inner +:+ "╝".
Definition box_line (m : nat) (l : string) : string := "  ║  " +:+ l +:+ Repeat " " (m - RuneCount l) +:+ "  ║".

Definition Box (lines : list string) : string :=
  let m := maxLen lines in
  let inner := m + 4 in
  top_border inner +:+ newline +:+ foldr (λ l rest, box_line m l +:+ newline +:+ rest) (bottom_border inner) lines.

(** ** The version of the build *)

(** The settings debug.ReadBuildInfo lists, if there are any: revision, commit time, dirty. *)
Definition buildVCS (settings : option (list (string * string))) : string * string * bool :=
  match settings with
  | None => ("", "", false)
  | Some l => foldl (λ '(rev, time, modified) '(k, v),
      if k =s "vcs.revision" then (v, time, modified)
      else if k =s "vcs.time" then (rev, v, modified)
      else if k =s "vcs.modified" then (rev, time, v =s "true")
      else (rev, time, modified)) ("", "", false) l
  end.

Definition orElse (s fallback : string) : string := if s =s "" then fallback else s.

(** init: the version, commit and date printed, from the injected ones. *)
Definition version_of (version commit date : string) (settings : option (list (string * string))) : string * string * string :=
  let '(rev, vcsTime, modified) := buildVCS settings in
  let commit' := if commit =s "" then orElse rev "unknown" else commit in
  let date' := if date =s "" then orElse vcsTime "unknown" else date in
  let version' :=
    if version =s "" then
      let short := if (12 <? slen rev)%nat then stake 12 rev else rev in
      let v := orElse short "unknown" in
      if modified && (short <>s "") then v +:+ "-dirty" else v
    else version in
  (version', commit', date').

(** ** The box is straight *)

Lemma count_pad n t : RuneCount (Repeat " " n +:+ t) = n + RuneCount t.
Proof. induction n as [|n IH]; [done|]. change (S (RuneCount (Repeat " " n +:+ t)) = S n + RuneCount t). lia. Qed.

Lemma count_bar n t : RuneCount (Repeat "═" n +:+ t) = n + RuneCount t.
Proof. induction n as [|n IH]; [done|]. change (S (RuneCount (Repeat "═" n +:+ t)) = S n + RuneCount t). lia. Qed.

(** No sequence of several bytes runs into an ASCII byte. *)
Lemma in_ascii lo hi c : (bN c < 128)%N → (128 <= lo)%N → Utf8.inrange lo hi c = false.
Proof. intros Hc Hl. unfold Utf8.inrange. destruct (N.leb_spec lo (bN c)); [lia|done]. Qed.
Lemma cont_ascii c : (bN c < 128)%N → Utf8.cont c = false.
Proof. intros Hc. by apply (in_ascii 0x80 0xBF). Qed.
Lemma breaks_ascii c : (bN c < 128)%N → (∀ a, Utf8.two a c = false) ∧ (∀ a x, Utf8.three a c x = false ∧ Utf8.three a x c = false) ∧
  ∀ a x y, Utf8.four a c x y = false ∧ Utf8.four a x c y = false ∧ Utf8.four a x y c = false.
Proof.
  intros Hc. unfold Utf8.two, Utf8.three, Utf8.four. rewrite (cont_ascii c Hc), !(in_ascii _ _ c Hc) by done.
  split_and!; intros; rewrite ?andb_false_r, ?orb_false_r, ?andb_false_r; [done|split; by rewrite ?andb_false_r|split_and!; by rewrite ?andb_false_r].
Qed.

Lemma count_app_ascii a c b : (bN c < 128)%N → RuneCount (a +:+ String c b) = RuneCount a + RuneCount (String c b).
Proof.
  intros Hc. destruct (breaks_ascii c Hc) as (H2 & H3 & H4). unfold RuneCount. remember (slen a) as n eqn:Hn. revert a Hn. induction n as [n IH] using lt_wf_ind.
  intros a ->. assert (IH' : ∀ t, slen t < slen a → length (Utf8.runes (t +:+ String c b)) = length (Utf8.runes t) + length (Utf8.runes (String c b))) by (intros; by eapply IH).
  clear IH. destruct a as [|c0 r0]; [done|]. pose proof (IH' r0 ltac:(cbn; lia)) as I0. set (w := length (Utf8.runes (String c b))) in *.
  cbn [String.append]. set (z := String c b) in *. cbn [Utf8.runes]. destruct (bN c0 <? 128)%N; [cbn [length]; lia|].
  destruct r0 as [|c1 r1]; cbn [String.append] in *.
  { unfold z at 1. rewrite H2. destruct b as [|c2 b]; [cbn [length]; fold w; lia|]. rewrite (proj1 (H3 _ _)).
    destruct b as [|c3 b]; [cbn [length]; fold w; lia|]. rewrite (proj1 (H4 _ _ _)). cbn [length]; fold w; lia. }
  destruct (Utf8.two c0 c1); [cbn [length]; rewrite (IH' r1) by (cbn; lia); lia|].
  destruct r1 as [|c2 r2]; cbn [String.append] in *.
  { unfold z at 1. rewrite (proj2 (H3 _ _)). destruct b as [|c3 b]; [cbn [length]; lia|]. rewrite (proj1 (proj2 (H4 _ _ _))). cbn [length]; lia. }
  destruct (Utf8.three c0 c1 c2); [cbn [length]; rewrite (IH' r2) by (cbn; lia); lia|].
  destruct r2 as [|c3 r3]; cbn [String.append] in *.
  { unfold z at 1. rewrite (proj2 (proj2 (H4 _ _ _))). cbn [length]; lia. }
  destruct (Utf8.four c0 c1 c2 c3); cbn [length]; [rewrite (IH' r3) by (cbn; lia)|]; lia.
Qed.

Lemma maxLen_ge lines l : l ∈ lines → (RuneCount l <= maxLen lines)%nat.
Proof.
  unfold maxLen. assert (Hmono : ∀ ls m, (m <= foldl (λ m l, if (m <? RuneCount l)%nat then RuneCount l else m) m ls)%nat).
  { induction ls as [|x ls IH]; intros m; cbn [foldl]; [done|]. etrans; [|apply IH]. destruct (Nat.ltb_spec m (RuneCount x)); lia. }
  generalize 0 as m. induction lines as [|x ls IH]; intros m Hl; [by apply elem_of_nil in Hl|]. apply elem_of_cons in Hl as [->|Hl]; cbn [foldl]; [|by apply IH].
  etrans; [|apply Hmono]. destruct (Nat.ltb_spec m (RuneCount x)); lia.
Qed.

Lemma box_line_width m l : (RuneCount l <= m)%nat → RuneCount (box_line m l) = m + 8.
Proof.
  intros Hl. unfold box_line. change (5 + RuneCount (l +:+ Repeat " " (m - RuneCount l) +:+ "  ║") = m + 8).
  assert (Hp : ∃ b, Repeat " " (m - RuneCount l) +:+ "  ║" = String " " b) by (destruct (m - RuneCount l); by eexists).
  destruct Hp as [b Hb]. rewrite Hb, count_app_ascii, <- Hb, count_pad by done. change (RuneCount "  ║") with 3. lia.
Qed.

Definition flat (s : string) : Prop := contains_byte (Nb 10) s = false.

Lemma flat_app a b : flat a → flat b → flat (a +:+ b).
Proof. unfold flat. rewrite contains_app. by intros -> ->. Qed.

Lemma flat_repeat s n : flat s → flat (Repeat s n).
Proof. intros Hs. induction n as [|n IH]; [done|]. by apply flat_app. Qed.

Lemma split_row r rest : flat r → split_on (Nb 10) (r +:+ newline +:+ rest) = r :: split_on (Nb 10) rest.
Proof. intros Hr. change (newline +:+ rest) with (String (Nb 10) rest). by rewrite split_on_sep, (split_on_none _ r Hr). Qed.

Lemma split_rows m z lines : Forall flat lines → flat z →
  split_on (Nb 10) (foldr (λ l rest, box_line m l +:+ newline +:+ rest) z lines) = map (box_line m) lines ++ [z].
Proof.
  intros Hl Hz. induction Hl as [|l lines Hf _ IH]; [by apply split_on_none|]. cbn [foldr map app]. rewrite split_row, IH; [done|].
  unfold box_line. repeat apply flat_app; [done|done|by apply flat_repeat|done].
Qed.

(** The box is straight whatever is put in it: for lines without a line break, in any encoding,
    bytes that are not UTF-8 included, the printed text has one row per line between the two
    borders, and every row is as wide as the borders, in runes; no line is cut. *)
Theorem box_aligned lines : Forall flat lines →
  let rows := split_on (Nb 10) (Box lines) in
  length rows = length lines + 2 ∧ (∀ r, r ∈ rows → RuneCount r = maxLen lines + 8) ∧
  ∀ i l, lines !! i = Some l → ∃ pad, rows !! S i = Some ("  ║  " +:+ l +:+ Repeat " " pad +:+ "  ║").
Proof.
  intros Hl. cbn zeta. set (m := maxLen lines).
  assert (split_on (Nb 10) (Box lines) = top_border (m + 4) :: map (box_line m) lines ++ [bottom_border (m + 4)]) as ->.
  { unfold Box. rewrite split_row; [f_equal; apply split_rows; [done|]|]; (repeat apply flat_app; [done|by apply flat_repeat|done]). }
  split_and!.
  - cbn [length]. rewrite length_app, length_map. cbn. lia.
  - assert (Ht : RuneCount (top_border (m + 4)) = m + 8).
    { unfold top_border. change (3 + RuneCount (Repeat "═" (m + 4) +:+ "╗") = m + 8). rewrite count_bar. change (RuneCount "╗") with 1. lia. }
    assert (Hb : RuneCount (bottom_border (m + 4)) = m + 8).
    { unfold bottom_border. change (3 + RuneCount (Repeat "═" (m + 4) +:+ "╝") = m + 8). rewrite count_bar. change (RuneCount "╝") with 1. lia. }
    intros r [->|Hr]%elem_of_cons; [done|]. apply elem_of_app in Hr as [(l & -> & Hin)%list_elem_of_fmap|Hr%list_elem_of_singleton]; [|by rewrite Hr].
    by apply box_line_width, maxLen_ge.
  - intros i l Hi. exists (m - RuneCount l). match goal with |- (?a :: ?l) !! S i = _ => change ((a :: l) !! S i) with (l !! i) end. rewrite lookup_app_l by (rewrite length_map; by eapply lookup_lt_Some). by rewrite (list_lookup_fmap (box_line m)), Hi.
Qed.

(** ** Runs *)

Module ConsoleDemo.
Lemma box_aligned_witness : Forall (λ r, RuneCount r = 13 + 8) (split_on (Nb 10) (Box ["pairing — now"; "x"])) ∧ length (split_on (Nb 10) (Box ["pairing — now"; "x"])) = 4.
Proof.
  destruct (box_aligned ["pairing — now"; "x"]) as (Hl & Hw & _); [repeat constructor|]. split; [|exact Hl]. apply Forall_forall. intros r Hr. exact (Hw r Hr).
Defined.

Example versions :
  version_of "" "" "" (Some [("vcs.revision", "0123456789abcdef"); ("vcs.modified", "true")]) = ("0123456789ab-dirty", "0123456789abcdef", "unknown") ∧
  version_of "" "" "" None = ("unknown", "unknown", "unknown") ∧ (version_of "v1.2" "" "" None).1.1 = "v1.2".
Proof. vm_compute. done. Qed.
End ConsoleDemo.
